(* ===== verification/_CoqProject ===== *)
-Q . S2P
Prelude.v
Threads.v
Types.v
Runtime.v
Conditions.v
Api.v
Strconv.v
RefCluster.v
Lru.v
Json.v
Labels.v
Naming.v
Replicas.v
WebhookClient.v
JobStatus.v
Controls.v
RefManager.v
Handler.v
Claims.v
Hooks.v
Singleflight.v
Footprint.v
Reconcile.v
Creation.v
Pass.v
Lifecycle.v
Selection.v
OpenAPI.v
OpenAPIAva.v
OpenAPIMeta.v
OpenAPICoreA.v
OpenAPICoreB.v
CrdValidation.v
OpenAPITypes.v
Memory.v
DeepCopy.v
Goroutines.v
Creators.v
Expectations.v
Completion.v
Steady.v
Notices.v
Startup.v
WorkQueue.v
Operator.v
