(* ===== verification/Prelude.v ===== *)
(** * mxnet-operator: a verification development

    The program is a Kubernetes operator for MXNet training jobs (src/pkg, src/cmd).  A user submits an
    MXJob; the operator SDK watches such objects and calls the handler for every event; the handler brings
    the cluster in line with the job: one service for the scheduler, the pods of the replica types
    scheduler, server and worker, the status of the job, the webhooks to notify when the job starts and
    finishes, the finalizer that delays deletion until the finish webhook was called.  A second program,
    cmd/crd-validation, generates the custom resource definition of MXJob with a validation schema.

    ** Layout

    This file holds what all others share: machine integers with wrap-around, the monad [M S] of state
    and panics (a Go error is a value, a panic an outcome that keeps the state), weakest preconditions
    [post] for it, tactics, and facts about lists.

    - Data.  [Types]: pkg/apis/ava/v1alpha1 types.go and register.go, and the Kubernetes structs as far as
      they are read or written.  [Runtime]: Go errors; the clock, and the order of map iteration and of
      goroutines, of which only that each element comes once is known.  [Api]: the cluster as a class
      [Cluster], one operation per request, without laws, and the state [St] with the trace of requests and the goroutines started.
      [RefCluster]: one concrete cluster, for witnesses only.
    - Libraries of the source.  [Strconv], [Json]: the parts of strconv, strings and encoding/json that are
      used.  [Labels]: apimachinery labels and validation.  [Lru]: hashicorp/golang-lru as a linked list
      with a map on a heap of elements.  [Singleflight]: golang/groupcache singleflight.  [WorkQueue]:
      the rate limited queue of client-go.
    - Operations of the reconciler.  [Conditions], [JobStatus]: the conditions and updateMXJobStatus of
      pkg/mx/handler.go and util.go.  [Naming], [Replicas]: its pure functions on names, labels,
      environment, pods and replica statuses.  [Controls], [RefManager]: pkg/controller.  [Handler]: Sync
      and every method it calls, and pkg/stub/handler.go.
    - Webhooks.  [WebhookClient]: pkg/mx/webhook_client_manager.go.  [Hooks]: callHook, the goroutine of
      callHookAsync with its backoff, the goroutine of handleMXJobFinalizers.
    - Concurrency.  [Threads]: pools of goroutines that move in any order, their invariants and their
      termination.  [Goroutines], [Creators]: the goroutines of terminateMXJob and of reconcilePods,
      interleaved step by step.  [Singleflight]: the goroutines that call Group.Do.  [Expectations]:
      satisfiedExpectations and the store of expectations it asks.
    - The process.  [Startup]: cmd/mxnet-operator main, NewHandler of pkg/stub and pkg/mx, the registration
      of the types, and the authentication of webhook clients that NewHandler installs.  [Operator]: the
      loop of the operator SDK around Handle (informer, queue, worker, retries) with the goroutines the
      handler starts, as one step function [act] whose steps come in any order.
    - Theorems about Sync.  [Selection]: which objects a job gets.  [Footprint]: what a sync may send.
      [Reconcile], [Pass]: the abstract pass and its refinement.  [Creation]: what is created.
      [Lifecycle]: the theorems on one sync.  [Completion], [Steady],
      [Notices]: the theorems on all syncs of a job.
    - Schemas.  [OpenAPI], [OpenAPIAva], [OpenAPIMeta], [OpenAPICoreA], [OpenAPICoreB]: the entries of
      openapi_generated.go as data.  [CrdValidation]: their conversion and cmd/crd-validation.
      [OpenAPITypes]: the struct declarations as data, compared with the definitions.
    - Memory.  [Memory]: pointers and slices on a heap, and what a deep copy is.  [DeepCopy]:
      zz_generated.deepcopy.go.

    ** How state and operations correspond

    A method of [mx.Handler] that mutates the job takes the job and returns it.  Every request to the API
    server or to a webhook is one operation of [Cluster], appended to [trace]; the cluster may change and
    fail at each.  The two interfaces PodControlInterface and ServiceControlInterface are classes; the
    theorems about claiming objects are proved from the laws of the interface, the real controls discharge
    them, and the theorems about Sync are about the real controls.  The cache of webhook clients is state
    of the webhook goroutines ([HSt]).  Goroutines a method waits for run inside it in an arbitrary order;
    [Goroutines] and [Creators] justify that.  Goroutines it does not wait for are recorded in [pending];
    [Hooks] has their bodies, and [Operator] runs them.  Only
    [Memory], [DeepCopy] and [Lru] speak of sharing; elsewhere Go structs are values, which is justified
    where the source copies (DeepCopyObject_correct) and where it owns what it mutates.

    ** What the theorems show

    - The process: it starts or fails to as specified ([process_start]); everything it ever does is allowed
      ([process_footprint]), and what can crash it is known ([process_crash]); no change of an object is
      missed ([no_event_missed]), and retries end ([retries_bounded]).
    - A sync: everything it does is allowed, and it panics only on an ill-formed job ([Sync_footprint]); it
      is idle for deleted and finished jobs ([Sync_idle]), otherwise it implements
      the abstract pass ([Sync_pass]) and decides success and failure as specified ([Sync_verdict]); over
      any number of syncs the first decisive observation stands and is reached ([rounds_verdict]), and a
      job that is up to date is left alone ([Sync_rests]) and each webhook has been called once
      ([hooks_once]).
    - Its parts: creation ([reconcilePods_creates], [createNewPod_correct], [environment_roundtrip],
      [reconcileServices_correct]), selection ([getPodsForMXJob_correct], [created_objects_claimed],
      [job_selector_correct], [ClaimServices_correct]), status ([updateMXJobStatus_correct]), termination
      ([terminateMXJob_correct]); the goroutines of creation and termination in every schedule
      ([create_any_schedule], [terminate_any_schedule]).
    - Webhooks: the goroutine ends within its bounds ([hook_goroutine_correct]), the finalizer is removed
      ([finalizer_correct]) once at a time ([singleflight_correct]), the cache is transparent
      ([HookClient_transparent], [lru_refines], [json_Marshal_injective]), the client goes where it
      should ([service_client_target]) and takes the operator's credentials nowhere but to the API server
      ([webhook_credentials]), and a malformed answer ends the process ([hook_nil_result_panics]).
    - Schemas: [GetOpenAPIDefinitions_well_formed], [openapi_of_types],
      [GetCustomResourceValidation_correct], [crd_validation_correct], [main_correct].
    - Deep copies: [DeepCopyObject_correct], [DeepCopy_copies].  Expectations:
      [SatisfiedExpectations_correct].

    ** Fuel and bounds

    Go's recursion through the references of the OpenAPI definitions is a fixpoint on fuel;
    [conversion_fuel] (31) is enough for every name of the map, and more fuel gives the same result.  The
    loop of ExponentialBackoff runs on its own counter Steps.  FormatInt produces the digits of an int64
    with fuel 20, one more than an int64 has digits.  A run of [Operator] is a given list of steps, so it needs no
    fuel; [retries_bounded] bounds the steps that matter.  Counters of replica statuses are int32, expectations
    int64, both wrapped; the theorems state the bounds under which nothing wraps (fewer than 2^31 pods,
    at most 2^62 events).  Durations are nanoseconds.

    ** Parameters

    Code outside src/ or of no interest to the property is a parameter: the YAML and JSON conversions of
    the CRD, url.Parse, the transport of the REST client, the resolvers of a client manager ([Startup] has
    those the operator installs), the environment of the process (variables, discovery, kubeconfig files), the JSON of
    watched objects, the deep copies of ObjectMeta, PodTemplateSpec and metav1.Status, and the Go runtime.  The
    hypotheses about them: a range loop visits every key once and goroutines run in some order ([GoRuntime]), a
    jitter is within its bounds ([HookRuntime]), decoded strings are valid UTF-8 ([Unstructured]), the deep
    copies are such; each has an instance on which the witnesses run.

    ** Not modelled

    Reflection: conversion and defaulting functions of the scheme; objects are decoded by a parameter that
    gives a job, another object, or panics.  The shared informer: an arbitrary sequence of changes and
    resyncs.  Time: a delayed key of the queue becomes ready at any moment, which allows every order that
    the delays allow, and more.  The handling of one event and the body of a goroutine the handler does not wait for are
    single steps of [Operator]: their requests are not interleaved with each other, only with
    anything the cluster does between two requests.  Data races on the map of deleted objects of
    the SDK, which informer and worker use without a lock.  The event broadcaster, metrics, logging. *)
From stdpp Require Export base tactics option list strings gmap sorting.
From Stdlib Require Export ZArith Lia.

#[export] Set Default Goal Selector "!".
#[global] Open Scope string_scope.
#[global] Open Scope list_scope.
#[global] Open Scope Z_scope.

(** * Machine integers *)

(** Go's [int32], [int64] and [int] (64-bit) arithmetic is two's complement and silent on
    overflow: every operation below is the mathematical one followed by [wrap w]. *)
Definition wrap (w z : Z) : Z := (z + 2 ^ (w - 1)) mod 2 ^ w - 2 ^ (w - 1).
Definition int32 (z : Z) : Z := wrap 32 z.
Definition int64 (z : Z) : Z := wrap 64 z.
#[global] Arguments wrap : simpl never.
#[global] Arguments int32 : simpl never.
#[global] Arguments int64 : simpl never.
Definition in_int32 (z : Z) : Prop := - 2 ^ 31 ≤ z < 2 ^ 31.
Definition in_int64 (z : Z) : Prop := - 2 ^ 63 ≤ z < 2 ^ 63.
#[export] Instance in_int32_dec z : Decision (in_int32 z).
Proof. unfold in_int32. apply _. Defined.
#[export] Instance in_int64_dec z : Decision (in_int64 z).
Proof. unfold in_int64. apply _. Defined.

(** [len(l)] is a Go [int]. *)
Definition zlen {A} (l : list A) : Z := Z.of_nat (length l).

(** * Effects

    A handler of the operator reads and writes some state [S] (the cluster behind the API
    client, the clock, the trace of API calls, ...) and either returns or panics.  Go errors
    are ordinary return values, as in the source, so they do not appear in the monad.  A
    panic keeps the state reached, since the effects before it have happened. *)
Inductive outcome (S A : Type) : Type :=
| Ret (a : A) (s : S)
| Panicked (s : S).
Arguments Ret {S A} a s.
Arguments Panicked {S A} s.

Definition M (S A : Type) : Type := S → outcome S A.

#[export] Instance M_ret S : MRet (M S) := λ A a s, Ret a s.
#[export] Instance M_bind S : MBind (M S) := λ A B f m s,
  match m s with
  | Ret a s' => f a s'
  | Panicked s' => Panicked s'
  end.

(** A run-time panic: nil dereference, write to a nil map. *)
Definition go_panic {S A} : M S A := λ s, Panicked s.
(** [*p]: a nil pointer panics. *)
Definition deref {S A} (p : option A) : M S A :=
  match p with Some a => mret a | None => go_panic end.
(** Reading and writing the state. *)
Definition get_state {S} : M S S := λ s, Ret s s.
Definition modify {S} (f : S → S) : M S () := λ s, Ret tt (f s).

(** [for _, x := range l { acc = body(acc, x) }] *)
Fixpoint foldM {S A B} (body : B → A → M S B) (l : list A) (acc : B) : M S B :=
  match l with
  | [] => mret acc
  | x :: l' => acc' ← body acc x; foldM body l' acc'
  end.

Lemma omap_pointwise {A B} (f g : A → option B) (l : list A) : (∀ x, f x = g x) → omap f l = omap g l.
Proof. intros H. induction l as [|x l IH]; [done|]. cbn. by rewrite H, <- IH. Qed.

(** * A program logic for [M]

    [post m Q X s]: run from [s], [m] returns a value and a state in [Q], or panics in a
    state in [X].  With [X := λ _, False] it is a proof that [m] does not panic. *)
Definition post {S A} (m : M S A) (Q : A → S → Prop) (X : S → Prop) (s : S) : Prop :=
  match m s with
  | Ret a s' => Q a s'
  | Panicked s' => X s'
  end.

(** [m] cannot break the state predicate [I], however it ends. *)
Definition preserves {S A} (I : S → Prop) (m : M S A) : Prop :=
  ∀ s, I s → post m (λ _, I) I s.

(** [m] returns from every state. *)
Definition no_panic {S A} (m : M S A) : Prop :=
  ∀ s, post m (λ _ _, True) (λ _, False) s.

Create HintDb operator.
Create Rewrite HintDb opsimp.

(** ** Integers *)
Lemma wrap_small w z : 0 < w → - 2 ^ (w - 1) ≤ z < 2 ^ (w - 1) → wrap w z = z.
Proof.
  intros Hw Hz. unfold wrap.
  assert (2 ^ w = 2 * 2 ^ (w - 1)) as Hpow.
  { replace w with (Z.succ (w - 1)) at 1 by lia. rewrite Z.pow_succ_r by lia. lia. }
  rewrite Z.mod_small by lia. lia.
Qed.

Lemma wrap_range w z : 0 < w → - 2 ^ (w - 1) ≤ wrap w z < 2 ^ (w - 1).
Proof.
  intros Hw. unfold wrap.
  assert (2 ^ w = 2 * 2 ^ (w - 1)) as Hpow.
  { replace w with (Z.succ (w - 1)) at 1 by lia. rewrite Z.pow_succ_r by lia. lia. }
  assert (0 < 2 ^ w) by (apply Z.pow_pos_nonneg; lia).
  pose proof (Z.mod_pos_bound (z + 2 ^ (w - 1)) (2 ^ w)). lia.
Qed.

Lemma int32_small z : in_int32 z → int32 z = z.
Proof. intros H. apply wrap_small; [lia | exact H]. Qed.

Lemma int32_range z : in_int32 (int32 z).
Proof. apply (wrap_range 32). lia. Qed.

Lemma int64_small z : in_int64 z → int64 z = z.
Proof. intros H. apply wrap_small; [lia | exact H]. Qed.

Lemma zlen_nonneg {A} (l : list A) : 0 ≤ zlen l.
Proof. unfold zlen. lia. Qed.

Lemma zlen_app {A} (l k : list A) : zlen (l ++ k) = zlen l + zlen k.
Proof. unfold zlen. rewrite length_app. lia. Qed.

Lemma zlen_cons {A} (x : A) l : zlen (x :: l) = 1 + zlen l.
Proof. unfold zlen. cbn. lia. Qed.

Lemma zlen_zero {A} (l : list A) : zlen l = 0 ↔ l = [].
Proof. unfold zlen. destruct l; cbn; split; intros; [done | done | lia | done]. Qed.

(** ** Rules of [post] *)
Section post_rules.
Context {S : Type}.

Lemma post_ret {A} (a : A) Q X (s : S) : Q a s → post (mret a) Q X s.
Proof. done. Qed.

Lemma post_bind {A B} (m : M S A) (f : A → M S B) Q X s :
  post m (λ a s', post (f a) Q X s') X s → post (m ≫= f) Q X s.
Proof. unfold post, mbind, M_bind. by destruct (m s). Qed.

Lemma post_bind_inv {A B} (m : M S A) (f : A → M S B) Q X s :
  post (m ≫= f) Q X s → post m (λ a s', post (f a) Q X s') X s.
Proof. unfold post, mbind, M_bind. by destruct (m s). Qed.

Lemma post_mono {A} (m : M S A) (Q Q' : A → S → Prop) (X X' : S → Prop) s :
  post m Q X s → (∀ a s', Q a s' → Q' a s') → (∀ s', X s' → X' s') → post m Q' X' s.
Proof. unfold post. destruct (m s); naive_solver. Qed.

Lemma post_and {A} (m : M S A) (Q Q' : A → S → Prop) (X X' : S → Prop) s :
  post m Q X s → post m Q' X' s → post m (λ a s', Q a s' ∧ Q' a s') (λ s', X s' ∧ X' s') s.
Proof. unfold post. destruct (m s); naive_solver. Qed.

Lemma post_deref_some {A} (a : A) Q X (s : S) : Q a s → post (deref (Some a)) Q X s.
Proof. done. Qed.

Lemma post_modify (g : S → S) Q X s : Q tt (g s) → post (modify g) Q X s.
Proof. done. Qed.

(** Loop rule: [I] relates the elements still to visit, the accumulator and the state. *)
Lemma post_foldM {A B} (body : B → A → M S B) (I : list A → B → S → Prop) X l acc s :
  I l acc s →
  (∀ x l' acc' s', I (x :: l') acc' s' → post (body acc' x) (I l') X s') →
  post (foldM body l acc) (I []) X s.
Proof.
  intros HI Hbody. revert acc s HI. induction l as [|x l IH]; intros acc s HI; [done|].
  cbn [foldM]. apply post_bind.
  eapply post_mono; [by apply Hbody | | done]. intros acc' s' HI'. by apply IH.
Qed.

Lemma preserves_ret {A} I (a : A) : preserves (S := S) I (mret a).
Proof. by intros s HI. Qed.

Lemma preserves_panic {A} I : preserves (S := S) I (go_panic (A := A)).
Proof. by intros s HI. Qed.

Lemma preserves_deref {A} I (p : option A) : preserves (S := S) I (deref p).
Proof. by intros s HI; destruct p. Qed.

Lemma preserves_bind {A B} I (m : M S A) (f : A → M S B) :
  preserves I m → (∀ a, preserves I (f a)) → preserves I (m ≫= f).
Proof.
  intros Hm Hf s HI. apply post_bind. eapply post_mono; [by apply Hm | | done].
  intros a s' HI'. by apply Hf.
Qed.

Lemma preserves_foldM {A B} I (body : B → A → M S B) l acc :
  (∀ acc x, preserves I (body acc x)) → preserves I (foldM body l acc).
Proof.
  intros Hb. revert acc. induction l as [|x l IH]; intros acc; [apply preserves_ret|].
  cbn [foldM]. apply preserves_bind; auto.
Qed.

Lemma no_panic_ret {A} (a : A) : no_panic (S := S) (mret a).
Proof. done. Qed.

Lemma no_panic_bind {A B} (m : M S A) (f : A → M S B) :
  no_panic m → (∀ a, no_panic (f a)) → no_panic (m ≫= f).
Proof.
  intros Hm Hf s. apply post_bind. eapply post_mono; [apply Hm | | done].
  intros a s' _. apply Hf.
Qed.

Lemma no_panic_foldM {A B} (body : B → A → M S B) l acc :
  (∀ acc x, no_panic (body acc x)) → no_panic (foldM body l acc).
Proof.
  intros Hb. revert acc. induction l as [|x l IH]; intros acc; [apply no_panic_ret|].
  cbn [foldM]. apply no_panic_bind; auto.
Qed.

Lemma bind_ret {A B} (a : A) (f : A → M S B) s : (mret a ≫= f) s = f a s.
Proof. done. Qed.

Lemma bind_deref {A B} (a : A) (f : A → M S B) s : (deref (Some a) ≫= f) s = f a s.
Proof. done. Qed.

Lemma bind_run {A B} (m : M S A) (f : A → M S B) s a s' :
  m s = Ret a s' → (m ≫= f) s = f a s'.
Proof. intros Hm. unfold mbind, M_bind. by rewrite Hm. Qed.

Lemma bind_inv {A B} (m : M S A) (f : A → M S B) s b s' :
  (m ≫= f) s = Ret b s' → ∃ a s1, m s = Ret a s1 ∧ f a s1 = Ret b s'.
Proof. unfold mbind, M_bind. destruct (m s); naive_solver. Qed.
End post_rules.

#[export] Hint Resolve preserves_ret preserves_panic preserves_deref preserves_bind
  preserves_foldM no_panic_ret no_panic_bind no_panic_foldM : operator.

(** One step of symbolic execution of [post]. *)
Ltac post_step :=
  first
    [ apply post_bind
    | apply post_ret
    | apply post_deref_some
    | apply post_modify ].

(** Decompose [preserves]/[no_panic] goals along the program text. *)
Ltac effects :=
  repeat (intros;
    first
      [ solve [auto with operator]
      | apply preserves_bind
      | apply no_panic_bind
      | apply preserves_foldM
      | apply no_panic_foldM
      | case_match ]).
