(* ===== verification/Threads.v ===== *)
(** * Goroutines in steps

    A pool of goroutines over a shared state.  A goroutine is a value of a type of program points, its next
    step an action on the shared state ([M]); any goroutine that is not blocked may move, and a panic ends
    the process.  Used by [Goroutines] (terminateMXJob), [Creators] (reconcilePods) and [Singleflight]. *)
From S2P Require Import Prelude.

Inductive Pool (S T : Type) := Running (s : S) (ts : list T) | Crashed.
Arguments Running {S T}.
Arguments Crashed {S T}.

Section pool.
Context {S T : Type} (enabled : T → S → bool) (move : T → M S T).

Inductive step : Pool S T → Pool S T → Prop :=
| step_moves s ts i t s' t' :
    ts !! i = Some t → enabled t s = true → move t s = Ret t' s' →
    step (Running s ts) (Running s' (<[i := t']> ts))
| step_crashes s ts i t s' :
    ts !! i = Some t → enabled t s = true → move t s = Panicked s' → step (Running s ts) Crashed.

Lemma can_step s ts i t : ts !! i = Some t → enabled t s = true → ∃ x, step (Running s ts) x.
Proof.
  intros Hi Hen. destruct (move t s) as [t' s'|s'] eqn:E; eexists; [by eapply step_moves|by eapply step_crashes].
Qed.

(** ** Invariants *)

(** [inv] holds initially, every enabled goroutine keeps it, and a panic happens only when [X]. *)
Definition kept_by (inv : S → list T → Prop) (X : Prop) : Prop :=
  ∀ s ts i t, ts !! i = Some t → enabled t s = true → inv s ts →
    post (move t) (λ t' s', inv s' (<[i := t']> ts)) (λ _, X) s.

Lemma step_kept inv X s ts x :
  kept_by inv X → inv s ts → step (Running s ts) x →
  match x with Running s' ts' => inv s' ts' | Crashed => X end.
Proof.
  intros Hk Hinv Hstep. inversion Hstep as [? ? i t s' t' Hi Hen Hrun|? ? i t s' Hi Hen Hrun]; subst;
    pose proof (Hk s ts i t Hi Hen Hinv) as Hp; unfold post in Hp; by rewrite Hrun in Hp.
Qed.

(** ** Termination: every step lowers the rank of the goroutine that moves *)
Section rank.
Context (rank : T → nat)
  (rank_move : ∀ t s t' s', enabled t s = true → move t s = Ret t' s' → (rank t' < rank t)%nat).

Definition steps_left (x : Pool S T) : nat :=
  match x with Running _ ts => sum_list (rank <$> ts) | Crashed => 0 end.

Lemma steps_left_step s ts s' ts' :
  step (Running s ts) (Running s' ts') → (steps_left (Running s' ts') < steps_left (Running s ts))%nat.
Proof.
  intros Hstep. inversion Hstep as [? ? i t ? t' Hi Hen Hrun|]; subst. cbn.
  pose proof (rank_move _ _ _ _ Hen Hrun) as Hr.
  apply list_elem_of_split_length in Hi as (l1 & l2 & -> & Hlen). rewrite Hlen, insert_app_r_alt, Nat.sub_diag by lia.
  cbn. rewrite !fmap_app, !sum_list_with_app. cbn. lia.
Qed.

(** Any number of steps; the crash, if there is one, is the last. *)
Lemma pool_run inv X s ts n x :
  kept_by inv X → inv s ts → (∀ t s, enabled t s = true → (0 < rank t)%nat) →
  nsteps step n (Running s ts) x →
  match x with Running s' ts' => inv s' ts' | Crashed => X end ∧
  (n + steps_left x ≤ steps_left (Running s ts))%nat.
Proof.
  intros Hk Hinv Hpos. revert s ts Hinv. induction n as [|n IH]; intros s ts Hinv Hn;
    inversion Hn as [|? ? y ? Hstep Hn']; subst.
  { split; [done|]. cbn [Nat.add]. lia. }
  pose proof (step_kept _ _ _ _ _ Hk Hinv Hstep) as Hy. destruct y as [s1 ts1|].
  - destruct (IH s1 ts1 Hy Hn') as [Hx Hle]. split; [done|].
    pose proof (steps_left_step _ _ _ _ Hstep). lia.
  - assert (n = 0%nat ∧ x = Crashed) as [-> ->].
    { inversion Hn' as [|? ? ? ? Hbad]; subst; [done|inversion Hbad]. }
    split; [done|]. inversion Hstep as [|? ? i t ? Hi Hen Hrun]; subst. cbn.
    apply list_elem_of_split_length in Hi as (l1 & l2 & -> & _). rewrite fmap_app, sum_list_with_app. cbn.
    pose proof (Hpos t s Hen). lia.
Qed.
End rank.

(** ** Schedules that can be computed *)
Fixpoint run_schedule (l : list nat) (x : Pool S T) : option (Pool S T) :=
  match l, x with
  | [], _ => Some x
  | i :: l, Running s ts =>
      match ts !! i with
      | Some t =>
          if enabled t s then
            match move t s with
            | Ret t' s' => run_schedule l (Running s' (<[i := t']> ts))
            | Panicked _ => None
            end
          else None
      | None => None
      end
  | _, Crashed => None
  end.

Lemma run_schedule_steps l x y : run_schedule l x = Some y → nsteps step (length l) x y.
Proof.
  revert x. induction l as [|i l IH]; intros x Hrun; cbn in Hrun; [injection Hrun as <-; constructor|].
  destruct x as [s ts|]; [|done]. destruct (ts !! i) as [t|] eqn:Hi; [|done].
  destruct (enabled t s) eqn:Hen; [|done]. destruct (move t s) as [t' s'|] eqn:Hst; [|done].
  eapply nsteps_l; [by eapply step_moves|by apply IH].
Qed.
End pool.

(** ** One goroutine among the others *)
Section list.
Context {T : Type}.

Lemma moved (ts : list T) i t' j u :
  <[i := t']> ts !! j = Some u → (j = i ∧ u = t') ∨ (j ≠ i ∧ ts !! j = Some u).
Proof. intros [(-> & <- & _)|[? ?]]%list_lookup_insert_Some; [by left|right; by split]. Qed.
Lemma at_moved (ts : list T) i t t' : ts !! i = Some t → <[i := t']> ts !! i = Some t'.
Proof. intros Hi. apply list_lookup_insert_eq. by eapply lookup_lt_Some. Qed.
Lemma at_others (ts : list T) i t' j u : j ≠ i → ts !! j = Some u → <[i := t']> ts !! j = Some u.
Proof. intros Hj Hu. by rewrite list_lookup_insert_ne. Qed.

Lemma pool_split (ts : list T) i t :
  ts !! i = Some t → ∃ l1 l2, ts = l1 ++ t :: l2 ∧ ∀ t', <[i := t']> ts = l1 ++ t' :: l2.
Proof.
  intros (l1 & l2 & -> & Hlen)%list_elem_of_split_length. exists l1, l2. split; [done|].
  intros t'. by rewrite Hlen, insert_app_r_alt, Nat.sub_diag by lia.
Qed.

(** How many goroutines are at a point of some kind. *)
Definition how_many (f : T → bool) (ts : list T) : nat := length (filter f ts).
Definition one_if (b : bool) : nat := if b then 1 else 0.

Lemma how_many_insert f ts i t t' :
  ts !! i = Some t → (how_many f (<[i := t']> ts) + one_if (f t) = how_many f ts + one_if (f t'))%nat.
Proof.
  intros (l1 & l2 & -> & Hins)%pool_split. rewrite Hins. unfold how_many.
  rewrite !filter_app, !filter_cons, !length_app.
  destruct (f t), (f t'); repeat case_decide; cbn in *; try done; lia.
Qed.

Lemma how_many_le f ts : (how_many f ts ≤ length ts)%nat.
Proof. apply length_filter. Qed.

Lemma how_many_lt f ts i t : ts !! i = Some t → f t = false → (how_many f ts < length ts)%nat.
Proof.
  intros (l1 & l2 & -> & _)%pool_split Hf. unfold how_many.
  rewrite filter_app, filter_cons, !length_app, Hf. pose proof (length_filter f l1). pose proof (length_filter f l2).
  case_decide; cbn in *; [done|lia].
Qed.

Lemma how_many_ext f g ts : (∀ i t, ts !! i = Some t → f t = g t) → how_many f ts = how_many g ts.
Proof.
  intros Hf. unfold how_many. induction ts as [|t ts IH]; [done|].
  rewrite !filter_cons, (Hf 0%nat t eq_refl). case_decide; cbn; [f_equal|]; apply IH; intros i u; apply (Hf (S i)).
Qed.

Lemma how_many_none f ts : (∀ i t, ts !! i = Some t → f t = false) → how_many f ts = 0%nat.
Proof.
  intros Hf. unfold how_many. induction ts as [|t ts IH]; [done|].
  rewrite filter_cons, (Hf 0%nat t eq_refl). case_decide; [done|]. apply IH. intros i u. apply (Hf (S i)).
Qed.

Lemma how_many_all f ts : (∀ i t, ts !! i = Some t → f t = true) → how_many f ts = length ts.
Proof.
  intros Hf. unfold how_many. induction ts as [|t ts IH]; [done|].
  rewrite filter_cons, (Hf 0%nat t eq_refl). case_decide; [|done]. cbn. f_equal. apply IH. intros i u. apply (Hf (S i)).
Qed.

Lemma some_where (f : T → bool) ts : Forall f ts ∨ ∃ i t, ts !! i = Some t ∧ f t = false.
Proof.
  induction ts as [|t ts [IH|(i & x & Hi & Hx)]]; [by left| |right; by exists (S i), x].
  destruct (f t) eqn:E; [left; by constructor; rewrite ?E|right; by exists 0%nat, t].
Qed.
End list.

(** ** A lock *)
Section lock.
Context {T : Type} (holds : T → bool).

(** [mu] says whether some goroutine is between [Lock] and [Unlock]; there is one at most. *)
Definition lock_inv (mu : bool) (ts : list T) : Prop :=
  if mu
  then ∃ i t, ts !! i = Some t ∧ holds t = true ∧ ∀ j t', ts !! j = Some t' → holds t' = true → j = i
  else ∀ i t, ts !! i = Some t → holds t = false.

Lemma lock_stays mu ts i t t' :
  ts !! i = Some t → lock_inv mu ts → holds t' = holds t → lock_inv mu (<[i := t']> ts).
Proof.
  intros Hi Hl Hh. unfold lock_inv in *. destruct mu.
  - destruct Hl as (j & u & Hj & Hu & Hone). destruct (decide (j = i)) as [->|Hne].
    + exists i, t'. simplify_eq. split_and!; [by eapply at_moved|congruence|].
      intros k v [[-> _]|[_ Hk]]%moved Hv; [done|by eapply Hone].
    + exists j, u. split_and!; [by apply at_others|done|].
      intros k v [[-> ->]|[_ Hk]]%moved Hv; [|by eapply Hone].
      destruct Hne. symmetry. eapply Hone; [done|congruence].
  - intros j u [[_ ->]|[_ Hu]]%moved; [rewrite Hh|]; by eapply Hl.
Qed.

Lemma lock_take ts i t t' :
  ts !! i = Some t → lock_inv false ts → holds t' = true → lock_inv true (<[i := t']> ts).
Proof.
  intros Hi Hl Hh. exists i, t'. split_and!; [by eapply at_moved|done|].
  intros j u [[-> _]|[_ Hu]]%moved Hhu; [done|]. by rewrite (Hl _ _ Hu) in Hhu.
Qed.

Lemma lock_release mu ts i t t' :
  ts !! i = Some t → lock_inv mu ts → holds t = true → holds t' = false → lock_inv false (<[i := t']> ts).
Proof.
  intros Hi Hl Ht Hh j u [[_ ->]|[Hne Hu]]%moved; [done|]. destruct (holds u) eqn:Eu; [|done]. destruct mu.
  - destruct Hl as (k & v & _ & _ & Hone). destruct Hne. by rewrite (Hone _ _ Hu Eu), (Hone _ _ Hi Ht).
  - by rewrite (Hl _ _ Hi) in Ht.
Qed.

Lemma lock_held ts i t mu : ts !! i = Some t → lock_inv mu ts → holds t = true → mu = true.
Proof. intros Hi Hl Ht. destruct mu; [done|]. by rewrite (Hl _ _ Hi) in Ht. Qed.

Lemma lock_one mu ts i j t u :
  lock_inv mu ts → ts !! i = Some t → ts !! j = Some u → holds t = true → holds u = true → j = i.
Proof.
  intros Hl Hi Hj Ht Hu. pose proof (lock_held _ _ _ _ Hi Hl Ht) as ->.
  destruct Hl as (k & v & _ & _ & Hone). by rewrite (Hone _ _ Hi Ht), (Hone _ _ Hj Hu).
Qed.
End lock.
