(* ===== verification/Types.v ===== *)
(** * The API types: pkg/apis/ava/v1alpha1 and the Kubernetes objects the operator handles

    One [Record] per Go struct.  A Go field [F] of a struct is the projection [<prefix>_F].
    Pointers are [option]s ([None] is nil), [int32] is [Z], [metav1.Time] is [Z] (the reading of
    a clock), a Go string is a [string], a map is a [gmap].  The named string types of types.go
    ([MXReplicaType], [MXJobConditionType], ...) are strings with named constants, as in Go:
    a value outside the constants is possible and the code's behaviour on it is modelled.
    Of the Kubernetes structs the records hold the fields the operator and the vendored code it
    calls read or write. *)
From S2P Require Import Prelude.

(** ** k8s.io/apimachinery/pkg/apis/meta/v1 *)
Definition Time := Z.
Abbreviation Labels := (gmap string string).

Record TypeMeta := mkTypeMeta { tm_Kind : string; tm_APIVersion : string }.

Record OwnerReference := mkOwnerReference {
  ref_APIVersion : string;
  ref_Kind : string;
  ref_Name : string;
  ref_UID : string;
  ref_Controller : option bool;
  ref_BlockOwnerDeletion : option bool }.

(** [Labels] is an [option]: a nil map reads as empty, and writing to it panics. *)
Record ObjectMeta := mkObjectMeta {
  meta_Name : string;
  meta_GenerateName : string;
  meta_Namespace : string;
  meta_UID : string;
  meta_Labels : option Labels;
  meta_Annotations : option Labels;
  meta_OwnerReferences : list OwnerReference;
  meta_DeletionTimestamp : option Time;
  meta_Finalizers : list string }.

Record GroupVersion := mkGroupVersion { gv_Group : string; gv_Version : string }.
Record GroupVersionKind := mkGVK { gvk_Group : string; gvk_Version : string; gvk_Kind : string }.

(** [metav1.Status], the body of an API error and of a webhook's verdict. *)
Record MetaStatus := mkMetaStatus {
  ms_Status : string;
  ms_Message : string;
  ms_Reason : string;
  ms_Code : Z }.
Definition StatusSuccess := "Success".
Definition StatusFailure := "Failure".

(** Reading a possibly nil map. *)
Definition labels_of (l : option Labels) : Labels := default ∅ l.
Definition empty_meta : ObjectMeta := mkObjectMeta "" "" "" "" None None [] None [].

(** ** k8s.io/api/core/v1 *)
Definition PodPhase := string.
Definition PodPending : PodPhase := "Pending".
Definition PodRunning : PodPhase := "Running".
Definition PodSucceeded : PodPhase := "Succeeded".
Definition PodFailed : PodPhase := "Failed".
Definition PodUnknown : PodPhase := "Unknown".

Definition ConditionStatus := string.
Definition ConditionTrue : ConditionStatus := "True".
Definition ConditionFalse : ConditionStatus := "False".

Record EnvVar := mkEnvVar { env_Name : string; env_Value : string }.
Record Container := mkContainer {
  ctr_Name : string; ctr_Image : string; ctr_Command : list string; ctr_Env : list EnvVar }.
Record PodSpec := mkPodSpec {
  ps_Containers : list Container; ps_RestartPolicy : string; ps_NodeName : string }.
Record PodTemplateSpec := mkPodTemplateSpec { tpl_Meta : ObjectMeta; tpl_Spec : PodSpec }.
(** [pod_Phase] is [pod.Status.Phase]. *)
Record Pod := mkPod { pod_Meta : ObjectMeta; pod_Spec : PodSpec; pod_Phase : PodPhase }.

Record ServicePort := mkServicePort { port_Name : string; port_Port : Z }.
Record ServiceSpec := mkServiceSpec { svc_Selector : option Labels; svc_Ports : list ServicePort }.
Record Service := mkService { svc_Meta : ObjectMeta; svc_Spec : ServiceSpec }.

(** ** k8s.io/api/admissionregistration/v1beta1 *)
Record ServiceReference := mkServiceReference {
  sref_Namespace : string; sref_Name : string; sref_Path : option string }.
Record WebhookClientConfig := mkWebhookClientConfig {
  cc_URL : option string; cc_Service : option ServiceReference; cc_CABundle : option string }.

(** ** v1alpha1/types.go *)
Definition FinalizerFinishWebhook := "finishWebhook".

Record Webhook := mkWebhook { wh_Name : string; wh_ClientConfig : WebhookClientConfig }.

Record MXReplicaSpec := mkMXReplicaSpec {
  spec_Replicas : option Z;
  spec_Template : option PodTemplateSpec;
  spec_PsRootPort : option Z;
  spec_PsVerbose : option Z }.
Record MXReplicaSpecs := mkMXReplicaSpecs {
  specs_Scheduler : option MXReplicaSpec;
  specs_Server : option MXReplicaSpec;
  specs_Worker : option MXReplicaSpec }.
Record MXJobSpec := mkMXJobSpec {
  jobspec_MXReplicaSpecs : MXReplicaSpecs;
  jobspec_StartWebhook : option Webhook;
  jobspec_FinishWebhook : option Webhook }.

Record MXReplicaStatus := mkMXReplicaStatus {
  rs_Active : Z; rs_Succeeded : Z; rs_Failed : Z; rs_Gone : Z }.
Record MXReplicaStatuses := mkMXReplicaStatuses {
  rss_Scheduler : option MXReplicaStatus;
  rss_Server : option MXReplicaStatus;
  rss_Worker : option MXReplicaStatus }.

Definition MXReplicaType := string.
Definition MXReplicaTypeScheduler : MXReplicaType := "scheduler".
Definition MXReplicaTypeServer : MXReplicaType := "server".
Definition MXReplicaTypeWorker : MXReplicaType := "worker".

Definition MXJobConditionType := string.
Definition MXJobCreated : MXJobConditionType := "Created".
Definition MXJobInitialized : MXJobConditionType := "Initialized".
Definition MXJobRunning : MXJobConditionType := "Running".
Definition MXJobRestarting : MXJobConditionType := "Restarting".
Definition MXJobSucceeded : MXJobConditionType := "Succeeded".
Definition MXJobFailed : MXJobConditionType := "Failed".

Definition MXJobReason := string.
Definition MXJobReasonCreated : MXJobReason := "MXJobCreated".
Definition MXJobReasonInitialized : MXJobReason := "MXJobInitialized".
Definition MXJobReasonSucceeded : MXJobReason := "MXJobSucceeded".
Definition MXJobReasonRunning : MXJobReason := "MXJobRunning".
Definition MXJobReasonFailed : MXJobReason := "MXJobFailed".

Record MXJobCondition := mkMXJobCondition {
  cond_Type : MXJobConditionType;
  cond_Status : ConditionStatus;
  cond_Reason : MXJobReason;
  cond_Message : string;
  cond_LastUpdateTime : Time;
  cond_LastTransitionTime : Time }.

(** nil and empty [Conditions] are identified: the code only ranges over and appends to it. *)
Record MXJobStatus := mkMXJobStatus {
  st_ReplicaStatuses : MXReplicaStatuses;
  st_StartTime : option Time;
  st_CompletionTime : option Time;
  st_Conditions : list MXJobCondition }.

Record MXJob := mkMXJob {
  job_TypeMeta : TypeMeta;
  job_Meta : ObjectMeta;
  job_Spec : MXJobSpec;
  job_Status : MXJobStatus }.

Record NotificationRequest := mkNotificationRequest {
  nreq_UID : string;
  nreq_Kind : GroupVersionKind;
  nreq_Name : string;
  nreq_Namespace : string;
  nreq_Status : MXJobStatus;
  nreq_DeletionTimestamp : option Time }.
Record NotificationResponse := mkNotificationResponse {
  nresp_UID : string; nresp_Result : option MetaStatus }.
Record Notification := mkNotification {
  notif_Request : option NotificationRequest; notif_Response : option NotificationResponse }.

(** ** v1alpha1/register.go *)
Definition version := "v1alpha1".
Definition groupName := "ava.qiniu.com".
Definition kind := "MXJob".
Definition SchemeGroupVersion : GroupVersion := mkGroupVersion groupName version.
(** [gv.WithKind(kind)] *)
Definition SchemeGroupVersionKind : GroupVersionKind :=
  mkGVK (gv_Group SchemeGroupVersion) (gv_Version SchemeGroupVersion) kind.

(** [schema.GroupVersion.String]: group/version, the version alone when there is no group, and
    nothing when both are empty. *)
Definition gv_String (gv : GroupVersion) : string :=
  if decide (gv_Group gv = "" ∧ gv_Version gv = "") then ""
  else if decide (gv_Group gv = "" ∧ gv_Version gv = "v1") then gv_Version gv
  else if decide (gv_Group gv = "") then gv_Version gv
  else gv_Group gv +:+ "/" +:+ gv_Version gv.
Definition gvk_GroupVersion (k : GroupVersionKind) : GroupVersion :=
  mkGroupVersion (gvk_Group k) (gvk_Version k).

(** ** The in-place updates the operator performs, [x.F = v] *)
Definition set_job_Status (f : MXJobStatus → MXJobStatus) (j : MXJob) : MXJob :=
  mkMXJob (job_TypeMeta j) (job_Meta j) (job_Spec j) (f (job_Status j)).
Definition set_job_Meta (f : ObjectMeta → ObjectMeta) (j : MXJob) : MXJob :=
  mkMXJob (job_TypeMeta j) (f (job_Meta j)) (job_Spec j) (job_Status j).
Definition set_st_Conditions (f : list MXJobCondition → list MXJobCondition) (s : MXJobStatus)
  : MXJobStatus :=
  mkMXJobStatus (st_ReplicaStatuses s) (st_StartTime s) (st_CompletionTime s) (f (st_Conditions s)).
Definition set_st_ReplicaStatuses (f : MXReplicaStatuses → MXReplicaStatuses) (s : MXJobStatus)
  : MXJobStatus :=
  mkMXJobStatus (f (st_ReplicaStatuses s)) (st_StartTime s) (st_CompletionTime s) (st_Conditions s).
Definition set_st_StartTime (t : option Time) (s : MXJobStatus) : MXJobStatus :=
  mkMXJobStatus (st_ReplicaStatuses s) t (st_CompletionTime s) (st_Conditions s).
Definition set_st_CompletionTime (t : option Time) (s : MXJobStatus) : MXJobStatus :=
  mkMXJobStatus (st_ReplicaStatuses s) (st_StartTime s) t (st_Conditions s).
Definition set_meta_Labels (l : option Labels) (m : ObjectMeta) : ObjectMeta :=
  mkObjectMeta (meta_Name m) (meta_GenerateName m) (meta_Namespace m) (meta_UID m) l
    (meta_Annotations m) (meta_OwnerReferences m) (meta_DeletionTimestamp m) (meta_Finalizers m).
Definition set_meta_Finalizers (fs : list string) (m : ObjectMeta) : ObjectMeta :=
  mkObjectMeta (meta_Name m) (meta_GenerateName m) (meta_Namespace m) (meta_UID m) (meta_Labels m)
    (meta_Annotations m) (meta_OwnerReferences m) (meta_DeletionTimestamp m) fs.
Definition set_meta_OwnerReferences (rs : list OwnerReference) (m : ObjectMeta) : ObjectMeta :=
  mkObjectMeta (meta_Name m) (meta_GenerateName m) (meta_Namespace m) (meta_UID m) (meta_Labels m)
    (meta_Annotations m) rs (meta_DeletionTimestamp m) (meta_Finalizers m).

(** Short names for the paths the handler uses. *)
Definition job_Name (j : MXJob) : string := meta_Name (job_Meta j).
Definition job_Namespace (j : MXJob) : string := meta_Namespace (job_Meta j).
Definition job_UID (j : MXJob) : string := meta_UID (job_Meta j).
Definition job_specs (j : MXJob) : MXReplicaSpecs := jobspec_MXReplicaSpecs (job_Spec j).

(** [metav1.Object]: what the controller-ref managers read of a pod or a service. *)
Class MetaObject (O : Type) := obj_meta : O → ObjectMeta.
#[export] Instance pod_object : MetaObject Pod := pod_Meta.
#[export] Instance service_object : MetaObject Service := svc_Meta.
#[export] Instance job_object : MetaObject MXJob := job_Meta.

(** ** Decidable equality ([reflect.DeepEqual] on the status, case analysis on objects) *)
#[export] Instance TypeMeta_eq : EqDecision TypeMeta.
Proof. solve_decision. Defined.
#[export] Instance OwnerReference_eq : EqDecision OwnerReference.
Proof. solve_decision. Defined.
#[export] Instance ObjectMeta_eq : EqDecision ObjectMeta.
Proof. solve_decision. Defined.
#[export] Instance GroupVersionKind_eq : EqDecision GroupVersionKind.
Proof. solve_decision. Defined.
#[export] Instance MetaStatus_eq : EqDecision MetaStatus.
Proof. solve_decision. Defined.
#[export] Instance EnvVar_eq : EqDecision EnvVar.
Proof. solve_decision. Defined.
#[export] Instance Container_eq : EqDecision Container.
Proof. solve_decision. Defined.
#[export] Instance PodSpec_eq : EqDecision PodSpec.
Proof. solve_decision. Defined.
#[export] Instance PodTemplateSpec_eq : EqDecision PodTemplateSpec.
Proof. solve_decision. Defined.
#[export] Instance Pod_eq : EqDecision Pod.
Proof. solve_decision. Defined.
#[export] Instance ServicePort_eq : EqDecision ServicePort.
Proof. solve_decision. Defined.
#[export] Instance ServiceSpec_eq : EqDecision ServiceSpec.
Proof. solve_decision. Defined.
#[export] Instance Service_eq : EqDecision Service.
Proof. solve_decision. Defined.
#[export] Instance ServiceReference_eq : EqDecision ServiceReference.
Proof. solve_decision. Defined.
#[export] Instance WebhookClientConfig_eq : EqDecision WebhookClientConfig.
Proof. solve_decision. Defined.
#[export] Instance Webhook_eq : EqDecision Webhook.
Proof. solve_decision. Defined.
#[export] Instance MXReplicaSpec_eq : EqDecision MXReplicaSpec.
Proof. solve_decision. Defined.
#[export] Instance MXReplicaSpecs_eq : EqDecision MXReplicaSpecs.
Proof. solve_decision. Defined.
#[export] Instance MXJobSpec_eq : EqDecision MXJobSpec.
Proof. solve_decision. Defined.
#[export] Instance MXReplicaStatus_eq : EqDecision MXReplicaStatus.
Proof. solve_decision. Defined.
#[export] Instance MXReplicaStatuses_eq : EqDecision MXReplicaStatuses.
Proof. solve_decision. Defined.
#[export] Instance MXJobCondition_eq : EqDecision MXJobCondition.
Proof. solve_decision. Defined.
#[export] Instance MXJobStatus_eq : EqDecision MXJobStatus.
Proof. solve_decision. Defined.
#[export] Instance MXJob_eq : EqDecision MXJob.
Proof. solve_decision. Defined.
