(* ===== verification/Runtime.v ===== *)
(** * Go errors, and the parts of the Go runtime whose behaviour is not fixed

    [error] has one constructor per concrete error type the modelled code creates or tests for.
    The typeclasses are what the code gets from the runtime: the wall clock, the order in which
    a [range] loop visits a map, and the order in which started goroutines run. *)
From S2P Require Import Prelude Types.
#[local] Set Warnings "-register-all".

(** ** Errors *)

(** A nil [error] is [None] of [option error].
    - [StatusError]: [*apierrors.StatusError], the only type here that implements [APIStatus];
    - [Errorf]: the result of [fmt.Errorf] and [errors.New], a text.  The cause is the error whose
      text was formatted into it: it is kept for reading, no Go code can recover it;
    - [ErrCallingWebhook]: [*webhookerrors.ErrCallingWebhook];
    - [Aggregate]: [utilerrors.Aggregate]. *)
Inductive error :=
| StatusError (st : MetaStatus)
| Errorf (text : string) (cause : option error)
| ErrCallingWebhook (webhookName : string) (reason : error)
| Aggregate (errs : list error).

Definition StatusReasonUnknown := "".
Definition StatusReasonNotFound := "NotFound".
Definition StatusReasonConflict := "Conflict".
Definition StatusReasonInvalid := "Invalid".
Definition StatusReasonTimeout := "Timeout".

(** k8s.io/apimachinery/pkg/api/errors *)
Definition ReasonForError (err : option error) : string :=
  match err with
  | Some (StatusError st) => ms_Reason st
  | _ => StatusReasonUnknown
  end.
Definition IsNotFound (err : option error) : bool :=
  bool_decide (ReasonForError err = StatusReasonNotFound).
Definition IsInvalid (err : option error) : bool :=
  bool_decide (ReasonForError err = StatusReasonInvalid).
Definition IsTimeout (err : option error) : bool :=
  bool_decide (ReasonForError err = StatusReasonTimeout).

(** k8s.io/apimachinery/pkg/util/errors.NewAggregate.  The modelled callers build the list by
    appending errors that are not nil, so the copy that drops nil elements keeps them all. *)
Definition NewAggregate (errlist : list error) : option error :=
  match errlist with
  | [] => None
  | _ => Some (Aggregate errlist)
  end.

(** ** Runtime *)

(** [metav1.Now()]. *)
Class Clock (S : Type) := Now : M S Time.

(** [map_range m] is the sequence in which [for k, v := range m] visits [m], and [go_order l] the
    order in which the goroutines started for the elements of [l] run their bodies: Go fixes
    neither, so all that is known is that every element is visited once. *)
Class GoRuntime := {
  map_range : Labels → list (string * string);
  map_range_perm : ∀ m, map_range m ≡ₚ map_to_list m;
  go_order : ∀ {A : Type}, list A → list A;
  go_order_perm : ∀ {A : Type} (l : list A), go_order l ≡ₚ l }.

(** The runtime that visits in the order of the representation. *)
#[refine] Definition in_order_runtime : GoRuntime :=
  {| map_range := map_to_list; go_order := λ A l, l |}.
Proof. all: done. Defined.

(** ** Facts *)

(** Formatting an error into another hides what kind of API error it was. *)
Lemma IsTimeout_Errorf text cause : IsTimeout (Some (Errorf text cause)) = false.
Proof. done. Qed.

Lemma NewAggregate_None errs : NewAggregate errs = None ↔ errs = [].
Proof. by destruct errs. Qed.

