(* ===== verification/Conditions.v ===== *)
(** * Job conditions: pkg/mx/handler.go (conditions) and pkg/mx/util.go

    The conditions of a job are a list with at most one entry per type ([conditions_wf]).  The
    list is only written by [setCondition] and [removeCondition], which keep it so, and under that
    invariant the list is a map from condition types to conditions. *)
From S2P Require Import Prelude Types Runtime.

(** ** Operations *)

(** The first condition of the given type. *)
Fixpoint find_condition (conditions : list MXJobCondition) (condType : MXJobConditionType)
  : option MXJobCondition :=
  match conditions with
  | [] => None
  | c :: cs => if decide (cond_Type c = condType) then Some c else find_condition cs condType
  end.
Definition getCondition (status : MXJobStatus) (condType : MXJobConditionType)
  : option MXJobCondition :=
  find_condition (st_Conditions status) condType.

Definition checkCondition (status : MXJobStatus) (condType : MXJobConditionType) : bool :=
  match getCondition status condType with
  | None => false
  | Some cond => bool_decide (cond_Status cond = ConditionTrue)
  end.

Fixpoint filterOutCondition (conditions : list MXJobCondition) (condType : MXJobConditionType)
  : list MXJobCondition :=
  match conditions with
  | [] => []
  | c :: cs =>
      if decide (cond_Type c = condType) then filterOutCondition cs condType
      else c :: filterOutCondition cs condType
  end.

(** [condition.LastTransitionTime = t] on the argument, which Go passes by value. *)
Definition with_LastTransitionTime (c : MXJobCondition) (t : Time) : MXJobCondition :=
  mkMXJobCondition (cond_Type c) (cond_Status c) (cond_Reason c) (cond_Message c)
    (cond_LastUpdateTime c) t.

Definition setCondition (status : MXJobStatus) (condition : MXJobCondition) : MXJobStatus :=
  let currentCond := getCondition status (cond_Type condition) in
  let unchanged :=
    match currentCond with
    | Some c => bool_decide (cond_Status c = cond_Status condition)
                && bool_decide (cond_Reason c = cond_Reason condition)
    | None => false
    end in
  if unchanged then status
  else
    let condition' :=
      match currentCond with
      | Some c =>
          if decide (cond_Status c = cond_Status condition)
          then with_LastTransitionTime condition (cond_LastTransitionTime c)
          else condition
      | None => condition
      end in
    set_st_Conditions (λ cs, filterOutCondition cs (cond_Type condition) ++ [condition']) status.

Definition removeCondition (status : MXJobStatus) (condType : MXJobConditionType) : MXJobStatus :=
  set_st_Conditions (λ cs, filterOutCondition cs condType) status.

(** util.go *)
Definition IsJobFinished (status : MXJobStatus) : bool :=
  existsb (λ c, (bool_decide (cond_Type c = MXJobSucceeded)
                 || bool_decide (cond_Type c = MXJobFailed))
                && bool_decide (cond_Status c = ConditionTrue)) (st_Conditions status).
Definition IsJobSucceed (status : MXJobStatus) : bool :=
  existsb (λ c, bool_decide (cond_Type c = MXJobSucceeded)
                && bool_decide (cond_Status c = ConditionTrue)) (st_Conditions status).
Definition IsJobFailed (status : MXJobStatus) : bool :=
  existsb (λ c, bool_decide (cond_Type c = MXJobFailed)
                && bool_decide (cond_Status c = ConditionTrue)) (st_Conditions status).

(** The operations that read the clock. *)
Section clocked.
Context {S : Type} `{!Clock S}.

Definition newCondition (conditionType : MXJobConditionType) (reason : MXJobReason)
  (message : string) : M S MXJobCondition :=
  lastUpdate ← Now;
  lastTransition ← Now;
  mret (mkMXJobCondition conditionType ConditionTrue reason message lastUpdate lastTransition).

(** [h.updateMXJobConditions(mxjob, ...)]: the job is mutated in place, so the new job is
    returned. *)
Definition updateMXJobConditions (mxjob : MXJob) (conditionType : MXJobConditionType)
  (reason : MXJobReason) (message : string) : M S MXJob :=
  condition ← newCondition conditionType reason message;
  mret (set_job_Status (λ st, setCondition st condition) mxjob).

Definition updateMXJobFalseConditions (mxjob : MXJob) (conditionType : MXJobConditionType)
  (reason : MXJobReason) (message : string) : M S MXJob :=
  match getCondition (job_Status mxjob) conditionType with
  | None => mret mxjob
  | Some condition =>
      if decide (cond_Status condition = ConditionFalse) then mret mxjob
      else
        now ← Now;
        let condition' :=
          mkMXJobCondition (cond_Type condition) ConditionFalse reason message
            (cond_LastUpdateTime condition) now in
        mret (set_job_Status (λ st, setCondition st condition') mxjob)
  end.
End clocked.

(** ** The invariant and the abstract view *)

(** At most one condition of each type. *)
Definition conditions_wf (status : MXJobStatus) : Prop :=
  NoDup (cond_Type <$> st_Conditions status).
#[export] Instance conditions_wf_dec status : Decision (conditions_wf status).
Proof. unfold conditions_wf. apply _. Defined.

(** What the conditions mean: the partial map from types to conditions. *)
Definition cond_map (status : MXJobStatus) : gmap string MXJobCondition :=
  list_to_map ((λ c, (cond_Type c, c)) <$> st_Conditions status).

(** The abstract counterpart of [setCondition]. *)
Definition set_spec (m : gmap string MXJobCondition) (c : MXJobCondition)
  : gmap string MXJobCondition :=
  match m !! cond_Type c with
  | Some old =>
      if decide (cond_Status old = cond_Status c ∧ cond_Reason old = cond_Reason c) then m
      else if decide (cond_Status old = cond_Status c)
      then <[cond_Type c := with_LastTransitionTime c (cond_LastTransitionTime old)]> m
      else <[cond_Type c := c]> m
  | None => <[cond_Type c := c]> m
  end.

(** ** Lemmas *)
Lemma filterOutCondition_filter cs t :
  filterOutCondition cs t = filter (λ c, cond_Type c ≠ t) cs.
Proof.
  induction cs as [|c cs IH]; [done|]. cbn [filterOutCondition].
  rewrite filter_cons, IH. repeat case_decide; naive_solver.
Qed.

Lemma find_condition_map cs t :
  find_condition cs t =
  (list_to_map ((λ c, (cond_Type c, c)) <$> cs) : gmap string MXJobCondition) !! t.
Proof.
  induction cs as [|c cs IH]; [done|]. cbn [find_condition].
  rewrite fmap_cons, list_to_map_cons, lookup_insert, IH. repeat case_decide; naive_solver.
Qed.

Lemma getCondition_map status t : getCondition status t = cond_map status !! t.
Proof. apply find_condition_map. Qed.

Lemma find_condition_type cs t c : find_condition cs t = Some c → cond_Type c = t.
Proof. induction cs; cbn; intros; [done|]. case_decide; naive_solver. Qed.

Lemma find_condition_elem cs t c : find_condition cs t = Some c → c ∈ cs.
Proof.
  induction cs; cbn; intros; [done|]. case_decide; [simplify_eq; by left | right; auto].
Qed.

Lemma find_condition_unique cs c :
  NoDup (cond_Type <$> cs) → c ∈ cs → find_condition cs (cond_Type c) = Some c.
Proof.
  induction cs as [|d cs IH]; intros Hnd Hin; [by apply not_elem_of_nil in Hin|]. cbn in *.
  apply NoDup_cons in Hnd as [Hd Hnd].
  apply elem_of_cons in Hin as [->|Hin]; [by rewrite decide_True|].
  rewrite decide_False; [by apply IH|]. intros Heq. apply Hd. rewrite Heq.
  by apply list_elem_of_fmap_2.
Qed.

Lemma filterOut_types_notin cs t : t ∉ cond_Type <$> filterOutCondition cs t.
Proof.
  rewrite filterOutCondition_filter. intros (c & -> & Hc)%list_elem_of_fmap.
  by apply list_elem_of_filter in Hc as [? _].
Qed.

Lemma filterOut_NoDup cs t :
  NoDup (cond_Type <$> cs) → NoDup (cond_Type <$> filterOutCondition cs t).
Proof.
  induction cs as [|c cs IH]; cbn; [done|]. intros [Hc Hnd]%NoDup_cons.
  case_decide; [by apply IH|]. cbn. apply NoDup_cons. split; [|by apply IH].
  rewrite filterOutCondition_filter.
  intros (d & Heq & Hd%list_elem_of_filter)%list_elem_of_fmap. apply Hc.
  rewrite Heq. apply list_elem_of_fmap_2. tauto.
Qed.

Lemma find_condition_filterOut cs t t' :
  find_condition (filterOutCondition cs t) t' =
  if decide (t = t') then None else find_condition cs t'.
Proof.
  induction cs as [|c cs IH]; cbn; [by case_decide|].
  repeat case_decide; cbn; rewrite ?IH; repeat case_decide; naive_solver.
Qed.

Lemma find_condition_app cs ds t :
  find_condition (cs ++ ds) t =
  match find_condition cs t with Some c => Some c | None => find_condition ds t end.
Proof. induction cs as [|c cs IH]; cbn; [done|]. by case_decide. Qed.

(** Replacing the conditions of type [t] by one condition of that type. *)
Lemma cond_map_replace status c :
  cond_map (set_st_Conditions (λ cs, filterOutCondition cs (cond_Type c) ++ [c]) status) =
  <[cond_Type c := c]> (cond_map status).
Proof.
  apply map_eq. intros t. rewrite <- getCondition_map, lookup_insert, <- getCondition_map.
  unfold getCondition. cbn. rewrite find_condition_app, find_condition_filterOut. cbn.
  repeat case_decide; [done | naive_solver | by destruct (find_condition _ _) | ].
  by destruct (find_condition _ _).
Qed.

Lemma setCondition_refines_spec status c :
  cond_map (setCondition status c) = set_spec (cond_map status) c.
Proof.
  unfold setCondition, set_spec. rewrite getCondition_map.
  destruct (cond_map status !! cond_Type c) as [old|] eqn:Hold.
  - repeat case_bool_decide; cbn [andb]; repeat case_decide; try tauto;
      first [ apply cond_map_replace
            | apply (cond_map_replace status (with_LastTransitionTime c _)) ].
  - apply cond_map_replace.
Qed.

Lemma setCondition_wf status c : conditions_wf status → conditions_wf (setCondition status c).
Proof.
  unfold setCondition, conditions_wf. intros Hwf. case_match; [done|]. cbn.
  rewrite fmap_app. cbn. apply NoDup_app. split; [by apply filterOut_NoDup|].
  split; [|apply NoDup_singleton]. intros t Ht ->%list_elem_of_singleton.
  eapply filterOut_types_notin. repeat case_match; exact Ht.
Qed.

Lemma removeCondition_wf status t : conditions_wf status → conditions_wf (removeCondition status t).
Proof. apply filterOut_NoDup. Qed.

Lemma removeCondition_map status t : cond_map (removeCondition status t) = delete t (cond_map status).
Proof.
  apply map_eq. intros t'. rewrite lookup_delete, <- !getCondition_map.
  unfold getCondition. cbn. rewrite find_condition_filterOut. done.
Qed.

Lemma checkCondition_true status t :
  checkCondition status t = true ↔
  ∃ c, cond_map status !! t = Some c ∧ cond_Status c = ConditionTrue.
Proof.
  unfold checkCondition. rewrite getCondition_map.
  destruct (cond_map status !! t) as [c|]; [|by split; [|intros (? & ? & _)]].
  rewrite bool_decide_eq_true. split; [by exists c|]. by intros (? & [= <-] & Hs).
Qed.

Lemma setCondition_other status c t :
  t ≠ cond_Type c → getCondition (setCondition status c) t = getCondition status t.
Proof.
  intros Hne. rewrite !getCondition_map, setCondition_refines_spec. unfold set_spec.
  repeat case_match; rewrite ?lookup_insert_ne; auto.
Qed.

Lemma checkCondition_set_other status c t :
  t ≠ cond_Type c → checkCondition (setCondition status c) t = checkCondition status t.
Proof. intros. unfold checkCondition. by rewrite setCondition_other. Qed.

Lemma checkCondition_set_same status c :
  checkCondition (setCondition status c) (cond_Type c) =
  bool_decide (cond_Status c = ConditionTrue).
Proof.
  unfold checkCondition. rewrite getCondition_map, setCondition_refines_spec. unfold set_spec.
  destruct (cond_map status !! cond_Type c) as [old|] eqn:Hold.
  - destruct (decide (_ ∧ _)) as [[Hs _]|]; [by rewrite Hold, Hs|].
    destruct (decide (cond_Status old = _)); by rewrite lookup_insert_eq.
  - by rewrite lookup_insert_eq.
Qed.

Lemma scan_checkCondition status t :
  conditions_wf status →
  existsb (λ c, bool_decide (cond_Type c = t)
                && bool_decide (cond_Status c = ConditionTrue)) (st_Conditions status)
  = checkCondition status t.
Proof.
  intros Hwf. apply eq_bool_prop_intro. rewrite !Is_true_true.
  unfold checkCondition, getCondition. rewrite existsb_exists. split.
  - intros (c & Hin & [Ht Hs]%andb_prop). rewrite bool_decide_eq_true in Ht, Hs. subst t.
    rewrite find_condition_unique; [by apply bool_decide_eq_true | done |].
    by apply list_elem_of_In.
  - destruct (find_condition _ t) as [c|] eqn:Hf; [|done]. intros Hs. exists c.
    split; [by apply list_elem_of_In, (find_condition_elem _ t)|].
    apply find_condition_type in Hf. rewrite Hs. by rewrite bool_decide_eq_true_2.
Qed.

Lemma IsJobFinished_split status :
  IsJobFinished status = IsJobSucceed status || IsJobFailed status.
Proof.
  unfold IsJobFinished, IsJobSucceed, IsJobFailed.
  induction (st_Conditions status) as [|c cs IH]; [done|]. cbn. rewrite IH.
  by repeat case_bool_decide; destruct (existsb _ cs), (existsb _ cs).
Qed.

#[export] Hint Resolve setCondition_wf removeCondition_wf : operator.

(** Setting a condition of another type does not finish a job, nor unfinish it. *)
Lemma IsJobFinished_setCondition status c :
  cond_Type c ≠ MXJobSucceeded → cond_Type c ≠ MXJobFailed →
  IsJobFinished (setCondition status c) = IsJobFinished status.
Proof.
  intros Hs Hf. unfold setCondition. case_match; [done|]. unfold IsJobFinished. cbn.
  rewrite existsb_app. cbn.
  match goal with |- context [(bool_decide (cond_Type ?c' = _) || _) && _] =>
    assert (cond_Type c' = cond_Type c) as -> by (by repeat case_match) end.
  rewrite (bool_decide_false _ Hs), (bool_decide_false _ Hf). cbn. rewrite orb_false_r.
  induction (st_Conditions status) as [|d ds IH]; [done|]. cbn [filterOutCondition].
  case_decide as Hd; cbn; rewrite IH; [|done]. rewrite Hd.
  by rewrite (bool_decide_false _ Hs), (bool_decide_false _ Hf).
Qed.

(** ** Properties *)

(** On the map of conditions, [setCondition] is the update of one key: a
    condition with the same status and reason is left as it is; otherwise the new condition takes its
    place, and keeps the old transition time when the status is the same; no other condition
    changes, and a list without duplicate types stays without. *)
Theorem setCondition_correct (status : MXJobStatus) (c : MXJobCondition) :
  cond_map (setCondition status c) = set_spec (cond_map status) c ∧
  (conditions_wf status → conditions_wf (setCondition status c)).
Proof. split; [apply setCondition_refines_spec | apply setCondition_wf]. Qed.

Definition running_condition (now : Time) : MXJobCondition :=
  mkMXJobCondition MXJobRunning ConditionTrue MXJobReasonRunning "" now now.
Definition running_status : MXJobStatus :=
  mkMXJobStatus (mkMXReplicaStatuses None None None) None None [running_condition 5].

Lemma setCondition_correct_witness :
  conditions_wf running_status ∧ conditions_wf (setCondition running_status (running_condition 9)) ∧
  setCondition running_status (running_condition 9) = running_status.
Proof.
  assert (conditions_wf running_status) as Hwf by (apply (bool_decide_unpack _); by vm_compute).
  split; [exact Hwf|]. split; [exact (proj2 (setCondition_correct _ _) Hwf) | reflexivity].
Defined.

(** On a list without duplicate types, the scan of [IsJobFinished] agrees
    with the look-ups by type the reconciler uses: a job is finished exactly if its succeeded or its
    failed condition is true. *)
Theorem IsJobFinished_correct (status : MXJobStatus) :
  conditions_wf status →
  IsJobFinished status = checkCondition status MXJobSucceeded || checkCondition status MXJobFailed ∧
  IsJobSucceed status = checkCondition status MXJobSucceeded ∧
  IsJobFailed status = checkCondition status MXJobFailed.
Proof.
  intros Hwf. rewrite IsJobFinished_split. unfold IsJobSucceed, IsJobFailed.
  by rewrite !scan_checkCondition.
Qed.

Lemma IsJobFinished_correct_witness :
  IsJobFinished running_status =
    checkCondition running_status MXJobSucceeded || checkCondition running_status MXJobFailed ∧
  IsJobSucceed running_status = checkCondition running_status MXJobSucceeded ∧
  IsJobFailed running_status = checkCondition running_status MXJobFailed.
Proof. apply (IsJobFinished_correct running_status), (bool_decide_unpack _). by vm_compute. Defined.
