(* ===== verification/Api.v ===== *)
(** * The cluster behind the API client

    Everything outside the operator (the API server, etcd, the webhook servers, the wall clock) is
    one state [W] with the operations of the class [Cluster], one per request the operator sends.
    No law is assumed of it: a request may fail in any way, other clients may change the cluster
    between two requests, a read may be stale.  The theorems about the operator hold for every
    cluster; [RefCluster] is a concrete one.

    An operation is a call of the API client, which may have sent its request more than once to get the
    answer; for webhooks it is a single HTTP request ([Hooks] has the loop around it).

    The state [St W] of the operator adds to the cluster the [trace] of the requests sent so far,
    with the answers the operator acts upon later, and the goroutines started and not waited for ([pending]). *)
From S2P Require Import Prelude Types Runtime.
#[local] Set Warnings "-register-all".

(** The request bodies written with [fmt.Sprintf] as JSON: the document, not its bytes. *)
Inductive json :=
| JStr (s : string)
| JBool (b : bool)
| JArr (items : list json)
| JObj (fields : list (string * json)).

(** [rest.Config], as far as the webhook client manager fills it or the resolvers do ([BearerToken]
    stands for all the fields that are only copied).  A dialer maps the address it is asked to dial to
    the address it dials, fails, or panics. *)
Definition Dialer := string → option (string + error).
Record RestConfig := mkRestConfig {
  cfg_Host : string;
  cfg_APIPath : string;
  cfg_BearerToken : string;
  cfg_UserAgent : string;
  cfg_CAData : option string;
  cfg_ServerName : string;
  cfg_ContentType : string;
  cfg_NegotiatedSerializer : bool;
  cfg_Dial : option Dialer }.
(** [*rest.RESTClient]: the configuration it was built from. *)
Record RESTClient := mkRESTClient { rc_config : RestConfig }.

(** The answer to an HTTP request: the status, the Retry-After header if it is there and a number, what
    the body decodes to, and the error that stands for the response when its status is none of success. *)
Record HttpResponse := mkHttpResponse {
  resp_StatusCode : Z;
  resp_RetryAfter : option Z;
  resp_decoded : Notification + error;
  resp_error : error }.

(** Requests; lists, reads and patches with their answers.  [RecordEvent] is [recorder.Eventf] (event type
    and reason). *)
Inductive request :=
| ListPods (namespace : string) (answer : list Pod + error)
| ListServices (namespace : string) (answer : list Service + error)
| GetMXJob (namespace name : string) (answer : MXJob + error)
| UpdateMXJob (mxjob : MXJob)
| CreatePod (namespace : string) (pod : Pod)
| DeletePodReq (namespace name : string)
| PatchPodReq (namespace name : string) (patch : json) (answer : option error)
| CreateService (namespace : string) (service : Service)
| PatchServiceReq (namespace name : string) (patch : json) (answer : option error)
| PostHook (client : RESTClient) (body : Notification)
| RecordEvent (eventtype reason : string).

(** Goroutines the operator starts without waiting for them. *)
Inductive goroutine :=
| CallHook (wh : Webhook) (mxjob : MXJob)
| RunFinalizer (mxjob : MXJob) (indexFound : nat).

Class Cluster (W : Type) := {
  c_now : W → Time * W;
  c_listPods : string → W → (list Pod + error) * W;
  c_listServices : string → W → (list Service + error) * W;
  c_getMXJob : string → string → W → (MXJob + error) * W;
  c_updateMXJob : MXJob → W → (MXJob + error) * W;
  c_createPod : string → Pod → W → (Pod + error) * W;
  c_deletePod : string → string → W → option error * W;
  c_patchPod : string → string → json → W → option error * W;
  c_createService : string → Service → W → (Service + error) * W;
  c_patchService : string → string → json → W → option error * W;
  (** one HTTP request; an error is one of the connection *)
  c_postHook : RESTClient → Notification → W → (HttpResponse + error) * W;
  c_event : string → string → W → W }.

Record St (W : Type) := mkSt { world : W; trace : list request; pending : list goroutine }.
Arguments mkSt {W} world trace pending.
Arguments world {W} s.
Arguments trace {W} s.
Arguments pending {W} s.

Section api.
Context {W : Type} `{!Cluster W}.

(** Send a request: the cluster answers and moves on, the request is recorded. *)
Definition send {A} (r : request) (op : W → A * W) : M (St W) A := λ s,
  let '(a, w) := op (world s) in Ret a (mkSt w (trace s ++ [r]) (pending s)).

(** The same for a request that is recorded with its answer. *)
Definition ask {A} (r : A → request) (op : W → A * W) : M (St W) A := λ s,
  let '(a, w) := op (world s) in Ret a (mkSt w (trace s ++ [r a]) (pending s)).

(** [go f()] *)
Definition go (g : goroutine) : M (St W) () :=
  modify (λ s, mkSt (world s) (trace s) (pending s ++ [g])).

#[export] Instance St_clock : Clock (St W) := λ s,
  let '(t, w) := c_now (world s) in Ret t (mkSt w (trace s) (pending s)).

(** operator-sdk [sdk.List] of pods and services, [sdk.Get], [sdk.Update] and the typed clients. *)
Definition sdk_ListPods (ns : string) : M (St W) (list Pod + error) :=
  ask (ListPods ns) (c_listPods ns).
Definition sdk_ListServices (ns : string) : M (St W) (list Service + error) :=
  ask (ListServices ns) (c_listServices ns).
Definition sdk_Get (ns name : string) : M (St W) (MXJob + error) :=
  ask (GetMXJob ns name) (c_getMXJob ns name).
(** On success the argument is overwritten with the object the server returned. *)
Definition sdk_Update (mxjob : MXJob) : M (St W) (option error * MXJob) :=
  r ← send (UpdateMXJob mxjob) (c_updateMXJob mxjob);
  mret match r with inl mxjob' => (None, mxjob') | inr e => (Some e, mxjob) end.
Definition Pods_Create (ns : string) (pod : Pod) : M (St W) (Pod + error) :=
  send (CreatePod ns pod) (c_createPod ns pod).
Definition Pods_Delete (ns name : string) : M (St W) (option error) :=
  send (DeletePodReq ns name) (c_deletePod ns name).
Definition Pods_Patch (ns name : string) (patch : json) : M (St W) (option error) :=
  ask (PatchPodReq ns name patch) (c_patchPod ns name patch).
Definition Services_Create (ns : string) (svc : Service) : M (St W) (Service + error) :=
  send (CreateService ns svc) (c_createService ns svc).
Definition Services_Patch (ns name : string) (patch : json) : M (St W) (option error) :=
  ask (PatchServiceReq ns name patch) (c_patchService ns name patch).
Definition Hook_Post (client : RESTClient) (body : Notification) : M (St W) (HttpResponse + error) :=
  send (PostHook client body) (c_postHook client body).
Definition Eventf (eventtype reason : string) : M (St W) () :=
  send (RecordEvent eventtype reason) (λ w, (tt, c_event eventtype reason w)).
End api.

(** ** What an operation may send

    [emits P m]: whatever the cluster answers, [m] returns normally and only appends to the trace,
    and what it appends satisfies [P]; it starts no goroutine. *)
Definition emits {W A} (P : list request → Prop) (m : M (St W) A) : Prop :=
  ∀ s, post m (λ _ s', ∃ l, trace s' = trace s ++ l ∧ P l ∧ pending s' = pending s)
         (λ _, False) s.

(** [quiet m Q s]: from [s], [m] returns a value in [Q], sends nothing and starts nothing: of the
    state it only uses the clock. *)
Definition quiet {W A} (m : M (St W) A) (Q : A → Prop) (s : St W) : Prop :=
  post m (λ a s', Q a ∧ trace s' = trace s ∧ pending s' = pending s) (λ _, False) s.

(** Requests that do not change the cluster. *)
Definition read_only (r : request) : bool :=
  match r with
  | ListPods _ _ | ListServices _ _ | GetMXJob _ _ _ => true
  | _ => false
  end.
Definition is_CreatePod (r : request) : bool :=
  match r with CreatePod _ _ => true | _ => false end.
Definition is_DeletePod (r : request) : bool :=
  match r with DeletePodReq _ _ => true | _ => false end.
Definition is_CreateService (r : request) : bool :=
  match r with CreateService _ _ => true | _ => false end.
Definition is_Update (r : request) : bool :=
  match r with UpdateMXJob _ => true | _ => false end.

(** How many of the requests satisfy [p]. *)
Definition count (p : request → bool) (l : list request) : nat := length (filter p l).

Section api_rules.
Context {W : Type} `{!Cluster W}.

Lemma post_send {A} r (op : W → A * W) Q X s :
  (∀ a w, op (world s) = (a, w) → Q a (mkSt w (trace s ++ [r]) (pending s))) →
  post (send r op) Q X s.
Proof. intros HQ. unfold post, send. destruct (op (world s)) as [a w] eqn:E. by apply HQ. Qed.

Lemma post_ask {A} (r : A → request) (op : W → A * W) Q X s :
  (∀ a w, op (world s) = (a, w) → Q a (mkSt w (trace s ++ [r a]) (pending s))) →
  post (ask r op) Q X s.
Proof. intros HQ. unfold post, ask. destruct (op (world s)) as [a w] eqn:E. by apply HQ. Qed.

Lemma post_Now Q X (s : St W) :
  (∀ t w, Q t (mkSt w (trace s) (pending s))) → post Now Q X s.
Proof. intros HQ. unfold post, Now, St_clock. by destruct (c_now (world s)). Qed.

Lemma quiet_ret {A} (a : A) Q (s : St W) : Q a → quiet (mret a) Q s.
Proof. done. Qed.

Lemma quiet_Now Q (s : St W) : (∀ t, Q t) → quiet Now Q s.
Proof. intros HQ. apply post_Now. auto. Qed.

Lemma quiet_bind {A B} (m : M (St W) A) (f : A → M (St W) B) Q' Q s :
  quiet m Q' s → (∀ a s', Q' a → quiet (f a) Q s') → quiet (m ≫= f) Q s.
Proof.
  intros Hm Hf. apply post_bind. eapply post_mono; [exact Hm | | done].
  intros a s' (Ha & Ht & Hp). eapply post_mono; [by apply Hf | | done].
  intros b s'' (Hb & Ht' & Hp'). split; [done|]. by rewrite Ht', Hp'.
Qed.

Lemma quiet_and {A} (m : M (St W) A) (Q Q' : A → Prop) s :
  quiet m Q s → quiet m Q' s → quiet m (λ a, Q a ∧ Q' a) s.
Proof. unfold quiet, post. destruct (m s); naive_solver. Qed.

Lemma quiet_mono {A} (m : M (St W) A) (Q Q' : A → Prop) s :
  quiet m Q s → (∀ a, Q a → Q' a) → quiet m Q' s.
Proof. intros Hm HQ. eapply post_mono; [exact Hm | | done]. naive_solver. Qed.

Lemma quiet_post {A} (m : M (St W) A) (Q' : A → Prop) (Q : A → St W → Prop) X s :
  quiet m Q' s →
  (∀ a s', Q' a → trace s' = trace s → pending s' = pending s → Q a s') → post m Q X s.
Proof. intros Hm HQ. eapply post_mono; [exact Hm | naive_solver | done]. Qed.

Lemma quiet_emits {A} (P : list request → Prop) (m : M (St W) A) :
  (∀ s, quiet m (λ _, True) s) → P [] → emits P m.
Proof.
  intros Hm HP s. eapply quiet_post; [apply Hm|]. intros a s' _ -> ->. exists [].
  by rewrite app_nil_r.
Qed.

Lemma emits_ret {A} (P : list request → Prop) (a : A) : P [] → emits (W := W) P (mret a).
Proof. intros HP s. exists []. by rewrite app_nil_r. Qed.

Lemma emits_send {A} (P : list request → Prop) r (op : W → A * W) : P [r] → emits P (send r op).
Proof. intros HP s. apply post_send. intros a w _. by exists [r]. Qed.

Lemma emits_Now (P : list request → Prop) : P [] → emits (W := W) P Now.
Proof. intros HP s. apply post_Now. intros t w. exists []. by rewrite app_nil_r. Qed.

(** Composition: what is sent is the concatenation. *)
Lemma emits_bind {A B} (P P' P'' : list request → Prop) (m : M (St W) A) (f : A → M (St W) B) :
  emits P m → (∀ a, emits P' (f a)) → (∀ l l', P l → P' l' → P'' (l ++ l')) →
  emits P'' (m ≫= f).
Proof.
  intros Hm Hf HP s. apply post_bind. eapply post_mono; [apply Hm | | done].
  intros a s' (l & Ht & Hl & Hp). eapply post_mono; [apply Hf | | done].
  intros b s'' (l' & Ht' & Hl' & Hp'). exists (l ++ l').
  rewrite Ht', Ht, Hp', Hp, app_assoc. auto.
Qed.

Lemma emits_mono {A} (P P' : list request → Prop) (m : M (St W) A) :
  emits P m → (∀ l, P l → P' l) → emits P' m.
Proof.
  intros Hm HP s. eapply post_mono; [apply Hm | | done]. intros a s' (l & ? & ? & ?).
  exists l. auto.
Qed.

(** The special case of a predicate on single requests. *)
Lemma emits_all_bind {A B} (p : request → Prop) (m : M (St W) A) (f : A → M (St W) B) :
  emits (Forall p) m → (∀ a, emits (Forall p) (f a)) → emits (Forall p) (m ≫= f).
Proof. intros Hm Hf. eapply emits_bind; [done..|]. intros l l' ??. by apply Forall_app. Qed.

Lemma emits_all_foldM {A B} (p : request → Prop) (body : B → A → M (St W) B) l acc :
  (∀ acc x, emits (Forall p) (body acc x)) → emits (Forall p) (foldM body l acc).
Proof.
  intros Hb. revert acc. induction l as [|x l IH]; intros acc; [by apply emits_ret|].
  cbn [foldM]. apply emits_all_bind; auto.
Qed.

Lemma emits_no_panic {A} P (m : M (St W) A) : emits P m → no_panic m.
Proof. intros Hm s. eapply post_mono; [apply Hm | done | done]. Qed.

Lemma count_app p l l' : count p (l ++ l') = (count p l + count p l')%nat.
Proof. unfold count. by rewrite filter_app, length_app. Qed.

Lemma count_none p l : Forall (λ r, p r = false) l → count p l = 0%nat.
Proof.
  unfold count. induction 1 as [|r l Hr _ IH]; [done|].
  rewrite filter_cons_False; [exact IH | by rewrite Hr; intros []].
Qed.
End api_rules.

#[export] Hint Resolve emits_ret emits_send emits_Now emits_all_bind emits_all_foldM : operator.

(** ** What an operation may do, with what it returns

    [safe R G X m Q]: whatever the cluster answers, every request [m] sends is in [R], every
    goroutine it starts is in [G], and it returns a value in [Q]; it panics only if [X], and then
    what it did before is in [R] and [G] as well. *)
Definition grows {W} (R : request → Prop) (G : goroutine → Prop) (s s' : St W) : Prop :=
  ∃ l gs, trace s' = trace s ++ l ∧ Forall R l ∧ pending s' = pending s ++ gs ∧ Forall G gs.

Definition safe {W A} (R : request → Prop) (G : goroutine → Prop) (X : Prop) (m : M (St W) A)
  (Q : A → Prop) : Prop :=
  ∀ s, post m (λ a s', Q a ∧ grows R G s s') (λ s', X ∧ grows R G s s') s.

Section safe_rules.
Context {W : Type} `{!Cluster W} (R : request → Prop) (G : goroutine → Prop) (X : Prop).

#[export] Instance grows_preorder : PreOrder (grows (W := W) R G).
Proof.
  split.
  - intros s. exists [], []. by rewrite !app_nil_r.
  - intros s1 s2 s3 (l & gs & El & Hl & Eg & Hg) (l' & gs' & El' & Hl' & Eg' & Hg').
    exists (l ++ l'), (gs ++ gs'). rewrite El', El, Eg', Eg, <- !app_assoc.
    split_and!; try done; by apply Forall_app.
Qed.

Lemma safe_ret {A} (a : A) (Q : A → Prop) : Q a → safe (W := W) R G X (mret a) Q.
Proof. intros HQ s. by split. Qed.

Lemma safe_bind {A B} (m : M (St W) A) (f : A → M (St W) B) (Q' : A → Prop) Q :
  safe R G X m Q' → (∀ a, Q' a → safe R G X (f a) Q) → safe R G X (m ≫= f) Q.
Proof.
  intros Hm Hf s. apply post_bind. eapply post_mono; [apply Hm | | done].
  intros a s' [Ha Hs]. eapply post_mono; [by apply Hf | |].
  - intros b s'' [Hb Hs']. split; [done|]. by transitivity s'.
  - intros s'' [Hx Hs']. split; [done|]. by transitivity s'.
Qed.

Lemma safe_mono {A} (m : M (St W) A) (Q Q' : A → Prop) :
  safe R G X m Q → (∀ a, Q a → Q' a) → safe R G X m Q'.
Proof. intros Hm HQ s. eapply post_mono; [apply Hm | naive_solver | done]. Qed.

Lemma grows_weaken (R' : request → Prop) (G' : goroutine → Prop) (s s' : St W) :
  (∀ r, R' r → R r) → (∀ g, G' g → G g) → grows R' G' s s' → grows R G s s'.
Proof.
  intros HR HG (l & gs & Ht & Hl & Hp & Hg). exists l, gs.
  split_and!; [done | by eapply Forall_impl | done | by eapply Forall_impl].
Qed.

Lemma safe_weaken {A} (R' : request → Prop) (G' : goroutine → Prop) (m : M (St W) A) (Q : A → Prop) :
  safe R' G' X m Q → (∀ r, R' r → R r) → (∀ g, G' g → G g) → safe R G X m Q.
Proof.
  intros Hm HR HG s. pose proof (λ s s', grows_weaken R' G' s s' HR HG) as Hg.
  eapply post_mono; [apply Hm | naive_solver | naive_solver].
Qed.

Lemma safe_send {A} r (op : W → A * W) (Q : A → Prop) : R r → (∀ a, Q a) → safe R G X (send r op) Q.
Proof.
  intros Hr HQ s. apply post_send. intros a w _. split; [done|]. exists [r], []. cbn.
  rewrite app_nil_r. auto.
Qed.

Lemma safe_ask {A} (r : A → request) (op : W → A * W) (Q : A → Prop) :
  (∀ a, R (r a) ∧ Q a) → safe R G X (ask r op) Q.
Proof.
  intros Hr s. apply post_ask. intros a w _. split; [apply Hr|]. exists [r a], []. cbn.
  rewrite app_nil_r. split_and!; try done. constructor; [apply Hr | done].
Qed.

Lemma safe_Now (Q : Time → Prop) : (∀ t, Q t) → safe (W := W) R G X Now Q.
Proof.
  intros HQ s. apply post_Now. intros t w. split; [done|]. exists [], []. by rewrite !app_nil_r.
Qed.

Lemma safe_go g (Q : () → Prop) : G g → Q tt → safe (W := W) R G X (go g) Q.
Proof.
  intros Hg HQ s. apply post_modify. split; [done|]. exists [], [g]. cbn. rewrite app_nil_r. auto.
Qed.

Lemma safe_deref {A} (p : option A) (Q : A → Prop) :
  (∀ a, p = Some a → Q a) → (p = None → X) → safe (W := W) R G X (deref p) Q.
Proof. intros HQ HX s. destruct p as [a|]; split; auto; reflexivity. Qed.

Lemma safe_panic {A} (Q : A → Prop) : X → safe (W := W) R G X go_panic Q.
Proof. intros HX s. by split. Qed.

Lemma safe_foldM {A B} (body : B → A → M (St W) B) (P : B → Prop) l acc :
  P acc → (∀ x acc, x ∈ l → P acc → safe R G X (body acc x) P) → safe R G X (foldM body l acc) P.
Proof.
  revert acc. induction l as [|x l IH]; intros acc HP Hb; [by apply safe_ret|]. cbn [foldM].
  eapply safe_bind; [by apply Hb; [left|]|]. intros acc' HP'. apply IH; [done|].
  intros y acc'' Hy. apply Hb. by right.
Qed.

Lemma safe_quiet {A} (m : M (St W) A) (Q : A → Prop) :
  (∀ s, quiet m Q s) → safe R G X m Q.
Proof.
  intros Hm s. eapply post_mono; [apply Hm | | done]. intros a s' (HQ & Ht & Hp).
  split; [done|]. exists [], []. by rewrite !app_nil_r.
Qed.
End safe_rules.

(** ** What an operation may do, given what it has heard

    The answers in the trace are what the operator knows of the cluster.  [told R h l]: each request of [l] is
    allowed by [R] after what was sent and answered before it, the history [h] and the part of [l] before. *)
Fixpoint told (R : list request → request → Prop) (h l : list request) : Prop :=
  match l with
  | [] => True
  | r :: l => R h r ∧ told R (h ++ [r]) l
  end.

Lemma told_app R h l l' : told R h (l ++ l') ↔ told R h l ∧ told R (h ++ l) l'.
Proof.
  revert h. induction l as [|r l IH]; intros h; cbn; [by rewrite app_nil_r; tauto|].
  rewrite IH, <- app_assoc. cbn. tauto.
Qed.
Lemma told_split R h l1 r l2 : told R h (l1 ++ r :: l2) → R (h ++ l1) r.
Proof. rewrite told_app. by intros (_ & ? & _). Qed.
(** Requests allowed after [h] whatever else was heard. *)
Lemma told_forall R h l : (∀ r h', r ∈ l → R h r → R (h ++ h') r) → Forall (R h) l → told R h l.
Proof.
  intros Hmono Hl. assert (∀ l' h', (∀ r, r ∈ l' → R (h ++ h') r) → (∀ r, r ∈ l' → r ∈ l) → told R (h ++ h') l') as Hall.
  { induction l' as [|r l' IH]; intros h' Hr Hin; [done|]. cbn. split; [apply Hr; by left|].
    rewrite <- app_assoc. apply IH.
    - intros r' Hr'. apply Hmono; [apply Hin; by right|]. apply (Forall_forall (R h) l); [done|]. apply Hin. by right.
    - intros r' Hr'. apply Hin. by right. }
  rewrite <- (app_nil_r h). apply Hall; [|done]. intros r Hr. rewrite app_nil_r. by apply (Forall_forall (R h) l).
Qed.
Lemma told_impl (R R' : list request → request → Prop) h h0 l :
  (∀ l1 r l2, l = l1 ++ r :: l2 → R (h ++ l1) r → R' (h0 ++ l1) r) → told R h l → told R' h0 l.
Proof.
  revert h h0. induction l as [|r l IH]; intros h h0 HR; [done|]. cbn. intros [Hr Hl]. split.
  - specialize (HR [] r l eq_refl). rewrite !app_nil_r in HR. by apply HR.
  - apply (IH (h ++ [r])); [|done]. intros l1 r1 l2 -> . rewrite <- !app_assoc. by apply (HR (r :: l1) r1 l2).
Qed.

(** From [s] to [s'] the operator sent [l], as [R] allows after [h], and started goroutines in [G]. *)
Definition grows_told {W} (R : list request → request → Prop) (G : goroutine → Prop) (h : list request)
  (s s' : St W) (l : list request) : Prop :=
  trace s' = trace s ++ l ∧ told R h l ∧ ∃ gs, pending s' = pending s ++ gs ∧ Forall G gs.

(** [m], run after [h], does only that, and returns a value [a] after sending [l] with [Q l a]; it panics only if [X]. *)
Definition safe_told {W A} (R : list request → request → Prop) (G : goroutine → Prop) (X : Prop)
  (h : list request) (m : M (St W) A) (Q : list request → A → Prop) : Prop :=
  ∀ s, post m (λ a s', ∃ l, Q l a ∧ grows_told R G h s s' l) (λ s', X ∧ ∃ l, grows_told R G h s s' l) s.

Section told_rules.
Context {W : Type} `{!Cluster W} (R : list request → request → Prop) (G : goroutine → Prop) (X : Prop).

Lemma grows_told_nil h (s : St W) : grows_told R G h s s [].
Proof. split; [by rewrite app_nil_r|]. split; [done|]. exists []. by rewrite app_nil_r. Qed.
Lemma grows_told_trans h (s1 s2 s3 : St W) l l' :
  grows_told R G h s1 s2 l → grows_told R G (h ++ l) s2 s3 l' → grows_told R G h s1 s3 (l ++ l').
Proof.
  intros (Ht & Hl & gs & Hp & Hg) (Ht' & Hl' & gs' & Hp' & Hg'). split; [by rewrite Ht', Ht, app_assoc|].
  split; [by apply told_app|]. exists (gs ++ gs'). rewrite Hp', Hp, app_assoc. split; [done | by apply Forall_app].
Qed.

Lemma told_ret {A} h (a : A) (Q : list request → A → Prop) : Q [] a → safe_told (W := W) R G X h (mret a) Q.
Proof. intros HQ s. exists []. split; [done | apply grows_told_nil]. Qed.

Lemma told_bind {A B} h (m : M (St W) A) (f : A → M (St W) B) Q' Q :
  safe_told R G X h m Q' →
  (∀ l a, Q' l a → safe_told R G X (h ++ l) (f a) (λ l' b, Q (l ++ l') b)) → safe_told R G X h (m ≫= f) Q.
Proof.
  intros Hm Hf s. apply post_bind. eapply post_mono; [apply Hm | | done].
  intros a s' (l & Ha & Hs). eapply post_mono; [by apply Hf | |].
  - intros b s'' (l' & Hb & Hs'). exists (l ++ l'). split; [done | by eapply grows_told_trans].
  - intros s'' (Hx & l' & Hs'). split; [done|]. exists (l ++ l'). by eapply grows_told_trans.
Qed.

Lemma told_mono {A} h (m : M (St W) A) (Q Q' : list request → A → Prop) :
  safe_told R G X h m Q → (∀ l a, Q l a → Q' l a) → safe_told R G X h m Q'.
Proof. intros Hm HQ s. eapply post_mono; [apply Hm | naive_solver | done]. Qed.

(** An operation of which every request is allowed after [h] already. *)
Lemma told_safe {A} (K : request → Prop) h (m : M (St W) A) (Q : A → Prop) :
  safe (λ r, R h r ∧ K r) G X m Q → (∀ r h', K r → R h r → R (h ++ h') r) →
  safe_told R G X h m (λ l a, Q a ∧ Forall K l).
Proof.
  intros Hm Hmono s. assert (∀ s', grows (λ r, R h r ∧ K r) G s s' → ∃ l, Forall K l ∧ grows_told R G h s s' l) as Hg.
  { intros s' (l & gs & Ht & Hl & Hp & Hgs). apply Forall_and in Hl as [Hl HK]. exists l. split; [done|].
    split; [done|]. split; [|by exists gs]. apply told_forall; [|done]. intros r h' Hr. apply Hmono.
    by apply (Forall_forall K l). }
  eapply post_mono; [apply Hm | |].
  - intros a s' [HQ (l & HK & Hl)%Hg]. by exists l.
  - intros s' [HX (l & _ & Hl)%Hg]. split; [done | by exists l].
Qed.
End told_rules.
