(* ===== verification/Strconv.v ===== *)
(** * Numbers in strings: what the operator uses of Go's [strconv] and [strings]

    [FormatInt] (base 10) writes the environment of the pods, [ParseInt] (base 10, 64 bits) reads
    the operands of the gt and lt label requirements; [format_ParseInt] is the round trip.
    [ToLower] is [strings.ToLower] on ASCII bytes (the replica types are ASCII). *)
From S2P Require Import Prelude.
From Stdlib Require Import Ascii.

(** ** Definitions *)
Definition digit_char (d : Z) : ascii := ascii_of_nat (48 + Z.to_nat d).
Definition char_digit (c : ascii) : option Z :=
  let n := nat_of_ascii c in
  if ((48 <=? n)%nat && (n <=? 57)%nat)%bool then Some (Z.of_nat n - 48) else None.

(** The loop of [strconv.formatBits] for base 10, from the last digit to the first.  A uint64 has
    at most 20 digits, which is the fuel [FormatInt] gives it. *)
Fixpoint format_digits (fuel : nat) (u : Z) (acc : string) : string :=
  match fuel with
  | O => acc
  | S fuel' =>
      if u <? 10 then String (digit_char u) acc
      else format_digits fuel' (u / 10) (String (digit_char (u mod 10)) acc)
  end.
Definition FormatInt (i : Z) : string :=
  if i <? 0 then String "-" (format_digits 20 (- i) "") else format_digits 20 i "".

(** [strconv.ErrSyntax] and [strconv.ErrRange]. *)
Inductive ParseError := ErrSyntax | ErrRange.

(** The loop of [strconv.ParseUint] for base 10 and 64 bits: it stops at the first byte that is
    not a digit, and at the first digit that takes the value past 2^64 - 1. *)
Fixpoint parse_digits (s : string) (n : Z) : Z + ParseError :=
  match s with
  | EmptyString => inl n
  | String c s' =>
      match char_digit c with
      | None => inr ErrSyntax
      | Some d => if n * 10 + d <? 2 ^ 64 then parse_digits s' (n * 10 + d) else inr ErrRange
      end
  end.
Definition ParseUint (s : string) : Z + ParseError :=
  match s with EmptyString => inr ErrSyntax | _ => parse_digits s 0 end.
Definition ParseInt (s : string) : Z + ParseError :=
  match s with
  | EmptyString => inr ErrSyntax
  | String c s' =>
      let neg := bool_decide (c = "-"%char) in
      let body := if decide (c = "-"%char ∨ c = "+"%char) then s' else s in
      match ParseUint body with
      | inr e => inr e
      | inl un =>
          if negb neg && (2 ^ 63 <=? un) then inr ErrRange
          else if neg && (2 ^ 63 <? un) then inr ErrRange
          else inl (if neg then - un else un)
      end
  end.

Definition lower_char (c : ascii) : ascii :=
  let n := nat_of_ascii c in
  if ((65 <=? n)%nat && (n <=? 90)%nat)%bool then ascii_of_nat (n + 32) else c.
Fixpoint ToLower (s : string) : string :=
  match s with
  | EmptyString => EmptyString
  | String c s' => String (lower_char c) (ToLower s')
  end.

(** ** Lemmas *)
Lemma char_digit_char d : 0 ≤ d < 10 → char_digit (digit_char d) = Some d.
Proof.
  intros Hd. assert (d ∈ [0;1;2;3;4;5;6;7;8;9]) as Hin.
  { rewrite !elem_of_cons. lia. }
  repeat (apply elem_of_cons in Hin as [->|Hin]; [done|]). by apply not_elem_of_nil in Hin.
Qed.

(** Reading the digits of [u] in front of [acc] multiplies what was read before by a power of ten
    and adds [u]. *)
Lemma parse_format_digits fuel u acc :
  0 ≤ u < 10 ^ Z.of_nat fuel → u < 2 ^ 64 →
  parse_digits (format_digits fuel u acc) 0 = parse_digits acc u.
Proof.
  revert u acc. induction fuel as [|fuel IH]; intros u acc Hu Hmax.
  { cbn in Hu. replace u with 0 by lia. done. }
  cbn [format_digits]. destruct (Z.ltb_spec u 10) as [Hlt|Hge].
  - cbn [parse_digits]. rewrite char_digit_char by lia.
    rewrite (proj2 (Z.ltb_lt _ _)) by lia. done.
  - pose proof (Z.div_mod u 10 ltac:(lia)). pose proof (Z.mod_pos_bound u 10 ltac:(lia)).
    rewrite Nat2Z.inj_succ, Z.pow_succ_r in Hu by lia.
    rewrite IH by lia. cbn [parse_digits]. rewrite char_digit_char by lia.
    replace (u / 10 * 10 + u mod 10) with u by lia.
    rewrite (proj2 (Z.ltb_lt _ _)) by lia. done.
Qed.

Lemma format_digits_head fuel u acc :
  0 ≤ u → (0 < fuel)%nat →
  ∃ d s, 0 ≤ d < 10 ∧ format_digits fuel u acc = String (digit_char d) s.
Proof.
  revert u acc. induction fuel as [|fuel IH]; intros u acc Hu Hf; [lia|]. cbn [format_digits].
  destruct (Z.ltb_spec u 10); [by exists u, acc|].
  destruct fuel as [|fuel]; [exists (u mod 10), acc; split; [apply Z.mod_pos_bound; lia|done]|].
  apply IH; [apply Z.div_pos; lia | lia].
Qed.

Lemma digit_not_sign d : 0 ≤ d < 10 → digit_char d ≠ "-"%char ∧ digit_char d ≠ "+"%char.
Proof.
  intros Hd. pose proof (char_digit_char d Hd) as H.
  split; intros Heq; rewrite Heq in H; vm_compute in H; discriminate.
Qed.

Lemma ParseUint_format u : 0 ≤ u < 2 ^ 64 → ParseUint (format_digits 20 u "") = inl u.
Proof.
  intros Hu. destruct (format_digits_head 20 u "") as (d & s & _ & E); [lia..|].
  transitivity (parse_digits (format_digits 20 u "") 0); [unfold ParseUint; by rewrite E|].
  rewrite parse_format_digits; [reflexivity | | lia].
  change (10 ^ Z.of_nat 20) with 100000000000000000000. change (2 ^ 64) with 18446744073709551616 in Hu.
  lia.
Qed.

Lemma format_ParseInt i : in_int64 i → ParseInt (FormatInt i) = inl i.
Proof.
  unfold in_int64, FormatInt. intros Hi. destruct (Z.ltb_spec i 0) as [Hneg|Hpos].
  - unfold ParseInt. rewrite bool_decide_true, decide_True by auto.
    rewrite ParseUint_format by lia. cbn [andb negb].
    rewrite (proj2 (Z.ltb_ge _ _)) by lia. f_equal. lia.
  - destruct (format_digits_head 20 i "") as (d & s & Hd & E); [lia..|].
    pose proof (ParseUint_format i ltac:(lia)) as HP. rewrite E in HP |- *.
    apply digit_not_sign in Hd as [Hm Hp].
    unfold ParseInt. rewrite bool_decide_false, decide_False by tauto. rewrite HP.
    cbn [andb negb]. rewrite (proj2 (Z.leb_gt _ _)) by lia. done.
Qed.
