(* ===== verification/RefCluster.v ===== *)
(** * A reference cluster

    A concrete, executable [Cluster]: lists of jobs, pods and services, with names generated from a
    serial number, and failures injected per request.  No theorem about the operator
    rests on it; the witnesses and the example executions run on it. *)
From S2P Require Import Prelude Types Runtime Api Strconv.

Record RefCluster := mkRefCluster {
  rc_time : Time;
  rc_serial : Z;
  rc_jobs : list MXJob;
  rc_pods : list Pod;
  rc_services : list Service;
  (** The error a request is answered with, if any; the answer in the request is a dummy. *)
  rc_fail : request → option error;
  (** The answer of the webhook servers. *)
  rc_hook : Notification → HttpResponse + error }.

Definition with_time (t : Time) (c : RefCluster) : RefCluster :=
  mkRefCluster t (rc_serial c) (rc_jobs c) (rc_pods c) (rc_services c) (rc_fail c) (rc_hook c).
Definition with_serial (n : Z) (c : RefCluster) : RefCluster :=
  mkRefCluster (rc_time c) n (rc_jobs c) (rc_pods c) (rc_services c) (rc_fail c) (rc_hook c).
Definition with_jobs (l : list MXJob) (c : RefCluster) : RefCluster :=
  mkRefCluster (rc_time c) (rc_serial c) l (rc_pods c) (rc_services c) (rc_fail c) (rc_hook c).
Definition with_pods (l : list Pod) (c : RefCluster) : RefCluster :=
  mkRefCluster (rc_time c) (rc_serial c) (rc_jobs c) l (rc_services c) (rc_fail c) (rc_hook c).
Definition with_services (l : list Service) (c : RefCluster) : RefCluster :=
  mkRefCluster (rc_time c) (rc_serial c) (rc_jobs c) (rc_pods c) l (rc_fail c) (rc_hook c).

Definition status_error (reason : string) (code : Z) : error :=
  StatusError (mkMetaStatus StatusFailure "" reason code).
Definition not_found : error := status_error StatusReasonNotFound 404.

(** Answer [r] with its injected error, or run [op]. *)
Definition guarded {A} (r : request) (op : RefCluster → (A + error) * RefCluster) (c : RefCluster)
  : (A + error) * RefCluster :=
  match rc_fail c r with Some e => (inr e, c) | None => op c end.
Definition unit_result {A} (x : (A + error) * RefCluster) : option error * RefCluster :=
  (match x.1 with inl _ => None | inr e => Some e end, x.2).

Definition named (ns name : string) (m : ObjectMeta) : bool :=
  bool_decide (meta_Namespace m = ns) && bool_decide (meta_Name m = name).

(** The object stored: the namespace of the request, a generated name, a fresh uid. *)
Definition admit_meta (ns : string) (n : Z) (m : ObjectMeta) : ObjectMeta :=
  mkObjectMeta
    (if decide (meta_Name m = "") then meta_GenerateName m +:+ FormatInt n else meta_Name m)
    (meta_GenerateName m) ns (FormatInt n) (meta_Labels m) (meta_Annotations m)
    (meta_OwnerReferences m) (meta_DeletionTimestamp m) (meta_Finalizers m).

(** The two patches of the controller-ref managers, applied to the owner references. *)
Definition patch_refs (patch : json) (refs : list OwnerReference) : list OwnerReference :=
  match patch with
  | JObj [("metadata", JObj [("ownerReferences", JArr [JObj
      [("apiVersion", JStr v); ("kind", JStr k); ("name", JStr n); ("uid", JStr u);
       ("controller", JBool c); ("blockOwnerDeletion", JBool b)]]); _])] =>
      refs ++ [mkOwnerReference v k n u (Some c) (Some b)]
  | JObj [("metadata", JObj [("ownerReferences", JArr [JObj
      [("$patch", JStr "delete"); ("uid", JStr u)]]); _])] =>
      filter (λ r, ref_UID r ≠ u) refs
  | _ => refs
  end.
Definition patch_meta (patch : json) (m : ObjectMeta) : ObjectMeta :=
  set_meta_OwnerReferences (patch_refs patch (meta_OwnerReferences m)) m.

#[export] Instance RefCluster_cluster : Cluster RefCluster := {
  c_now c := (rc_time c, with_time (rc_time c + 1) c);
  c_listPods ns := guarded (ListPods ns (inl [])) (λ c,
    (inl (filter (λ p, meta_Namespace (pod_Meta p) = ns) (rc_pods c)), c));
  c_listServices ns := guarded (ListServices ns (inl [])) (λ c,
    (inl (filter (λ x, meta_Namespace (svc_Meta x) = ns) (rc_services c)), c));
  c_getMXJob ns name := guarded (GetMXJob ns name (inr not_found)) (λ c,
    (match filter (λ j, named ns name (job_Meta j)) (rc_jobs c) with
     | j :: _ => inl j
     | [] => inr not_found
     end, c));
  c_updateMXJob j := guarded (UpdateMXJob j) (λ c,
    (inl j, with_jobs ((λ j', if named (job_Namespace j) (job_Name j) (job_Meta j')
                              then j else j') <$> rc_jobs c) c));
  c_createPod ns pod := guarded (CreatePod ns pod) (λ c,
    let pod' := mkPod (admit_meta ns (rc_serial c) (pod_Meta pod)) (pod_Spec pod) PodPending in
    (inl pod', with_serial (rc_serial c + 1) (with_pods (rc_pods c ++ [pod']) c)));
  c_deletePod ns name c := unit_result (guarded (DeletePodReq ns name) (λ c,
    if existsb (λ p, named ns name (pod_Meta p)) (rc_pods c)
    then (inl (), with_pods (filter (λ p, named ns name (pod_Meta p) = false) (rc_pods c)) c)
    else (inr not_found, c)) c);
  c_patchPod ns name patch c := unit_result (guarded (PatchPodReq ns name patch None) (λ c,
    (inl (), with_pods ((λ p, if named ns name (pod_Meta p)
       then mkPod (patch_meta patch (pod_Meta p)) (pod_Spec p) (pod_Phase p) else p)
       <$> rc_pods c) c)) c);
  c_createService ns svc := guarded (CreateService ns svc) (λ c,
    let svc' := mkService (admit_meta ns (rc_serial c) (svc_Meta svc)) (svc_Spec svc) in
    (inl svc', with_serial (rc_serial c + 1) (with_services (rc_services c ++ [svc']) c)));
  c_patchService ns name patch c := unit_result (guarded (PatchServiceReq ns name patch None) (λ c,
    (inl (), with_services ((λ x, if named ns name (svc_Meta x)
       then mkService (patch_meta patch (svc_Meta x)) (svc_Spec x) else x)
       <$> rc_services c) c)) c);
  c_postHook client body c := guarded (PostHook client body) (λ c, (rc_hook c body, c)) c;
  c_event _ _ c := c }.

(** ** An example job *)
Definition example_template : PodTemplateSpec :=
  mkPodTemplateSpec empty_meta (mkPodSpec [mkContainer "mxnet" "mxnet:1.0" [] []] "Never" "").
Definition example_spec (n : Z) : MXReplicaSpec :=
  mkMXReplicaSpec (Some n) (Some example_template) None None.
Definition example_hook : Webhook :=
  mkWebhook "hook" (mkWebhookClientConfig (Some "https://example.com/notify") None None).
Definition no_status : MXJobStatus := mkMXJobStatus (mkMXReplicaStatuses None None None) None None [].
Definition job_with (specs : MXReplicaSpecs) (status : MXJobStatus) : MXJob :=
  mkMXJob (mkTypeMeta "MXJob" "ava.qiniu.com/v1alpha1")
    (mkObjectMeta "train" "" "default" "uid-1" None None [] None [FinalizerFinishWebhook])
    (mkMXJobSpec specs (Some example_hook) (Some example_hook)) status.
Definition example_specs : MXReplicaSpecs :=
  mkMXReplicaSpecs (Some (example_spec 1)) (Some (example_spec 1)) (Some (example_spec 2)).
Definition example_job : MXJob := job_with example_specs no_status.

Definition http_ok (n : Notification) : HttpResponse := mkHttpResponse 200 None (inl n) (Errorf "" None).
Definition ok_reply (n : Notification) : HttpResponse + error :=
  inl (http_ok (mkNotification (notif_Request n)
         (Some (mkNotificationResponse "" (Some (mkMetaStatus StatusSuccess "" "" 200)))))).
(** A cluster that holds a job and answers every request. *)
Definition empty_cluster (j : MXJob) : RefCluster :=
  mkRefCluster 100 0 [j] [] [] (λ _, None) ok_reply.
Definition start (c : RefCluster) : St RefCluster := mkSt c [] [].
#[export] Existing Instance in_order_runtime.
