(* ===== verification/Lru.v ===== *)
(** * The cache of webhook clients: hashicorp/golang-lru and its simplelru

    [LRU] is the structure of the source: a doubly linked list of elements in the order of use and a
    map from keys to its elements, both pointing into a heap of elements.  [lru_refines] shows that a
    sequence of calls of the cache answers as the reference does: a list of key/value pairs, the most
    recently used first, cut off at the size of the cache.

    [lru.Cache] takes its lock in every method, so the calls of concurrent goroutines are a sequence
    of calls.  The operator passes no eviction callback. *)
From S2P Require Import Prelude.

Record entry (V : Type) := mkEntry { e_key : string; e_value : V }.
Arguments mkEntry {V}.
Arguments e_key {V}.
Arguments e_value {V}.

(** A pointer to a [list.Element]. *)
Definition Element := nat.

Record LRU (V : Type) := mkLRU {
  lru_size : Z;
  (** the linked list, front first *)
  lru_evictList : list Element;
  lru_items : gmap string Element;
  (** the heap: [Value] of every element allocated so far, and the next free address *)
  lru_heap : gmap Element (entry V);
  lru_next : Element }.
Arguments mkLRU {V}.
Arguments lru_size {V}.
Arguments lru_evictList {V}.
Arguments lru_items {V}.
Arguments lru_heap {V}.
Arguments lru_next {V}.

(** ** Operations *)
Section operations.
Context {V : Type}.
Implicit Types (c : LRU V) (k : string) (v : V) (e : Element).

Definition set_evictList (f : list Element → list Element) c : LRU V :=
  mkLRU (lru_size c) (f (lru_evictList c)) (lru_items c) (lru_heap c) (lru_next c).
Definition set_items (f : gmap string Element → gmap string Element) c : LRU V :=
  mkLRU (lru_size c) (lru_evictList c) (f (lru_items c)) (lru_heap c) (lru_next c).

(** container/list: [MoveToFront], [Remove], [Back]. *)
Definition list_Remove e (l : list Element) : list Element := filter (λ e', e' ≠ e) l.
Definition MoveToFront e (l : list Element) : list Element := e :: list_Remove e l.
Definition Back (l : list Element) : option Element := last l.

(** nil with an error for a size that is not positive *)
Definition NewLRU (size : Z) : option (LRU V) :=
  if size <=? 0 then None else Some (mkLRU size [] ∅ ∅ 0%nat).

Definition removeElement e c : LRU V :=
  let c := set_evictList (list_Remove e) c in
  match lru_heap c !! e with
  | Some kv => set_items (delete (e_key kv)) c
  | None => c
  end.

Definition removeOldest c : LRU V :=
  match Back (lru_evictList c) with
  | Some ent => removeElement ent c
  | None => c
  end.

Definition Add k v c : bool * LRU V :=
  match lru_items c !! k with
  | Some ent =>
      (false, mkLRU (lru_size c) (MoveToFront ent (lru_evictList c)) (lru_items c)
                (alter (λ kv, mkEntry (e_key kv) v) ent (lru_heap c)) (lru_next c))
  | None =>
      let ent := lru_next c in
      let c := mkLRU (lru_size c) (ent :: lru_evictList c) (<[k := ent]> (lru_items c))
                 (<[ent := mkEntry k v]> (lru_heap c)) (S ent) in
      let evict := lru_size c <? zlen (lru_evictList c) in
      (evict, if evict then removeOldest c else c)
  end.

Definition Get k c : option V * LRU V :=
  match lru_items c !! k with
  | Some ent => (e_value <$> lru_heap c !! ent, set_evictList (MoveToFront ent) c)
  | None => (None, c)
  end.

Definition Contains k c : bool := bool_decide (is_Some (lru_items c !! k)).
Definition Peek k c : option V := lru_items c !! k ≫= λ ent, e_value <$> lru_heap c !! ent.
Definition Remove k c : bool * LRU V :=
  match lru_items c !! k with
  | Some ent => (true, removeElement ent c)
  | None => (false, c)
  end.
Definition RemoveOldest c : option (string * V) * LRU V :=
  match Back (lru_evictList c) with
  | Some ent => ((λ kv, (e_key kv, e_value kv)) <$> lru_heap c !! ent, removeElement ent c)
  | None => (None, c)
  end.
Definition GetOldest c : option (string * V) :=
  Back (lru_evictList c) ≫= λ ent, (λ kv, (e_key kv, e_value kv)) <$> lru_heap c !! ent.
Definition Keys c : list string := omap (λ ent, e_key <$> lru_heap c !! ent) (reverse (lru_evictList c)).
Definition Len c : Z := zlen (lru_evictList c).
Definition Purge c : LRU V := mkLRU (lru_size c) [] ∅ (lru_heap c) (lru_next c).
(** lru.go *)
Definition ContainsOrAdd k v c : (bool * bool) * LRU V :=
  if Contains k c then ((true, false), c)
  else let '(evicted, c) := Add k v c in ((false, evicted), c).
End operations.

(** ** The reference: the most recently used first *)
Section reference.
Context {V : Type}.
Implicit Types (l : list (string * V)) (k : string) (v : V).

Fixpoint assoc k l : option V :=
  match l with
  | [] => None
  | (k', v) :: l => if decide (k' = k) then Some v else assoc k l
  end.
Definition forget k l : list (string * V) := filter (λ kv, kv.1 ≠ k) l.
(** [k] becomes the most recently used key. *)
Definition use k l : list (string * V) :=
  match assoc k l with Some v => (k, v) :: forget k l | None => l end.
Definition put (size : nat) k v l : list (string * V) := take size ((k, v) :: forget k l).
End reference.

(** ** The invariant *)
Section invariant.
Context {V : Type}.
Implicit Types (c : LRU V) (k : string) (v : V) (e : Element).

(** Every key points to an element of the list that carries it, and conversely; the elements are
    distinct and allocated. *)
Record shape c : Prop := {
  wf_items : ∀ k e, lru_items c !! k = Some e ↔
    e ∈ lru_evictList c ∧ e_key <$> lru_heap c !! e = Some k;
  wf_list : NoDup (lru_evictList c);
  wf_heap : ∀ e, e ∈ lru_evictList c → is_Some (lru_heap c !! e);
  wf_next : ∀ e, is_Some (lru_heap c !! e) → (e < lru_next c)%nat;
  wf_size : 0 < lru_size c }.

Definition entries (h : gmap Element (entry V)) (l : list Element) : list (string * V) :=
  omap (λ e, (λ kv, (e_key kv, e_value kv)) <$> h !! e) l.
(** The key/value pairs of the cache in the order of use. *)
Definition contents c : list (string * V) := entries (lru_heap c) (lru_evictList c).
Definition wf c : Prop := shape c ∧ zlen (contents c) ≤ lru_size c.
End invariant.

(** ** Lemmas *)
Section lists.
Context {V : Type}.
Implicit Types (h : gmap Element (entry V)) (l : list Element) (k : string) (e : Element).

(** The elements of [l] are allocated, and [e] is the one with key [k]. *)
Definition the_one h l k e : Prop := ∀ e', e' ∈ l → e_key <$> h !! e' = Some k ↔ e' = e.
Definition alive h l : Prop := ∀ e, e ∈ l → is_Some (h !! e).

Lemma alive_cons h e l : alive h (e :: l) ↔ is_Some (h !! e) ∧ alive h l.
Proof. unfold alive. setoid_rewrite elem_of_cons. naive_solver. Qed.

Lemma entries_cons h e l :
  entries h (e :: l) =
  match h !! e with Some kv => [(e_key kv, e_value kv)] | None => [] end ++ entries h l.
Proof. unfold entries. cbn. by destruct (h !! e). Qed.

Lemma entries_length h l : alive h l → length (entries h l) = length l.
Proof.
  induction l as [|e l IH]; [done|]. intros [[kv Hkv] Hl]%alive_cons.
  unfold entries. cbn. rewrite Hkv. cbn. f_equal. by apply IH.
Qed.

Lemma entries_app h l l' : entries h (l ++ l') = entries h l ++ entries h l'.
Proof. apply omap_app. Qed.

Lemma entries_ext h h' l : (∀ e, e ∈ l → h !! e = h' !! e) → entries h l = entries h' l.
Proof.
  induction l as [|e l IH]; intros He; [done|]. unfold entries in *. cbn.
  rewrite (He e) by by left. rewrite IH; [done|]. intros e' ?. apply He. by right.
Qed.

Lemma the_one_cons h e' l k e : the_one h (e' :: l) k e → the_one h l k e.
Proof. intros H e'' Hin. apply H. by right. Qed.

Lemma entries_remove h l k e :
  alive h l → the_one h l k e → entries h (list_Remove e l) = forget k (entries h l).
Proof.
  induction l as [|e' l IH]; [done|]. intros [[kv Hkv] Hl]%alive_cons Hone.
  pose proof (Hone e' ltac:(by left)) as He'. rewrite Hkv in He'. cbn in He'.
  apply the_one_cons in Hone. unfold list_Remove, forget in *. rewrite filter_cons.
  unfold entries. cbn. rewrite Hkv. cbn.
  destruct (decide (e' = e)) as [->|Hne].
  - rewrite decide_False by (intros Hn; by apply Hn).
    rewrite decide_False by (intros Hn; apply Hn; naive_solver). by apply IH.
  - rewrite decide_True by done. rewrite decide_True by naive_solver.
    cbn. rewrite Hkv. cbn. f_equal. by apply IH.
Qed.

Lemma assoc_entries h l k e kv :
  alive h l → the_one h l k e → e ∈ l → h !! e = Some kv → assoc k (entries h l) = Some (e_value kv).
Proof.
  intros Hal Hone Hin Hkv. induction l as [|e' l IH]; [by apply not_elem_of_nil in Hin|].
  apply alive_cons in Hal as [[kv' Hkv'] Hl]. pose proof (Hone e' ltac:(by left)) as He'.
  rewrite Hkv' in He'. cbn in He'. unfold entries. cbn. rewrite Hkv'. cbn. case_decide as Hk.
  - subst k. assert (e' = e) as -> by by apply He'. congruence.
  - apply IH; [done | by eapply the_one_cons |]. apply elem_of_cons in Hin as [->|]; [|done].
    exfalso. naive_solver.
Qed.

Lemma assoc_none h l k :
  (∀ e, e ∈ l → e_key <$> h !! e ≠ Some k) →
  assoc k (entries h l) = None ∧ forget k (entries h l) = entries h l.
Proof.
  induction l as [|e l IH]; intros Hno; [done|].
  destruct IH as [IH1 IH2]; [intros e' ?; apply Hno; by right|].
  pose proof (Hno e ltac:(by left)) as He. unfold entries. cbn.
  destruct (h !! e) as [kv|]; cbn in *; [|done].
  rewrite decide_False by congruence. split; [done|]. unfold forget in *.
  cbn. rewrite decide_True by congruence. f_equal. exact IH2.
Qed.

Lemma list_Remove_last l e : NoDup (l ++ [e]) → list_Remove e (l ++ [e]) = l.
Proof.
  intros (_ & Hd & _)%NoDup_app. unfold list_Remove. rewrite filter_app, filter_cons_False, app_nil_r.
  - clear -Hd. induction l as [|e' l IH]; [done|]. rewrite filter_cons_True.
    + f_equal. apply IH. intros x Hx. apply Hd. by right.
    + intros ->. apply (Hd e); by left.
  - intros Hne. by apply Hne.
Qed.

Lemma elem_of_list_Remove e e' l : e' ∈ list_Remove e l ↔ e' ≠ e ∧ e' ∈ l.
Proof. unfold list_Remove. by rewrite list_elem_of_filter. Qed.

Lemma list_Remove_length e l : (length (list_Remove e l) ≤ length l)%nat.
Proof. exact (length_filter _ l). Qed.

(** [MoveToFront] of an element of the list keeps its elements. *)
Lemma MoveToFront_elem e e' l : e ∈ l → e' ∈ MoveToFront e l ↔ e' ∈ l.
Proof.
  intros He. unfold MoveToFront. rewrite elem_of_cons, elem_of_list_Remove.
  destruct (decide (e' = e)); naive_solver.
Qed.

Lemma MoveToFront_perm e l : e ∈ l → NoDup l → MoveToFront e l ≡ₚ l.
Proof.
  intros He Hnd. apply NoDup_Permutation; [|done|].
  - constructor; [by rewrite elem_of_list_Remove; naive_solver | by apply NoDup_filter].
  - intros e'. by apply MoveToFront_elem.
Qed.
End lists.

Section wf.
Context {V : Type}.
Implicit Types (c : LRU V) (k : string) (v : V) (e : Element).

(** What the map of items says of a key. *)
Lemma items_some c k e :
  shape c → lru_items c !! k = Some e →
  ∃ v, lru_heap c !! e = Some (mkEntry k v) ∧ e ∈ lru_evictList c ∧
    the_one (lru_heap c) (lru_evictList c) k e ∧ assoc k (contents c) = Some v.
Proof.
  intros Hc He. pose proof He as [Hin Hk]%(wf_items c Hc).
  destruct (lru_heap c !! e) as [[k' v]|] eqn:Hkv; [|done]. cbn in Hk. injection Hk as ->.
  assert (the_one (lru_heap c) (lru_evictList c) k e) as Hone.
  { intros e' Hin'. split.
    - intros Hk'. assert (lru_items c !! k = Some e') as He' by by apply (wf_items c Hc). congruence.
    - intros ->. by rewrite Hkv. }
  exists v. split_and!; try done.
  apply (assoc_entries (lru_heap c) (lru_evictList c) k e (mkEntry k v)); [exact (wf_heap c Hc) | done..].
Qed.

Lemma items_none c k :
  shape c → lru_items c !! k = None →
  (∀ e, e ∈ lru_evictList c → e_key <$> lru_heap c !! e ≠ Some k) ∧
  assoc k (contents c) = None ∧ forget k (contents c) = contents c.
Proof.
  intros Hc Hk. assert (∀ e, e ∈ lru_evictList c → e_key <$> lru_heap c !! e ≠ Some k) as Hno.
  { intros e Hin He. assert (lru_items c !! k = Some e) by by apply (wf_items c Hc). congruence. }
  split; [done|]. by apply assoc_none.
Qed.

Lemma wf_length c : shape c → length (contents c) = length (lru_evictList c).
Proof. intros Hc. apply entries_length. exact (wf_heap c Hc). Qed.

(** A wf cache whose list is permuted is wf. *)
Lemma wf_move c e :
  shape c → e ∈ lru_evictList c → shape (set_evictList (MoveToFront e) c).
Proof.
  intros Hc He. pose proof (MoveToFront_perm e (lru_evictList c) He (wf_list c Hc)) as Hp.
  constructor; cbn.
  - intros k e'. rewrite Hp. apply Hc.
  - rewrite Hp. apply Hc.
  - intros e'. rewrite Hp. apply Hc.
  - apply Hc.
  - apply Hc.
Qed.

Lemma contents_move c k e v :
  shape c → lru_items c !! k = Some e → lru_heap c !! e = Some (mkEntry k v) →
  contents (set_evictList (MoveToFront e) c) = (k, v) :: forget k (contents c).
Proof.
  intros Hc He Hv. destruct (items_some c k e Hc He) as (? & _ & _ & Hone & _).
  unfold contents, entries. cbn. rewrite Hv. cbn. f_equal. apply entries_remove; [exact (wf_heap c Hc) | done].
Qed.

Lemma wf_removeElement c e :
  shape c → e ∈ lru_evictList c →
  shape (removeElement e c) ∧ lru_size (removeElement e c) = lru_size c ∧
  lru_evictList (removeElement e c) = list_Remove e (lru_evictList c) ∧
  lru_heap (removeElement e c) = lru_heap c ∧
  ∀ k, e_key <$> lru_heap c !! e = Some k → contents (removeElement e c) = forget k (contents c).
Proof.
  intros Hc Hin. destruct (wf_heap c Hc e Hin) as [[k v] Hkv].
  unfold removeElement. cbn. rewrite Hkv. cbn. split_and!; try done.
  - constructor; cbn.
    + intros k' e'. rewrite elem_of_list_Remove.
      destruct (decide (k = k')) as [<-|Hne].
      * rewrite lookup_delete. rewrite decide_True by done. split; [done|]. intros [[Hne Hin'] Hk'].
        assert (lru_items c !! k = Some e') by by apply (wf_items c Hc).
        assert (lru_items c !! k = Some e) by (apply (wf_items c Hc); by rewrite Hkv). congruence.
      * rewrite lookup_delete_ne by done. rewrite (wf_items c Hc). split; [|naive_solver].
        intros [Hin' Hk']. split_and!; try done. intros ->. rewrite Hkv in Hk'. cbn in Hk'. congruence.
    + apply NoDup_filter, Hc.
    + intros e' [_ Hin']%elem_of_list_Remove. by apply Hc.
    + apply Hc.
    + apply Hc.
  - cbn. intros k' [= <-]. apply entries_remove; [exact (wf_heap c Hc)|].
    assert (lru_items c !! k = Some e) as He by (apply (wf_items c Hc); by rewrite Hkv).
    by destruct (items_some c k e Hc He) as (? & _ & _ & ? & _).
Qed.
End wf.

(** ** The methods against the reference *)
Section methods.
Context {V : Type}.
Implicit Types (c : LRU V) (k : string) (v : V) (e : Element).

Lemma Contains_spec c k : shape c → Contains k c = bool_decide (is_Some (assoc k (contents c))).
Proof.
  intros Hc. unfold Contains. destruct (lru_items c !! k) as [e|] eqn:He.
  - destruct (items_some c k e Hc He) as (v & _ & _ & _ & ->). by rewrite !bool_decide_true.
  - destruct (items_none c k Hc He) as (_ & -> & _). by rewrite !bool_decide_false by (by intros [? ?]).
Qed.

Lemma Peek_spec c k : shape c → Peek k c = assoc k (contents c).
Proof.
  intros Hc. unfold Peek. destruct (lru_items c !! k) as [e|] eqn:He; cbn.
  - by destruct (items_some c k e Hc He) as (v & -> & _ & _ & ->).
  - by destruct (items_none c k Hc He) as (_ & -> & _).
Qed.

Lemma Get_spec c k :
  shape c → let '(r, c') := Get k c in
  r = assoc k (contents c) ∧ shape c' ∧ contents c' = use k (contents c) ∧ lru_size c' = lru_size c.
Proof.
  intros Hc. unfold Get, use. destruct (lru_items c !! k) as [e|] eqn:He.
  - destruct (items_some c k e Hc He) as (v & Hv & Hin & _ & Ha). rewrite Hv, Ha.
    split_and!; try done; [by apply wf_move | by apply contents_move].
  - by destruct (items_none c k Hc He) as (_ & -> & _).
Qed.

Lemma Remove_spec c k :
  shape c → let '(r, c') := Remove k c in
  r = bool_decide (is_Some (assoc k (contents c))) ∧ shape c' ∧
  contents c' = forget k (contents c) ∧ lru_size c' = lru_size c.
Proof.
  intros Hc. unfold Remove. destruct (lru_items c !! k) as [e|] eqn:He.
  - destruct (items_some c k e Hc He) as (v & Hv & Hin & _ & ->).
    destruct (wf_removeElement c e Hc Hin) as (Hw & Hs & _ & _ & Hk).
    rewrite bool_decide_true by done. split_and!; try done. apply Hk. by rewrite Hv.
  - destruct (items_none c k Hc He) as (_ & -> & ->).
    by rewrite bool_decide_false by (by intros [? ?]).
Qed.

(** Removing the back element drops the last pair. *)
Lemma remove_back c e l :
  shape c → lru_evictList c = l ++ [e] →
  shape (removeElement e c) ∧ lru_size (removeElement e c) = lru_size c ∧
  contents (removeElement e c) = entries (lru_heap c) l ∧
  ∃ kv, lru_heap c !! e = Some kv ∧
    contents c = entries (lru_heap c) l ++ [(e_key kv, e_value kv)].
Proof.
  intros Hc Hl. assert (e ∈ lru_evictList c) as Hin by (rewrite Hl; set_solver).
  destruct (wf_removeElement c e Hc Hin) as (Hw & Hs & Hlist & Hheap & _).
  destruct (wf_heap c Hc e Hin) as [kv Hkv]. split_and!; try done.
  - unfold contents. rewrite Hlist, Hheap, Hl, list_Remove_last; [done|]. rewrite <- Hl. apply Hc.
  - exists kv. split; [done|]. unfold contents. rewrite Hl, entries_app. f_equal.
    unfold entries. cbn. by rewrite Hkv.
Qed.

Lemma list_last_cases {A} (l : list A) : l = [] ∨ ∃ l' x, l = l' ++ [x].
Proof. induction l as [|x l _] using rev_ind; [by left | right; eauto]. Qed.

Lemma RemoveOldest_spec c :
  shape c → let '(r, c') := RemoveOldest c in
  r = last (contents c) ∧ shape c' ∧
  contents c' = take (length (contents c) - 1) (contents c) ∧ lru_size c' = lru_size c.
Proof.
  intros Hc. unfold RemoveOldest, Back. destruct (list_last_cases (lru_evictList c)) as [Hl|(l & e & Hl)].
  - rewrite Hl. cbn. unfold contents. by rewrite Hl.
  - rewrite Hl, last_snoc. destruct (remove_back c e l Hc Hl) as (Hw & Hs & Hcon & kv & Hkv & Hall).
    rewrite Hkv, Hall, last_snoc, length_app, take_app_length' by (cbn; lia). done.
Qed.

Lemma GetOldest_spec c : shape c → GetOldest c = last (contents c).
Proof.
  intros Hc. unfold GetOldest, Back. destruct (list_last_cases (lru_evictList c)) as [Hl|(l & e & Hl)].
  - unfold contents. by rewrite Hl.
  - rewrite Hl, last_snoc. destruct (remove_back c e l Hc Hl) as (_ & _ & _ & kv & Hkv & Hall).
    cbn. by rewrite Hkv, Hall, last_snoc.
Qed.

Lemma Keys_spec c : Keys c = reverse (contents c).*1.
Proof.
  unfold Keys, contents. induction (lru_evictList c) as [|e l IH]; [done|].
  rewrite reverse_cons, omap_app, IH, entries_cons.
  destruct (lru_heap c !! e) as [kv|] eqn:Hkv.
  - cbn [app]. rewrite fmap_cons, reverse_cons. f_equal. cbn. by rewrite Hkv.
  - cbn [omap list_omap]. rewrite Hkv. by rewrite app_nil_r.
Qed.

(** A new element at the front. *)
Lemma shape_push c k v :
  shape c → lru_items c !! k = None →
  let c' := mkLRU (lru_size c) (lru_next c :: lru_evictList c) (<[k := lru_next c]> (lru_items c))
              (<[lru_next c := mkEntry k v]> (lru_heap c)) (S (lru_next c)) in
  shape c' ∧ contents c' = (k, v) :: contents c ∧ zlen (lru_evictList c') = 1 + zlen (contents c).
Proof.
  intros Hc Hk c'. destruct (items_none c k Hc Hk) as [Hno _].
  assert (∀ e, e ∈ lru_evictList c → e ≠ lru_next c) as Hfresh.
  { intros e He ->. pose proof (wf_next c Hc _ (wf_heap c Hc _ He)). lia. }
  assert (∀ e, e ∈ lru_evictList c → lru_heap c' !! e = lru_heap c !! e) as Hheap.
  { intros e He. cbn. rewrite lookup_insert_ne; [done|]. intros E. by eapply Hfresh. }
  split_and!.
  - constructor; unfold c'; cbn.
    + intros k' e. destruct (decide (k = k')) as [<-|Hne].
      * rewrite lookup_insert, decide_True by done. split.
        -- intros [= <-]. split; [by left|]. by rewrite lookup_insert, decide_True.
        -- intros [[->|Hin]%elem_of_cons Hke]; [done|]. exfalso. apply (Hno e Hin).
           rewrite <- Hke, <- Hheap by done. done.
      * rewrite lookup_insert_ne by done. rewrite (wf_items c Hc), elem_of_cons.
        destruct (decide (e = lru_next c)) as [->|Hnext].
        -- rewrite lookup_insert, decide_True by done. cbn. split; [|naive_solver].
           intros [Hin _]. by destruct (Hfresh _ Hin).
        -- rewrite lookup_insert_ne by done. naive_solver.
    + constructor; [|apply Hc]. intros Hin. by apply (Hfresh _ Hin).
    + intros e [->|Hin]%elem_of_cons; [by rewrite lookup_insert, decide_True|].
      change (is_Some (lru_heap c' !! e)). rewrite Hheap by done. by apply Hc.
    + intros e. destruct (decide (e = lru_next c)) as [->|Hne]; [lia|].
      rewrite lookup_insert_ne by done. intros He%(wf_next c Hc). lia.
    + apply Hc.
  - unfold contents, entries at 1. cbn -[insert]. rewrite lookup_insert, decide_True by done. cbn -[insert].
    f_equal. symmetry. apply entries_ext. intros e He. symmetry. by apply Hheap.
  - unfold c', contents. cbn [lru_evictList]. rewrite zlen_cons. unfold zlen.
    by rewrite (entries_length _ _ (wf_heap c Hc)).
Qed.

(** A new value for an element. *)
Lemma shape_alter c e v :
  shape c →
  let c' := mkLRU (lru_size c) (lru_evictList c) (lru_items c)
              (alter (λ kv, mkEntry (e_key kv) v) e (lru_heap c)) (lru_next c) in
  shape c' ∧ ∀ k, lru_items c !! k = Some e → forget k (contents c') = forget k (contents c).
Proof.
  intros Hc c'.
  assert (∀ e', e_key <$> lru_heap c' !! e' = e_key <$> lru_heap c !! e') as Hkey.
  { intros e'. cbn. destruct (decide (e = e')) as [<-|Hne].
    - rewrite lookup_alter, decide_True by done. by destruct (lru_heap c !! e).
    - by rewrite lookup_alter_ne. }
  assert (∀ e', is_Some (lru_heap c' !! e') ↔ is_Some (lru_heap c !! e')) as Hsome.
  { intros e'. rewrite <- !(fmap_is_Some e_key). by rewrite Hkey. }
  assert (shape c') as Hc'.
  { constructor.
    - intros k e'. rewrite Hkey. apply Hc.
    - apply Hc.
    - intros e' He'. by apply Hsome, Hc.
    - intros e' He'%Hsome. by apply Hc.
    - apply Hc. }
  split; [done|]. intros k Hk.
  destruct (items_some c k e Hc Hk) as (? & _ & _ & Hone & _).
  destruct (items_some c' k e Hc' Hk) as (? & _ & _ & Hone' & _).
  unfold contents. rewrite <- !(entries_remove _ _ k e); [| exact (wf_heap c Hc) | done
    | exact (wf_heap c' Hc') | done].
  apply entries_ext. intros e' [Hne _]%elem_of_list_Remove. cbn. by rewrite lookup_alter_ne.
Qed.

Lemma Add_spec c k v :
  wf c → let '(evicted, c') := Add k v c in
  evicted = bool_decide (assoc k (contents c) = None ∧ zlen (contents c) = lru_size c) ∧ shape c' ∧
  contents c' = put (Z.to_nat (lru_size c)) k v (contents c) ∧ lru_size c' = lru_size c.
Proof.
  intros [Hc Hlen]. pose proof (wf_size c Hc) as Hsize. unfold Add, put.
  destruct (lru_items c !! k) as [e|] eqn:He.
  - destruct (items_some c k e Hc He) as (v0 & Hv & Hin & Hone & Ha).
    destruct (shape_alter c e v Hc) as [Hc' Hf]. set (c' := mkLRU _ _ _ (alter _ _ _) _) in Hc', Hf.
    rewrite Ha, bool_decide_false by naive_solver. split; [done|].
    change (mkLRU (lru_size c) (MoveToFront e (lru_evictList c)) (lru_items c)
      (alter (λ kv, mkEntry (e_key kv) v) e (lru_heap c)) (lru_next c)) with
      (set_evictList (MoveToFront e) c').
    split; [by apply wf_move|]. split; [|done].
    rewrite (contents_move c' k e v Hc' He); [|cbn; by rewrite lookup_alter, decide_True, Hv by done].
    rewrite (Hf k He), take_ge; [done|]. cbn.
    assert (length (forget k (contents c)) < length (contents c))%nat as Hlt.
    { unfold contents. rewrite <- (entries_remove _ _ k e (wf_heap c Hc) Hone).
      rewrite !entries_length.
      - apply length_filter_lt with e; [done|]. intros Hn. by apply Hn.
      - exact (wf_heap c Hc).
      - intros e' [_ He']%elem_of_list_Remove. by apply Hc. }
    unfold zlen in Hlen. lia.
  - destruct (items_none c k Hc He) as (_ & Ha & Hf). rewrite Ha, Hf.
    destruct (shape_push c k v Hc He) as (Hc' & Hcon & Hl). set (c' := mkLRU _ _ _ (<[_:=_]> _) _) in *.
    cbv zeta. fold c'. rewrite Hl. change (lru_size c') with (lru_size c).
    destruct (Z.ltb_spec (lru_size c) (1 + zlen (contents c))) as [Hover|Hfit].
    + rewrite bool_decide_true by (split; [done | lia]). split; [done|].
      unfold removeOldest, Back. destruct (list_last_cases (lru_evictList c')) as [Hnil|(l & e & Hsnoc)].
      { discriminate Hnil. }
      rewrite Hsnoc, last_snoc. destruct (remove_back c' e l Hc' Hsnoc) as (Hw & Hs & Hrem & kv & _ & Hall).
      split; [done|]. split; [|done]. rewrite Hrem, <- Hcon, Hall.
      assert (length (entries (lru_heap c') l) = Z.to_nat (lru_size c)) as <-.
      { rewrite Hcon in Hall. apply (f_equal length) in Hall. rewrite length_app in Hall. cbn [length] in Hall.
        unfold zlen in *. lia. }
      by rewrite take_app_length.
    + rewrite bool_decide_false by lia. split_and!; try done. rewrite Hcon, take_ge; [done|].
      cbn. unfold zlen in *. lia.
Qed.
End methods.

(** ** Sequences of calls *)
Section calls.
Context {V : Type}.

Inductive call :=
| CAdd (k : string) (v : V) | CGet (k : string) | CContains (k : string) | CPeek (k : string)
| CContainsOrAdd (k : string) (v : V) | CRemove (k : string) | CRemoveOldest | CGetOldest | CKeys
| CLen | CPurge.
Inductive answer :=
| ABool (b : bool) | ABools (ok evicted : bool) | AValue (v : option V)
| APair (kv : option (string * V)) | AKeys (ks : list string) | ALen (n : Z) | ADone.

Definition serve (o : call) (c : LRU V) : answer * LRU V :=
  match o with
  | CAdd k v => let '(b, c) := Add k v c in (ABool b, c)
  | CGet k => let '(r, c) := Get k c in (AValue r, c)
  | CContains k => (ABool (Contains k c), c)
  | CPeek k => (AValue (Peek k c), c)
  | CContainsOrAdd k v => let '((ok, ev), c) := ContainsOrAdd k v c in (ABools ok ev, c)
  | CRemove k => let '(b, c) := Remove k c in (ABool b, c)
  | CRemoveOldest => let '(kv, c) := RemoveOldest c in (APair kv, c)
  | CGetOldest => (APair (GetOldest c), c)
  | CKeys => (AKeys (Keys c), c)
  | CLen => (ALen (Len c), c)
  | CPurge => (ADone, Purge c)
  end.

(** The reference, for a cache of [size] pairs. *)
Definition full (size : Z) (k : string) (l : list (string * V)) : bool :=
  bool_decide (assoc k l = None ∧ zlen l = size).
Definition answer_spec (size : Z) (o : call) (l : list (string * V)) : answer * list (string * V) :=
  match o with
  | CAdd k v => (ABool (full size k l), put (Z.to_nat size) k v l)
  | CGet k => (AValue (assoc k l), use k l)
  | CContains k => (ABool (bool_decide (is_Some (assoc k l))), l)
  | CPeek k => (AValue (assoc k l), l)
  | CContainsOrAdd k v =>
      if decide (is_Some (assoc k l)) then (ABools true false, l)
      else (ABools false (full size k l), put (Z.to_nat size) k v l)
  | CRemove k => (ABool (bool_decide (is_Some (assoc k l))), forget k l)
  | CRemoveOldest => (APair (last l), take (length l - 1) l)
  | CGetOldest => (APair (last l), l)
  | CKeys => (AKeys (reverse l.*1), l)
  | CLen => (ALen (zlen l), l)
  | CPurge => (ADone, [])
  end.

Fixpoint serve_all (os : list call) (c : LRU V) : list answer :=
  match os with
  | [] => []
  | o :: os => let '(a, c) := serve o c in a :: serve_all os c
  end.
Fixpoint answers_spec (size : Z) (os : list call) (l : list (string * V)) : list answer :=
  match os with
  | [] => []
  | o :: os => let '(a, l) := answer_spec size o l in a :: answers_spec size os l
  end.

Lemma forget_length k (l : list (string * V)) : zlen (forget k l) ≤ zlen l.
Proof. unfold zlen. pose proof (length_filter (λ kv : string * V, kv.1 ≠ k) l). unfold forget. lia. Qed.

Lemma assoc_elem k v (l : list (string * V)) : assoc k l = Some v → (k, v) ∈ l.
Proof.
  intros Ha. induction l as [|[k' v'] l IH]; [done|]. cbn in Ha. case_decide as Hk; [|right; auto].
  injection Ha as <-. rewrite Hk. by left.
Qed.

Lemma forget_elem k kv (l : list (string * V)) : kv ∈ forget k l → kv ∈ l.
Proof. unfold forget. rewrite list_elem_of_filter. tauto. Qed.
Lemma use_elem k kv (l : list (string * V)) : kv ∈ use k l → kv ∈ l.
Proof.
  unfold use. destruct (assoc k l) as [v|] eqn:Ha; [|done].
  intros [->|Hin]%elem_of_cons; [by apply assoc_elem | by eapply forget_elem].
Qed.
Lemma put_elem n k v kv (l : list (string * V)) : kv ∈ put n k v l → kv = (k, v) ∨ kv ∈ l.
Proof.
  unfold put. intros Hin%(subseteq_take n).
  apply elem_of_cons in Hin as [->|Hin]; [by left | right; by eapply forget_elem].
Qed.

Lemma forget_length_lt k v (l : list (string * V)) : assoc k l = Some v → zlen (forget k l) < zlen l.
Proof.
  intros Ha%assoc_elem. assert (length (forget k l) < length l)%nat; [|unfold zlen; lia].
  apply length_filter_lt with (k, v); [done|]. intros Hn. by apply Hn.
Qed.

(** The reference never exceeds its size. *)
Lemma answer_spec_length size o l :
  0 < size → zlen l ≤ size → zlen (answer_spec size o l).2 ≤ size.
Proof.
  intros Hs Hl. assert (∀ k v, zlen (put (Z.to_nat size) k v l) ≤ size) as Hput.
  { intros k v. unfold put, zlen. rewrite length_take. lia. }
  destruct o; cbn [answer_spec snd]; try done.
  - unfold use. destruct (assoc k l) as [v|] eqn:E; [|done].
    apply forget_length_lt in E. rewrite zlen_cons. lia.
  - case_decide; [done | apply Hput].
  - pose proof (forget_length k l). lia.
  - unfold zlen in *. rewrite length_take. lia.
  - change (zlen []) with 0. lia.
Qed.

Lemma serve_spec o c :
  wf c →
  let '(a, c') := serve o c in
  let '(a', l') := answer_spec (lru_size c) o (contents c) in
  a = a' ∧ wf c' ∧ contents c' = l' ∧ lru_size c' = lru_size c.
Proof.
  intros Hw. pose proof Hw as [Hc Hlen].
  pose proof (answer_spec_length (lru_size c) o (contents c) (wf_size c Hc) Hlen) as Hbound.
  destruct o as [k v|k|k|k|k v|k| | | | |]; cbn [serve answer_spec] in *; cbn in Hbound.
  - pose proof (Add_spec c k v Hw) as H. destruct (Add k v c) as [b c'].
    destruct H as (-> & Hs & Hcon & Hz). split_and!; try done. split; [done|]. by rewrite Hcon, Hz.
  - pose proof (Get_spec c k Hc) as H. destruct (Get k c) as [r c'].
    destruct H as (-> & Hs & Hcon & Hz). split_and!; try done. split; [done|]. by rewrite Hcon, Hz.
  - by rewrite Contains_spec.
  - by rewrite Peek_spec.
  - unfold ContainsOrAdd. rewrite Contains_spec by done.
    destruct (decide (is_Some (assoc k (contents c)))) as [Hin|Hin];
      [by rewrite bool_decide_true | rewrite bool_decide_false by done].
    pose proof (Add_spec c k v Hw) as H. destruct (Add k v c) as [b c'].
    destruct H as (-> & Hs & Hcon & Hz). split_and!; try done. split; [done|]. by rewrite Hcon, Hz.
  - pose proof (Remove_spec c k Hc) as H. destruct (Remove k c) as [r c'].
    destruct H as (-> & Hs & Hcon & Hz). split_and!; try done. split; [done|]. by rewrite Hcon, Hz.
  - pose proof (RemoveOldest_spec c Hc) as H. destruct (RemoveOldest c) as [r c'].
    destruct H as (-> & Hs & Hcon & Hz). split_and!; try done. split; [done|]. by rewrite Hcon, Hz.
  - by rewrite GetOldest_spec.
  - by rewrite Keys_spec.
  - unfold Len, zlen. by rewrite wf_length.
  - split_and!; try done. split; [|done]. constructor; cbn; try apply Hc.
    + intros k e. rewrite lookup_empty. split; [done|]. intros [[]%not_elem_of_nil _].
    + constructor.
    + intros e []%not_elem_of_nil.
Qed.

(** A new cache. *)
Lemma NewLRU_wf size (c : LRU V) : NewLRU size = Some c → wf c ∧ contents c = [] ∧ lru_size c = size.
Proof.
  unfold NewLRU. destruct (Z.leb_spec size 0) as [|Hpos]; [done|]. intros [= <-].
  split_and!; try done. split; [|change (zlen (contents _)) with 0; cbn; lia]. constructor; cbn; try done.
  - intros k e. rewrite !lookup_empty. cbn. naive_solver.
  - constructor.
  - intros e []%not_elem_of_nil.
  - intros e. rewrite lookup_empty. by intros [? ?].
Qed.
End calls.
Arguments call : clear implicits.
Arguments answer : clear implicits.

(** ** Properties *)

(** C22. The cache of the webhook clients is an LRU cache: from its creation on, every
    sequence of calls is answered as by a list of at most [size] pairs in the order of their last
    use, from which an addition beyond [size] drops the last.  A cache of no positive size is not
    created. *)
Theorem lru_refines {V} (size : Z) (os : list (call V)) :
  match NewLRU size with
  | None => size ≤ 0
  | Some c => 0 < size ∧ serve_all os c = answers_spec size os []
  end.
Proof.
  pose proof (NewLRU_wf (V := V) size) as Hnew. unfold NewLRU in *.
  destruct (Z.leb_spec size 0) as [|Hpos]; [done|]. split; [done|].
  destruct (Hnew _ eq_refl) as (Hw & Hc & Hz). set (c0 := mkLRU size [] ∅ ∅ 0%nat) in *.
  clearbody c0. subst size. rewrite <- Hc. clear Hc Hpos Hnew. revert c0 Hw.
  induction os as [|o os IH]; intros c Hw; [done|].
  cbn. pose proof (serve_spec o c Hw) as H1.
  destruct (serve o c) as [a c'], (answer_spec (lru_size c) o (contents c)) as [a' l'].
  destruct H1 as (-> & Hw' & <- & Hz). f_equal. by rewrite IH, Hz.
Qed.
