(* ===== verification/Json.v ===== *)
(** * encoding/json of a webhook client configuration

    The cache of the webhook clients is keyed by [json.Marshal(h.ClientConfig)].  This file has what
    Go's encoder does on that struct (strings with the HTML-safe escapes, UTF-8 validation and
    base64 of byte slices included) and proves that on valid UTF-8 the encoding determines the
    configuration. *)
From S2P Require Import Prelude Types.
From Stdlib Require Import Ascii String.

(** ** Bytes *)
Definition byte (c : ascii) : Z := Z.of_nat (nat_of_ascii c).
Definition byte_at (s : string) (i : nat) : option Z := byte <$> String.get i s.
Definition quote : ascii := ascii_of_nat 34.
Definition backslash : ascii := ascii_of_nat 92.
Definition hex (n : Z) : ascii :=
  ascii_of_nat (Z.to_nat (if n <? 10 then 48 + n else 87 + n)).

(** ** Strings *)

(** [utf8.DecodeRuneInString]: the size of the rune the string starts with; nothing where Go returns
    [RuneError] with size 1.  [lo] and [hi] bound the second byte. *)
Definition rune_shape (b : Z) : option (nat * Z * Z) :=
  if b <? 128 then Some (1%nat, 0, 0)
  else if b <? 194 then None
  else if b <? 224 then Some (2%nat, 128, 191)
  else if b =? 224 then Some (3%nat, 160, 191)
  else if b =? 237 then Some (3%nat, 128, 159)
  else if b <? 240 then Some (3%nat, 128, 191)
  else if b =? 240 then Some (4%nat, 144, 191)
  else if b <? 244 then Some (4%nat, 128, 191)
  else if b =? 244 then Some (4%nat, 128, 143)
  else None.
Definition between (lo hi : Z) (b : option Z) : bool :=
  match b with Some b => (lo <=? b) && (b <=? hi) | None => false end.
Definition rune_size (s : string) : option nat :=
  b ← byte_at s 0;
  '(size, lo, hi) ← rune_shape b;
  if bool_decide (size = 1%nat) then Some 1%nat
  else if between lo hi (byte_at s 1) && (bool_decide (size < 3)%nat || between 128 191 (byte_at s 2))
          && (bool_decide (size < 4)%nat || between 128 191 (byte_at s 3))
  then Some size else None.

(** [htmlSafeSet] *)
Definition html_safe (b : Z) : bool :=
  (32 <=? b) && (b <? 128) && negb (existsb (Z.eqb b) [34; 38; 60; 62; 92]).

Definition escape_ascii (c : ascii) : string :=
  let b := byte c in
  if html_safe b then String c ""
  else if b =? 92 then "\\"
  else if b =? 34 then String backslash (String quote "")
  else if b =? 10 then "\n"
  else if b =? 13 then "\r"
  else if b =? 9 then "\t"
  else "\u00" +:+ String (hex (Z.shiftr b 4)) (String (hex (Z.land b 15)) "").

(** [encodeState.string] without the quotes.  [skip] bytes of the current rune are left; they are
    copied, or dropped when the rune was written as an escape. *)
Fixpoint escape (skip : nat) (copy : bool) (s : string) : string :=
  match s with
  | EmptyString => ""
  | String c s' =>
      match skip with
      | S k => if copy then String c (escape k copy s') else escape k copy s'
      | O =>
          match rune_size s with
          | None => "\ufffd" +:+ escape 0 true s'
          | Some 1%nat => escape_ascii c +:+ escape 0 true s'
          | Some n =>
              (* U+2028 and U+2029 *)
              if between 226 226 (byte_at s 0) && between 128 128 (byte_at s 1)
                 && between 168 169 (byte_at s 2)
              then "\u202" +:+ String (hex (default 0 (byte_at s 2) - 160)) (escape (n - 1) false s')
              else String c (escape (n - 1) true s')
          end
      end
  end.
Definition quoted (s : string) : string := String quote (escape 0 true s +:+ String quote "").

Fixpoint valid_from (skip : nat) (s : string) : bool :=
  match s with
  | EmptyString => true
  | String c s' =>
      match skip with
      | S k => valid_from k s'
      | O => match rune_size s with Some n => valid_from (n - 1) s' | None => false end
      end
  end.
(** [utf8.ValidString] *)
Definition valid_utf8 (s : string) : bool := valid_from 0 s.

(** ** Byte slices *)
Definition base64_char (n : Z) : ascii :=
  ascii_of_nat (Z.to_nat
    (if n <? 26 then 65 + n else if n <? 52 then 71 + n else if n <? 62 then n - 4
     else if n =? 62 then 43 else 47)).
Definition sextet (b1 b2 b3 : Z) (i : Z) : Z :=
  Z.land (Z.shiftr (Z.lor (Z.shiftl b1 16) (Z.lor (Z.shiftl b2 8) b3)) (18 - 6 * i)) 63.
(** [base64.StdEncoding] *)
Fixpoint base64 (s : string) : string :=
  match s with
  | EmptyString => ""
  | String a EmptyString =>
      String (base64_char (sextet (byte a) 0 0 0)) (String (base64_char (sextet (byte a) 0 0 1)) "==")
  | String a (String b EmptyString) =>
      String (base64_char (sextet (byte a) (byte b) 0 0))
        (String (base64_char (sextet (byte a) (byte b) 0 1))
           (String (base64_char (sextet (byte a) (byte b) 0 2)) "="))
  | String a (String b (String c s)) =>
      let x i := base64_char (sextet (byte a) (byte b) (byte c) i) in
      String (x 0) (String (x 1) (String (x 2) (String (x 3) (base64 s))))
  end.

(** ** The structs *)
Definition field (name value : string) : string := quoted name +:+ ":" +:+ value.
(** [omitempty] of a pointer. *)
Definition optional_field (name : string) (value : option string) : list string :=
  match value with Some v => [field name (quoted v)] | None => [] end.
Fixpoint comma_separated (l : list string) : string :=
  match l with
  | [] => ""
  | [x] => x
  | x :: l => x +:+ "," +:+ comma_separated l
  end.
Definition object (fields : list string) : string := "{" +:+ comma_separated fields +:+ "}".

Definition marshal_service (s : option ServiceReference) : string :=
  match s with
  | None => "null"
  | Some s =>
      object ([field "namespace" (quoted (sref_Namespace s)); field "name" (quoted (sref_Name s))]
              ++ optional_field "path" (sref_Path s))
  end.
Definition marshal_bytes (b : option string) : string :=
  match b with None => "null" | Some b => String quote (base64 b +:+ String quote "") end.
(** [json.Marshal] of a [WebhookClientConfig]; it cannot fail. *)
Definition json_Marshal (c : WebhookClientConfig) : string :=
  object (optional_field "url" (cc_URL c) ++
          [field "service" (marshal_service (cc_Service c));
           field "caBundle" (marshal_bytes (cc_CABundle c))]).

(** ** Unambiguous encodings *)

(** What [f] wrote can be told from what follows it. *)
Definition unambiguous {A} (P : A → Prop) (f : A → string) : Prop :=
  ∀ x y r r', P x → P y → f x +:+ r = f y +:+ r' → x = y ∧ r = r'.

Lemma app_assoc_s (a b c : string) : (a +:+ b) +:+ c = a +:+ (b +:+ c).
Proof. induction a as [|x a IH]; [done|]. exact (f_equal (String x) IH). Qed.

Lemma string_length_app a b : String.length (a +:+ b) = (String.length a + String.length b)%nat.
Proof. induction a as [|c a IH]; [done | exact (f_equal S IH)]. Qed.

Lemma app_cancel (a r r' : string) : a +:+ r = a +:+ r' → r = r'.
Proof. induction a as [|c a IH]; [done|]. intros [= H]. auto. Qed.

(** *** Strings *)

(** The inverse: the string of the bytes up to the closing quote, and the rest. *)
Definition unescape (h1 h2 h3 h4 : ascii) : string :=
  let digit h := let b := byte h in if b <? 58 then b - 48 else b - 87 in
  if bool_decide (h1 = hex 0) then String (ascii_of_nat (Z.to_nat (16 * digit h3 + digit h4))) ""
  else String (ascii_of_nat 226) (String (ascii_of_nat 128)
         (String (ascii_of_nat (Z.to_nat (160 + digit h4))) "")).
Definition unescape_simple (d : ascii) : string :=
  let b := byte d in
  String (ascii_of_nat (Z.to_nat (if b =? 110 then 10 else if b =? 114 then 13
                                  else if b =? 116 then 9 else b))) "".
Definition prepend (p : string) (r : option (string * string)) : option (string * string) :=
  (λ '(s, rest), (p +:+ s, rest)) <$> r.
Fixpoint unquote (s : string) : option (string * string) :=
  match s with
  | EmptyString => None
  | String c s1 =>
      if bool_decide (c = quote) then Some ("", s1)
      else if bool_decide (c = backslash) then
        match s1 with
        | String d s2 =>
            if bool_decide (d = ascii_of_nat 117) then
              match s2 with
              | String h1 (String h2 (String h3 (String h4 s3))) =>
                  prepend (unescape h1 h2 h3 h4) (unquote s3)
              | _ => None
              end
            else prepend (unescape_simple d) (unquote s2)
        | EmptyString => None
        end
      else prepend (String c "") (unquote s1)
  end.

Lemma prepend_app p q r : prepend p (prepend q r) = prepend (p +:+ q) r.
Proof. destruct r as [[s rest]|]; [|done]. cbn. by rewrite app_assoc_s. Qed.

Lemma byte_range c : 0 ≤ byte c < 256.
Proof. unfold byte. pose proof (nat_ascii_bounded c). lia. Qed.

Lemma byte_inj c d : byte c = byte d → c = d.
Proof.
  unfold byte. intros H. rewrite <- (ascii_nat_embedding c), <- (ascii_nat_embedding d).
  f_equal. lia.
Qed.

Lemma ascii_of_byte c : ascii_of_nat (Z.to_nat (byte c)) = c.
Proof. unfold byte. by rewrite Nat2Z.id, ascii_nat_embedding. Qed.

Lemma unquote_escape_ascii c r :
  byte c < 128 → unquote (escape_ascii c +:+ r) = prepend (String c "") (unquote r).
Proof. intros H. destruct c as [[] [] [] [] [] [] [] []]; first [done | reflexivity]. Qed.

Lemma unquote_literal c r :
  128 ≤ byte c → unquote (String c r) = prepend (String c "") (unquote r).
Proof.
  intros Hc. cbn [unquote]. rewrite !bool_decide_false; [done| |]; intros ->; by vm_compute in Hc.
Qed.

Lemma byte_at_0 c s : byte_at (String c s) 0 = Some (byte c).
Proof. done. Qed.
Lemma byte_at_S c s i : byte_at (String c s) (S i) = byte_at s i.
Proof. done. Qed.

Lemma between_some lo hi s i :
  between lo hi (byte_at s i) = true → ∃ b, byte_at s i = Some b ∧ lo ≤ b ≤ hi.
Proof. unfold between. destruct (byte_at s i) as [b|]; [|done]. intros [? ?]%andb_true_iff. exists b. split; [done | lia]. Qed.

(** The shapes of a rune. *)
Lemma rune_shape_cases b size lo hi :
  0 ≤ b → rune_shape b = Some (size, lo, hi) →
  (size = 1%nat ∧ b < 128) ∨
  (128 ≤ b ∧ 128 ≤ lo ∧ (size = 2%nat ∨ size = 3%nat ∨ size = 4%nat)).
Proof.
  intros Hb. unfold rune_shape. intros H. repeat (case_match; simplify_eq); lia.
Qed.

(** What [rune_size] knows of the bytes, by the size of the rune. *)
Lemma rune_size_1 c s : rune_size (String c s) = Some 1%nat → byte c < 128.
Proof.
  unfold rune_size. rewrite byte_at_0. cbn [mbind option_bind].
  destruct (rune_shape (byte c)) as [[[size lo] hi]|] eqn:E; [|done].
  apply rune_shape_cases in E; [|by pose proof (byte_range c); lia].
  cbn [mbind option_bind]. destruct E as [[_ ?]|(Hb & Hlo & Hs)]; [done|].
  rewrite bool_decide_false by lia. case_match; [|done]. intros [= ->]. lia.
Qed.

(** A longer rune: its bytes are literal for [unquote]. *)
Lemma rune_size_more c s n :
  rune_size (String c s) = Some (S (S n)) →
  ∃ p s', s = p +:+ s' ∧ String.length p = S n ∧ (S n ≤ 3)%nat ∧ 128 ≤ byte c ∧
    (∀ r, unquote (p +:+ r) = prepend p (unquote r)).
Proof.
  unfold rune_size. rewrite byte_at_0. cbn [mbind option_bind].
  destruct (rune_shape (byte c)) as [[[size lo] hi]|] eqn:E; [|done].
  apply rune_shape_cases in E; [|by pose proof (byte_range c); lia].
  destruct E as [[-> ?]|(Hb & Hlo & Hsize)]; [done|]. cbn [mbind option_bind].
  rewrite bool_decide_false by lia. rewrite !byte_at_S.
  destruct (between lo hi (byte_at s 0) && _ && _) eqn:Hbet; [|done]. intros [= ->].
  apply andb_true_iff in Hbet as [[H1 H2]%andb_true_iff H3].
  apply between_some in H1 as (b1 & H1 & R1). destruct s as [|c1 s]; [done|].
  rewrite byte_at_0 in H1. injection H1 as <-.
  destruct Hsize as [[= ->]|[[= ->]|[= ->]]].
  - exists (String c1 ""), s. split_and!; try done; [lia|]. intros r. apply unquote_literal. lia.
  - apply orb_true_iff in H2 as [H2|(b2 & H2 & R2)%between_some]; [done|].
    rewrite byte_at_S in H2. destruct s as [|c2 s]; [done|]. injection H2 as <-.
    exists (String c1 (String c2 "")), s. split_and!; try done; [lia|]. intros r.
    change (unquote (String c1 (String c2 r)) = prepend (String c1 (String c2 "")) (unquote r)).
    rewrite !unquote_literal by lia. by rewrite prepend_app.
  - apply orb_true_iff in H2 as [H2|(b2 & H2 & R2)%between_some]; [done|].
    apply orb_true_iff in H3 as [H3|(b3 & H3 & R3)%between_some]; [done|].
    rewrite byte_at_S in H2. rewrite !byte_at_S in H3. destruct s as [|c2 s]; [done|]. destruct s as [|c3 s]; [done|].
    injection H2 as <-. injection H3 as <-.
    exists (String c1 (String c2 (String c3 ""))), s. split_and!; try done.
    intros r. change (unquote (String c1 (String c2 (String c3 r))) =
      prepend (String c1 (String c2 (String c3 ""))) (unquote r)).
    rewrite !unquote_literal by lia. by rewrite !prepend_app.
Qed.

(** Skipped bytes. *)
Lemma escape_copy p s : escape (String.length p) true (p +:+ s) = p +:+ escape 0 true s.
Proof. induction p as [|c p IH]; [done|]. exact (f_equal (String c) IH). Qed.
Lemma escape_drop p s :
  p ≠ "" → escape (String.length p) false (p +:+ s) = escape 0 false s.
Proof.
  induction p as [|c p IH]; [done|]. intros _. destruct p as [|d p]; [done|]. by apply IH.
Qed.
Lemma valid_skip p s : valid_from (String.length p) (p +:+ s) = valid_from 0 s.
Proof. by induction p. Qed.

(** An escaped line separator. *)
Lemma unquote_separator n r :
  168 ≤ n ≤ 169 →
  unquote ("\u202" +:+ String (hex (n - 160)) r) =
  prepend (String (ascii_of_nat 226) (String (ascii_of_nat 128)
             (String (ascii_of_nat (Z.to_nat n)) ""))) (unquote r).
Proof. intros Hn. assert (n = 168 ∨ n = 169) as [-> | ->] by lia; reflexivity. Qed.

Lemma rune_size_226 c s n : byte c = 226 → rune_size (String c s) = Some n → n = 3%nat.
Proof.
  unfold rune_size. rewrite byte_at_0. cbn [mbind option_bind]. intros ->. cbn.
  repeat case_match; intros; by simplify_eq.
Qed.
Lemma escape_false s : escape 0 false s = escape 0 true s.
Proof. by destruct s. Qed.

(** [unquote] inverts [quoted]. *)
Lemma unquote_escape s r :
  valid_utf8 s = true → unquote (escape 0 true s +:+ String quote r) = Some (s, r).
Proof.
  remember (String.length s) as len eqn:Hlen. revert s Hlen.
  induction (lt_wf len) as [len _ IH]. intros s -> Hv. destruct s as [|c s]; [done|].
  unfold valid_utf8 in *. cbn [valid_from] in Hv.
  destruct (rune_size (String c s)) as [n|] eqn:Hn; [|done].
  change (escape 0 true (String c s)) with
    (match rune_size (String c s) with
     | None => "\ufffd" +:+ escape 0 true s
     | Some 1%nat => escape_ascii c +:+ escape 0 true s
     | Some n =>
         if between 226 226 (byte_at (String c s) 0) && between 128 128 (byte_at (String c s) 1)
            && between 168 169 (byte_at (String c s) 2)
         then "\u202" +:+ String (hex (default 0 (byte_at (String c s) 2) - 160)) (escape (n - 1) false s)
         else String c (escape (n - 1) true s)
     end). rewrite Hn.
  destruct n as [|[|n]].
  - exfalso. clear -Hn. unfold rune_size in Hn. rewrite byte_at_0 in Hn. cbn [mbind option_bind] in Hn.
    destruct (rune_shape (byte c)) as [[[size lo] hi]|] eqn:E; [|done].
    apply rune_shape_cases in E; [|by pose proof (byte_range c); lia]. cbn [mbind option_bind] in Hn.
    repeat case_match; simplify_eq; lia.
  - apply rune_size_1 in Hn. rewrite app_assoc_s, unquote_escape_ascii by done.
    rewrite (IH (String.length s)); [done | cbn; lia | done | done].
  - destruct (rune_size_more c s n Hn) as (p & s' & -> & Hp & Hle & Hc & Hlit).
    replace (S (S n) - 1)%nat with (String.length p) in * by lia.
    rewrite valid_skip in Hv. assert (p ≠ "") by by intros ->.
    rewrite escape_drop, escape_copy by done.
    assert (unquote (escape 0 true s' +:+ String quote r) = Some (s', r)) as HIH.
    { apply (IH (String.length s')); [|done|done]. cbn [String.length]. rewrite string_length_app. lia. }
    case_match eqn:Hsep.
    + apply andb_true_iff in Hsep as [[H0 H1]%andb_true_iff H2].
      apply between_some in H0 as (b0 & E0 & R0), H1 as (b1 & E1 & R1), H2 as (b2 & E2 & R2).
      rewrite byte_at_0 in E0. injection E0 as <-. assert (byte c = 226) as Hb by lia.
      assert (n = 1%nat) as -> by (pose proof (rune_size_226 _ _ _ Hb Hn); lia).
      destruct p as [|c1 [|c2 [|? ?]]]; try done. injection E1 as <-. injection E2 as <-.
      change (default 0 (byte_at (String c (String c1 (String c2 "") +:+ s')) 2)) with (byte c2).
      rewrite app_assoc_s.
      change (String (hex (byte c2 - 160)) (escape 0 false s') +:+ String quote r) with
        (String (hex (byte c2 - 160)) (escape 0 false s' +:+ String quote r)).
      rewrite unquote_separator, escape_false, HIH by done. cbn.
      rewrite ascii_of_byte. assert (byte c1 = 128) as H1 by lia.
      by rewrite <- (ascii_of_byte c), Hb, <- (ascii_of_byte c1), H1.
    + change (String c (p +:+ escape 0 true s') +:+ String quote r) with
        (String c ((p +:+ escape 0 true s') +:+ String quote r)).
      by rewrite app_assoc_s, unquote_literal, Hlit, HIH by done.
Qed.

Lemma quoted_unambiguous : unambiguous (λ s, valid_utf8 s = true) quoted.
Proof.
  intros x y r r' Hx Hy Heq.
  assert (∀ s r, quoted s +:+ r = String quote (escape 0 true s +:+ String quote r)) as Hq.
  { intros s r0. unfold quoted. change (String quote (?a) +:+ r0) with (String quote (a +:+ r0)).
    by rewrite app_assoc_s. }
  rewrite !Hq in Heq. injection Heq as Heq. apply (f_equal unquote) in Heq.
  rewrite !unquote_escape in Heq by done. by injection Heq as -> ->.
Qed.

(** *** Byte slices *)
Definition sextets : list Z := seqZ 0 64.
Lemma elem_sextets n : n ∈ sextets ↔ 0 ≤ n < 64.
Proof. unfold sextets. rewrite elem_of_seqZ. lia. Qed.

Definition pad : ascii := ascii_of_nat 61.
Lemma base64_char_inj n m :
  0 ≤ n < 64 → 0 ≤ m < 64 → base64_char n = base64_char m → n = m.
Proof.
  rewrite <- !elem_sextets. revert n m.
  assert (Forall (λ n, Forall (λ m, base64_char n = base64_char m → n = m) sextets) sextets) as H.
  { apply (bool_decide_unpack _). by vm_compute. }
  intros n m Hn Hm. rewrite Forall_forall in H. specialize (H n Hn). rewrite Forall_forall in H. auto.
Qed.
Lemma base64_char_plain n : 0 ≤ n < 64 → base64_char n ≠ pad ∧ base64_char n ≠ quote.
Proof.
  rewrite <- elem_sextets. revert n. apply Forall_forall. apply (bool_decide_unpack _). by vm_compute.
Qed.

Lemma lor_add x y k : 0 ≤ k → 0 ≤ y < 2 ^ k → Z.lor (Z.shiftl x k) y = x * 2 ^ k + y.
Proof.
  intros Hk Hy. assert (Z.land (Z.shiftl x k) y = 0) as Hland.
  { apply Z.bits_inj'. intros n Hn. rewrite Z.land_spec, Z.bits_0.
    destruct (decide (n < k)); [by rewrite Z.shiftl_spec_low|].
    rewrite <- (Z.mod_small y (2 ^ k)) by done. rewrite Z.mod_pow2_bits_high by lia.
    apply andb_false_r. }
  rewrite <- Z.shiftl_mul_pow2, Z.add_nocarry_lxor by done. symmetry. by apply Z.lxor_lor.
Qed.

(** The six bits of position [i], arithmetically. *)
Lemma sextet_div b1 b2 b3 i :
  0 ≤ b1 < 256 → 0 ≤ b2 < 256 → 0 ≤ b3 < 256 → 0 ≤ i ≤ 3 →
  sextet b1 b2 b3 i = (b1 * 65536 + b2 * 256 + b3) / 2 ^ (18 - 6 * i) mod 64.
Proof.
  intros. unfold sextet. rewrite (lor_add b2 b3 8) by lia. rewrite lor_add by lia.
  rewrite Z.shiftr_div_pow2 by lia. change 63 with (Z.ones 6). rewrite Z.land_ones by lia.
  do 2 f_equal. lia.
Qed.

Lemma sextet_range b1 b2 b3 i :
  0 ≤ b1 < 256 → 0 ≤ b2 < 256 → 0 ≤ b3 < 256 → 0 ≤ i ≤ 3 → 0 ≤ sextet b1 b2 b3 i < 64.
Proof. intros. rewrite sextet_div by done. apply Z.mod_pos_bound. lia. Qed.

(** Four characters determine three bytes; the first two the first, the first three the first two. *)
Lemma sextets_inj b1 b2 b3 c1 c2 c3 :
  0 ≤ b1 < 256 → 0 ≤ b2 < 256 → 0 ≤ b3 < 256 → 0 ≤ c1 < 256 → 0 ≤ c2 < 256 → 0 ≤ c3 < 256 →
  sextet b1 b2 b3 0 = sextet c1 c2 c3 0 → sextet b1 b2 b3 1 = sextet c1 c2 c3 1 →
  b1 = c1 ∧ (sextet b1 b2 b3 2 = sextet c1 c2 c3 2 → b2 = c2 ∧
             (sextet b1 b2 b3 3 = sextet c1 c2 c3 3 → b3 = c3)).
Proof.
  intros. rewrite !sextet_div in * by lia.
  change (2 ^ (18 - 6 * 0)) with 262144 in *. change (2 ^ (18 - 6 * 1)) with 4096 in *.
  change (2 ^ (18 - 6 * 2)) with 64 in *. change (2 ^ (18 - 6 * 3)) with 1 in *.
  rewrite !Z.div_1_r. split; [|intros; split; [|intros]]; Z.to_euclidean_division_equations; lia.
Qed.

(** The characters of a group. *)
Definition char64 (a b c : Z) (i : Z) : ascii := base64_char (sextet a b c i).
Lemma char64_plain a b c i :
  0 ≤ a < 256 → 0 ≤ b < 256 → 0 ≤ c < 256 → 0 ≤ i ≤ 3 → char64 a b c i ≠ pad ∧ char64 a b c i ≠ quote.
Proof. intros. by apply base64_char_plain, sextet_range. Qed.
Lemma char64_inj a b c a' b' c' i :
  0 ≤ a < 256 → 0 ≤ b < 256 → 0 ≤ c < 256 → 0 ≤ a' < 256 → 0 ≤ b' < 256 → 0 ≤ c' < 256 → 0 ≤ i ≤ 3 →
  char64 a b c i = char64 a' b' c' i → sextet a b c i = sextet a' b' c' i.
Proof. intros. apply base64_char_inj; by try apply sextet_range. Qed.

(** How an encoding with its closing quote goes on. *)
Lemma base64_0 r : base64 "" +:+ String quote r = String quote r.
Proof. done. Qed.
Lemma base64_1 a r :
  base64 (String a "") +:+ String quote r =
  String (char64 (byte a) 0 0 0) (String (char64 (byte a) 0 0 1)
    (String pad (String pad (String quote r)))).
Proof. done. Qed.
Lemma base64_2 a b r :
  base64 (String a (String b "")) +:+ String quote r =
  String (char64 (byte a) (byte b) 0 0) (String (char64 (byte a) (byte b) 0 1)
    (String (char64 (byte a) (byte b) 0 2) (String pad (String quote r)))).
Proof. done. Qed.
Lemma base64_3 a b c s r :
  base64 (String a (String b (String c s))) +:+ String quote r =
  String (char64 (byte a) (byte b) (byte c) 0) (String (char64 (byte a) (byte b) (byte c) 1)
    (String (char64 (byte a) (byte b) (byte c) 2) (String (char64 (byte a) (byte b) (byte c) 3)
      (base64 s +:+ String quote r)))).
Proof. done. Qed.

Lemma char64_clash a b c i :
  0 ≤ a < 256 → 0 ≤ b < 256 → 0 ≤ c < 256 → 0 ≤ i ≤ 3 →
  pad ≠ char64 a b c i ∧ quote ≠ char64 a b c i ∧ char64 a b c i ≠ pad ∧ char64 a b c i ≠ quote.
Proof. intros. destruct (char64_plain a b c i); auto. Qed.

(** Two different characters at the same place. *)
Ltac clash64 :=
  exfalso;
  match goal with
  | H : _ = char64 ?a ?b ?c ?i |- _ =>
      destruct (char64_clash a b c i) as (? & ? & ? & ?); [lia..|]; congruence
  | H : char64 ?a ?b ?c ?i = _ |- _ =>
      destruct (char64_clash a b c i) as (? & ? & ? & ?); [lia..|]; congruence
  end.

(** Equal first characters, equal bytes. *)
Lemma char64_bytes a b c a' b' c' :
  0 ≤ a < 256 → 0 ≤ b < 256 → 0 ≤ c < 256 → 0 ≤ a' < 256 → 0 ≤ b' < 256 → 0 ≤ c' < 256 →
  char64 a b c 0 = char64 a' b' c' 0 → char64 a b c 1 = char64 a' b' c' 1 →
  a = a' ∧ (char64 a b c 2 = char64 a' b' c' 2 → b = b' ∧
            (char64 a b c 3 = char64 a' b' c' 3 → c = c')).
Proof.
  intros Ha Hb Hc Ha' Hb' Hc' H0 H1.
  pose proof (λ i, char64_inj a b c a' b' c' i Ha Hb Hc Ha' Hb' Hc') as Hinj.
  destruct (sextets_inj a b c a' b' c') as [E1 E2]; try done; [apply Hinj; [lia | done]..|].
  split; [done|]. intros H2. destruct E2 as [E2 E3]; [apply Hinj; [lia | done]|].
  split; [done|]. intros H3. apply E3, Hinj; [lia | done].
Qed.

Lemma base64_unambiguous x y r r' :
  base64 x +:+ String quote r = base64 y +:+ String quote r' → x = y ∧ r = r'.
Proof.
  remember (String.length x) as len eqn:Hlen. revert x y Hlen.
  induction (lt_wf len) as [len _ IH]. intros x y -> Heq.
  pose proof byte_range as Hr.
  destruct x as [|a x]; [|destruct x as [|b x]; [|destruct x as [|c x]]];
    (destruct y as [|a' y]; [|destruct y as [|b' y]; [|destruct y as [|c' y]]]);
    rewrite ?base64_0, ?base64_1, ?base64_2, ?base64_3 in Heq;
    try pose proof (Hr a); try pose proof (Hr b); try pose proof (Hr c);
    try pose proof (Hr a'); try pose proof (Hr b'); try pose proof (Hr c'); clear Hr.
  all: injection Heq as; try clash64.
  - by subst.
  - destruct (char64_bytes (byte a) 0 0 (byte a') 0 0) as [->%byte_inj _]; try done; lia.
  - destruct (char64_bytes (byte a) (byte b) 0 (byte a') (byte b') 0) as [->%byte_inj E2]; try done; try lia.
    destruct E2 as [->%byte_inj _]; [done|]. by subst.
  - destruct (char64_bytes (byte a) (byte b) (byte c) (byte a') (byte b') (byte c'))
      as [->%byte_inj E2]; try done.
    destruct E2 as [->%byte_inj E3]; [done|]. rewrite (byte_inj c c') by by apply E3.
    destruct (IH (String.length x)) with x y as [-> ->]; try done. cbn. lia.
Qed.

(** *** The struct *)
Definition valid_opt (s : option string) : Prop := match s with Some s => valid_utf8 s = true | None => True end.
(** The texts of the configuration are valid UTF-8, as everything decoded from JSON is. *)
Definition valid_config (c : WebhookClientConfig) : Prop :=
  valid_opt (cc_URL c) ∧
  match cc_Service c with
  | Some s => valid_utf8 (sref_Namespace s) = true ∧ valid_utf8 (sref_Name s) = true ∧
              valid_opt (sref_Path s)
  | None => True
  end.
#[export] Instance valid_opt_dec s : Decision (valid_opt s).
Proof. destruct s; unfold valid_opt; apply _. Defined.
#[export] Instance valid_config_dec c : Decision (valid_config c).
Proof. unfold valid_config. destruct (cc_Service c); apply _. Defined.

(** The three parts of the object, each up to the next one. *)
Definition url_part (u : option string) (rest : string) : string :=
  match u with
  | Some u => quoted "url" +:+ (":" +:+ (quoted u +:+ ("," +:+ (quoted "service" +:+ rest))))
  | None => quoted "service" +:+ rest
  end.
Definition path_part (p : option string) (rest : string) : string :=
  match p with
  | Some p => "," +:+ (quoted "path" +:+ (":" +:+ (quoted p +:+ ("}" +:+ rest))))
  | None => "}" +:+ rest
  end.
Definition service_part (s : option ServiceReference) (rest : string) : string :=
  match s with
  | Some s =>
      "{" +:+ (quoted "namespace" +:+ (":" +:+ (quoted (sref_Namespace s) +:+ ("," +:+
        (quoted "name" +:+ (":" +:+ (quoted (sref_Name s) +:+ path_part (sref_Path s) rest)))))))
  | None => "null" +:+ rest
  end.
Definition bytes_part (b : option string) (rest : string) : string :=
  match b with
  | Some b => String quote (base64 b +:+ String quote rest)
  | None => "null" +:+ rest
  end.

Lemma marshal_service_part s rest : marshal_service s +:+ rest = service_part s rest.
Proof.
  destruct s as [[ns n [p|]]|]; [| |done];
    cbn [marshal_service service_part path_part optional_field object comma_separated app sref_Path
      sref_Name sref_Namespace]; unfold object, field; cbn [comma_separated app];
    by rewrite !app_assoc_s.
Qed.
Lemma marshal_bytes_part b rest : marshal_bytes b +:+ rest = bytes_part b rest.
Proof.
  destruct b as [b|]; [|done]. cbn [marshal_bytes bytes_part].
  change (String quote (?a) +:+ rest) with (String quote (a +:+ rest)). by rewrite app_assoc_s.
Qed.
Lemma json_Marshal_parts c :
  json_Marshal c = "{" +:+ url_part (cc_URL c) (":" +:+ service_part (cc_Service c)
    ("," +:+ (quoted "caBundle" +:+ (":" +:+ bytes_part (cc_CABundle c) "}")))).
Proof.
  rewrite <- marshal_bytes_part, <- marshal_service_part. unfold json_Marshal.
  destruct (cc_URL c); cbn [optional_field app url_part]; unfold object, field;
    cbn [comma_separated]; by rewrite !app_assoc_s.
Qed.

Lemma url_part_inj u u' r r' :
  valid_opt u → valid_opt u' → url_part u r = url_part u' r' → u = u' ∧ r = r'.
Proof.
  intros Hu Hu' Heq. destruct u as [u|], u' as [u'|]; cbn [url_part] in Heq; [| by vm_compute in Heq..|].
  - apply app_cancel, app_cancel in Heq. apply quoted_unambiguous in Heq as [-> Heq]; [|done..].
    by apply app_cancel, app_cancel in Heq as ->.
  - by apply app_cancel in Heq as ->.
Qed.
Lemma path_part_inj p p' r r' :
  valid_opt p → valid_opt p' → path_part p r = path_part p' r' → p = p' ∧ r = r'.
Proof.
  intros Hp Hp' Heq. destruct p as [p|], p' as [p'|]; cbn [path_part] in Heq; [| done..|].
  - apply app_cancel, app_cancel, app_cancel in Heq.
    apply quoted_unambiguous in Heq as [-> Heq]; [|done..]. by apply app_cancel in Heq as ->.
  - by apply app_cancel in Heq as ->.
Qed.
Lemma service_part_inj c c' r r' :
  valid_config c → valid_config c' →
  service_part (cc_Service c) r = service_part (cc_Service c') r' →
  cc_Service c = cc_Service c' ∧ r = r'.
Proof.
  intros [_ Hc] [_ Hc'] Heq.
  destruct (cc_Service c) as [[ns n p]|], (cc_Service c') as [[ns' n' p']|];
    cbn [service_part sref_Namespace sref_Name sref_Path] in *; [| done..|].
  - destruct Hc as (? & ? & ?), Hc' as (? & ? & ?).
    apply app_cancel, app_cancel, app_cancel, quoted_unambiguous in Heq as [-> Heq]; [|done..].
    apply app_cancel, app_cancel, app_cancel, quoted_unambiguous in Heq as [-> Heq]; [|done..].
    by apply path_part_inj in Heq as [-> ->].
  - by apply app_cancel in Heq as ->.
Qed.
Lemma bytes_part_inj b b' r r' : bytes_part b r = bytes_part b' r' → b = b' ∧ r = r'.
Proof.
  intros Heq. destruct b as [b|], b' as [b'|]; cbn [bytes_part] in Heq; [| done..|].
  - injection Heq as Heq. by apply base64_unambiguous in Heq as [-> ->].
  - by apply app_cancel in Heq as ->.
Qed.

(** ** Properties *)

(** The cache key identifies the configuration: two webhook client
    configurations with the same JSON encoding are equal, if their texts are valid UTF-8. *)
Theorem json_Marshal_injective c c' :
  valid_config c → valid_config c' → json_Marshal c = json_Marshal c' → c = c'.
Proof.
  intros Hc Hc' Heq. rewrite !json_Marshal_parts in Heq. apply app_cancel in Heq.
  apply url_part_inj in Heq as [Hu Heq]; [| apply Hc | apply Hc']. apply app_cancel in Heq.
  apply service_part_inj in Heq as [Hs Heq]; [|done..].
  apply app_cancel, app_cancel, app_cancel in Heq. apply bytes_part_inj in Heq as [Hb _].
  destruct c, c'. cbn in *. by subst.
Qed.

(** A configuration and one with the same bytes. *)
Lemma json_Marshal_injective_witness :
  let c := mkWebhookClientConfig (Some "https://example.com/<notify>&") None (Some "ca") in
  valid_config c ∧ c = c.
Proof.
  split.
  - apply (bool_decide_unpack _); by vm_compute.
  - apply (json_Marshal_injective
      (mkWebhookClientConfig (Some "https://example.com/<notify>&") None (Some "ca"))
      (mkWebhookClientConfig (Some "https://example.com/<notify>&") None (Some "ca"))).
    + apply (bool_decide_unpack _); by vm_compute.
    + apply (bool_decide_unpack _); by vm_compute.
    + reflexivity.
Defined.
