(* ===== verification/Labels.v ===== *)
(** * Label selectors

    The vendored k8s.io/apimachinery code by which the operator decides which pods and services
    belong to a job: [metav1.LabelSelectorAsSelector], [labels.NewRequirement] with the label
    validation, [Requirement.Matches], [internalSelector.Matches].  [selector_matches_iff] states
    what it comes to for the operator: a selector made of valid labels matches exactly the label
    sets that contain them, in whatever order Go visits the map. *)
From S2P Require Import Prelude Types Runtime Strconv.
From Stdlib Require Import Ascii.

(** ** apimachinery/pkg/util/validation *)

Definition in_range (lo hi : nat) (c : ascii) : bool :=
  (lo <=? nat_of_ascii c)%nat && (nat_of_ascii c <=? hi)%nat.
Definition is_digit (c : ascii) : bool := in_range 48 57 c.
Definition is_lower (c : ascii) : bool := in_range 97 122 c.
Definition is_upper (c : ascii) : bool := in_range 65 90 c.
(** [qnameCharFmt] *)
Definition qnameChar (c : ascii) : bool := is_upper c || is_lower c || is_digit c.
(** [qnameExtCharFmt] *)
Definition qnameExtChar (c : ascii) : bool :=
  qnameChar c || bool_decide (c = "-"%char) || bool_decide (c = "_"%char)
  || bool_decide (c = "."%char).
(** [dns1123LabelFmt]: its first and last characters, and the ones between. *)
Definition dnsChar (c : ascii) : bool := is_lower c || is_digit c.
Definition dnsExtChar (c : ascii) : bool := dnsChar c || bool_decide (c = "-"%char).

(** [^(first ext star)?first$]: non-empty, [ext] throughout, [first] at both ends. *)
Definition match_ends (first ext : ascii → bool) (s : string) : bool :=
  match String.list_ascii_of_string s with
  | [] => false
  | c :: cs => first c && forallb ext (c :: cs) && first (List.last cs c)
  end.
Definition qualifiedNameRegexp (s : string) : bool := match_ends qnameChar qnameExtChar s.
Definition labelValueRegexp (s : string) : bool := bool_decide (s = "") || qualifiedNameRegexp s.
Definition dns1123LabelRegexp (s : string) : bool := match_ends dnsChar dnsExtChar s.

(** [strings.Split(s, sep)] for a one-byte separator. *)
Fixpoint Split (s : string) (sep : ascii) : list string :=
  match s with
  | EmptyString => [""]
  | String c s' =>
      if decide (c = sep) then "" :: Split s' sep
      else match Split s' sep with
           | p :: ps => String c p :: ps
           | [] => [String c ""]
           end
  end.
(** Labels separated by dots: a label holds no dot, so the regular expression of the whole is the
    one of every part. *)
Definition dns1123SubdomainRegexp (s : string) : bool := forallb dns1123LabelRegexp (Split s ".").

Definition str_len (s : string) : Z := Z.of_nat (String.length s).
Definition MaxLenError (length : Z) : string :=
  "must be no more than " +:+ FormatInt length +:+ " characters".
Definition EmptyError : string := "must be non-empty".
(** The texts of [RegexError] without the examples it appends. *)
Definition qualifiedNameErrMsg :=
  "must consist of alphanumeric characters, '-', '_' or '.', and must start and end with an alphanumeric character".
Definition labelValueErrMsg :=
  "a valid label must be an empty string or consist of alphanumeric characters, '-', '_' or '.', and must start and end with an alphanumeric character".
Definition dns1123SubdomainErrorMsg :=
  "a DNS-1123 subdomain must consist of lower case alphanumeric characters, '-' or '.', and must start and end with an alphanumeric character".

Definition IsDNS1123Subdomain (value : string) : list string :=
  (if 253 <? str_len value then [MaxLenError 253] else []) ++
  (if dns1123SubdomainRegexp value then [] else [dns1123SubdomainErrorMsg]).

Definition check_name (name : string) : list string :=
  (if str_len name =? 0 then ["name part " +:+ EmptyError]
   else if 63 <? str_len name then ["name part " +:+ MaxLenError 63] else []) ++
  (if qualifiedNameRegexp name then [] else ["name part " +:+ qualifiedNameErrMsg]).
Definition IsQualifiedName (value : string) : list string :=
  match Split value "/" with
  | [name] => check_name name
  | [prefix; name] =>
      (if str_len prefix =? 0 then ["prefix part " +:+ EmptyError]
       else (λ m, "prefix part " +:+ m) <$> IsDNS1123Subdomain prefix) ++ check_name name
  | _ => ["a qualified name " +:+ qualifiedNameErrMsg]
  end.
Definition IsValidLabelValue (value : string) : list string :=
  (if 63 <? str_len value then [MaxLenError 63] else []) ++
  (if labelValueRegexp value then [] else [labelValueErrMsg]).

(** ** apimachinery/pkg/labels *)

(** [selection.Operator] *)
Inductive Operator :=
| DoesNotExist | Equals | DoubleEquals | In | NotEquals | NotIn | Exists | GreaterThan | LessThan.

Record Requirement := mkRequirement {
  req_key : string; req_operator : Operator; req_strValues : list string }.

Definition validateLabelKey (k : string) : option error :=
  match IsQualifiedName k with
  | [] => None
  | errs => Some (Errorf ("invalid label key " +:+ k +:+ ": " +:+ String.concat "; " errs) None)
  end.
Definition validateLabelValue (v : string) : option error :=
  match IsValidLabelValue v with
  | [] => None
  | errs => Some (Errorf ("invalid label value: " +:+ v +:+ ": " +:+ String.concat "; " errs) None)
  end.

Fixpoint first_error {A} (f : A → option error) (l : list A) : option error :=
  match l with
  | [] => None
  | x :: l' => match f x with Some e => Some e | None => first_error f l' end
  end.

(** The number and kind of values an operator takes. *)
Definition operator_arity (op : Operator) (vals : list string) : option error :=
  match op with
  | In | NotIn =>
      if decide (vals = [])
      then Some (Errorf "for 'in', 'notin' operators, values set can't be empty" None) else None
  | Equals | DoubleEquals | NotEquals =>
      if decide (length vals = 1%nat) then None
      else Some (Errorf "exact-match compatibility requires one single value" None)
  | Exists | DoesNotExist =>
      if decide (vals = []) then None
      else Some (Errorf "values set must be empty for exists and does not exist" None)
  | GreaterThan | LessThan =>
      if decide (length vals = 1%nat) then
        first_error (λ v, match ParseInt v with
          | inl _ => None
          | inr _ => Some (Errorf "for 'Gt', 'Lt' operators, the value must be an integer" None)
          end) vals
      else Some (Errorf "for 'Gt', 'Lt' operators, exactly one value is required" None)
  end.

(** The stored values are sorted by the source; only membership and, for gt and lt, the single
    value are read, so the order is left as given. *)
Definition NewRequirement (key : string) (op : Operator) (vals : list string)
  : Requirement + error :=
  match validateLabelKey key with
  | Some err => inr err
  | None =>
      match operator_arity op vals with
      | Some err => inr err
      | None =>
          match first_error validateLabelValue vals with
          | Some err => inr err
          | None => inl (mkRequirement key op vals)
          end
      end
  end.

Definition hasValue (r : Requirement) (value : string) : bool :=
  existsb (λ v, bool_decide (v = value)) (req_strValues r).

Definition compare_values (r : Requirement) (v : string) (cmp : Z → Z → bool) : bool :=
  match ParseInt v with
  | inr _ => false
  | inl lsValue =>
      match req_strValues r with
      | [s] => match ParseInt s with inl rValue => cmp lsValue rValue | inr _ => false end
      | _ => false
      end
  end.

(** [Requirement.Matches] on a [labels.Set]. *)
Definition Requirement_Matches (r : Requirement) (ls : Labels) : bool :=
  match req_operator r with
  | In | Equals | DoubleEquals =>
      match ls !! req_key r with None => false | Some v => hasValue r v end
  | NotIn | NotEquals =>
      match ls !! req_key r with None => true | Some v => negb (hasValue r v) end
  | Exists => bool_decide (is_Some (ls !! req_key r))
  | DoesNotExist => negb (bool_decide (is_Some (ls !! req_key r)))
  | GreaterThan =>
      match ls !! req_key r with None => false | Some v => compare_values r v Z.gtb end
  | LessThan =>
      match ls !! req_key r with None => false | Some v => compare_values r v Z.ltb end
  end.

(** [labels.Selector]: the selector that matches nothing, or the conjunction of requirements.
    The requirements are kept sorted by key by the source for printing; the order does not matter
    for matching ([Matches_perm]) and is the order of insertion here. *)
Inductive Selector :=
| NothingSelector
| internalSelector (reqs : list Requirement).
Definition Everything : Selector := internalSelector [].
Definition Selector_Add (sel : Selector) (r : Requirement) : Selector :=
  match sel with
  | NothingSelector => NothingSelector
  | internalSelector reqs => internalSelector (reqs ++ [r])
  end.
Definition Selector_Matches (sel : Selector) (ls : Labels) : bool :=
  match sel with
  | NothingSelector => false
  | internalSelector reqs => forallb (λ r, Requirement_Matches r ls) reqs
  end.
Definition Selector_Empty (sel : Selector) : bool :=
  match sel with
  | NothingSelector => false
  | internalSelector reqs => bool_decide (reqs = [])
  end.

(** ** apimachinery/pkg/apis/meta/v1 *)
Record LabelSelectorRequirement := mkLabelSelectorRequirement {
  lsr_Key : string; lsr_Operator : string; lsr_Values : list string }.
Record LabelSelector := mkLabelSelector {
  MatchLabels : Labels; MatchExpressions : list LabelSelectorRequirement }.

Definition expression_operator (op : string) : Operator + error :=
  if decide (op = "In") then inl In
  else if decide (op = "NotIn") then inl NotIn
  else if decide (op = "Exists") then inl Exists
  else if decide (op = "DoesNotExist") then inl DoesNotExist
  else inr (Errorf (op +:+ " is not a valid pod selector operator") None).

Fixpoint add_labels (kvs : list (string * string)) (selector : Selector) : Selector + error :=
  match kvs with
  | [] => inl selector
  | (k, v) :: kvs' =>
      match NewRequirement k Equals [v] with
      | inr err => inr err
      | inl r => add_labels kvs' (Selector_Add selector r)
      end
  end.
Fixpoint add_expressions (exprs : list LabelSelectorRequirement) (selector : Selector)
  : Selector + error :=
  match exprs with
  | [] => inl selector
  | expr :: exprs' =>
      match expression_operator (lsr_Operator expr) with
      | inr err => inr err
      | inl op =>
          match NewRequirement (lsr_Key expr) op (lsr_Values expr) with
          | inr err => inr err
          | inl r => add_expressions exprs' (Selector_Add selector r)
          end
      end
  end.

Definition LabelSelectorAsSelector `{!GoRuntime} (ps : option LabelSelector) : Selector + error :=
  match ps with
  | None => inl NothingSelector
  | Some ps =>
      if decide (Z.of_nat (size (MatchLabels ps)) + zlen (MatchExpressions ps) = 0)
      then inl Everything
      else
        match add_labels (map_range (MatchLabels ps)) (internalSelector []) with
        | inr err => inr err
        | inl selector => add_expressions (MatchExpressions ps) selector
        end
  end.

(** [labels.Set.AsSelectorPreValidated].  *)
Definition AsSelectorPreValidated `{!GoRuntime} (ls : Labels) : Selector :=
  internalSelector ((λ kv : string * string, mkRequirement kv.1 Equals [kv.2]) <$> map_range ls).

(** ** The meaning of the selectors the operator builds *)

(** Labels the API accepts. *)
Definition valid_label (k v : string) : Prop := IsQualifiedName k = [] ∧ IsValidLabelValue v = [].
Definition valid_labels (ls : Labels) : Prop := map_Forall valid_label ls.
#[export] Instance valid_label_dec k v : Decision (valid_label k v).
Proof. unfold valid_label. apply _. Defined.

Lemma NewRequirement_Equals k v :
  valid_label k v → NewRequirement k Equals [v] = inl (mkRequirement k Equals [v]).
Proof.
  intros [Hk Hv]. unfold NewRequirement, validateLabelKey. rewrite Hk. cbn.
  unfold validateLabelValue. by rewrite Hv.
Qed.

Lemma NewRequirement_Equals_inv k v r :
  NewRequirement k Equals [v] = inl r → valid_label k v ∧ r = mkRequirement k Equals [v].
Proof.
  unfold NewRequirement, validateLabelKey, valid_label. cbn. unfold validateLabelValue.
  destruct (IsQualifiedName k), (IsValidLabelValue v); naive_solver.
Qed.

Lemma Matches_Equals k v (ls : Labels) :
  Requirement_Matches (mkRequirement k Equals [v]) ls = true ↔ ls !! k = Some v.
Proof.
  unfold Requirement_Matches, hasValue. cbn. destruct (ls !! k) as [w|]; [|naive_solver].
  rewrite orb_false_r, bool_decide_eq_true. naive_solver.
Qed.

Lemma Matches_perm reqs reqs' ls :
  reqs ≡ₚ reqs' →
  Selector_Matches (internalSelector reqs) ls = Selector_Matches (internalSelector reqs') ls.
Proof.
  cbn. induction 1; cbn; [done | congruence | | congruence].
  by rewrite !andb_assoc, (andb_comm (Requirement_Matches y ls)).
Qed.

Lemma forallb_equals (kvs : list (string * string)) (ls : Labels) :
  forallb (λ r, Requirement_Matches r ls)
    ((λ kv : string * string, mkRequirement kv.1 Equals [kv.2]) <$> kvs) = true ↔
  Forall (λ kv, ls !! kv.1 = Some kv.2) kvs.
Proof.
  induction kvs as [|[k v] kvs IH]; [by split|]. rewrite fmap_cons. cbn [forallb fst snd].
  rewrite andb_true_iff, IH, Matches_Equals, Forall_cons. done.
Qed.

Lemma add_labels_app kvs reqs :
  Forall (λ kv, valid_label kv.1 kv.2) kvs →
  add_labels kvs (internalSelector reqs) =
  inl (internalSelector (reqs ++ ((λ kv : string * string, mkRequirement kv.1 Equals [kv.2]) <$> kvs))).
Proof.
  intros Hv. revert reqs. induction Hv as [|[k v] kvs Hkv _ IH]; intros reqs.
  { cbn. by rewrite app_nil_r. }
  cbn [add_labels]. rewrite NewRequirement_Equals by done. cbn [Selector_Add].
  rewrite IH, fmap_cons, <- app_assoc. done.
Qed.

Lemma add_labels_valid kvs sel sel' :
  add_labels kvs sel = inl sel' → Forall (λ kv, valid_label kv.1 kv.2) kvs.
Proof.
  revert sel. induction kvs as [|[k v] kvs IH]; intros sel; [by constructor|]. cbn [add_labels].
  destruct (NewRequirement k Equals [v]) as [r|] eqn:E; [|done].
  apply NewRequirement_Equals_inv in E as [Hv ->]. intros Hadd. constructor; eauto.
Qed.

Section runtime.
Context `{!GoRuntime}.

Lemma map_range_Forall (P : string → string → Prop) (m : Labels) :
  Forall (λ kv, P kv.1 kv.2) (map_range m) ↔ map_Forall P m.
Proof. rewrite map_range_perm, map_Forall_to_list. apply Forall_iff. by intros []. Qed.

Lemma equals_all_match (l ls : Labels) :
  forallb (λ r, Requirement_Matches r ls)
    ((λ kv : string * string, mkRequirement kv.1 Equals [kv.2]) <$> map_range l) = true ↔ l ⊆ ls.
Proof.
  rewrite forallb_equals, (map_range_Forall (λ k v, ls !! k = Some v)), map_subseteq_spec. done.
Qed.

(** The selector of a set of valid labels exists and matches the supersets. *)
Lemma LabelSelectorAsSelector_labels (l : Labels) :
  valid_labels l →
  ∃ sel, LabelSelectorAsSelector (Some (mkLabelSelector l [])) = inl sel ∧
         ∀ ls, Selector_Matches sel ls = true ↔ l ⊆ ls.
Proof.
  intros Hl. unfold LabelSelectorAsSelector. cbn [MatchLabels MatchExpressions].
  case_decide as Hsz.
  - exists Everything. split; [done|]. intros ls. change (zlen []) with 0 in Hsz.
    assert (l = ∅) as -> by (apply map_size_empty_iff; lia).
    split; [intros _; apply map_empty_subseteq | done].
  - rewrite add_labels_app by (by apply (map_range_Forall valid_label)).
    eexists. split; [done|]. intros ls. apply equals_all_match.
Qed.

Lemma LabelSelectorAsSelector_error (l : Labels) sel :
  LabelSelectorAsSelector (Some (mkLabelSelector l [])) = inl sel → valid_labels l.
Proof.
  unfold LabelSelectorAsSelector. cbn [MatchLabels MatchExpressions]. case_decide as Hsz.
  - intros _. change (zlen []) with 0 in Hsz.
    assert (l = ∅) as -> by (apply map_size_empty_iff; lia). apply map_Forall_empty.
  - destruct (add_labels _ _) eqn:E; [|done]. intros _.
    by apply add_labels_valid, (map_range_Forall valid_label) in E.
Qed.

Lemma AsSelectorPreValidated_Empty (ls : Labels) :
  Selector_Empty (AsSelectorPreValidated ls) = bool_decide (ls = ∅).
Proof.
  unfold Selector_Empty, AsSelectorPreValidated. apply bool_decide_ext.
  pose proof (map_range_perm ls) as Hp. split.
  - intros E%fmap_nil_inv. rewrite E in Hp. apply Permutation_nil_l in Hp. by apply map_to_list_empty_iff.
  - intros ->. rewrite map_to_list_empty in Hp. by apply Permutation_nil_r in Hp as ->.
Qed.
End runtime.

(** ** Properties *)

(** The selector of a label map exists exactly if every label is valid, and
    then it matches exactly the label sets that contain the map, in whatever order Go visits it. *)
Theorem selector_matches_iff `{!GoRuntime} (l : Labels) :
  match LabelSelectorAsSelector (Some (mkLabelSelector l [])) with
  | inl sel => valid_labels l ∧ ∀ ls, Selector_Matches sel ls = true ↔ l ⊆ ls
  | inr _ => ¬ valid_labels l
  end.
Proof.
  destruct (LabelSelectorAsSelector _) as [sel|err] eqn:E.
  - apply LabelSelectorAsSelector_error in E as Hl. split; [done|].
    destruct (LabelSelectorAsSelector_labels l Hl) as (sel' & E' & Hm).
    rewrite E in E'. by injection E' as <-.
  - intros Hl. destruct (LabelSelectorAsSelector_labels l Hl) as (sel' & E' & _). congruence.
Qed.
