(* ===== verification/Naming.v ===== *)
(** * Names, labels and environment of the objects of a job

    The functions of pkg/mx/handler.go that compute what is written into the pods and the service
    of a job: [genLabels], [serviceName], [genExpectationPodsKey], [genMXConfigEnv]. *)
From S2P Require Import Prelude Types Runtime Strconv Labels.

(** ** Definitions *)
Definition mxLabelReplicaType := "mx-replica-type".
Definition mxLabelJobName := "mxjob-name".
Definition mxLabelGroupName := "group-name".

Definition controllerName := "mxnet-operator".
Definition defaultPsRootPort : Z := 9091.

Definition genLabels (mxjob : MXJob) (rt : MXReplicaType) : Labels :=
  let l : Labels :=
    <[mxLabelJobName := job_Name mxjob]> (<[mxLabelGroupName := gv_Group SchemeGroupVersion]> ∅) in
  if decide (rt ≠ "") then <[mxLabelReplicaType := rt]> l else l.

Definition serviceName (mxjob : MXJob) (rt : MXReplicaType) : string :=
  job_Name mxjob +:+ "-" +:+ rt.

Definition genExpectationPodsKey (mxjobKey : string) (replicaType : MXReplicaType) : string :=
  mxjobKey +:+ "/" +:+ ToLower replicaType +:+ "/pods".

(** The [PS_VERBOSE] entry of one replica type. *)
Definition add_verbose (psVerbose : option Z) (ret : Labels) : Labels :=
  match psVerbose with
  | Some v => <["PS_VERBOSE" := FormatInt v]> ret
  | None => ret
  end.

(** The scheduler, server and worker specs and the replica counts are dereferenced without a
    check. *)
Definition genMXConfigEnv {S} (mxjob : MXJob) (rtype : MXReplicaType) : M S Labels :=
  let specs := job_specs mxjob in
  let ret : Labels := <["DMLC_PS_ROOT_URI" := serviceName mxjob MXReplicaTypeScheduler]> ∅ in
  scheduler ← deref (specs_Scheduler specs);
  let port := default defaultPsRootPort (spec_PsRootPort scheduler) in
  let ret := <["DMLC_PS_ROOT_PORT" := FormatInt port]> ret in
  server ← deref (specs_Server specs);
  servers ← deref (spec_Replicas server);
  let ret := <["DMLC_NUM_SERVER" := FormatInt servers]> ret in
  worker ← deref (specs_Worker specs);
  workers ← deref (spec_Replicas worker);
  let ret := <["DMLC_NUM_WORKER" := FormatInt workers]> ret in
  mret
    (if decide (rtype = MXReplicaTypeScheduler) then
       add_verbose (spec_PsVerbose scheduler) (<["DMLC_ROLE" := MXReplicaTypeScheduler]> ret)
     else if decide (rtype = MXReplicaTypeServer) then
       add_verbose (spec_PsVerbose server) (<["DMLC_ROLE" := MXReplicaTypeServer]> ret)
     else if decide (rtype = MXReplicaTypeWorker) then
       add_verbose (spec_PsVerbose worker) (<["DMLC_ROLE" := MXReplicaTypeWorker]> ret)
     else ret).

(** ** What a well-formed job is

    The three replica specs are present, each with a replica count that is not negative and a pod
    template: what deploy/crd_templ.yaml requires, and what the handler relies on. *)
Definition spec_ok (spec : option MXReplicaSpec) : Prop :=
  match spec with
  | Some s => (∃ n, spec_Replicas s = Some n ∧ 0 ≤ n < 2 ^ 31) ∧ is_Some (spec_Template s)
  | None => False
  end.
Definition job_ok (mxjob : MXJob) : Prop :=
  spec_ok (specs_Scheduler (job_specs mxjob)) ∧
  spec_ok (specs_Server (job_specs mxjob)) ∧
  spec_ok (specs_Worker (job_specs mxjob)).

#[export] Instance spec_ok_dec spec : Decision (spec_ok spec).
Proof.
  destruct spec as [s|]; [|right; by intros []]. unfold spec_ok. apply and_dec; [|apply _].
  destruct (spec_Replicas s) as [n|]; [|by right; intros (? & ? & _)].
  destruct (decide (0 ≤ n < 2 ^ 31)) as [H|H]; [left; by exists n | right].
  intros (n' & [= ->] & Hn). contradiction.
Defined.
#[export] Instance job_ok_dec mxjob : Decision (job_ok mxjob).
Proof. unfold job_ok. apply _. Defined.

Definition is_replica_type (rt : MXReplicaType) : Prop :=
  rt = MXReplicaTypeScheduler ∨ rt = MXReplicaTypeServer ∨ rt = MXReplicaTypeWorker.
#[export] Instance is_replica_type_dec rt : Decision (is_replica_type rt).
Proof. unfold is_replica_type. apply _. Defined.

Definition replica_spec (mxjob : MXJob) (rt : MXReplicaType) : option MXReplicaSpec :=
  if decide (rt = MXReplicaTypeScheduler) then specs_Scheduler (job_specs mxjob)
  else if decide (rt = MXReplicaTypeServer) then specs_Server (job_specs mxjob)
  else if decide (rt = MXReplicaTypeWorker) then specs_Worker (job_specs mxjob)
  else None.

(** ** Lemmas *)
Lemma genLabels_lookup mxjob rt k :
  genLabels mxjob rt !! k =
  if decide (k = mxLabelReplicaType) then (if decide (rt = "") then None else Some rt)
  else if decide (k = mxLabelJobName) then Some (job_Name mxjob)
  else if decide (k = mxLabelGroupName) then Some groupName
  else None.
Proof.
  unfold genLabels. repeat case_decide; subst; simplify_map_eq; try done; try tauto.
  all: by rewrite ?lookup_insert_ne by congruence.
Qed.

Lemma genLabels_not_empty mxjob rt : genLabels mxjob rt ≠ ∅.
Proof.
  intros E. pose proof (genLabels_lookup mxjob rt mxLabelGroupName) as H.
  rewrite E, lookup_empty in H. done.
Qed.

(** The labels of any replica contain those of the job. *)
Lemma genLabels_subseteq mxjob rt : genLabels mxjob "" ⊆ genLabels mxjob rt.
Proof.
  apply map_subseteq_spec. intros k v. rewrite !genLabels_lookup. by repeat case_decide.
Qed.

Lemma genLabels_valid mxjob rt :
  IsValidLabelValue (job_Name mxjob) = [] → IsValidLabelValue rt = [] →
  valid_labels (genLabels mxjob rt).
Proof.
  intros Hn Hrt k v. rewrite genLabels_lookup.
  repeat case_decide; intros; simplify_eq; (split; [by vm_compute|]); try done.
Qed.

Lemma genMXConfigEnv_run {S} mxjob rt sch srv wrk ns nw (s : S) :
  specs_Scheduler (job_specs mxjob) = Some sch →
  specs_Server (job_specs mxjob) = Some srv → spec_Replicas srv = Some ns →
  specs_Worker (job_specs mxjob) = Some wrk → spec_Replicas wrk = Some nw →
  ∃ env, genMXConfigEnv mxjob rt s = Ret env s.
Proof.
  intros E1 E2 E3 E4 E5. unfold genMXConfigEnv, deref, mbind, M_bind, mret, M_ret.
  rewrite E1, E2, E3, E4, E5. by eexists.
Qed.

Lemma genMXConfigEnv_ok {S} mxjob rt (s : S) :
  job_ok mxjob → ∃ env, genMXConfigEnv mxjob rt s = Ret env s.
Proof.
  intros (H1 & H2 & H3). unfold spec_ok in *.
  destruct (specs_Scheduler _) eqn:?, (specs_Server _) eqn:?, (specs_Worker _) eqn:?; try done.
  destruct H2 as [(? & ? & _) _], H3 as [(? & ? & _) _].
  by eapply genMXConfigEnv_run.
Qed.

(** It returns without a change of state, or a pointer it needs is nil. *)
Lemma genMXConfigEnv_cases {S} mxjob rt (s : S) :
  (∃ env, genMXConfigEnv mxjob rt s = Ret env s) ∨
  (genMXConfigEnv mxjob rt s = Panicked s ∧ ¬ job_ok mxjob).
Proof.
  unfold genMXConfigEnv, deref, go_panic, mbind, M_bind, mret, M_ret, job_ok, spec_ok.
  destruct (specs_Scheduler _) as [sch|]; [|right; tauto].
  destruct (specs_Server _) as [srv|]; [|right; tauto].
  destruct (spec_Replicas srv) as [ns|]; [|right; naive_solver].
  destruct (specs_Worker _) as [wrk|]; [|right; tauto].
  destruct (spec_Replicas wrk) as [nw|]; [|right; naive_solver].
  left. by eexists.
Qed.
