(* ===== verification/Replicas.v ===== *)
(** * Pods by replica type and phase, and the replica statuses of a job

    The list functions of pkg/mx/handler.go and of the vendored k8s.io/kubernetes/pkg/controller
    that sort the pods of a job, and the accessors of [mxjob.Status.ReplicaStatuses]. *)
From S2P Require Import Prelude Types Runtime Labels Naming.

(** ** Pods *)

(** [podList], [serviceList]: the addresses of copies of the items; nothing else refers to the
    copies, so they are the items. *)
Fixpoint podList (items : list Pod) : list Pod :=
  match items with [] => [] | p :: ps => p :: podList ps end.
Fixpoint serviceList (items : list Service) : list Service :=
  match items with [] => [] | s :: ss => s :: serviceList ss end.

Definition IsPodActive (p : Pod) : bool :=
  bool_decide (PodSucceeded ≠ pod_Phase p) && bool_decide (PodFailed ≠ pod_Phase p)
  && bool_decide (meta_DeletionTimestamp (pod_Meta p) = None).
Fixpoint FilterActivePods (pods : list Pod) : list Pod :=
  match pods with
  | [] => []
  | p :: ps => if IsPodActive p then p :: FilterActivePods ps else FilterActivePods ps
  end.

(** [filterPods]: the number of pods in a phase. *)
Fixpoint filterPods (pods : list Pod) (phase : PodPhase) : Z :=
  match pods with
  | [] => 0
  | p :: ps => (if decide (phase = pod_Phase p) then 1 else 0) + filterPods ps phase
  end.
Definition getStatus (pods : list Pod) : Z * Z :=
  (int32 (filterPods pods PodSucceeded), int32 (filterPods pods PodFailed)).

(** The selector is rebuilt for every pod and its error ignored; a nil selector panics. *)
Definition filterPodsForMXReplicaType {S} `{!GoRuntime} (pods : list Pod) (rtype : MXReplicaType)
  : M S (list Pod) :=
  let mxReplicaSelector := mkLabelSelector (<[mxLabelReplicaType := rtype]> ∅) [] in
  foldM (λ result pod,
    match LabelSelectorAsSelector (Some mxReplicaSelector) with
    | inr _ => go_panic
    | inl selector =>
        mret (if Selector_Matches selector (labels_of (meta_Labels (pod_Meta pod)))
              then result ++ [pod] else result)
    end) pods [].

(** The pods of a replica type, by their label. *)
Definition pod_of_type (rtype : MXReplicaType) (p : Pod) : bool :=
  bool_decide (labels_of (meta_Labels (pod_Meta p)) !! mxLabelReplicaType = Some rtype).
Definition pods_of_type (rtype : MXReplicaType) (pods : list Pod) : list Pod :=
  filter (pod_of_type rtype) pods.

(** ** Replica statuses *)
Definition empty_replica_status : MXReplicaStatus := mkMXReplicaStatus 0 0 0 0.

(** The assignment of a pointer to the field of a replica type; the switch has no default. *)
Definition set_replica_status (rtype : MXReplicaType) (rs : option MXReplicaStatus)
  (r : MXReplicaStatuses) : MXReplicaStatuses :=
  if decide (rtype = MXReplicaTypeScheduler) then mkMXReplicaStatuses rs (rss_Server r) (rss_Worker r)
  else if decide (rtype = MXReplicaTypeServer) then mkMXReplicaStatuses (rss_Scheduler r) rs (rss_Worker r)
  else if decide (rtype = MXReplicaTypeWorker) then mkMXReplicaStatuses (rss_Scheduler r) (rss_Server r) rs
  else r.

Definition initializeMXReplicaStatuses (mxjob : MXJob) (rtype : MXReplicaType) : MXJob :=
  set_job_Status (set_st_ReplicaStatuses (set_replica_status rtype (Some empty_replica_status))) mxjob.
Definition updateMXReplicaStatuses (mxjob : MXJob) (rtype : MXReplicaType)
  (replicaStatus : MXReplicaStatus) : MXJob :=
  set_job_Status (set_st_ReplicaStatuses (set_replica_status rtype (Some replicaStatus))) mxjob.
Definition getMXReplicaStatus (mxjob : MXJob) (rtype : MXReplicaType) : option MXReplicaStatus :=
  let r := st_ReplicaStatuses (job_Status mxjob) in
  if decide (rtype = MXReplicaTypeScheduler) then rss_Scheduler r
  else if decide (rtype = MXReplicaTypeServer) then rss_Server r
  else if decide (rtype = MXReplicaTypeWorker) then rss_Worker r
  else None.

(** ** Lemmas *)
Lemma podList_id items : podList items = items.
Proof. induction items; cbn; congruence. Qed.
Lemma serviceList_id items : serviceList items = items.
Proof. induction items; cbn; congruence. Qed.

Lemma FilterActivePods_filter pods : FilterActivePods pods = filter IsPodActive pods.
Proof.
  induction pods as [|p ps IH]; [done|]. cbn [FilterActivePods]. rewrite filter_cons, IH.
  destruct (IsPodActive p); by case_decide.
Qed.

Lemma FilterActivePods_elem pods p :
  p ∈ FilterActivePods pods ↔ p ∈ pods ∧ IsPodActive p = true.
Proof.
  rewrite FilterActivePods_filter, list_elem_of_filter, Is_true_true. tauto.
Qed.

Lemma filterPods_bounds pods phase : 0 ≤ filterPods pods phase ≤ zlen pods.
Proof.
  induction pods as [|p ps IH]; [done|]. cbn [filterPods]. rewrite zlen_cons.
  case_decide; lia.
Qed.

Lemma filterPods_disjoint pods :
  filterPods pods PodSucceeded + filterPods pods PodFailed
  + zlen (FilterActivePods pods) ≤ zlen pods.
Proof.
  assert (PodSucceeded ≠ PodFailed) by done.
  induction pods as [|p ps IH]; [done|]. cbn [filterPods FilterActivePods].
  unfold IsPodActive. rewrite zlen_cons. repeat case_decide; repeat case_bool_decide; cbn [andb];
    rewrite ?zlen_cons; try lia; try congruence.
Qed.

Lemma filterPods_perm pods pods' phase :
  pods ≡ₚ pods' → filterPods pods phase = filterPods pods' phase.
Proof. induction 1; cbn; lia. Qed.

Lemma valid_replica_type rt :
  is_replica_type rt → IsValidLabelValue rt = [] ∧ valid_label mxLabelReplicaType rt.
Proof. intros [->|[->| ->]]; (split; [|split]); by vm_compute. Qed.

(** A loop that appends the elements passing a test is a filter. *)
Lemma foldM_filter {S A} (test : A → bool) (body : list A → A → M S (list A)) l acc (s : S) :
  (∀ acc x s, body acc x s = Ret (if test x then acc ++ [x] else acc) s) →
  foldM body l acc s = Ret (acc ++ filter test l) s.
Proof.
  intros Hb. revert acc. induction l as [|x l IH]; intros acc; [by rewrite app_nil_r|].
  cbn [foldM]. erewrite bind_run by apply Hb. rewrite IH, filter_cons.
  destruct (test x); case_decide; try done. by rewrite <- app_assoc.
Qed.

(** The selector of one type, on the labels of a pod. *)
Lemma Matches_pod_of_type sel rt (p : Pod) :
  (∀ ls, Selector_Matches sel ls = true ↔ (<[mxLabelReplicaType := rt]> ∅ : Labels) ⊆ ls) →
  Selector_Matches sel (labels_of (meta_Labels (pod_Meta p))) = pod_of_type rt p.
Proof.
  intros Hm. apply eq_bool_prop_intro. unfold pod_of_type.
  rewrite bool_decide_spec, Is_true_true, Hm, insert_empty. apply map_singleton_subseteq_l.
Qed.

Lemma filterPodsForMXReplicaType_run {S} `{!GoRuntime} pods rt (s : S) :
  is_replica_type rt →
  filterPodsForMXReplicaType pods rt s = Ret (pods_of_type rt pods) s.
Proof.
  intros Hrt. unfold filterPodsForMXReplicaType, pods_of_type.
  destruct (LabelSelectorAsSelector_labels (<[mxLabelReplicaType := rt]> ∅)) as (sel & Hsel & Hm).
  { apply map_Forall_insert_2; [by apply valid_replica_type | apply map_Forall_empty]. }
  rewrite Hsel. erewrite foldM_filter with (test := pod_of_type rt); [done|].
  intros acc p s'. by rewrite (Matches_pod_of_type sel rt p).
Qed.

Lemma getMXReplicaStatus_set mxjob rt rs :
  is_replica_type rt →
  getMXReplicaStatus (set_job_Status (set_st_ReplicaStatuses (set_replica_status rt rs)) mxjob) rt = rs.
Proof. intros [->|[->| ->]]; done. Qed.

Lemma getMXReplicaStatus_set_ne mxjob rt rt' rs :
  rt ≠ rt' →
  getMXReplicaStatus (set_job_Status (set_st_ReplicaStatuses (set_replica_status rt rs)) mxjob) rt' =
  getMXReplicaStatus mxjob rt'.
Proof.
  intros Hne. unfold getMXReplicaStatus, set_replica_status. cbn.
  repeat case_decide; subst; try done; congruence.
Qed.

(** ** Properties *)

(** Sorting pods by type: the result is the sublist of the pods
    labelled with the type, in order, whatever the label value is, as long as it is a valid one; for an
    invalid value the ignored selector error makes the first pod panic. *)
Theorem filterPodsForMXReplicaType_correct {S} `{!GoRuntime} (pods : list Pod) rt (s : S) :
  filterPodsForMXReplicaType pods rt s =
  if decide (IsValidLabelValue rt = [] ∨ pods = []) then Ret (pods_of_type rt pods) s else Panicked s.
Proof.
  unfold filterPodsForMXReplicaType. destruct pods as [|p pods].
  { by rewrite decide_True by tauto. }
  assert (valid_labels (<[mxLabelReplicaType := rt]> ∅) ↔ IsValidLabelValue rt = []) as Hv.
  { unfold valid_labels. rewrite insert_empty, map_Forall_singleton. unfold valid_label.
    split; [tauto|]. by split; [vm_compute|]. }
  pose proof (LabelSelectorAsSelector_error (<[mxLabelReplicaType := rt]> ∅)) as Hbad.
  destruct (decide (IsValidLabelValue rt = [] ∨ p :: pods = [])) as [[Hl|]|Hl]; [|done|].
  - destruct (LabelSelectorAsSelector_labels (<[mxLabelReplicaType := rt]> ∅)) as (sel & -> & Hm);
      [by apply Hv|]. erewrite foldM_filter with (test := pod_of_type rt); [done|].
    intros acc q s'. by rewrite (Matches_pod_of_type sel rt q).
  - destruct (LabelSelectorAsSelector _) as [sel|err]; [|done].
    exfalso. apply Hl. left. by apply Hv, (Hbad sel).
Qed.
