(* ===== verification/WebhookClient.v ===== *)
(** * The webhook clients: pkg/mx/webhook_client_manager.go

    [HookClient] returns the REST client of a webhook, from the cache if it is there.  [fresh_client]
    is what it would build; [HookClient_transparent] shows that the cache is not observable.

    [url.Parse] and the part of [rest.UnversionedRESTClientFor] that prepares the transport are
    parameters, as are the resolvers, which are interfaces in the source. *)
From S2P Require Import Prelude Types Runtime Api Naming Lru Json.

(** ** The environment *)
Record URL := mkURL { url_Host : string; url_Path : string }.
Class Net := {
  url_Parse : string → URL + error;
  (** what is wrong with the host or the TLS files of a configuration *)
  transport_error : RestConfig → option error }.

Record AuthenticationInfoResolver := mkAuthenticationInfoResolver {
  ClientConfigFor : string → RestConfig + error;
  ClientConfigForService : string → string → RestConfig + error }.
(** [ResolveEndpoint namespace name] *)
Definition ServiceResolver := string → string → URL + error.

(** k8s.io/apiserver: the resolver the operator installs *)
Definition default_ResolveEndpoint : ServiceResolver := λ namespace name,
  if decide (name = "" ∨ namespace = "")
  then inr (Errorf "cannot resolve an empty service name or namespace" None)
  else inl (mkURL (name +:+ "." +:+ namespace +:+ ".svc:443") "").

(** ** The manager *)

(** The cache is shared by all copies of the manager, so it is the state of the methods that use it.
    A nil interface is [None]. *)
Record ClientManager := mkClientManager {
  cm_authInfoResolver : option AuthenticationInfoResolver;
  cm_serviceResolver : option ServiceResolver;
  cm_negotiatedSerializer : bool }.

Definition defaultCacheSize : Z := 200.
Definition NewClientManager : option (ClientManager * LRU RESTClient) :=
  (λ cache, (mkClientManager None None false, cache)) <$> NewLRU defaultCacheSize.

Definition SetAuthenticationInfoResolverWrapper
  (wrapper : option (option AuthenticationInfoResolver → option AuthenticationInfoResolver))
  (cm : ClientManager) : ClientManager :=
  match wrapper with
  | Some wrapper =>
      mkClientManager (wrapper (cm_authInfoResolver cm)) (cm_serviceResolver cm)
        (cm_negotiatedSerializer cm)
  | None => cm
  end.
Definition SetAuthenticationInfoResolver (resolver : option AuthenticationInfoResolver)
  (cm : ClientManager) : ClientManager :=
  mkClientManager resolver (cm_serviceResolver cm) (cm_negotiatedSerializer cm).
Definition SetServiceResolver (sr : option ServiceResolver) (cm : ClientManager) : ClientManager :=
  match sr with
  | Some sr => mkClientManager (cm_authInfoResolver cm) (Some sr) (cm_negotiatedSerializer cm)
  | None => cm
  end.
Definition SetNegotiatedSerializer (n : bool) (cm : ClientManager) : ClientManager :=
  mkClientManager (cm_authInfoResolver cm) (cm_serviceResolver cm) n.

Definition Validate (cm : ClientManager) : option error :=
  let errs := [] in
  let errs := if negb (cm_negotiatedSerializer cm)
    then errs ++ [Errorf "the ClientManager requires a negotiatedSerializer" None] else errs in
  let errs := if bool_decide (cm_serviceResolver cm = None)
    then errs ++ [Errorf "the ClientManager requires a serviceResolver" None] else errs in
  let errs := if bool_decide (cm_authInfoResolver cm = None)
    then errs ++ [Errorf "the ClientManager requires an authInfoResolver" None] else errs in
  NewAggregate errs.

Definition ErrNeedServiceOrURL : error :=
  Errorf "webhook configuration must have either service or URL" None.
Definition ContentTypeJSON := "application/json".

Section client.
Context `{!Net}.

Definition UnversionedRESTClientFor (cfg : RestConfig) : RESTClient + error :=
  if negb (cfg_NegotiatedSerializer cfg)
  then inr (Errorf "NeogitatedSerializer is required when initializing a RESTClient" None)
  else match transport_error cfg with Some e => inr e | None => inl (mkRESTClient cfg) end.

(** The assignments of the closure [complete]. *)
Definition complete_config (cm : ClientManager) (h : Webhook) (cfg : RestConfig) : RestConfig :=
  mkRestConfig (cfg_Host cfg) (cfg_APIPath cfg) (cfg_BearerToken cfg) controllerName
    (cc_CABundle (wh_ClientConfig h)) (cfg_ServerName cfg) ContentTypeJSON
    (cm_negotiatedSerializer cm) (cfg_Dial cfg).
Definition complete (cm : ClientManager) (h : Webhook) (cacheKey : string) (cfg : RestConfig)
  : M (LRU RESTClient) (RESTClient + error) :=
  let r := UnversionedRESTClientFor (complete_config cm h cfg) in
  match r with
  | inl client => modify (λ cache, (Add cacheKey client cache).2);; mret r
  | inr _ => mret r
  end.

(** [cfg.Dial] of a service: the host of the service goes to the endpoint it resolves to. *)
Definition service_dial (cm : ClientManager) (svc : ServiceReference) (host : string)
  (delegateDialer : option Dialer) : Dialer := λ addr,
  let dial := default (λ addr, Some (inl addr)) delegateDialer in
  if decide (addr = host) then
    match cm_serviceResolver cm with
    | None => None
    | Some resolver =>
        match resolver (sref_Namespace svc) (sref_Name svc) with
        | inr err => Some (inr err)
        | inl u => dial (url_Host u)
        end
    end
  else dial addr.

Definition service_config (cm : ClientManager) (svc : ServiceReference) (restConfig : RestConfig)
  : RestConfig :=
  let serverName := sref_Name svc +:+ "." +:+ sref_Namespace svc +:+ ".svc" in
  let host := serverName +:+ ":443" in
  mkRestConfig ("https://" +:+ host) (default (cfg_APIPath restConfig) (sref_Path svc))
    (cfg_BearerToken restConfig) (cfg_UserAgent restConfig) (cfg_CAData restConfig) serverName
    (cfg_ContentType restConfig) (cfg_NegotiatedSerializer restConfig)
    (Some (service_dial cm svc host (cfg_Dial restConfig))).
Definition url_config (u : URL) (restConfig : RestConfig) : RestConfig :=
  mkRestConfig (url_Host u) (url_Path u) (cfg_BearerToken restConfig) (cfg_UserAgent restConfig)
    (cfg_CAData restConfig) (cfg_ServerName restConfig) (cfg_ContentType restConfig)
    (cfg_NegotiatedSerializer restConfig) (cfg_Dial restConfig).

Definition HookClient (cm : ClientManager) (h : Webhook) : M (LRU RESTClient) (RESTClient + error) :=
  let cacheKey := json_Marshal (wh_ClientConfig h) in
  cached ← (λ cache, let '(client, cache) := Get cacheKey cache in Ret client cache);
  match cached with
  | Some client => mret (inl client)
  | None =>
      match cc_Service (wh_ClientConfig h) with
      | Some svc =>
          resolver ← deref (cm_authInfoResolver cm);
          match ClientConfigForService resolver (sref_Name svc) (sref_Namespace svc) with
          | inr err => mret (inr err)
          | inl restConfig => complete cm h cacheKey (service_config cm svc restConfig)
          end
      | None =>
          match cc_URL (wh_ClientConfig h) with
          | None => mret (inr (ErrCallingWebhook (wh_Name h) ErrNeedServiceOrURL))
          | Some url =>
              match url_Parse url with
              | inr err => mret (inr (ErrCallingWebhook (wh_Name h) (Errorf "Unparsable URL: " (Some err))))
              | inl u =>
                  resolver ← deref (cm_authInfoResolver cm);
                  match ClientConfigFor resolver (url_Host u) with
                  | inr err => mret (inr err)
                  | inl restConfig => complete cm h cacheKey (url_config u restConfig)
                  end
              end
          end
      end
  end.
End client.

(** ** What a webhook gets *)
Section spec.
Context `{!Net}.

(** The configuration built for a webhook, without the cache; nothing when a nil resolver is
    called. *)
Definition fresh_config (cm : ClientManager) (h : Webhook) : option (RestConfig + error) :=
  match cc_Service (wh_ClientConfig h) with
  | Some svc =>
      resolver ← cm_authInfoResolver cm;
      Some match ClientConfigForService resolver (sref_Name svc) (sref_Namespace svc) with
           | inl rc => inl (service_config cm svc rc)
           | inr e => inr e
           end
  | None =>
      match url_Parse <$> cc_URL (wh_ClientConfig h) with
      | None => Some (inr (ErrCallingWebhook (wh_Name h) ErrNeedServiceOrURL))
      | Some (inr e) =>
          Some (inr (ErrCallingWebhook (wh_Name h) (Errorf "Unparsable URL: " (Some e))))
      | Some (inl u) =>
          resolver ← cm_authInfoResolver cm;
          Some match ClientConfigFor resolver (url_Host u) with
               | inl rc => inl (url_config u rc)
               | inr e => inr e
               end
      end
  end.
Definition fresh_client (cm : ClientManager) (h : Webhook) : option (RESTClient + error) :=
  (λ r, match r with
        | inl cfg => UnversionedRESTClientFor (complete_config cm h cfg)
        | inr e => inr e
        end) <$> fresh_config cm h.

(** Every client in the cache is the one of the configurations with its key. *)
Definition cache_ok (cm : ClientManager) (cache : LRU RESTClient) : Prop :=
  wf cache ∧ lru_size cache = defaultCacheSize ∧
  ∀ k client, (k, client) ∈ contents cache →
    ∃ h, valid_config (wh_ClientConfig h) ∧ k = json_Marshal (wh_ClientConfig h) ∧
      fresh_client cm h = Some (inl client).

Lemma new_cache_ok cm cache : NewLRU defaultCacheSize = Some cache → cache_ok cm cache.
Proof.
  intros (Hw & Hc & Hz)%NewLRU_wf. split; [done|]. split; [done|]. rewrite Hc.
  intros k client []%not_elem_of_nil.
Qed.

(** A client depends on the configuration only, not on the name of the webhook. *)
Lemma fresh_client_name cm h h' client :
  wh_ClientConfig h = wh_ClientConfig h' → fresh_client cm h = Some (inl client) →
  fresh_client cm h' = Some (inl client).
Proof.
  unfold fresh_client, fresh_config, complete_config. intros <-.
  destruct (cc_Service _) as [svc|]; [done|].
  destruct (url_Parse <$> cc_URL _) as [[u|e]|]; done.
Qed.

Lemma complete_fresh cm h cfg cache :
  cache_ok cm cache → valid_config (wh_ClientConfig h) → fresh_config cm h = Some (inl cfg) →
  post (complete cm h (json_Marshal (wh_ClientConfig h)) cfg)
    (λ r cache', cache_ok cm cache' ∧ fresh_client cm h = Some r) (λ _, False) cache.
Proof.
  intros (Hw & Hsize & Hcache) Hh Hcfg. unfold complete.
  assert (fresh_client cm h = Some (UnversionedRESTClientFor (complete_config cm h cfg))) as Hfresh
    by (unfold fresh_client; by rewrite Hcfg).
  destruct (UnversionedRESTClientFor (complete_config cm h cfg)) as [client|e].
  - apply post_bind, post_modify, post_ret. split; [|done].
    pose proof (serve_spec (CAdd (json_Marshal (wh_ClientConfig h)) client) cache Hw) as Hadd.
    cbn [serve answer_spec] in Hadd. destruct (Add _ client cache) as [b cache'].
    destruct Hadd as (_ & Hw' & Hcon & Hsz). split; [done|]. split; [by rewrite <- Hsize|].
    intros k client' Hin. cbn in Hin. rewrite Hcon in Hin.
    apply put_elem in Hin as [[= -> ->]|Hin]; [by exists h | by apply Hcache].
  - apply post_ret. by split_and!.
Qed.

Lemma HookClient_fresh cm h cache :
  cache_ok cm cache → valid_config (wh_ClientConfig h) →
  post (HookClient cm h) (λ r cache', cache_ok cm cache' ∧ fresh_client cm h = Some r)
    (λ cache', cache_ok cm cache' ∧ fresh_client cm h = None) cache.
Proof.
  intros Hok Hh. pose proof Hok as (Hw & Hsize & Hcache). unfold HookClient.
  set (k := json_Marshal (wh_ClientConfig h)) in *. apply post_bind. unfold post at 1.
  pose proof (serve_spec (CGet k) cache Hw) as Hget. cbn [serve answer_spec] in Hget.
  destruct (Get k cache) as [r cache']. destruct Hget as ([= ->] & Hw' & Hcon & Hsz).
  assert (cache_ok cm cache') as Hok'.
  { split; [done|]. split; [by rewrite <- Hsize|]. intros k' client Hin. rewrite Hcon in Hin.
    by eapply Hcache, use_elem. }
  destruct (assoc k (contents cache)) as [client|] eqn:Ha.
  { apply post_ret. split; [done|]. apply assoc_elem, Hcache in Ha as (h' & Hh' & Hk & Hf).
    eapply fresh_client_name; [|exact Hf]. symmetry. by apply json_Marshal_injective. }
  assert (∀ cfg, fresh_config cm h = Some (inl cfg) → post (complete cm h k cfg)
    (λ r cache'', cache_ok cm cache'' ∧ fresh_client cm h = Some r)
    (λ cache'', cache_ok cm cache'' ∧ fresh_client cm h = None) cache') as Hcomplete.
  { intros cfg Hcfg. eapply post_mono; [by apply complete_fresh | done | done]. }
  pose proof (eq_refl (fresh_client cm h)) as Hf. unfold fresh_client at 2 in Hf.
  unfold fresh_config in Hf, Hcomplete.
  destruct (cc_Service (wh_ClientConfig h)) as [svc|].
  - destruct (cm_authInfoResolver cm) as [resolver|]; [|done]. cbn [mbind option_bind] in *.
    apply post_bind, post_deref_some.
    destruct (ClientConfigForService _ _ _) as [rc|e]; [by apply Hcomplete | done].
  - destruct (cc_URL (wh_ClientConfig h)) as [url|]; [|done]. cbn [fmap option_fmap option_map] in *.
    destruct (url_Parse url) as [u|e]; [|done].
    destruct (cm_authInfoResolver cm) as [resolver|]; [|done]. cbn [mbind option_bind] in *.
    apply post_bind, post_deref_some.
    destruct (ClientConfigFor _ _) as [rc|e]; [by apply Hcomplete | done].
Qed.
End spec.

(** ** Properties *)

(** The clients of a sequence of webhooks, one after the other. *)
Definition HookClients `{!Net} (cm : ClientManager) (hs : list Webhook)
  : M (LRU RESTClient) (list (RESTClient + error)) :=
  foldM (λ rs h, r ← HookClient cm h; mret (rs ++ [r])) hs [].

Lemma HookClients_fresh `{!Net} (cm : ClientManager) (hs : list Webhook) cache :
  cache_ok cm cache → Forall (λ h, valid_config (wh_ClientConfig h)) hs →
  post (HookClients cm hs)
    (λ rs cache', Forall2 (λ h r, fresh_client cm h = Some r) hs rs ∧ cache_ok cm cache')
    (λ _, cm_authInfoResolver cm = None) cache.
Proof.
  intros Hok Hhs. unfold HookClients. eapply post_mono; [apply (post_foldM _ (λ rest rs cache, ∃ seen,
    hs = seen ++ rest ∧ cache_ok cm cache ∧ Forall2 (λ h r, fresh_client cm h = Some r) seen rs)
    (λ _, cm_authInfoResolver cm = None)) | | done].
  - exists []. by split_and!.
  - intros h rest rs cache1 (seen & -> & Hc & Hall). apply post_bind.
    apply Forall_app in Hhs as [_ [Hh _]%Forall_cons].
    eapply post_mono; [by apply HookClient_fresh | |].
    + intros r cache' [Hc' Hr]. apply post_ret. exists (seen ++ [h]). split_and!; try done.
      * by rewrite <- app_assoc.
      * apply Forall2_app; [done|]. by repeat constructor.
    + intros cache' [_ Hnone]. unfold fresh_client, fresh_config in Hnone.
      destruct (cc_Service _); [|destruct (url_Parse <$> cc_URL _) as [[]|]];
        by destruct (cm_authInfoResolver cm).
  - intros rs cache' (seen & Hs & Hc & Hall). rewrite app_nil_r in Hs. by subst seen.
Qed.

(** C21. The cache of webhook clients is not observable.  A new manager has a
    cache, and whatever sequence of webhooks it is then asked for, every answer is the client (or the
    error) that building one for that webhook alone gives: no webhook ever gets a client with the
    endpoint, the CA bundle or the path of another one.  A call panics only where building panics,
    when no authentication resolver is installed. *)
Theorem HookClient_transparent `{!Net} (cm : ClientManager) (hs : list Webhook) :
  Forall (λ h, valid_config (wh_ClientConfig h)) hs →
  match NewClientManager with
  | None => False
  | Some (_, cache) =>
      post (HookClients cm hs)
        (λ rs cache', Forall2 (λ h r, fresh_client cm h = Some r) hs rs ∧
           Len cache' ≤ defaultCacheSize)
        (λ _, cm_authInfoResolver cm = None) cache
  end.
Proof.
  intros Hhs. unfold NewClientManager. destruct (NewLRU defaultCacheSize) as [cache0|] eqn:Hnew; [|done].
  apply (new_cache_ok cm) in Hnew as Hok. cbn [fmap option_fmap option_map].
  eapply post_mono; [by apply HookClients_fresh | | done].
  intros rs cache' [Hall ([Hs Hl] & Hsize & _)]. split; [done|].
  unfold Len, zlen in *. rewrite <- (wf_length cache' Hs). lia.
Qed.

(** A network in which every URL is its own host, and anonymous access. *)
#[local] Instance plain_net : Net := {| url_Parse := λ s, inl (mkURL s ""); transport_error := λ _, None |}.
Definition anonymous_config : RestConfig :=
  mkRestConfig "" "" "" "kube-apiserver-admission" None "" "" false None.
Definition operator_manager : ClientManager :=
  SetNegotiatedSerializer true (SetServiceResolver (Some default_ResolveEndpoint)
    (SetAuthenticationInfoResolver
       (Some (mkAuthenticationInfoResolver (λ _, inl anonymous_config) (λ _ _, inl anonymous_config)))
       (mkClientManager None None false))).
Definition url_hook (name url : string) : Webhook :=
  mkWebhook name (mkWebhookClientConfig (Some url) None None).

(** Two webhooks, one of them twice. *)
Lemma HookClient_transparent_witness :
  let hs := [url_hook "a" "one"; url_hook "b" "two"; url_hook "c" "one"] in
  match NewClientManager with
  | None => False
  | Some (_, cache) =>
      post (HookClients operator_manager hs)
        (λ rs cache', Forall2 (λ h r, fresh_client operator_manager h = Some r) hs rs ∧
           Len cache' ≤ defaultCacheSize)
        (λ _, cm_authInfoResolver operator_manager = None) cache
  end.
Proof.
  cbv zeta.
  apply (HookClient_transparent operator_manager
    [url_hook "a" "one"; url_hook "b" "two"; url_hook "c" "one"]).
  apply (bool_decide_unpack _). by vm_compute.
Defined.

(** C23. A webhook given as a service is called over TLS: its client goes to the
    host of the service, checks the certificate against the configured CA for that name, and with the
    resolver the operator installs its dialer connects that host to port 443 of the service, whatever
    the dialer of the resolved configuration, which gets every other address unchanged.  A service without name or
    namespace is refused when it is dialed. *)
Theorem service_client_target `{!Net} (cm : ClientManager) (h : Webhook) svc client cache :
  cm_serviceResolver cm = Some default_ResolveEndpoint → cache_ok cm cache →
  valid_config (wh_ClientConfig h) → cc_Service (wh_ClientConfig h) = Some svc →
  post (HookClient cm h)
    (λ r _, r = inl client →
       let cfg := rc_config client in
       let host := sref_Name svc +:+ "." +:+ sref_Namespace svc +:+ ".svc:443" in
       cfg_Host cfg = "https://" +:+ host ∧ cfg_CAData cfg = cc_CABundle (wh_ClientConfig h) ∧
       cfg_ServerName cfg = sref_Name svc +:+ "." +:+ sref_Namespace svc +:+ ".svc" ∧
       ∃ resolver rc dial, cm_authInfoResolver cm = Some resolver ∧
         ClientConfigForService resolver (sref_Name svc) (sref_Namespace svc) = inl rc ∧
         cfg_Dial cfg = Some dial ∧
         ∀ addr, dial addr =
           if decide (addr = host ∧ (sref_Name svc = "" ∨ sref_Namespace svc = ""))
           then Some (inr (Errorf "cannot resolve an empty service name or namespace" None))
           else default (λ addr, Some (inl addr)) (cfg_Dial rc) addr)
    (λ _, cm_authInfoResolver cm = None) cache.
Proof.
  intros Hres Hok Hh Hsvc. eapply post_mono; [by apply HookClient_fresh | |].
  2:{ intros cache' [_ Hnone]. unfold fresh_client, fresh_config in Hnone. rewrite Hsvc in Hnone.
      by destruct (cm_authInfoResolver cm). }
  intros r cache' [_ Hf] ->. unfold fresh_client, fresh_config in Hf. rewrite Hsvc in Hf.
  destruct (cm_authInfoResolver cm) as [resolver|]; [|done]. cbn in Hf.
  destruct (ClientConfigForService _ _ _) as [rc|e] eqn:Hrc; [|done]. injection Hf as Hf.
  unfold UnversionedRESTClientFor in Hf. destruct (negb _); [done|].
  destruct (transport_error _); [done|]. injection Hf as <-. cbn.
  assert ((sref_Name svc +:+ "." +:+ sref_Namespace svc +:+ ".svc") +:+ ":443" =
          sref_Name svc +:+ "." +:+ sref_Namespace svc +:+ ".svc:443") as Hhost by by rewrite !app_assoc_s.
  rewrite Hhost. split_and!; try done.
  exists resolver, rc. eexists. split_and!; try done.
  intros addr. unfold service_dial. rewrite Hres. unfold default_ResolveEndpoint.
  destruct (decide (addr = _)) as [->|Hne]; [|by rewrite decide_False by tauto].
  destruct (decide (_ ∨ _)) as [Hempty|Hgood].
  - by rewrite decide_True.
  - by rewrite decide_False by tauto.
Qed.

(** A service webhook on a new manager. *)
Definition service_hook : Webhook :=
  mkWebhook "s" (mkWebhookClientConfig None (Some (mkServiceReference "ns" "svc" None)) (Some "ca")).
Definition client_of (r : option (RESTClient + error)) : RESTClient :=
  match r with Some (inl c) => c | _ => mkRESTClient anonymous_config end.

Lemma service_client_target_witness :
  let client := client_of (fresh_client operator_manager service_hook) in
  let cache := default (mkLRU 0 [] ∅ ∅ 0%nat) (NewLRU defaultCacheSize) in
  post (HookClient operator_manager service_hook)
    (λ r _, r = inl client →
       let cfg := rc_config client in
       cfg_Host cfg = "https://svc.ns.svc:443" ∧ cfg_CAData cfg = Some "ca" ∧
       cfg_ServerName cfg = "svc.ns.svc" ∧
       ∃ resolver rc dial, cm_authInfoResolver operator_manager = Some resolver ∧
         ClientConfigForService resolver "svc" "ns" = inl rc ∧ cfg_Dial cfg = Some dial ∧
         ∀ addr, dial addr =
           if decide (addr = "svc.ns.svc:443" ∧ ("svc" = "" ∨ "ns" = ""))
           then Some (inr (Errorf "cannot resolve an empty service name or namespace" None))
           else default (λ addr, Some (inl addr)) (cfg_Dial rc) addr)
    (λ _, cm_authInfoResolver operator_manager = None) cache.
Proof.
  cbv zeta.
  apply (service_client_target operator_manager service_hook (mkServiceReference "ns" "svc" None)
    (client_of (fresh_client operator_manager service_hook))
    (default (mkLRU 0 [] ∅ ∅ 0%nat) (NewLRU defaultCacheSize))).
  - reflexivity.
  - by apply new_cache_ok.
  - apply (bool_decide_unpack _). by vm_compute.
  - reflexivity.
Defined.
