(* ===== verification/JobStatus.v ===== *)
(** * The status of a job: [updateMXJobStatus]

    The state machine of a job, read off its conditions.  [verdict] is the abstract state
    (is the job succeeded, is it failed) and [verdict_step] the abstract transition that one call of
    [updateMXJobStatus] makes; [updateMXJobStatus_correct] relates the two, and
    [exclusive] (never both succeeded and failed) is the invariant it implies. *)
From S2P Require Import Prelude Types Runtime Conditions Api Labels Naming Replicas.

(** ** The operation *)
Section op.
Context {S : Type} `{!Clock S}.

(** The part for the workers: start time, running condition, completion. *)
Definition note_workers (mxjob : MXJob) (running replicas expected : Z) : M S MXJob :=
  mxjob ←
    (if (running =? replicas) && bool_decide (st_StartTime (job_Status mxjob) = None) then
       now ← Now; mret (set_job_Status (set_st_StartTime (Some now)) mxjob)
     else mret mxjob);
  mxjob ←
    (if 0 <? running then
       updateMXJobConditions mxjob MXJobRunning MXJobReasonRunning
         ("MXJob " +:+ job_Name mxjob +:+ " is running.")
     else mret mxjob);
  (if expected =? 0 then
     mxjob ←
       (if bool_decide (st_CompletionTime (job_Status mxjob) = None) then
          now ← Now; mret (set_job_Status (set_st_CompletionTime (Some now)) mxjob)
        else mret mxjob);
     mxjob ← updateMXJobConditions mxjob MXJobSucceeded MXJobReasonSucceeded
               ("MXJob " +:+ job_Name mxjob +:+ " is successfully completed.");
     updateMXJobFalseConditions mxjob MXJobFailed MXJobReasonFailed
       ("MXJob " +:+ job_Name mxjob +:+ " is not failed.")
   else mret mxjob).

(** The part for every replica type: failed or gone pods. *)
Definition note_lost (mxjob : MXJob) (failed gone : Z) : M S MXJob :=
  if (0 <? failed) || (0 <? gone) then
    if negb (checkCondition (job_Status mxjob) MXJobSucceeded) then
      updateMXJobConditions mxjob MXJobFailed MXJobReasonFailed
        ("MXJob " +:+ job_Name mxjob +:+ " is failed.")
    else mret mxjob
  else mret mxjob.

Definition updateMXJobStatus (mxjob : MXJob) (rtype : MXReplicaType) (replicas : Z)
  : M S (option error * MXJob) :=
  status ← deref (getMXReplicaStatus mxjob rtype);
  let expected := int32 (replicas - rs_Succeeded status) in
  let running := rs_Active status in
  let failed := rs_Failed status in
  let gone := rs_Gone status in
  mxjob ←
    (if decide (rtype = MXReplicaTypeWorker) then note_workers mxjob running replicas expected
     else mret mxjob);
  mxjob ← note_lost mxjob failed gone;
  mret (None, mxjob).
End op.

(** ** The abstract state machine *)
Record verdict := mkVerdict { v_succeeded : bool; v_failed : bool }.
Definition job_verdict (mxjob : MXJob) : verdict :=
  mkVerdict (checkCondition (job_Status mxjob) MXJobSucceeded)
            (checkCondition (job_Status mxjob) MXJobFailed).

(** All workers succeeded: success, whatever was recorded before.  Otherwise some pod failed or
    went away: failure, unless the job already succeeded.  Otherwise nothing. *)
Definition verdict_step (workers_done some_lost : bool) (v : verdict) : verdict :=
  if workers_done then mkVerdict true false
  else if some_lost && negb (v_succeeded v) then mkVerdict (v_succeeded v) true
  else v.

Definition exclusive (mxjob : MXJob) : Prop :=
  ¬ (checkCondition (job_Status mxjob) MXJobSucceeded = true ∧
     checkCondition (job_Status mxjob) MXJobFailed = true).

(** The invariant of a job's status that every operation keeps. *)
Definition status_inv (mxjob : MXJob) : Prop :=
  conditions_wf (job_Status mxjob) ∧ exclusive mxjob.
#[export] Instance status_inv_dec mxjob : Decision (status_inv mxjob).
Proof. unfold status_inv, exclusive. apply _. Defined.

Definition finished (mxjob : MXJob) : bool := IsJobFinished (job_Status mxjob).

(** Everything of a job but its status. *)
Definition same_object (j j' : MXJob) : Prop :=
  job_TypeMeta j' = job_TypeMeta j ∧ job_Meta j' = job_Meta j ∧ job_Spec j' = job_Spec j.
#[export] Instance same_object_equiv : Equivalence same_object.
Proof. unfold same_object. split; [done | by intros ?? (?&?&?) | ]. intros ??? (?&?&?) (?&?&?). split_and!; congruence. Qed.

(** What one call of [updateMXJobStatus] does to the verdict, given the replica status. *)
Definition status_verdict (rtype : MXReplicaType) (replicas : Z) (rs : MXReplicaStatus)
  : verdict → verdict :=
  verdict_step
    (bool_decide (rtype = MXReplicaTypeWorker) && (int32 (replicas - rs_Succeeded rs) =? 0))
    ((0 <? rs_Failed rs) || (0 <? rs_Gone rs)).

(** ** Lemmas *)
Lemma verdict_step_exclusive d l v :
  ¬ (v_succeeded v = true ∧ v_failed v = true) →
  ¬ (v_succeeded (verdict_step d l v) = true ∧ v_failed (verdict_step d l v) = true).
Proof. destruct d, l, v as [[] []]; cbn; tauto. Qed.

Lemma verdict_finished_stable d l v :
  v_succeeded v || v_failed v = true →
  v_succeeded (verdict_step d l v) || v_failed (verdict_step d l v) = true.
Proof. destruct d, l, v as [[] []]; done. Qed.

Lemma finished_verdict mxjob :
  conditions_wf (job_Status mxjob) →
  finished mxjob = v_succeeded (job_verdict mxjob) || v_failed (job_verdict mxjob).
Proof.
  intros Hwf. unfold finished. rewrite IsJobFinished_split.
  unfold IsJobSucceed, IsJobFailed. by rewrite !scan_checkCondition.
Qed.

(** [Q] holds of the job after the status operation, knowing what the operation keeps. *)
Definition status_update (P : MXJobStatus → Prop) (mxjob mxjob' : MXJob) : Prop :=
  same_object mxjob mxjob' ∧
  st_ReplicaStatuses (job_Status mxjob') = st_ReplicaStatuses (job_Status mxjob) ∧
  (conditions_wf (job_Status mxjob) → conditions_wf (job_Status mxjob')) ∧
  P (job_Status mxjob').

(** The operations of this file leave everything but the three conditions they manage and the
    two times. *)
Definition managed (t : MXJobConditionType) : Prop :=
  t = MXJobRunning ∨ t = MXJobSucceeded ∨ t = MXJobFailed.
Definition keeps (j j' : MXJob) : Prop :=
  same_object j j' ∧
  st_ReplicaStatuses (job_Status j') = st_ReplicaStatuses (job_Status j) ∧
  (conditions_wf (job_Status j) → conditions_wf (job_Status j')) ∧
  (∀ t, ¬ managed t → getCondition (job_Status j') t = getCondition (job_Status j) t).
#[export] Instance keeps_preorder : PreOrder keeps.
Proof.
  split; [done|]. intros j1 j2 j3 (H1 & H2 & H3 & H4) (K1 & K2 & K3 & K4).
  split; [by transitivity j2|]. split; [congruence|]. split; [auto|].
  intros t Ht. by rewrite K4, H4.
Qed.

(** The part of a job's status the state machine is about. *)
Record view := mkView { w_verdict : verdict; w_running : bool;
                        w_started : bool; w_completed : bool }.
(** The running condition is true and has the reason the operator gives. *)
Definition running_noted (st : MXJobStatus) : bool :=
  match getCondition st MXJobRunning with
  | Some c => bool_decide (cond_Status c = ConditionTrue ∧ cond_Reason c = MXJobReasonRunning)
  | None => false
  end.
Definition job_view (j : MXJob) : view :=
  mkView (job_verdict j) (running_noted (job_Status j))
    (bool_decide (is_Some (st_StartTime (job_Status j))))
    (bool_decide (is_Some (st_CompletionTime (job_Status j)))).

(** One condition set, one time noted. *)
Definition v_set (t : MXJobConditionType) (b : bool) (v : view) : view :=
  mkView
    (mkVerdict (if decide (t = MXJobSucceeded) then b else v_succeeded (w_verdict v))
               (if decide (t = MXJobFailed) then b else v_failed (w_verdict v)))
    (if decide (t = MXJobRunning) then b else w_running v) (w_started v) (w_completed v).
Definition v_start (v : view) : view := mkView (w_verdict v) (w_running v) true (w_completed v).
Definition v_complete (v : view) : view := mkView (w_verdict v) (w_running v) (w_started v) true.

(** The abstract effect of [updateMXJobStatus] on the view. *)
Definition status_view (rtype : MXReplicaType) (replicas : Z) (rs : MXReplicaStatus) (v : view)
  : view :=
  let worker := bool_decide (rtype = MXReplicaTypeWorker) in
  let done := worker && (int32 (replicas - rs_Succeeded rs) =? 0) in
  mkView (status_verdict rtype replicas rs (w_verdict v))
    (w_running v || (worker && (0 <? rs_Active rs)))
    (w_started v || (worker && (rs_Active rs =? replicas)))
    (w_completed v || done).

Section facts.
Context {W : Type} `{!Cluster W}.

Lemma updateMXJobConditions_quiet mxjob t reason msg (s : St W) :
  quiet (updateMXJobConditions mxjob t reason msg)
    (λ mxjob', ∃ c, cond_Type c = t ∧ cond_Status c = ConditionTrue ∧ cond_Reason c = reason ∧
       cond_Message c = msg ∧ mxjob' = set_job_Status (λ st, setCondition st c) mxjob) s.
Proof.
  unfold updateMXJobConditions, newCondition.
  eapply quiet_bind with (Q' := λ c, ∃ t1 t2, c = mkMXJobCondition t ConditionTrue reason msg t1 t2).
  - eapply quiet_bind; [by apply (quiet_Now (λ _, True))|]. intros t1 s1 _.
    eapply quiet_bind; [by apply (quiet_Now (λ _, True))|]. intros t2 s2 _.
    apply quiet_ret. eauto.
  - intros c s' (t1 & t2 & ->). apply quiet_ret. eexists. split_and!; [..|done]; done.
Qed.

Lemma set_Status_update (f : MXJobStatus → MXJobStatus) (P : MXJobStatus → Prop) mxjob :
  (∀ st, st_ReplicaStatuses (f st) = st_ReplicaStatuses st) →
  (∀ st, conditions_wf st → conditions_wf (f st)) → P (f (job_Status mxjob)) →
  status_update P mxjob (set_job_Status f mxjob).
Proof. intros Hr Hw HP. split; [done|]. split; [apply Hr|]. split; [apply Hw | apply HP]. Qed.

Lemma setCondition_ReplicaStatuses st c :
  st_ReplicaStatuses (setCondition st c) = st_ReplicaStatuses st.
Proof. unfold setCondition. by case_match. Qed.
Lemma setCondition_times st c :
  st_StartTime (setCondition st c) = st_StartTime st ∧
  st_CompletionTime (setCondition st c) = st_CompletionTime st.
Proof. unfold setCondition. by case_match. Qed.

(** Setting a condition to true. *)
Lemma update_true mxjob t reason msg (s : St W) :
  quiet (updateMXJobConditions mxjob t reason msg)
    (status_update (λ st, checkCondition st t = true ∧
       (∀ t', t' ≠ t → getCondition st t' = getCondition (job_Status mxjob) t') ∧
       st_StartTime st = st_StartTime (job_Status mxjob) ∧
       st_CompletionTime st = st_CompletionTime (job_Status mxjob)) mxjob) s.
Proof.
  eapply quiet_mono; [apply updateMXJobConditions_quiet|].
  intros mxjob' (c & Ht & Hs & _ & _ & ->). apply set_Status_update.
  - intros st. apply setCondition_ReplicaStatuses.
  - intros st. apply setCondition_wf.
  - subst t. rewrite checkCondition_set_same, Hs. split; [done|]. split.
    + intros t' Hne. by apply setCondition_other.
    + apply setCondition_times.
Qed.

(** Setting a condition to false. *)
Lemma update_false mxjob t reason msg (s : St W) :
  quiet (updateMXJobFalseConditions mxjob t reason msg)
    (status_update (λ st, checkCondition st t = false ∧
       (∀ t', t' ≠ t → getCondition st t' = getCondition (job_Status mxjob) t') ∧
       st_StartTime st = st_StartTime (job_Status mxjob) ∧
       st_CompletionTime st = st_CompletionTime (job_Status mxjob)) mxjob) s.
Proof.
  unfold updateMXJobFalseConditions.
  destruct (getCondition (job_Status mxjob) t) as [c|] eqn:Hc.
  2:{ apply quiet_ret. split_and!; try done. cbn. unfold checkCondition. by rewrite Hc. }
  case_decide as Hfalse.
  { apply quiet_ret. split_and!; try done. cbn. unfold checkCondition. rewrite Hc, Hfalse. done. }
  eapply quiet_bind; [by apply (quiet_Now (λ _, True))|]. intros now s' _. apply quiet_ret.
  apply set_Status_update.
  - intros st. apply setCondition_ReplicaStatuses.
  - intros st. apply setCondition_wf.
  - apply find_condition_type in Hc as Ht. subst t.
    match goal with |- context [setCondition ?st ?c'] => set (cf := c') end.
    change (cond_Type c) with (cond_Type cf). rewrite checkCondition_set_same.
    split; [done|]. split; [intros t' Hne; by apply setCondition_other | apply setCondition_times].
Qed.
Lemma bool_decide_is_Some_other {A} (o : option A) :
  bool_decide (is_Some o) = negb (bool_decide (o = None)).
Proof. destruct o; by repeat case_bool_decide; try (exfalso; naive_solver). Qed.

(** A condition set to true has the reason given. *)
Lemma setCondition_noted st c :
  ∃ c', getCondition (setCondition st c) (cond_Type c) = Some c' ∧
    cond_Status c' = cond_Status c ∧ cond_Reason c' = cond_Reason c.
Proof.
  rewrite getCondition_map, setCondition_refines_spec. unfold set_spec.
  destruct (cond_map st !! cond_Type c) as [old|] eqn:Hold.
  - destruct (decide (_ ∧ _)) as [[Hs Hr]|]; [by exists old|].
    destruct (decide (cond_Status old = _)); rewrite lookup_insert_eq; by eexists.
  - rewrite lookup_insert_eq. by eexists.
Qed.

Lemma update_true_reason mxjob t reason msg (s : St W) :
  quiet (updateMXJobConditions mxjob t reason msg)
    (λ j, t = MXJobRunning → reason = MXJobReasonRunning → running_noted (job_Status j) = true) s.
Proof.
  eapply quiet_mono; [apply updateMXJobConditions_quiet|]. intros mxjob' (c & Ht & Hs & Hr & _ & ->) -> ->.
  destruct (setCondition_noted (job_Status mxjob) c) as (c' & Hc' & Hs' & Hr'). unfold running_noted.
  rewrite Ht in Hc'. cbn. rewrite Hc'. apply bool_decide_true. split; congruence.
Qed.

Lemma running_noted_other st st' :
  getCondition st' MXJobRunning = getCondition st MXJobRunning → running_noted st' = running_noted st.
Proof. unfold running_noted. by intros ->. Qed.

Lemma running_noted_check st : checkCondition st MXJobRunning = false → running_noted st = false.
Proof.
  unfold running_noted, checkCondition. destruct (getCondition st MXJobRunning) as [c|]; [|done].
  rewrite !bool_decide_eq_false. tauto.
Qed.

(** A condition set to [b], read back through the view. *)
Lemma status_update_view mxjob j t b :
  managed t →
  status_update (λ st, checkCondition st t = b ∧
       (∀ t', t' ≠ t → getCondition st t' = getCondition (job_Status mxjob) t') ∧
       st_StartTime st = st_StartTime (job_Status mxjob) ∧
       st_CompletionTime st = st_CompletionTime (job_Status mxjob)) mxjob j →
  (t = MXJobRunning → running_noted (job_Status j) = b) →
  keeps mxjob j ∧ job_view j = v_set t b (job_view mxjob).
Proof.
  intros Ht (H1 & H2 & H3 & H4 & H5 & H6 & H7) Hrun. split.
  - split_and!; try done. intros t' Ht'. apply H5. by intros ->.
  - assert (running_noted (job_Status j) = if decide (t = MXJobRunning) then b else running_noted (job_Status mxjob)) as Hn.
    { case_decide; [auto|]. apply running_noted_other, H5. congruence. }
    unfold v_set, job_view, job_verdict. cbn. rewrite H6, H7, Hn.
    unfold checkCondition in *. repeat case_decide; subst; f_equal; f_equal; rewrite ?H5; done.
Qed.

(** [m] keeps the rest of the job and takes its view to [v]. *)
Definition to_view (mxjob : MXJob) (v : view) (m : M (St W) MXJob) : Prop :=
  ∀ s, quiet m (λ j, keeps mxjob j ∧ job_view j = v) s.

Lemma to_view_ret mxjob v : job_view mxjob = v → to_view mxjob v (mret mxjob).
Proof. intros ? s. by apply quiet_ret. Qed.

Lemma to_view_bind mxjob v v' m f :
  to_view mxjob v m → (∀ j, job_view j = v → to_view j v' (f j)) → to_view mxjob v' (m ≫= f).
Proof.
  intros Hm Hf s. eapply quiet_bind; [apply Hm|]. intros j s' [Hk Hv].
  eapply quiet_mono; [by apply Hf|]. intros j' [Hk' Hv']. split; [by transitivity j | done].
Qed.

Lemma to_view_if mxjob v1 v2 (b : bool) m1 m2 :
  to_view mxjob v1 m1 → to_view mxjob v2 m2 →
  to_view mxjob (if b then v1 else v2) (if b then m1 else m2).
Proof. by destruct b. Qed.

Lemma to_view_decide mxjob v1 v2 P `{!Decision P} m1 m2 :
  to_view mxjob v1 m1 → to_view mxjob v2 m2 →
  to_view mxjob (if decide P then v1 else v2) (if decide P then m1 else m2).
Proof. by case_decide. Qed.

Lemma to_view_start mxjob v :
  job_view mxjob = v →
  to_view mxjob (v_start v) (t ← Now; mret (set_job_Status (set_st_StartTime (Some t)) mxjob)).
Proof.
  intros <- s. eapply quiet_bind; [by apply (quiet_Now (λ _, True))|].
  intros t s' _. by apply quiet_ret.
Qed.

Lemma to_view_complete mxjob v :
  job_view mxjob = v →
  to_view mxjob (v_complete v)
    (t ← Now; mret (set_job_Status (set_st_CompletionTime (Some t)) mxjob)).
Proof.
  intros <- s. eapply quiet_bind; [by apply (quiet_Now (λ _, True))|].
  intros t s' _. by apply quiet_ret.
Qed.

Lemma to_view_true mxjob v t reason msg :
  managed t → job_view mxjob = v → (t = MXJobRunning → reason = MXJobReasonRunning) →
  to_view mxjob (v_set t true v) (updateMXJobConditions mxjob t reason msg).
Proof.
  intros Ht <- Hr s. eapply quiet_mono; [apply quiet_and; [apply update_true|apply update_true_reason]|].
  intros j [Hu Hn]. apply status_update_view; auto.
Qed.

Lemma to_view_false mxjob v t reason msg :
  managed t → job_view mxjob = v →
  to_view mxjob (v_set t false v) (updateMXJobFalseConditions mxjob t reason msg).
Proof.
  intros Ht <- s. eapply quiet_mono; [apply update_false|]. intros j Hu. apply status_update_view; [done..|].
  intros ->. apply running_noted_check, Hu.
Qed.

Lemma managed_all : managed MXJobRunning ∧ managed MXJobSucceeded ∧ managed MXJobFailed.
Proof. unfold managed. tauto. Qed.

(** The two parts of [updateMXJobStatus], step by step. *)
Lemma note_workers_view mxjob v running replicas expected :
  job_view mxjob = v →
  to_view mxjob
    (let v1 := if (running =? replicas) && negb (w_started v) then v_start v else v in
     let v2 := if 0 <? running then v_set MXJobRunning true v1 else v1 in
     if expected =? 0
     then v_set MXJobFailed false
            (v_set MXJobSucceeded true (if negb (w_completed v2) then v_complete v2 else v2))
     else v2)
    (note_workers mxjob running replicas expected).
Proof.
  intros Hv. destruct managed_all as (Hr & Hs & Hf). unfold note_workers.
  eapply to_view_bind.
  { replace (bool_decide (st_StartTime (job_Status mxjob) = None)) with (negb (w_started v))
      by (subst v; cbn; by rewrite bool_decide_is_Some_other, negb_involutive).
    apply to_view_if; [by apply to_view_start | by apply to_view_ret]. }
  intros j1 Hj1. eapply to_view_bind.
  { apply to_view_if; [by apply to_view_true | by apply to_view_ret]. }
  intros j2 Hj2. cbv zeta. match type of Hj2 with _ = ?v2' => set (v2 := v2') in * end.
  clearbody v2. apply to_view_if; [|by apply to_view_ret]. eapply to_view_bind.
  { replace (bool_decide (st_CompletionTime (job_Status j2) = None)) with (negb (w_completed v2))
      by (subst v2; cbn; by rewrite bool_decide_is_Some_other, negb_involutive).
    apply to_view_if; [by apply to_view_complete | by apply to_view_ret]. }
  intros j3 Hj3. eapply to_view_bind; [by apply to_view_true|]. intros j4 Hj4.
  by apply to_view_false.
Qed.

Lemma note_lost_view mxjob v failed gone :
  job_view mxjob = v →
  to_view mxjob
    (if (0 <? failed) || (0 <? gone) then
       if negb (v_succeeded (w_verdict v)) then v_set MXJobFailed true v else v
     else v)
    (note_lost mxjob failed gone).
Proof.
  intros Hv. destruct managed_all as (_ & _ & Hf). unfold note_lost.
  apply to_view_if; [|by apply to_view_ret].
  replace (checkCondition (job_Status mxjob) MXJobSucceeded) with (v_succeeded (w_verdict v))
    by (by subst v).
  apply to_view_if; [by apply to_view_true | by apply to_view_ret].
Qed.

(** The steps of the call amount to [status_view]. *)
Lemma view_steps_compose rtype replicas rs v :
  (let v0 :=
     if decide (rtype = MXReplicaTypeWorker) then
       let v1 := if (rs_Active rs =? replicas) && negb (w_started v) then v_start v else v in
       let v2 := if 0 <? rs_Active rs then v_set MXJobRunning true v1 else v1 in
       if int32 (replicas - rs_Succeeded rs) =? 0
       then v_set MXJobFailed false
              (v_set MXJobSucceeded true (if negb (w_completed v2) then v_complete v2 else v2))
       else v2
     else v in
   if (0 <? rs_Failed rs) || (0 <? rs_Gone rs) then
     if negb (v_succeeded (w_verdict v0)) then v_set MXJobFailed true v0 else v0
   else v0) = status_view rtype replicas rs v.
Proof.
  unfold status_view, status_verdict, verdict_step. destruct v as [[vs vf] vr vst vc].
  destruct (decide (rtype = MXReplicaTypeWorker)) as [Hw|Hw];
    [rewrite (bool_decide_true _ Hw) | rewrite (bool_decide_false _ Hw)]; cbn [andb];
    destruct (rs_Active rs =? replicas), (0 <? rs_Active rs),
      (int32 (replicas - rs_Succeeded rs) =? 0), (0 <? rs_Failed rs), (0 <? rs_Gone rs),
      vs, vf, vr, vst, vc; reflexivity.
Qed.

(** The whole call, as a transformation of the view. *)
Lemma updateMXJobStatus_view mxjob rtype replicas rs (s : St W) :
  getMXReplicaStatus mxjob rtype = Some rs →
  quiet (updateMXJobStatus mxjob rtype replicas)
    (λ r, r.1 = None ∧ keeps mxjob r.2 ∧
          job_view r.2 = status_view rtype replicas rs (job_view mxjob)) s.
Proof.
  intros Hrs. unfold updateMXJobStatus. rewrite Hrs.
  apply (quiet_bind _ _ (λ r, r = rs)); [done|]. intros ? s1 ->. cbv zeta.
  eapply quiet_bind.
  { apply to_view_decide; [by apply note_workers_view | by apply to_view_ret]. }
  intros j1 s2 [Hk1 Hv1]. eapply quiet_bind; [apply (note_lost_view _ _ _ _ Hv1)|].
  intros j2 s3 [Hk2 Hv2]. apply quiet_ret. split; [done|]. split; [by transitivity j1|].
  cbn [snd]. rewrite Hv2. apply view_steps_compose.
Qed.
End facts.

(** ** Properties *)

(** C14. [updateMXJobStatus] is a step of the job's state machine: it sends
    nothing, and takes the job's state to [status_view]: succeeded when all workers have, and then no
    longer failed; failed when pods failed or are gone, unless succeeded; running and started from the
    active workers; nothing else of the job changes.  It never makes a job both succeeded and failed,
    and a finished job stays finished.  Without a status for the type it panics. *)
Theorem updateMXJobStatus_correct {W} `{!Cluster W} (mxjob : MXJob) rtype replicas (s : St W) :
  match getMXReplicaStatus mxjob rtype with
  | None => updateMXJobStatus mxjob rtype replicas s = Panicked s
  | Some rs =>
      quiet (updateMXJobStatus mxjob rtype replicas)
        (λ '(err, mxjob'), err = None ∧ keeps mxjob mxjob' ∧
           job_view mxjob' = status_view rtype replicas rs (job_view mxjob) ∧
           (exclusive mxjob → exclusive mxjob') ∧
           (conditions_wf (job_Status mxjob) → finished mxjob = true → finished mxjob' = true)) s
  end.
Proof.
  destruct (getMXReplicaStatus mxjob rtype) as [rs|] eqn:Hrs.
  - eapply quiet_mono; [by apply (updateMXJobStatus_view mxjob rtype replicas rs)|].
    intros [err mxjob'] (He & Hk & Hv). cbn in *.
    assert (job_verdict mxjob' = status_verdict rtype replicas rs (job_verdict mxjob)) as Hverd
      by exact (f_equal w_verdict Hv).
    split_and!; try done.
    + intros Hex. change (¬ (v_succeeded (job_verdict mxjob') = true ∧
                             v_failed (job_verdict mxjob') = true)).
      rewrite Hverd. by apply verdict_step_exclusive.
    + intros Hwf Hf. rewrite finished_verdict in Hf |- * by (try done; by apply Hk).
      rewrite Hverd. by apply verdict_finished_stable.
  - unfold updateMXJobStatus. by rewrite Hrs.
Qed.
