(* ===== verification/Controls.v ===== *)
(** * Pod and service control: pkg/controller/controller_utils.go and its vendored counterpart

    [PodControlInterface] and [ServiceControlInterface] are the Go interfaces through which the
    handler creates, deletes and patches objects.  [RealPodControl] and [RealServiceControl] are the
    implementations over the API client, [FakeServiceControl] the recording one used for testing.
    [ServiceControlLaws] is what the interface promises of [PatchService] to the controller-ref
    manager. *)
From S2P Require Import Prelude Types Runtime Api Labels.

(** ** Owner references (apimachinery/pkg/apis/meta/v1/controller_ref.go) *)
Fixpoint find_controller (refs : list OwnerReference) : option OwnerReference :=
  match refs with
  | [] => None
  | ref :: refs' =>
      if decide (ref_Controller ref = Some true) then Some ref else find_controller refs'
  end.
Definition GetControllerOf {O} `{!MetaObject O} (controllee : O) : option OwnerReference :=
  find_controller (meta_OwnerReferences (obj_meta controllee)).

Definition NewControllerRef {O} `{!MetaObject O} (owner : O) (gvk : GroupVersionKind)
  : OwnerReference :=
  mkOwnerReference (gv_String (gvk_GroupVersion gvk)) (gvk_Kind gvk) (meta_Name (obj_meta owner))
    (meta_UID (obj_meta owner)) (Some true) (Some true).

Definition validateControllerRef (controllerRef : option OwnerReference) : option error :=
  match controllerRef with
  | None => Some (Errorf "controllerRef is nil" None)
  | Some ref =>
      if decide (str_len (ref_APIVersion ref) = 0) then
        Some (Errorf "controllerRef has empty APIVersion" None)
      else if decide (str_len (ref_Kind ref) = 0) then
        Some (Errorf "controllerRef has empty Kind" None)
      else if decide (ref_Controller ref ≠ Some true) then
        Some (Errorf "controllerRef.Controller is not set to true" None)
      else if decide (ref_BlockOwnerDeletion ref ≠ Some true) then
        Some (Errorf "controllerRef.BlockOwnerDeletion is not set to true" None)
      else None
  end.

(** ** The interfaces *)
Class PodControlInterface (S : Type) := {
  CreatePods : string → PodTemplateSpec → MXJob → M S (option error);
  CreatePodsWithControllerRef :
    string → PodTemplateSpec → MXJob → option OwnerReference → M S (option error);
  DeletePod : string → string → M S (option error);
  PatchPod : string → string → json → M S (option error) }.

Class ServiceControlInterface (S : Type) := {
  CreateServices : string → Service → MXJob → M S (option error);
  CreateServicesWithControllerRef :
    string → Service → MXJob → option OwnerReference → M S (option error);
  PatchService : string → string → json → M S (option error) }.

Definition EventTypeNormal := "Normal".
Definition EventTypeWarning := "Warning".

(** ** RealServiceControl *)
Section real_service.
Context {W : Type} `{!Cluster W} `{!GoRuntime}.

Definition FailedCreateServiceReason := "FailedCreateService".
Definition SuccessfulCreateServiceReason := "SuccessfulCreateService".

Definition real_PatchService (namespace name : string) (data : json) : M (St W) (option error) :=
  Services_Patch namespace name data.

(** [controllerRef] is an argument of the source function too; its body does not use it. *)
Definition createServices (namespace : string) (service : Service) (object : MXJob)
  (controllerRef : option OwnerReference) : M (St W) (option error) :=
  if Selector_Empty (AsSelectorPreValidated (labels_of (meta_Labels (svc_Meta service)))) then
    mret (Some (Errorf "unable to create Services, no labels" None))
  else
    r ← Services_Create namespace service;
    match r with
    | inr err =>
        Eventf EventTypeWarning FailedCreateServiceReason;;
        mret (Some (Errorf "unable to create services: " (Some err)))
    | inl newService =>
        Eventf EventTypeNormal SuccessfulCreateServiceReason;;
        mret None
    end.

Definition real_CreateServices (namespace : string) (service : Service) (object : MXJob)
  : M (St W) (option error) :=
  createServices namespace service object None.

Definition real_CreateServicesWithControllerRef (namespace : string) (service : Service)
  (controllerObject : MXJob) (controllerRef : option OwnerReference) : M (St W) (option error) :=
  match validateControllerRef controllerRef with
  | Some err => mret (Some err)
  | None => createServices namespace service controllerObject controllerRef
  end.

#[export] Instance RealServiceControl : ServiceControlInterface (St W) := {
  CreateServices := real_CreateServices;
  CreateServicesWithControllerRef := real_CreateServicesWithControllerRef;
  PatchService := real_PatchService }.
End real_service.

(** ** RealPodControl (k8s.io/kubernetes/pkg/controller/controller_utils.go) *)

(** [validation.ValidatePodName(prefix, true)] for a prefix that ends with a dash: the dash and the
    byte before it are replaced by one letter ([maskTrailingDash] slices to [len - 2], which panics
    on the one-byte string) and the result must be a DNS subdomain. *)
Definition maskTrailingDash {S} (name : string) : M S string :=
  if str_len name <? 2 then go_panic
  else mret (String.substring 0 (String.length name - 2) name +:+ "a").
Definition getPodsPrefix {S} (controllerName : string) : M S string :=
  let prefix := controllerName +:+ "-" in
  masked ← maskTrailingDash prefix;
  mret (if decide (IsDNS1123Subdomain masked = []) then prefix else controllerName).

Section real_pod.
Context {W : Type} `{!Cluster W} `{!GoRuntime}.

Definition FailedCreatePodReason := "FailedCreate".
Definition SuccessfulCreatePodReason := "SuccessfulCreate".
Definition FailedDeletePodReason := "FailedDelete".
Definition SuccessfulDeletePodReason := "SuccessfulDelete".

(** The label and annotation maps are copied into fresh maps, so they are never nil. *)
Definition GetPodFromTemplate (template : PodTemplateSpec) (parentObject : MXJob)
  (controllerRef : option OwnerReference) : M (St W) Pod :=
  prefix ← getPodsPrefix (job_Name parentObject);
  mret (mkPod
    (mkObjectMeta "" prefix "" ""
       (Some (labels_of (meta_Labels (tpl_Meta template))))
       (Some (labels_of (meta_Annotations (tpl_Meta template))))
       match controllerRef with Some ref => [ref] | None => [] end
       None (meta_Finalizers (tpl_Meta template)))
    (tpl_Spec template) "").

Definition createPods (nodeName namespace : string) (template : PodTemplateSpec) (object : MXJob)
  (controllerRef : option OwnerReference) : M (St W) (option error) :=
  pod ← GetPodFromTemplate template object controllerRef;
  let pod :=
    if decide (str_len nodeName ≠ 0) then
      mkPod (pod_Meta pod)
        (mkPodSpec (ps_Containers (pod_Spec pod)) (ps_RestartPolicy (pod_Spec pod)) nodeName)
        (pod_Phase pod)
    else pod in
  if Selector_Empty (AsSelectorPreValidated (labels_of (meta_Labels (pod_Meta pod)))) then
    mret (Some (Errorf "unable to create pods, no labels" None))
  else
    r ← Pods_Create namespace pod;
    match r with
    | inr err => Eventf EventTypeWarning FailedCreatePodReason;; mret (Some err)
    | inl newPod => Eventf EventTypeNormal SuccessfulCreatePodReason;; mret None
    end.

Definition real_CreatePods (namespace : string) (template : PodTemplateSpec) (object : MXJob)
  : M (St W) (option error) :=
  createPods "" namespace template object None.

Definition real_CreatePodsWithControllerRef (namespace : string) (template : PodTemplateSpec)
  (controllerObject : MXJob) (controllerRef : option OwnerReference) : M (St W) (option error) :=
  match validateControllerRef controllerRef with
  | Some err => mret (Some err)
  | None => createPods "" namespace template controllerObject controllerRef
  end.

Definition real_DeletePod (namespace podID : string) : M (St W) (option error) :=
  err ← Pods_Delete namespace podID;
  match err with
  | Some err =>
      Eventf EventTypeWarning FailedDeletePodReason;;
      mret (Some (Errorf "unable to delete pods: " (Some err)))
  | None => Eventf EventTypeNormal SuccessfulDeletePodReason;; mret None
  end.

Definition real_PatchPod (namespace name : string) (data : json) : M (St W) (option error) :=
  Pods_Patch namespace name data.

#[export] Instance RealPodControl : PodControlInterface (St W) := {
  CreatePods := real_CreatePods;
  CreatePodsWithControllerRef := real_CreatePodsWithControllerRef;
  DeletePod := real_DeletePod;
  PatchPod := real_PatchPod }.
End real_pod.

(** ** FakeServiceControl *)

(** The mutex serialises the methods, so each is one step on the record. *)
Record FakeServiceControl := mkFakeServiceControl {
  fake_Templates : list Service;
  fake_ControllerRefs : list OwnerReference;
  fake_DeletePodName : list string;
  fake_Patches : list json;
  fake_Err : option error;
  fake_CreateLimit : Z;
  fake_CreateCallCount : Z }.

Definition fake_PatchService (namespace name : string) (data : json)
  : M FakeServiceControl (option error) := λ f,
  Ret (fake_Err f)
    (mkFakeServiceControl (fake_Templates f) (fake_ControllerRefs f) (fake_DeletePodName f)
       (fake_Patches f ++ [data]) (fake_Err f) (fake_CreateLimit f) (fake_CreateCallCount f)).

(** The counting and the limit check that both create methods start with. *)
Definition fake_count (f : FakeServiceControl) : FakeServiceControl :=
  mkFakeServiceControl (fake_Templates f) (fake_ControllerRefs f) (fake_DeletePodName f)
    (fake_Patches f) (fake_Err f) (fake_CreateLimit f) (int64 (fake_CreateCallCount f + 1)).
Definition fake_limit_reached (f : FakeServiceControl) : bool :=
  negb (fake_CreateLimit f =? 0) && (fake_CreateLimit f <? fake_CreateCallCount f).
Definition fake_record (service : Service) (refs : list OwnerReference) (f : FakeServiceControl)
  : FakeServiceControl :=
  mkFakeServiceControl (fake_Templates f ++ [service]) (fake_ControllerRefs f ++ refs)
    (fake_DeletePodName f) (fake_Patches f) (fake_Err f) (fake_CreateLimit f)
    (fake_CreateCallCount f).
Definition limit_error : error := Errorf "Not creating service, limit already reached" None.

Definition fake_CreateServices (namespace : string) (service : Service) (object : MXJob)
  : M FakeServiceControl (option error) := λ f,
  let f := fake_count f in
  if fake_limit_reached f then Ret (Some limit_error) f
  else Ret (fake_Err f) (fake_record service [] f).
(** The template is appended before the nil reference would be dereferenced. *)
Definition fake_CreateServicesWithControllerRef (namespace : string) (service : Service)
  (object : MXJob) (controllerRef : option OwnerReference)
  : M FakeServiceControl (option error) := λ f,
  let f := fake_count f in
  if fake_limit_reached f then Ret (Some limit_error) f
  else match controllerRef with
       | None => Panicked (fake_record service [] f)
       | Some ref => Ret (fake_Err f) (fake_record service [ref] f)
       end.

#[export] Instance FakeServiceControl_control : ServiceControlInterface FakeServiceControl := {
  CreateServices := fake_CreateServices;
  CreateServicesWithControllerRef := fake_CreateServicesWithControllerRef;
  PatchService := fake_PatchService }.

(** ** The promise to the controller-ref manager

    An implementation has a log of the patches it was asked for, in a form of its own: [patched ns name data
    answer] is the entry of one.  [PatchService] returns an answer and adds the entry with that answer to the
    log, nothing else. *)
Class ServiceControlLaws (S : Type) `{!ServiceControlInterface S} := {
  patch_entry : Type;
  patched : string → string → json → option error → patch_entry;
  patch_log : S → list patch_entry;
  patch_log_spec ns name data s :
    post (PatchService ns name data)
      (λ err s', patch_log s' = patch_log s ++ [patched ns name data err]) (λ _, False) s }.

Definition is_PatchService (r : request) : bool :=
  match r with PatchServiceReq _ _ _ _ => true | _ => false end.

#[export, refine] Instance RealServiceControl_laws {W} `{!Cluster W} `{!GoRuntime} :
  ServiceControlLaws (St W) :=
  {| patched := PatchServiceReq; patch_log s := filter is_PatchService (trace s) |}.
Proof. intros. apply post_ask. intros a w _. cbn. by rewrite filter_app. Defined.

(** The fake keeps the documents; all its answers are [Err]. *)
#[export, refine] Instance FakeServiceControl_laws : ServiceControlLaws FakeServiceControl :=
  {| patched _ _ data answer := (data, answer); patch_log f := (λ data, (data, fake_Err f)) <$> fake_Patches f |}.
Proof. intros ns name data f. unfold post. cbn. by rewrite fmap_app. Defined.

(** ** Lemmas *)
Lemma find_controller_Some refs ref :
  find_controller refs = Some ref → ref ∈ refs ∧ ref_Controller ref = Some true.
Proof.
  induction refs as [|r refs IH]; [done|]. cbn. rewrite elem_of_cons.
  case_decide; [naive_solver|]. intros Hf. apply IH in Hf. tauto.
Qed.

Lemma str_len_zero s : str_len s = 0 ↔ s = "".
Proof. unfold str_len. destruct s; cbn; split; intros; try done; lia. Qed.

Lemma str_len_app s t : str_len (s +:+ t) = str_len s + str_len t.
Proof.
  unfold str_len. rewrite <- Nat2Z.inj_add. f_equal.
  induction s as [|c s IH]; [done | exact (f_equal S IH)].
Qed.

(** [getPodsPrefix] panics on the empty name only. *)
Lemma getPodsPrefix_cases {S} (name : string) (s : S) :
  (name = "" ∧ getPodsPrefix name s = Panicked s) ∨
  (∃ prefix, getPodsPrefix name s = Ret prefix s ∧ (prefix = name ∨ prefix = name +:+ "-")).
Proof.
  unfold getPodsPrefix, maskTrailingDash. rewrite str_len_app.
  change (str_len "-") with 1. destruct (Z.ltb_spec (str_len name + 1) 2) as [Hlt|Hge].
  - left. split; [|done]. apply str_len_zero. unfold str_len in *. lia.
  - right. eexists. split; [done|]. case_decide; auto.
Qed.

Lemma validateControllerRef_ok ref :
  validateControllerRef ref = None ↔
  ∃ r, ref = Some r ∧ ref_APIVersion r ≠ "" ∧ ref_Kind r ≠ "" ∧
       ref_Controller r = Some true ∧ ref_BlockOwnerDeletion r = Some true.
Proof.
  unfold validateControllerRef. destruct ref as [r|]; [|split; [done | by intros (? & ? & _)]].
  split.
  - repeat case_decide; intros; try done. exists r. rewrite <- !str_len_zero.
    split_and!; try done; by apply dec_stable.
  - intros (? & [= <-] & Hv & Hk & Hc & Hb). rewrite <- str_len_zero in Hv, Hk.
    by repeat case_decide.
Qed.

Lemma NewControllerRef_valid (mxjob : MXJob) :
  validateControllerRef (Some (NewControllerRef mxjob SchemeGroupVersionKind)) = None.
Proof. apply validateControllerRef_ok. eexists. split_and!; [done|..]; done. Qed.

(** ** Properties *)

(** A controller reference passes validation exactly if it is present,
    has a version and a kind, and is marked as controller and as blocking the owner's deletion; the
    references [NewControllerRef] makes for a job pass. *)
Theorem validateControllerRef_iff (ref : option OwnerReference) (mxjob : MXJob) :
  (validateControllerRef ref = None ↔
   ∃ r, ref = Some r ∧ ref_APIVersion r ≠ "" ∧ ref_Kind r ≠ "" ∧
        ref_Controller r = Some true ∧ ref_BlockOwnerDeletion r = Some true) ∧
  validateControllerRef (Some (NewControllerRef mxjob SchemeGroupVersionKind)) = None ∧
  GetControllerOf (mkPod (mkObjectMeta "" "" "" "" None None
    [NewControllerRef mxjob SchemeGroupVersionKind] None []) (mkPodSpec [] "" "") "") =
    Some (NewControllerRef mxjob SchemeGroupVersionKind).
Proof. split; [apply validateControllerRef_ok|]. split; [apply NewControllerRef_valid | done]. Qed.
