(* ===== verification/RefManager.v ===== *)
(** * Claiming objects: pkg/controller/controller_ref_manager.go and the vendored base

    A controller-ref manager goes through the objects of a namespace and decides for each whether
    the controller owns it: it keeps what it owns and still selects, releases what it owns and no
    longer selects, adopts selected orphans, and leaves the rest.  [claim_action] is that decision as
    a function, [ClaimObject_correct] shows that the code takes it.

    Adopting and releasing are patches; the manager is written against the interfaces
    [PodControlInterface] and [ServiceControlInterface], and the theorem about what is patched
    is proved from [ServiceControlLaws] alone. *)
From S2P Require Import Prelude Types Runtime Api Labels Controls.

(** ** k8s.io/kubernetes/pkg/controller/controller_ref_manager.go *)

(** [canAdoptOnce] and [canAdoptErr]: nothing yet, or the result of the only run. *)
Abbreviation CanAdoptOnce := (option (option error)).

Section manager.
Context {S : Type}.

Record BaseControllerRefManager := mkManager {
  m_Controller : MXJob;
  m_Selector : Selector;
  m_CanAdoptFunc : option (M S (option error)) }.

Definition CanAdopt (m : BaseControllerRefManager) (once : CanAdoptOnce)
  : M S (option error * CanAdoptOnce) :=
  match once with
  | Some err => mret (err, once)
  | None =>
      match m_CanAdoptFunc m with
      | Some CanAdoptFunc => err ← CanAdoptFunc; mret (err, Some err)
      | None => mret (None, Some None)
      end
  end.

Definition ClaimObject {O} `{!MetaObject O} (m : BaseControllerRefManager) (obj : O)
  (matches : O → bool)
  (adopt release : O → CanAdoptOnce → M S (option error * CanAdoptOnce)) (once : CanAdoptOnce)
  : M S ((bool * option error) * CanAdoptOnce) :=
  let deleting := bool_decide (is_Some (meta_DeletionTimestamp (job_Meta (m_Controller m)))) in
  match GetControllerOf obj with
  | Some controllerRef =>
      if decide (ref_UID controllerRef ≠ job_UID (m_Controller m)) then mret ((false, None), once)
      else if matches obj then mret ((true, None), once)
      else if deleting then mret ((false, None), once)
      else
        '(err, once) ← release obj once;
        match err with
        | Some e =>
            if IsNotFound err then mret ((false, None), once) else mret ((false, Some e), once)
        | None => mret ((false, None), once)
        end
  | None =>
      if deleting || negb (matches obj) then mret ((false, None), once)
      else if decide (is_Some (meta_DeletionTimestamp (obj_meta obj))) then mret ((false, None), once)
      else
        '(err, once) ← adopt obj once;
        match err with
        | Some e =>
            if IsNotFound err then mret ((false, None), once) else mret ((false, Some e), once)
        | None => mret ((true, None), once)
        end
  end.

(** The loop [ClaimPods] and [ClaimServices] share: objects claimed, errors met. *)
Definition claim_all {O} `{!MetaObject O} (m : BaseControllerRefManager) (matches : O → bool)
  (adopt release : O → CanAdoptOnce → M S (option error * CanAdoptOnce)) (objs : list O)
  : M S (list O * list error * CanAdoptOnce) :=
  foldM (λ '(claimed, errlist, once) obj,
    '((ok, err), once) ← ClaimObject m obj matches adopt release once;
    match err with
    | Some e => mret (claimed, errlist ++ [e], once)
    | None => mret (if (ok : bool) then claimed ++ [obj] else claimed, errlist, once)
    end) objs ([], [], None).

(** The selector is checked first, then every filter. *)
Definition match_object {O} `{!MetaObject O} (m : BaseControllerRefManager)
  (filters : list (O → bool)) (obj : O) : bool :=
  Selector_Matches (m_Selector m) (labels_of (meta_Labels (obj_meta obj)))
  && forallb (λ f, f obj) filters.

(** The strategic merge patches. *)
Definition addControllerPatch (controller : MXJob) (controllerKind : GroupVersionKind)
  (uid : string) : json :=
  JObj [("metadata", JObj [
    ("ownerReferences", JArr [JObj [
      ("apiVersion", JStr (gv_String (gvk_GroupVersion controllerKind)));
      ("kind", JStr (gvk_Kind controllerKind));
      ("name", JStr (job_Name controller));
      ("uid", JStr (job_UID controller));
      ("controller", JBool true);
      ("blockOwnerDeletion", JBool true)]]);
    ("uid", JStr uid)])].
Definition deleteOwnerRefPatch (controller : MXJob) (uid : string) : json :=
  JObj [("metadata", JObj [
    ("ownerReferences", JArr [JObj [("$patch", JStr "delete"); ("uid", JStr (job_UID controller))]]);
    ("uid", JStr uid)])].

(** ** Pods *)
Section pods.
Context `{!PodControlInterface S}.

Definition AdoptPod (m : BaseControllerRefManager) (controllerKind : GroupVersionKind) (pod : Pod)
  (once : CanAdoptOnce) : M S (option error * CanAdoptOnce) :=
  '(err, once) ← CanAdopt m once;
  match err with
  | Some e => mret (Some (Errorf "can't adopt Pod" (Some e)), once)
  | None =>
      err ← PatchPod (meta_Namespace (pod_Meta pod)) (meta_Name (pod_Meta pod))
              (addControllerPatch (m_Controller m) controllerKind (meta_UID (pod_Meta pod)));
      mret (err, once)
  end.

Definition ReleasePod (m : BaseControllerRefManager) (pod : Pod) (once : CanAdoptOnce)
  : M S (option error * CanAdoptOnce) :=
  err ← PatchPod (meta_Namespace (pod_Meta pod)) (meta_Name (pod_Meta pod))
          (deleteOwnerRefPatch (m_Controller m) (meta_UID (pod_Meta pod)));
  mret (if IsNotFound err then None else if IsInvalid err then None else err, once).

Definition ClaimPods (m : BaseControllerRefManager) (controllerKind : GroupVersionKind)
  (pods : list Pod) (filters : list (Pod → bool)) : M S (list Pod * option error) :=
  '(claimed, errlist, _) ←
    claim_all m (match_object m filters) (AdoptPod m controllerKind) (ReleasePod m) pods;
  mret (claimed, NewAggregate errlist).
End pods.

(** ** Services: pkg/controller/controller_ref_manager.go *)
Section services.
Context `{!ServiceControlInterface S}.

Definition AdoptService (m : BaseControllerRefManager) (controllerKind : GroupVersionKind)
  (service : Service) (once : CanAdoptOnce) : M S (option error * CanAdoptOnce) :=
  '(err, once) ← CanAdopt m once;
  match err with
  | Some e => mret (Some (Errorf "can't adopt Service" (Some e)), once)
  | None =>
      err ← PatchService (meta_Namespace (svc_Meta service)) (meta_Name (svc_Meta service))
              (addControllerPatch (m_Controller m) controllerKind (meta_UID (svc_Meta service)));
      mret (err, once)
  end.

Definition ReleaseService (m : BaseControllerRefManager) (service : Service) (once : CanAdoptOnce)
  : M S (option error * CanAdoptOnce) :=
  err ← PatchService (meta_Namespace (svc_Meta service)) (meta_Name (svc_Meta service))
          (deleteOwnerRefPatch (m_Controller m) (meta_UID (svc_Meta service)));
  match err with
  | None => mret (None, once)
  | Some _ =>
      if IsNotFound err then mret (None, once)
      else if IsInvalid err then mret (None, once)
      else mret (err, once)
  end.

Definition ClaimServices (m : BaseControllerRefManager) (controllerKind : GroupVersionKind)
  (services : list Service) (filters : list (Service → bool))
  : M S (list Service * option error) :=
  '(claimed, errlist, _) ←
    claim_all m (match_object m filters) (AdoptService m controllerKind) (ReleaseService m) services;
  mret (claimed, NewAggregate errlist).
End services.

(** [NewServiceControllerRefManager] and [NewPodControllerRefManager]: the kind and the control are
    passed to the methods instead of being stored. *)
Definition NewControllerRefManager (ctr : MXJob) (selector : Selector)
  (canAdopt : M S (option error)) : BaseControllerRefManager :=
  mkManager ctr selector (Some canAdopt).

(** [RecheckDeletionTimestamp], the copy of this package. *)
Definition RecheckDeletionTimestamp (getObject : M S (MXJob + error)) : M S (option error) :=
  r ← getObject;
  match r with
  | inr err => mret (Some (Errorf "can't recheck DeletionTimestamp: " (Some err)))
  | inl obj =>
      if decide (is_Some (meta_DeletionTimestamp (job_Meta obj)))
      then mret (Some (Errorf (job_Namespace obj +:+ "/" +:+ job_Name obj
                               +:+ " has just been deleted") None))
      else mret None
  end.
End manager.
Arguments BaseControllerRefManager S : clear implicits.

(** ** The decision *)
Inductive action := Ignore | Keep | Release | Adopt.
#[export] Instance action_eq : EqDecision action.
Proof. solve_decision. Defined.

Definition claim_action {O} `{!MetaObject O} (ctr : MXJob) (matches : O → bool) (obj : O) : action :=
  let deleting := bool_decide (is_Some (meta_DeletionTimestamp (job_Meta ctr))) in
  match GetControllerOf obj with
  | Some ref =>
      if decide (ref_UID ref ≠ job_UID ctr) then Ignore
      else if matches obj then Keep
      else if deleting then Ignore else Release
  | None =>
      if deleting then Ignore
      else if negb (matches obj) then Ignore
      else if decide (is_Some (meta_DeletionTimestamp (obj_meta obj))) then Ignore
      else Adopt
  end.

(** The result of an action whose patch returned [err]: a vanished object is no error. *)
Definition claim_result (a : action) (err : option error) : bool * option error :=
  match a with
  | Ignore => (false, None)
  | Keep => (true, None)
  | Release => (false, if IsNotFound err then None else err)
  | Adopt =>
      match err with
      | None => (true, None)
      | Some _ => (false, if IsNotFound err then None else err)
      end
  end.

(** The code takes the decision and reports its result. *)
Lemma ClaimObject_run {S O} `{!MetaObject O} (m : BaseControllerRefManager S) (obj : O) matches
  adopt release once s :
  ClaimObject m obj matches adopt release once s =
  match claim_action (m_Controller m) matches obj with
  | Ignore => Ret (claim_result Ignore None, once) s
  | Keep => Ret (claim_result Keep None, once) s
  | Release => (r ← release obj once; mret (claim_result Release r.1, r.2)) s
  | Adopt => (r ← adopt obj once; mret (claim_result Adopt r.1, r.2)) s
  end.
Proof.
  unfold ClaimObject, claim_action.
  destruct (GetControllerOf obj) as [ref|];
    [destruct (decide (ref_UID ref ≠ _)); [done|]|];
    destruct (matches obj); try done;
    destruct (bool_decide _); try done; cbn [orb negb];
    repeat case_decide; try done;
    unfold mbind, M_bind; destruct (_ obj once s) as [[[e|] o] s'|]; try done;
    cbn [fst snd claim_result]; by destruct (IsNotFound (Some e)).
Qed.

(** ** A pass

    [claim_all] calls [adopt] and [release] for some of the objects, and each of them sends at most one patch,
    whose answer is up to the server.  Given the answers, one per object (those of objects that need no patch
    do not matter), and the verdict of the adoption check, a pass is determined: what it sends is
    [claim_entries], in the order of the objects, the check ([checked]) right before the first adoption; what it
    claims is what [claim_of] and what it reports what [claim_error] says. *)
Section pass.
Context {O X : Type} `{!MetaObject O} (ctr : MXJob) (matches : O → bool).
(** The entries of the two patches in the log of what is sent, and the error of a denied adoption. *)
Context (adopted released : O → option error → X) (denied : error → error).

Definition action_of (obj : O) : action := claim_action ctr matches obj.

Fixpoint claim_entries (verdict : option error) (checked : list X) (objs : list (O * option error)) : list X :=
  match objs with
  | [] => []
  | (obj, answer) :: rest =>
      match action_of obj with
      | Release => released obj answer :: claim_entries verdict checked rest
      | Adopt =>
          checked ++ match verdict with None => [adopted obj answer] | Some _ => [] end ++
          claim_entries verdict [] rest
      | _ => claim_entries verdict checked rest
      end
  end.
Definition claim_of (verdict : option error) (o : O * option error) : option O :=
  match action_of o.1 with
  | Keep => Some o.1
  | Adopt => match verdict, o.2 with None, None => Some o.1 | _, _ => None end
  | _ => None
  end.
(** An object that vanished in the meantime is no error. *)
Definition claim_error (verdict : option error) (o : O * option error) : option error :=
  match action_of o.1 with
  | Release => if IsNotFound o.2 || IsInvalid o.2 then None else o.2
  | Adopt =>
      match verdict with
      | Some err => Some (denied err)
      | None => if IsNotFound o.2 then None else o.2
      end
  | _ => None
  end.
(** A pass over [objs] with claimed objects [claimed] and errors [errs], that added [l] to the log; [V] says
    which verdicts there are, and with which entries for the check. *)
Definition claim_pass (V : option error → list X → Prop) (objs claimed : list O) (errs : list error)
  (l : list X) : Prop :=
  ∃ answers verdict checked,
    length answers = length objs ∧
    ((∃ obj, obj ∈ objs ∧ action_of obj = Adopt) → V verdict checked) ∧
    l = claim_entries verdict checked (zip objs answers) ∧
    claimed = omap (claim_of verdict) (zip objs answers) ∧
    errs = omap (claim_error verdict) (zip objs answers).

Lemma claim_entries_app verdict checked l1 l2 :
  claim_entries verdict checked (l1 ++ l2) =
  claim_entries verdict checked l1 ++
  claim_entries verdict (if existsb (λ o, bool_decide (action_of o.1 = Adopt)) l1 then [] else checked) l2.
Proof.
  revert checked. induction l1 as [|[obj a] l1 IH]; intros checked; [done|]. cbn.
  destruct (action_of obj); cbn; rewrite IH, ?app_assoc; try done. by destruct (existsb _ l1).
Qed.
Lemma claim_entries_free verdict verdict' checked checked' l :
  existsb (λ o, bool_decide (action_of o.1 = Adopt)) l = false →
  claim_entries verdict checked l = claim_entries verdict' checked' l ∧
  omap (claim_of verdict) l = omap (claim_of verdict') l ∧
  omap (claim_error verdict) l = omap (claim_error verdict') l.
Proof.
  induction l as [|[obj a] l IH]; [done|]. cbn [existsb]. intros [Ha Hl]%orb_false_elim.
  destruct (IH Hl) as (H1 & H2 & H3). apply bool_decide_eq_false in Ha. cbn [fst] in Ha.
  assert (claim_of verdict (obj, a) = claim_of verdict' (obj, a) ∧
    claim_error verdict (obj, a) = claim_error verdict' (obj, a)) as [E1 E2].
  { unfold claim_of, claim_error. cbn [fst snd]. by destruct (action_of obj). }
  split_and!.
  - cbn. destruct (action_of obj); [done | done | by f_equal | done].
  - change (match claim_of verdict (obj, a) with Some y => y :: omap (claim_of verdict) l | None => omap (claim_of verdict) l end =
      match claim_of verdict' (obj, a) with Some y => y :: omap (claim_of verdict') l | None => omap (claim_of verdict') l end).
    by rewrite E1, H2.
  - change (match claim_error verdict (obj, a) with Some y => y :: omap (claim_error verdict) l | None => omap (claim_error verdict) l end =
      match claim_error verdict' (obj, a) with Some y => y :: omap (claim_error verdict') l | None => omap (claim_error verdict') l end).
    by rewrite E2, H3.
Qed.
(** What is adopted is patched, and the check is made. *)
Lemma claim_entries_adopted verdict checked l obj answer :
  (obj, answer) ∈ l → action_of obj = Adopt →
  (∀ x, x ∈ checked → x ∈ claim_entries verdict checked l) ∧
  (verdict = None → adopted obj answer ∈ claim_entries verdict checked l).
Proof.
  intros Hin Ha. revert checked. induction l as [|[o a] l IH]; intros checked; [by apply not_elem_of_nil in Hin|].
  cbn. apply elem_of_cons in Hin as [[= <- <-]|Hin].
  - rewrite Ha. split; [intros x Hx; apply elem_of_app; by left|]. intros ->. apply elem_of_app. right. by left.
  - specialize (IH Hin). destruct (action_of o).
    + apply IH.
    + apply IH.
    + split; [intros x Hx; right; by apply IH | intros Hv; right; by apply IH].
    + split; [intros x Hx; apply elem_of_app; by left|]. intros Hv. apply elem_of_app. right. apply elem_of_app.
      right. by apply IH.
Qed.
Lemma claim_pass_adopts V objs claimed errs l obj :
  claim_pass V objs claimed errs l → obj ∈ objs → action_of obj = Adopt →
  ∃ verdict checked, V verdict checked ∧ (∀ x, x ∈ checked → x ∈ l) ∧
    (verdict = None → ∃ answer, adopted obj answer ∈ l ∧ (answer = None → obj ∈ claimed)).
Proof.
  intros (answers & verdict & checked & Hlen & HV & -> & -> & _) Hin Ha.
  apply list_elem_of_lookup in Hin as [i Hi]. destruct (lookup_lt_is_Some_2 answers i) as [a Hai].
  { rewrite Hlen. by eapply lookup_lt_Some. }
  assert ((obj, a) ∈ zip objs answers) as Hz
    by (apply (list_elem_of_lookup_2 _ i); by apply lookup_zip_with_Some; eauto 10).
  destruct (claim_entries_adopted verdict checked _ _ _ Hz Ha) as [Hc Had].
  exists verdict, checked. split; [apply HV; exists obj; split; [by eapply list_elem_of_lookup_2 | done]|].
  split; [done|]. intros Hv. exists a. split; [by apply Had|]. intros ->. apply list_elem_of_omap.
  exists (obj, None). split; [done|]. unfold claim_of. cbn. by rewrite Ha, Hv.
Qed.
Lemma claim_pass_keeps V objs claimed errs l obj :
  claim_pass V objs claimed errs l → obj ∈ objs → action_of obj = Keep → obj ∈ claimed.
Proof.
  intros (answers & verdict & checked & Hlen & _ & _ & -> & _) Hin Ha.
  apply list_elem_of_lookup in Hin as [i Hi]. destruct (lookup_lt_is_Some_2 answers i) as [a Hai].
  { rewrite Hlen. by eapply lookup_lt_Some. }
  apply list_elem_of_omap. exists (obj, a). split.
  - apply (list_elem_of_lookup_2 _ i). apply lookup_zip_with_Some. eauto 10.
  - unfold claim_of. cbn. by rewrite Ha.
Qed.
(** What is claimed was kept, or adopted with success. *)
Lemma claim_pass_claimed V objs claimed errs l :
  claim_pass V objs claimed errs l →
  Forall (λ obj, obj ∈ objs ∧ (action_of obj = Keep ∨ (action_of obj = Adopt ∧ adopted obj None ∈ l))) claimed.
Proof.
  intros (answers & verdict & checked & Hlen & _ & -> & -> & _). apply Forall_forall. intros obj Ho.
  apply list_elem_of_omap in Ho as ([o a] & Hin & Ho). pose proof (elem_of_zip_l _ _ _ _ Hin) as Hitem.
  unfold claim_of in Ho. cbn in Ho.
  destruct (action_of o) eqn:Ea; try discriminate; [by injection Ho as <-; auto|].
  destruct verdict, a; try discriminate. injection Ho as <-. split; [done|]. right. split; [done|].
  by apply (claim_entries_adopted None checked _ _ _ Hin Ea).
Qed.

(** Without the check there are only the patches. *)
Definition patch_of (verdict : option error) (o : O * option error) : option X :=
  match action_of o.1, verdict with
  | Release, _ => Some (released o.1 o.2)
  | Adopt, None => Some (adopted o.1 o.2)
  | _, _ => None
  end.
Lemma claim_entries_patches verdict l : claim_entries verdict [] l = omap (patch_of verdict) l.
Proof.
  induction l as [|[obj a] l IH]; [done|].
  change (omap (patch_of verdict) ((obj, a) :: l)) with
    (match patch_of verdict (obj, a) with Some y => y :: omap (patch_of verdict) l | None => omap (patch_of verdict) l end).
  rewrite <- IH. cbn. unfold patch_of. cbn. destruct (action_of obj), verdict; done.
Qed.
Lemma claim_pass_unchecked (V : option error → Prop) objs claimed errs l :
  claim_pass (λ v checked, V v ∧ checked = []) objs claimed errs l →
  ∃ answers verdict, length answers = length objs ∧
    ((∃ obj, obj ∈ objs ∧ action_of obj = Adopt) → V verdict) ∧
    l = omap (patch_of verdict) (zip objs answers) ∧
    claimed = omap (claim_of verdict) (zip objs answers) ∧
    errs = omap (claim_error verdict) (zip objs answers).
Proof.
  intros (answers & verdict & checked & Hlen & HV & -> & -> & ->). exists answers, verdict.
  split_and!; [done | intros Hex; by apply HV | | done | done]. rewrite <- claim_entries_patches.
  destruct (existsb (λ o, bool_decide (action_of o.1 = Adopt)) (zip objs answers)) eqn:E.
  - apply existsb_exists in E as ([obj a] & Hin%list_elem_of_In & Ha%bool_decide_eq_true).
    apply elem_of_zip_l in Hin. destruct HV as [_ ->]; [by exists obj | done].
  - by apply claim_entries_free.
Qed.
End pass.

Section claim_all.
Context {S O X : Type} `{!MetaObject O} (m : BaseControllerRefManager S) (matches : O → bool).
#[local] Abbreviation ctr := (m_Controller m).
Context (adopted released : O → option error → X) (denied : error → error).
Context (adopt release : O → CanAdoptOnce → M S (option error * CanAdoptOnce)).
Context (log : S → list X) (V : option error → list X → Prop) (I : S → Prop).
Hypothesis denied_found : ∀ e, IsNotFound (Some (denied e)) = false.
Hypothesis release_spec : ∀ obj once s, I s →
  post (release obj once) (λ r s', I s' ∧ ∃ answer,
    r = (if IsNotFound answer || IsInvalid answer then None else answer, once) ∧
    log s' = log s ++ [released obj answer]) (λ _, False) s.
Hypothesis adopt_spec : ∀ obj once s, I s →
  post (adopt obj once) (λ r s', I s' ∧ ∃ verdict checked answer,
    match once with Some v => verdict = v ∧ checked = [] | None => V verdict checked end ∧
    r = (match verdict with Some e => Some (denied e) | None => answer end, Some verdict) ∧
    log s' = log s ++ checked ++ match verdict with None => [adopted obj answer] | Some _ => [] end)
    (λ _, False) s.
#[local] Abbreviation adopting l := (existsb (λ o, bool_decide (action_of ctr matches o.1 = Adopt)) l).

(** After the objects [l], with their answers. *)
Definition pass_inv (s0 : S) (l : list (O * option error)) (claimed : list O) (errs : list error)
  (once : CanAdoptOnce) (s : S) : Prop :=
  ∃ verdict checked,
    match once with
    | None => adopting l = false
    | Some v => adopting l = true ∧ verdict = v ∧ V verdict checked
    end ∧
    log s = log s0 ++ claim_entries ctr matches adopted released verdict checked l ∧
    claimed = omap (claim_of ctr matches verdict) l ∧
    errs = omap (claim_error ctr matches denied verdict) l.

(** One more object. *)
Lemma pass_inv_snoc s0 l claimed errs once s obj answer verdict checked once' s' k :
  pass_inv s0 l claimed errs once s →
  match once, once' with
  | Some v, _ => once' = Some v ∧ verdict = v
  | None, Some v' => verdict = v' ∧ V verdict checked ∧ action_of ctr matches obj = Adopt
  | None, None => action_of ctr matches obj ≠ Adopt
  end →
  log s' = log s ++ k →
  k = claim_entries ctr matches adopted released verdict (match once with Some _ => [] | None => checked end) [(obj, answer)] →
  pass_inv s0 (l ++ [(obj, answer)])
    (claimed ++ option_list (claim_of ctr matches verdict (obj, answer)))
    (errs ++ option_list (claim_error ctr matches denied verdict (obj, answer))) once' s'.
Proof using Type.
  intros (verdict0 & checked0 & Hv & Hlog & Hcl & Her) Honce Hlog' Hk.
  assert (∃ checked1, claim_entries ctr matches adopted released verdict checked1 l =
      claim_entries ctr matches adopted released verdict0 checked0 l ∧
    omap (claim_of ctr matches verdict) l = omap (claim_of ctr matches verdict0) l ∧
    omap (claim_error ctr matches denied verdict) l = omap (claim_error ctr matches denied verdict0) l ∧
    (if adopting l then [] else checked1) = match once with Some _ => [] | None => checked end ∧
    match once' with Some v => V verdict checked1 ∧ verdict = v | None => True end)
    as (checked1 & E1 & E2 & E3 & E4 & E5).
  { destruct once as [v|].
    - destruct Hv as (Hl & -> & HV), Honce as (-> & ->). exists checked0. by rewrite Hl.
    - exists checked. rewrite Hv. destruct (claim_entries_free ctr matches adopted released denied verdict verdict0
        checked checked0 l Hv) as (-> & -> & ->). split_and!; try done. destruct once'; [tauto | done]. }
  exists verdict, checked1. rewrite existsb_app, claim_entries_app, !omap_app, E1, E2, E3, E4.
  split_and!.
  - cbn [existsb fst]. rewrite orb_false_r. destruct once as [v|].
    + destruct Hv as (-> & _), Honce as (-> & _). split_and!; [done | apply E5 | apply E5].
    + rewrite Hv. cbn. destruct once' as [v'|]; [|by apply bool_decide_eq_false].
      destruct Honce as (_ & _ & Ha), E5. by rewrite bool_decide_eq_true.
  - by rewrite Hlog', Hlog, Hk, <- app_assoc.
  - rewrite Hcl. cbn. by destruct (claim_of _ _ _ _).
  - rewrite Her. cbn. by destruct (claim_error _ _ _ _ _).
Qed.

Lemma ClaimObject_pass s0 l claimed errs once s obj :
  I s → pass_inv s0 l claimed errs once s →
  post (ClaimObject m obj matches adopt release once)
    (λ '((ok, err), once') s', I s' ∧ ∃ answer, pass_inv s0 (l ++ [(obj, answer)])
       match err with Some _ => claimed | None => if ok then claimed ++ [obj] else claimed end
       match err with Some e => errs ++ [e] | None => errs end once' s') (λ _, False) s.
Proof using adopt_spec release_spec denied_found.
  intros HI Hinv. unfold post. rewrite ClaimObject_run. fold (action_of ctr matches obj).
  assert (∀ answer verdict checked once' s' k (ok : bool) (err : option error),
    match once, once' with
    | Some v, _ => once' = Some v ∧ verdict = v
    | None, Some v' => verdict = v' ∧ V verdict checked ∧ action_of ctr matches obj = Adopt
    | None, None => action_of ctr matches obj ≠ Adopt
    end → log s' = log s ++ k →
    k = claim_entries ctr matches adopted released verdict
      match once with Some _ => [] | None => checked end [(obj, answer)] →
    claim_of ctr matches verdict (obj, answer) = match err with Some _ => None | None => if ok then Some obj else None end →
    claim_error ctr matches denied verdict (obj, answer) = err →
    ∃ answer, pass_inv s0 (l ++ [(obj, answer)])
      match err with Some _ => claimed | None => if ok then claimed ++ [obj] else claimed end
      match err with Some e => errs ++ [e] | None => errs end once' s') as Hstep.
  { intros answer verdict checked once' s' k ok err Honce Hlog Hk Hcl Her. exists answer.
    pose proof (pass_inv_snoc s0 l claimed errs once s obj answer verdict checked once' s' k Hinv Honce Hlog Hk) as Hnext.
    rewrite Hcl, Her in Hnext. destruct err; [|destruct ok]; cbn [option_list] in Hnext; by rewrite ?app_nil_r in Hnext. }
  set (verdict0 := match once with Some v => v | None => None end).
  destruct (action_of ctr matches obj) eqn:Ea.
  - split; [done|]. apply (Hstep None verdict0 [] once s [] false None).
    all: unfold claim_of, claim_error; cbn; rewrite ?Ea, ?app_nil_r; by destruct once.
  - split; [done|]. apply (Hstep None verdict0 [] once s [] true None).
    all: unfold claim_of, claim_error; cbn; rewrite ?Ea, ?app_nil_r; by destruct once.
  - apply post_bind. eapply post_mono; [by apply release_spec | | done].
    intros r s' (HI' & answer & -> & Hlog). apply post_ret. cbn [fst snd claim_result]. split; [done|].
    apply (Hstep answer verdict0 [] once s' [released obj answer] false).
    + by destruct once.
    + done.
    + cbn. by rewrite Ea.
    + unfold claim_of. cbn. rewrite Ea. by repeat case_match.
    + unfold claim_error. cbn. rewrite Ea. destruct (IsNotFound answer) eqn:En, (IsInvalid answer); cbn; by rewrite ?En.
  - apply post_bind. eapply post_mono; [by apply adopt_spec | | done].
    intros r s' (HI' & verdict & checked & answer & Hv & -> & Hlog). apply post_ret. cbn [fst snd].
    set (err := match verdict with Some e => Some (denied e) | None => answer end) in *.
    replace (claim_result Adopt err) with (bool_decide (err = None), if IsNotFound err then None else err)
      by by destruct err.
    split; [done|]. apply (Hstep answer verdict checked (Some verdict) s'
      (checked ++ match verdict with None => [adopted obj answer] | Some _ => [] end) (bool_decide (err = None)) (if IsNotFound err then None else err)).
    + destruct once as [v|]; [by destruct Hv as [-> _] | done].
    + exact Hlog.
    + cbn. rewrite Ea, app_nil_r. f_equal. destruct once as [v|]; [by destruct Hv as [_ ->] | done].
    + unfold claim_of, err. cbn. rewrite Ea. destruct verdict as [e|]; [by rewrite denied_found|].
      destruct answer as [e|]; [|done]. by destruct (IsNotFound _).
    + unfold claim_error, err. cbn. rewrite Ea. destruct verdict as [e|]; [by rewrite denied_found | done].
Qed.

Lemma claim_all_pass objs s :
  I s →
  post (claim_all m matches adopt release objs)
    (λ '(claimed, errs, _) s', I s' ∧ ∃ l, log s' = log s ++ l ∧
       claim_pass ctr matches adopted released denied V objs claimed errs l) (λ _, False) s.
Proof using adopt_spec release_spec denied_found.
  intros HI. unfold claim_all. eapply post_mono; [eapply (post_foldM _ (λ rest '(claimed, errs, once) s',
    I s' ∧ ∃ seen answers, objs = seen ++ rest ∧ length answers = length seen ∧
    pass_inv s (zip seen answers) claimed errs once s') (λ _, False)) | | done].
  - split; [done|]. exists [], []. split_and!; try done. exists None, []. split_and!; try done. by rewrite app_nil_r.
  - intros obj rest [[claimed errs] once] s1 (HI1 & seen & answers & Hs & Hlen & Hinv). apply post_bind.
    eapply post_mono; [by apply ClaimObject_pass | | done].
    intros [[ok err] once'] s2 (HI2 & answer & Hnext).
    assert (pass_inv s (zip (seen ++ [obj]) (answers ++ [answer])) 
      match err with Some _ => claimed | None => if ok then claimed ++ [obj] else claimed end
      match err with Some e => errs ++ [e] | None => errs end once' s2) as Hnext'
      by by rewrite zip_with_app.
    destruct err; apply post_ret; (split; [done|]); exists (seen ++ [obj]), (answers ++ [answer]);
      (split; [by rewrite <- app_assoc|]); (split; [by rewrite !length_app, Hlen | exact Hnext']).
  - intros [[claimed errs] once] s' (HI' & seen & answers & Hs & Hlen & verdict & checked & Hv & Hlog & Hcl & Her).
    rewrite app_nil_r in Hs. subst seen. split; [done|]. eexists. split; [exact Hlog|].
    exists answers, verdict, checked. split_and!; try done. intros (obj & Hin & Ha).
    destruct once as [v|]; [by destruct Hv as (_ & _ & ?)|]. exfalso.
    apply list_elem_of_lookup in Hin as [i Hi]. destruct (lookup_lt_is_Some_2 answers i) as [a Hai].
    { rewrite Hlen. by eapply lookup_lt_Some. }
    assert ((obj, a) ∈ zip objs answers) as Hz by (apply (list_elem_of_lookup_2 _ i); by apply lookup_zip_with_Some; eauto 10).
    apply not_true_iff_false in Hv. apply Hv, existsb_exists. exists (obj, a). split; [by apply list_elem_of_In|].
    by apply bool_decide_eq_true.
Qed.
End claim_all.


(** *** Services *)
Section service_pass.
Context {S : Type} `{!ServiceControlInterface S} `{!ServiceControlLaws S}.
Context (m : BaseControllerRefManager S) (controllerKind : GroupVersionKind) (filters : list (Service → bool)).
(** The adoption check: it patches nothing. *)
Context (canAdopt : M S (option error)) (V : option error → Prop).
Hypothesis can_adopt_func : m_CanAdoptFunc m = Some canAdopt.
Hypothesis can_adopt_spec : ∀ s,
  post canAdopt (λ e s', V e ∧ patch_log s' = patch_log s) (λ _, False) s.

Definition adopted_service (svc : Service) (answer : option error) : patch_entry :=
  patched (meta_Namespace (svc_Meta svc)) (meta_Name (svc_Meta svc))
    (addControllerPatch (m_Controller m) controllerKind (meta_UID (svc_Meta svc))) answer.
Definition released_service (svc : Service) (answer : option error) : patch_entry :=
  patched (meta_Namespace (svc_Meta svc)) (meta_Name (svc_Meta svc))
    (deleteOwnerRefPatch (m_Controller m) (meta_UID (svc_Meta svc))) answer.

Lemma ClaimServices_pass services s :
  post (claim_all m (match_object m filters) (AdoptService m controllerKind) (ReleaseService m) services)
    (λ '(claimed, errs, _) s', ∃ l, patch_log s' = patch_log s ++ l ∧
       claim_pass (m_Controller m) (match_object m filters) adopted_service released_service
         (λ e, Errorf "can't adopt Service" (Some e)) (λ v checked, V v ∧ checked = []) services claimed errs l)
    (λ _, False) s.
Proof using can_adopt_func can_adopt_spec.
  eapply post_mono; [apply (claim_all_pass m (match_object m filters) adopted_service released_service
    (λ e, Errorf "can't adopt Service" (Some e)) _ _ patch_log (λ v checked, V v ∧ checked = []) (λ _, True));
    [done | | | done] | by intros [[claimed errs] once] s' [_ ?] | done]; clear s; intros svc once s _.
  - unfold ReleaseService. apply post_bind. eapply post_mono; [apply patch_log_spec | | done].
    intros answer s' Hlog. destruct answer as [e|]; [|apply post_ret; split; [done | by exists None]].
    destruct (IsNotFound (Some e)) eqn:En; [|destruct (IsInvalid (Some e)) eqn:Ei];
      apply post_ret; (split; [done|]); exists (Some e); rewrite En, ?Ei; done.
  - assert (post (CanAdopt m once) (λ r s', ∃ verdict,
        match once with Some v => verdict = v | None => V verdict end ∧ r = (verdict, Some verdict) ∧
        patch_log s' = patch_log s) (λ _, False) s) as Hcheck.
    { unfold CanAdopt. destruct once as [v|]; [apply post_ret; by exists v|]. rewrite can_adopt_func.
      apply post_bind. eapply post_mono; [apply can_adopt_spec | | done].
      intros e s' [Hv Hlog]. apply post_ret. by exists e. }
    unfold AdoptService. apply post_bind. eapply post_mono; [exact Hcheck | | done].
    intros r s1 (verdict & Hv & -> & Hlog). destruct verdict as [e|].
    + apply post_ret. split; [done|]. exists (Some e), [], None. rewrite app_nil_r. split_and!; try done. by destruct once.
    + apply post_bind. eapply post_mono; [apply patch_log_spec | | done]. intros answer s' Hlog'.
      apply post_ret. split; [done|]. exists None, [], answer. rewrite Hlog', Hlog. split_and!; try done. by destruct once.
Qed.
End service_pass.

(** ** Properties *)

(** [ClaimObject] implements the decision table [claim_action]: it keeps an
    object it controls and selects without any request; it releases one it controls and no longer
    selects, unless the controller is being deleted; it adopts a selected orphan, unless the
    controller or the orphan is being deleted; it leaves every other object alone.  An object that
    vanished in the meantime (NotFound) is reported as not claimed and not as an error. *)
Theorem ClaimObject_correct {S O} `{!MetaObject O} (m : BaseControllerRefManager S) (obj : O)
  matches adopt release once s :
  ClaimObject m obj matches adopt release once s =
  match claim_action (m_Controller m) matches obj with
  | Ignore => Ret ((false, None), once) s
  | Keep => Ret ((true, None), once) s
  | Release => (r ← release obj once; mret (claim_result Release r.1, r.2)) s
  | Adopt => (r ← adopt obj once; mret (claim_result Adopt r.1, r.2)) s
  end.
Proof. by rewrite ClaimObject_run; destruct (claim_action _ _ _). Qed.

(** C29. A pass of [ClaimServices], against any implementation of the service control interface
    and any adoption check that patches nothing.  For every service that is to be released its release patch is
    sent, and for every service that is to be adopted its adoption patch, unless the check denies adoption; nothing else
    is patched, and the order is that of the services.  Claimed are exactly the services that are kept, and
    those to be adopted whose adoption patch was sent and answered without error.  The errors reported are exactly: for a release, the
    answer, unless the service is gone or the patch invalid; for an adoption, the denial or the answer, unless
    the service is gone. *)
Theorem ClaimServices_correct {S} `{!ServiceControlInterface S} `{!ServiceControlLaws S}
  (m : BaseControllerRefManager S) gvk filters canAdopt (V : option error → Prop) services s :
  m_CanAdoptFunc m = Some canAdopt →
  (∀ s, post canAdopt (λ e s', V e ∧ patch_log s' = patch_log s) (λ _, False) s) →
  let action svc := claim_action (m_Controller m) (match_object m filters) svc in
  let entry svc patch := patched (meta_Namespace (svc_Meta svc)) (meta_Name (svc_Meta svc))
    (patch (meta_UID (svc_Meta svc))) in
  post (ClaimServices m gvk services filters)
    (λ '(claimed, err) s', ∃ answers verdict,
       length answers = length services ∧
       ((∃ svc, svc ∈ services ∧ action svc = Adopt) → V verdict) ∧
       patch_log s' = patch_log s ++ omap (λ '(svc, answer),
         match action svc, verdict with
         | Release, _ => Some (entry svc (deleteOwnerRefPatch (m_Controller m)) answer)
         | Adopt, None => Some (entry svc (addControllerPatch (m_Controller m) gvk) answer)
         | _, _ => None
         end) (zip services answers) ∧
       claimed = omap (λ '(svc, answer),
         match action svc, verdict, answer with
         | Keep, _, _ | Adopt, None, None => Some svc
         | _, _, _ => None
         end) (zip services answers) ∧
       err = NewAggregate (omap (λ '(svc, answer),
         match action svc, verdict with
         | Release, _ => if IsNotFound answer || IsInvalid answer then None else answer
         | Adopt, None => if IsNotFound answer then None else answer
         | Adopt, Some denial => Some (Errorf "can't adopt Service" (Some denial))
         | _, _ => None
         end) (zip services answers)))
    (λ _, False) s.
Proof.
  intros Hf HV action entry. apply post_bind.
  eapply post_mono; [by apply (ClaimServices_pass m gvk filters canAdopt V Hf HV) | | done].
  intros [[claimed errs] once] s' (l & Hlog & Hpass). apply post_ret.
  apply claim_pass_unchecked in Hpass as (answers & verdict & Hlen & Hv & -> & -> & ->).
  exists answers, verdict. split_and!; [done | exact Hv | | |].
  - rewrite Hlog. f_equal. apply omap_pointwise. intros [svc a]. unfold patch_of. cbn.
    change (action_of (m_Controller m) (match_object m filters) svc) with (action svc). by destruct (action svc), verdict.
  - apply omap_pointwise. intros [svc a]. unfold claim_of. cbn.
    change (action_of (m_Controller m) (match_object m filters) svc) with (action svc). by destruct (action svc), verdict, a.
  - f_equal. apply omap_pointwise. intros [svc a]. unfold claim_error. cbn.
    change (action_of (m_Controller m) (match_object m filters) svc) with (action svc). by destruct (action svc), verdict.
Qed.

Definition example_manager : BaseControllerRefManager FakeServiceControl :=
  NewControllerRefManager
    (mkMXJob (mkTypeMeta "" "") (mkObjectMeta "j" "" "ns" "u" None None [] None [])
       (mkMXJobSpec (mkMXReplicaSpecs None None None) None None)
       (mkMXJobStatus (mkMXReplicaStatuses None None None) None None []))
    Everything (mret None).
Definition service_of (name : string) (owners : list OwnerReference) : Service :=
  mkService (mkObjectMeta name "" "ns" name (Some ∅) None owners None []) (mkServiceSpec None []).
(** An orphan, one the job owns, one of another owner. *)
Definition example_services : list Service :=
  [service_of "a" []; service_of "b" [mkOwnerReference "v1" "MXJob" "j" "u" (Some true) (Some true)];
   service_of "c" [mkOwnerReference "v1" "MXJob" "k" "other" (Some true) (Some true)]].
Definition example_control : FakeServiceControl := mkFakeServiceControl [] [] [] [] None 0 0.

(** The orphan is patched and claimed, the second one kept. *)
Lemma ClaimServices_correct_witness :
  (∀ s, post (mret None : M FakeServiceControl (option error))
          (λ e s', e = None ∧ patch_log s' = patch_log s) (λ _, False) s) ∧
  (λ svc, claim_action (m_Controller example_manager) (match_object example_manager []) svc) <$> example_services
    = [Adopt; Keep; Ignore] ∧
  post (ClaimServices example_manager SchemeGroupVersionKind example_services [])
    (λ '(claimed, err) s', ∃ (answers : list (option error)) (verdict : option error),
       length answers = 3%nat ∧ verdict = None ∧
       claimed = omap (λ '(svc, answer),
         match claim_action (m_Controller example_manager) (match_object example_manager []) svc, verdict, answer with
         | Keep, _, _ | Adopt, None, None => Some svc
         | _, _, _ => None
         end) (zip example_services answers))
    (λ _, False) example_control.
Proof.
  split; [done|]. split; [vm_compute; reflexivity|].
  eapply post_mono; [apply (ClaimServices_correct example_manager SchemeGroupVersionKind [] (mret None) (λ v, v = None)); done | | done].
  intros [claimed err] s' (answers & verdict & Hlen & Hv & _ & Hcl & _). exists answers, verdict.
  split; [exact Hlen|]. split; [|exact Hcl]. apply Hv. exists (service_of "a" []).
  split; [left | vm_compute; reflexivity].
Defined.
