(* ===== verification/Handler.v ===== *)
(** * The reconciler: pkg/mx/handler.go and pkg/stub/handler.go

    The definitions follow the methods of [mx.Handler] one by one.  The job they mutate in place is
    passed and returned; the Go [error] they return is an [option error].  The methods are
    parametric in the pod and service control (fields of the Go struct) and in the Go runtime.

    Goroutines that the method waits for ([reconcilePods], [terminateMXJob]) run one after the other
    in the order [go_order], which is any order; [Goroutines] and [Creators] justify this by interleaving the
    steps of the goroutines.  Goroutines that are not waited for are recorded in [pending]; [Hooks] has
    their bodies, [Operator] runs them. *)
From S2P Require Import Prelude Types Runtime Api Labels Naming Replicas Conditions JobStatus.
From S2P Require Import Controls RefManager.

Section handler.
Context {W : Type} `{!Cluster W} `{!GoRuntime}.
Context `{!PodControlInterface (St W)} `{!ServiceControlInterface (St W)}.

(** The copy of [RecheckDeletionTimestamp] in this package. *)
Definition RecheckDeletionTimestamp (getObject : M (St W) (MXJob + error))
  : M (St W) (option error) :=
  r ← getObject;
  match r with
  | inr err => mret (Some (Errorf "can't recheck DeletionTimestamp: " (Some err)))
  | inl obj =>
      if decide (is_Some (meta_DeletionTimestamp (job_Meta obj)))
      then mret (Some (Errorf (job_Namespace obj +:+ "/" +:+ job_Name obj
                               +:+ " has just been deleted") None))
      else mret None
  end.

(** The closure both [get...ForMXJob] methods pass to it: read the job again and compare uids. *)
Definition get_fresh (mxjob : MXJob) : M (St W) (MXJob + error) :=
  r ← sdk_Get (job_Namespace mxjob) (job_Name mxjob);
  mret match r with
       | inr err => inr err
       | inl fresh =>
           if decide (job_UID fresh ≠ job_UID mxjob)
           then inr (Errorf ("original MXJob " +:+ job_Namespace mxjob +:+ "/" +:+ job_Name mxjob
                             +:+ " is gone") None)
           else inl fresh
       end.

Definition job_selector (mxjob : MXJob) : Selector + error :=
  LabelSelectorAsSelector (Some (mkLabelSelector (genLabels mxjob "") [])).

Definition getPodsForMXJob (mxjob : MXJob) : M (St W) (list Pod * option error) :=
  match job_selector mxjob with
  | inr err => mret ([], Some (Errorf "couldn't convert Job selector: " (Some err)))
  | inl selector =>
      r ← sdk_ListPods (job_Namespace mxjob);
      match r with
      | inr err => mret ([], Some err)
      | inl pods =>
          let canAdoptFunc := RecheckDeletionTimestamp (get_fresh mxjob) in
          let cm := NewControllerRefManager mxjob selector canAdoptFunc in
          ClaimPods cm SchemeGroupVersionKind (podList pods) []
      end
  end.

Definition getServicesForMXJob (mxjob : MXJob) : M (St W) (list Service * option error) :=
  match job_selector mxjob with
  | inr err => mret ([], Some (Errorf "couldn't convert Job selector: " (Some err)))
  | inl selector =>
      r ← sdk_ListServices (job_Namespace mxjob);
      match r with
      | inr err => mret ([], Some err)
      | inl services =>
          let canAdoptFunc := RecheckDeletionTimestamp (get_fresh mxjob) in
          let cm := NewControllerRefManager mxjob selector canAdoptFunc in
          ClaimServices cm SchemeGroupVersionKind (serviceList services) []
      end
  end.

(** [for key, value := range labels { podTemplate.Labels[key] = value }] *)
Definition merge_labels (into ls : Labels) : Labels :=
  foldl (λ m kv, <[kv.1 := kv.2]> m) into (map_range ls).
(** [for k, v := range mxEnv { c.Env = append(c.Env, ...) }] *)
Definition append_env (mxEnv : Labels) (c : Container) : Container :=
  mkContainer (ctr_Name c) (ctr_Image c) (ctr_Command c)
    (ctr_Env c ++ ((λ kv : string * string, mkEnvVar kv.1 kv.2) <$> map_range mxEnv)).

(** The pod template as it is submitted: a deep copy of the one of the spec (the spec itself is not
    touched) with the labels and the environment of the job. *)
Definition decorate_template (mxjob : MXJob) (rt : MXReplicaType) (tpl : PodTemplateSpec)
  (mxEnv : Labels) : PodTemplateSpec :=
  mkPodTemplateSpec
    (set_meta_Labels
       (Some (merge_labels (labels_of (meta_Labels (tpl_Meta tpl))) (genLabels mxjob rt)))
       (tpl_Meta tpl))
    (mkPodSpec (append_env mxEnv <$> ps_Containers (tpl_Spec tpl)) (ps_RestartPolicy (tpl_Spec tpl))
       (ps_NodeName (tpl_Spec tpl))).

Definition createNewPod (mxjob : MXJob) (rt : MXReplicaType) (spec : MXReplicaSpec)
  : M (St W) (option error) :=
  podTemplate ← deref (spec_Template spec);
  mxEnv ← genMXConfigEnv mxjob rt;
  err ← CreatePodsWithControllerRef (job_Namespace mxjob)
          (decorate_template mxjob rt podTemplate mxEnv) mxjob
          (Some (NewControllerRef mxjob SchemeGroupVersionKind));
  match err with
  | Some e => if IsTimeout err then mret None else mret (Some e)
  | None => mret None
  end.

(** The goroutines of [reconcilePods]: each creates a pod; a failure lowers [active] and goes to the
    channel. *)
Definition create_pods (mxjob : MXJob) (rtype : MXReplicaType) (spec : MXReplicaSpec)
  (active : Z) (diff : Z) : M (St W) (Z * list error) :=
  foldM (λ '(active, errCh) _,
    err ← createNewPod mxjob rtype spec;
    mret match err with
         | Some e => (int32 (active - 1), errCh ++ [e])
         | None => (active, errCh)
         end) (go_order (seq 0 (Z.to_nat diff))) (active, []).

Definition reconcilePods (mxjob : MXJob) (pods : list Pod) (rtype : MXReplicaType)
  (spec : MXReplicaSpec) : M (St W) (option error * MXJob) :=
  pods ← filterPodsForMXReplicaType pods rtype;
  replicas ← deref (spec_Replicas spec);
  let diff := int32 (replicas - int32 (zlen pods)) in
  let active := int32 (zlen (FilterActivePods pods)) in
  let mxjob := initializeMXReplicaStatuses mxjob rtype in
  status ← deref (getMXReplicaStatus mxjob rtype);
  let gone := rs_Gone status in
  '(active, gone, errCh) ←
    (if 0 <? diff then
       if checkCondition (job_Status mxjob) MXJobInitialized then mret (active, diff, [])
       else
         '(active, errCh) ← create_pods mxjob rtype spec (int32 (active + diff)) diff;
         mret (active, gone, errCh)
     else mret (active, gone, []));
  match errCh with
  | err :: _ => mret (Some err, mxjob)
  | [] =>
      let '(succeeded, failed) := getStatus pods in
      let st := mkMXReplicaStatus active succeeded failed gone in
      let mxjob := updateMXReplicaStatuses mxjob rtype st in
      updateMXJobStatus mxjob rtype replicas
  end.

Definition reconcileServices (mxjob : MXJob) (services : list Service) (rtype : MXReplicaType)
  (spec : MXReplicaSpec) : M (St W) (option error) :=
  if decide (rtype ≠ MXReplicaTypeScheduler) then mret None
  else
    let num := zlen services in
    if num =? 0 then
      let labels := genLabels mxjob MXReplicaTypeScheduler in
      let port := default defaultPsRootPort (spec_PsRootPort spec) in
      let service :=
        mkService
          (mkObjectMeta (serviceName mxjob rtype) "" "" "" (Some labels) None [] None [])
          (mkServiceSpec (Some labels) [mkServicePort (serviceName mxjob rtype) port]) in
      err ← CreateServicesWithControllerRef (job_Namespace mxjob) service mxjob
              (Some (NewControllerRef mxjob SchemeGroupVersionKind));
      match err with
      | Some e => if IsTimeout err then mret None else mret (Some e)
      | None => mret None
      end
    else mret None.

(** [Gone++] and [Active--] through the pointer of the replica type of the pod; a type the switch
    does not know is skipped, a nil pointer panics. *)
Definition note_terminated (mxjob : MXJob) (pod : Pod) : M (St W) MXJob :=
  let rtype := default "" (labels_of (meta_Labels (pod_Meta pod)) !! mxLabelReplicaType) in
  if decide (is_replica_type rtype) then
    rs ← deref (getMXReplicaStatus mxjob rtype);
    mret (updateMXReplicaStatuses mxjob rtype
            (mkMXReplicaStatus (int32 (rs_Active rs - 1)) (rs_Succeeded rs) (rs_Failed rs)
               (int32 (rs_Gone rs + 1))))
  else mret mxjob.

Definition terminateMXJob (mxjob : MXJob) (pods : list Pod) : M (St W) (option error * MXJob) :=
  let activePods := FilterActivePods pods in
  if zlen activePods =? 0 then mret (None, mxjob)
  else
    '(mxjob, errCh) ←
      foldM (λ '(mxjob, errCh) pod,
        err ← DeletePod (meta_Namespace (pod_Meta pod)) (meta_Name (pod_Meta pod));
        let errCh := match err with Some e => errCh ++ [e] | None => errCh end in
        mxjob ← note_terminated mxjob pod;
        mret (mxjob, errCh)) (go_order activePods) (mxjob, []);
    mret (head errCh, mxjob).

(** The goroutine gets a deep copy of the job; the channel it answers on is dropped by the
    reconciler. *)
Definition callHookAsync (mxjob : MXJob) (startOrFinish : bool) : M (St W) () :=
  match
    (if startOrFinish then jobspec_StartWebhook (job_Spec mxjob)
     else jobspec_FinishWebhook (job_Spec mxjob))
  with
  | None => mret tt
  | Some wh => go (CallHook wh mxjob)
  end.

(** [return err] out of the middle of a method. *)
Local Notation "'if_err' e 'return' j 'else' k" :=
  (match e with Some err => mret (Some err, j) | None => k end)
  (at level 10, e at level 99, j at level 99, k at level 200, only parsing).

Definition reconcile_scheduler (mxjob : MXJob) (pods : list Pod) : M (St W) (option error * MXJob) :=
  match specs_Scheduler (job_specs mxjob) with
  | None => mret (None, mxjob)
  | Some spec =>
      '(err, mxjob) ← reconcilePods mxjob pods MXReplicaTypeScheduler spec;
      if_err err return mxjob else
      '(services, err) ← getServicesForMXJob mxjob;
      if_err err return mxjob else
      err ← reconcileServices mxjob services MXReplicaTypeScheduler spec;
      mret (err, mxjob)
  end.
Definition reconcile_optional (mxjob : MXJob) (pods : list Pod) (rtype : MXReplicaType)
  (spec : option MXReplicaSpec) : M (St W) (option error * MXJob) :=
  match spec with
  | None => mret (None, mxjob)
  | Some spec => reconcilePods mxjob pods rtype spec
  end.

Definition reconcileMXJobs (mxjob : MXJob) : M (St W) (option error * MXJob) :=
  '(pods, err) ← getPodsForMXJob mxjob;
  if_err err return mxjob else
  let oldStatus := job_Status mxjob in
  '(err, mxjob) ← reconcile_scheduler mxjob pods;
  if_err err return mxjob else
  '(err, mxjob) ←
    reconcile_optional mxjob pods MXReplicaTypeServer (specs_Server (job_specs mxjob));
  if_err err return mxjob else
  '(err, mxjob) ←
    reconcile_optional mxjob pods MXReplicaTypeWorker (specs_Worker (job_specs mxjob));
  if_err err return mxjob else
  mxjob ←
    (if negb (checkCondition (job_Status mxjob) MXJobInitialized) then
       mxjob ← updateMXJobConditions mxjob MXJobInitialized MXJobReasonInitialized
                 ("MXJob " +:+ job_Name mxjob +:+ " is initialized.");
       callHookAsync mxjob true;;
       mret mxjob
     else mret mxjob);
  '(err, mxjob) ←
    (if IsJobFinished (job_Status mxjob) then
       '(err, mxjob) ← terminateMXJob mxjob pods;
       if_err err return mxjob else
       callHookAsync mxjob false;;
       mret (None, mxjob)
     else mret (None, mxjob));
  if_err err return mxjob else
  if decide (oldStatus = job_Status mxjob) then mret (None, mxjob)
  else sdk_Update mxjob.

(** The index of the last finalizer of the operator. *)
Fixpoint last_index (x : string) (l : list string) (i : nat) (found : option nat) : option nat :=
  match l with
  | [] => found
  | f :: l' => last_index x l' (S i) (if decide (f = x) then Some i else found)
  end.
Definition handleMXJobFinalizers (mxjob : MXJob) : M (St W) () :=
  match last_index FinalizerFinishWebhook (meta_Finalizers (job_Meta mxjob)) 0 None with
  | Some indexFound => go (RunFinalizer mxjob indexFound)
  | None => mret tt
  end.

Definition Sync (mxjob : MXJob) (deleted : bool) : M (St W) (option error * MXJob) :=
  if deleted then mret (None, mxjob)
  else if decide (is_Some (meta_DeletionTimestamp (job_Meta mxjob))) then
    handleMXJobFinalizers mxjob;;
    mret (None, mxjob)
  else
    mxjob ←
      (if negb (checkCondition (job_Status mxjob) MXJobCreated) then
         updateMXJobConditions mxjob MXJobCreated MXJobReasonCreated
           ("MXJob " +:+ job_Name mxjob +:+ " is created.")
       else mret mxjob);
    if IsJobFinished (job_Status mxjob) then mret (None, mxjob)
    else
      let mxjobNeedsSync := true in
      if mxjobNeedsSync && bool_decide (meta_DeletionTimestamp (job_Meta mxjob) = None)
      then reconcileMXJobs mxjob
      else mret (None, mxjob).

(** pkg/stub/handler.go: the SDK's event handler.  An event carries a job or some other object. *)
Inductive Object := ObjMXJob (mxjob : MXJob) | ObjOther.
Record Event := mkEvent { ev_Object : Object; ev_Deleted : bool }.
Definition Handle (event : Event) : M (St W) (option error) :=
  match ev_Object event with
  | ObjMXJob o =>
      '(err, _) ← Sync o (ev_Deleted event);
      match err with
      | Some e => mret (Some e)
      | None => mret None
      end
  | ObjOther => mret None
  end.
End handler.

(** ** Lemmas on the template *)
Lemma merge_labels_map `{!GoRuntime} (into ls : Labels) : merge_labels into ls = ls ∪ into.
Proof.
  unfold merge_labels. transitivity ((list_to_map (reverse (map_range ls)) : Labels) ∪ into).
  - generalize (map_range ls) as kvs. intros kvs. revert into.
    induction kvs as [|[k v] kvs IH]; intros into; cbn [foldl].
    { by rewrite reverse_nil, list_to_map_nil, (left_id_L ∅ (∪)). }
    rewrite IH, reverse_cons, list_to_map_app. cbn.
    by rewrite insert_empty, <- (assoc_L (∪)), insert_union_singleton_l.
  - f_equal. rewrite <- (list_to_map_to_list (M := gmap string) ls) at 2.
    assert (reverse (map_range ls) ≡ₚ map_to_list ls) as Hp
      by (rewrite reverse_Permutation; apply map_range_perm).
    apply list_to_map_proper; [|exact Hp].
    rewrite Hp. apply NoDup_fst_map_to_list.
Qed.
