(* ===== verification/Claims.v ===== *)
(** * The two claiming passes of the handler

    [getPodsForMXJob] and [getServicesForMXJob] list the objects of the namespace and claim those of the job.
    The lemmas say what they send and return: one list request, then a [claim_pass] over what was listed,
    in which adoptions are checked by reading the job once. *)
From S2P Require Import Prelude Types Runtime Api Labels Naming Replicas Conditions JobStatus Controls RefManager Handler.

Section claims.
Context {W : Type} `{!Cluster W} `{!GoRuntime}.

(** The verdict of the adoption check on the answer to reading the job. *)
Definition fresh_verdict (j : MXJob) (answer : MXJob + error) : option error :=
  match answer with
  | inr err => Some (Errorf "can't recheck DeletionTimestamp: " (Some err))
  | inl fresh =>
      if decide (job_UID fresh ≠ job_UID j) then
        Some (Errorf "can't recheck DeletionTimestamp: " (Some
          (Errorf ("original MXJob " +:+ job_Namespace j +:+ "/" +:+ job_Name j +:+ " is gone") None)))
      else if decide (is_Some (meta_DeletionTimestamp (job_Meta fresh))) then
        Some (Errorf (job_Namespace fresh +:+ "/" +:+ job_Name fresh +:+ " has just been deleted") None)
      else None
  end.
Lemma fresh_verdict_None j answer :
  fresh_verdict j answer = None ↔
  ∃ job, answer = inl job ∧ job_UID job = job_UID j ∧ meta_DeletionTimestamp (job_Meta job) = None.
Proof.
  unfold fresh_verdict. destruct answer as [job|e]; [|split; [done | by intros (? & ? & _)]].
  split.
  - intros Hv. exists job. split; [done|]. destruct (decide (job_UID job ≠ job_UID j)) as [|Hu]; [done|].
    apply dec_stable in Hu. destruct (decide (is_Some _)) as [|Hd]; [done|]. by apply eq_None_not_Some in Hd.
  - intros (? & [= <-] & Hu & Hd). rewrite decide_False by (intros Hne; by apply Hne). rewrite decide_False; [done|].
    rewrite Hd. by intros [? ?].
Qed.
Definition checked_by (j : MXJob) (verdict : option error) (checked : list request) : Prop :=
  ∃ answer, checked = [GetMXJob (job_Namespace j) (job_Name j) answer] ∧ verdict = fresh_verdict j answer.

(** What the selector is applied to. *)
Definition selects {O} `{!MetaObject O} (sel : Selector) (o : O) : bool :=
  Selector_Matches sel (labels_of (meta_Labels (obj_meta o))).

(** The patches. *)
Definition adopted_pod (j : MXJob) (pod : Pod) : option error → request :=
  PatchPodReq (meta_Namespace (pod_Meta pod)) (meta_Name (pod_Meta pod))
    (addControllerPatch j SchemeGroupVersionKind (meta_UID (pod_Meta pod))).
Definition released_pod (j : MXJob) (pod : Pod) : option error → request :=
  PatchPodReq (meta_Namespace (pod_Meta pod)) (meta_Name (pod_Meta pod))
    (deleteOwnerRefPatch j (meta_UID (pod_Meta pod))).
Definition adopted_svc (j : MXJob) (svc : Service) : option error → request :=
  PatchServiceReq (meta_Namespace (svc_Meta svc)) (meta_Name (svc_Meta svc))
    (addControllerPatch j SchemeGroupVersionKind (meta_UID (svc_Meta svc))).
Definition released_svc (j : MXJob) (svc : Service) : option error → request :=
  PatchServiceReq (meta_Namespace (svc_Meta svc)) (meta_Name (svc_Meta svc))
    (deleteOwnerRefPatch j (meta_UID (svc_Meta svc))).
Definition pod_denied (err : error) : error := Errorf "can't adopt Pod" (Some err).
Definition svc_denied (err : error) : error := Errorf "can't adopt Service" (Some err).

Definition pod_pass (j : MXJob) (sel : Selector) : list Pod → list Pod → list error → list request → Prop :=
  claim_pass j (selects sel) (adopted_pod j) (released_pod j) pod_denied (checked_by j).
Definition service_pass (j : MXJob) (sel : Selector) : list Service → list Service → list error → list request → Prop :=
  claim_pass j (selects sel) (adopted_svc j) (released_svc j) svc_denied (checked_by j).

(** *** The check *)
Lemma Recheck_fresh j (s : St W) :
  post (RecheckDeletionTimestamp (get_fresh j))
    (λ e s', ∃ answer, e = fresh_verdict j answer ∧ pending s' = pending s ∧
       trace s' = trace s ++ [GetMXJob (job_Namespace j) (job_Name j) answer]) (λ _, False) s.
Proof.
  unfold RecheckDeletionTimestamp, get_fresh, sdk_Get. apply post_bind, post_bind, post_ask.
  intros answer w _. apply post_ret. unfold fresh_verdict. destruct answer as [fresh|err].
  2:{ apply post_ret. by exists (inr err). }
  destruct (decide (job_UID fresh ≠ job_UID j)) as [Hne|Heq] eqn:E.
  { apply post_ret. exists (inl fresh). by rewrite E. }
  destruct (decide (is_Some _)) as [Hd|Hd] eqn:E'; apply post_ret; exists (inl fresh); by rewrite E, E'.
Qed.

(** The manager of a pass. *)
Definition manager_of (j : MXJob) (sel : Selector) : BaseControllerRefManager (St W) :=
  NewControllerRefManager j sel (RecheckDeletionTimestamp (get_fresh j)).

Lemma CanAdopt_checked j sel once (s : St W) :
  post (CanAdopt (manager_of j sel) once)
    (λ r s', pending s' = pending s ∧ ∃ verdict checked,
       match once with Some v => verdict = v ∧ checked = [] | None => checked_by j verdict checked end ∧
       r = (verdict, Some verdict) ∧ trace s' = trace s ++ checked) (λ _, False) s.
Proof.
  unfold CanAdopt. destruct once as [v|]; [apply post_ret; split; [done|]; exists v, []; by rewrite app_nil_r|].
  cbn [m_CanAdoptFunc manager_of NewControllerRefManager]. apply post_bind.
  eapply post_mono; [apply Recheck_fresh | | done]. intros e s' (answer & -> & Hp & Ht). apply post_ret.
  split; [done|]. do 2 eexists. split; [by exists answer | done].
Qed.

(** *** The passes *)
Lemma match_selects {O} `{!MetaObject O} j sel (o : O) : match_object (manager_of j sel) [] o = selects sel o.
Proof. unfold match_object. by rewrite andb_true_r. Qed.

Lemma claim_pass_ext {O X} `{!MetaObject O} ctr (f g : O → bool) (adopted released : O → option error → X)
  denied V objs claimed errs l :
  (∀ o, f o = g o) → claim_pass ctr f adopted released denied V objs claimed errs l →
  claim_pass ctr g adopted released denied V objs claimed errs l.
Proof.
  intros Hfg (answers & verdict & checked & Hlen & HV & -> & -> & ->).
  assert (∀ o, action_of ctr f o = action_of ctr g o) as Ha.
  { intros o. unfold action_of, claim_action. by rewrite Hfg. }
  exists answers, verdict, checked. split_and!; [done | | | |].
  - intros (o & Hin & Ho). apply HV. exists o. by rewrite Ha.
  - clear -Ha. generalize (zip objs answers) checked. intros l. induction l as [|[o a] l IH]; intros c; [done|].
    cbn. rewrite Ha. by destruct (action_of ctr g o); rewrite !IH.
  - apply omap_pointwise. intros [o a]. unfold claim_of. by rewrite Ha.
  - apply omap_pointwise. intros [o a]. unfold claim_error. by rewrite Ha.
Qed.

Lemma ClaimPods_pass j sel pods (s : St W) :
  post (claim_all (manager_of j sel) (match_object (manager_of j sel) []) (AdoptPod (manager_of j sel) SchemeGroupVersionKind)
      (ReleasePod (manager_of j sel)) pods)
    (λ '(claimed, errs, _) s', pending s' = pending s ∧ ∃ l, trace s' = trace s ++ l ∧ pod_pass j sel pods claimed errs l)
    (λ _, False) s.
Proof.
  eapply post_mono; [apply (claim_all_pass (manager_of j sel) (match_object (manager_of j sel) []) (adopted_pod j) (released_pod j)
    pod_denied _ _ trace (checked_by j) (λ s', pending s' = pending s)) | | done]; [done | | | done |].
  - intros pod once s1 Hp. unfold ReleasePod. apply post_bind, post_ask. intros answer w _. apply post_ret.
    split; [done|]. exists answer. split; [|done]. by destruct (IsNotFound answer), (IsInvalid answer).
  - intros pod once s1 Hp. unfold AdoptPod. apply post_bind. eapply post_mono; [apply CanAdopt_checked | | done].
    intros r s2 (Hp2 & verdict & checked & Hv & -> & Ht). destruct verdict as [e|].
    + apply post_ret. split; [congruence|]. exists (Some e), checked, None. by rewrite app_nil_r.
    + apply post_bind, post_ask. intros answer w _. apply post_ret. split; [cbn; congruence|].
      exists None, checked, answer. split_and!; [done..|]. cbn. by rewrite Ht, app_assoc.
  - intros [[claimed errs] once] s' (Hp & l & Ht & Hpass). split; [done|]. exists l. split; [done|].
    eapply claim_pass_ext; [|exact Hpass]. apply match_selects.
Qed.

Lemma ClaimServices_pass_real j sel services (s : St W) :
  post (claim_all (manager_of j sel) (match_object (manager_of j sel) []) (AdoptService (manager_of j sel) SchemeGroupVersionKind)
      (ReleaseService (manager_of j sel)) services)
    (λ '(claimed, errs, _) s', pending s' = pending s ∧ ∃ l, trace s' = trace s ++ l ∧ service_pass j sel services claimed errs l)
    (λ _, False) s.
Proof.
  eapply post_mono; [apply (claim_all_pass (manager_of j sel) (match_object (manager_of j sel) []) (adopted_svc j) (released_svc j)
    svc_denied _ _ trace (checked_by j) (λ s', pending s' = pending s)) | | done]; [done | | | done |].
  - intros svc once s1 Hp. unfold ReleaseService. apply post_bind, post_ask. intros answer w _.
    destruct answer as [e|]; [|apply post_ret; split; [done|]; by exists None].
    destruct (IsNotFound (Some e)) eqn:En; [|destruct (IsInvalid (Some e)) eqn:Ei];
      apply post_ret; (split; [done|]); exists (Some e); by rewrite En, ?Ei.
  - intros svc once s1 Hp. unfold AdoptService. apply post_bind. eapply post_mono; [apply CanAdopt_checked | | done].
    intros r s2 (Hp2 & verdict & checked & Hv & -> & Ht). destruct verdict as [e|].
    + apply post_ret. split; [congruence|]. exists (Some e), checked, None. by rewrite app_nil_r.
    + apply post_bind, post_ask. intros answer w _. apply post_ret. split; [cbn; congruence|].
      exists None, checked, answer. split_and!; [done..|]. cbn. by rewrite Ht, app_assoc.
  - intros [[claimed errs] once] s' (Hp & l & Ht & Hpass). split; [done|]. exists l. split; [done|].
    eapply claim_pass_ext; [|exact Hpass]. apply match_selects.
Qed.

(** *** The methods

    [found pass r l]: a method returned [r] after sending [l], from which [pass] follows. *)
Definition found {O} (list_request : list O + error → request)
  (pass : list O → list O → list error → list request → Prop) (r : list O * option error) (l : list request) : Prop :=
  ∃ answer l', l = list_request answer :: l' ∧
    match answer with
    | inr err => l' = [] ∧ r = ([], Some err)
    | inl items => ∃ claimed errs, r = (claimed, NewAggregate errs) ∧ pass items claimed errs l'
    end.

Lemma getPodsForMXJob_found j sel (s : St W) :
  job_selector j = inl sel →
  post (getPodsForMXJob j) (λ r s', pending s' = pending s ∧ ∃ l, trace s' = trace s ++ l ∧
      found (ListPods (job_Namespace j)) (pod_pass j sel) r l ∧
      head l = Some (ListPods (job_Namespace j) (c_listPods (job_Namespace j) (world s)).1)) (λ _, False) s.
Proof.
  intros Hsel. unfold getPodsForMXJob. rewrite Hsel. apply post_bind, post_ask. intros answer w E.
  replace (c_listPods (job_Namespace j) (world s)).1 with answer by by rewrite E.
  destruct answer as [items|err].
  2:{ apply post_ret. split; [done|]. eexists. split; [reflexivity|]. split; [|reflexivity].
    exists (inr err), []. repeat split. }
  apply post_bind. rewrite podList_id. eapply post_mono; [apply ClaimPods_pass | | done].
  intros [[claimed errs] once] s' (Hp & l & Ht & Hpass). apply post_ret. split; [done|].
  exists (ListPods (job_Namespace j) (inl items) :: l). split; [rewrite Ht; cbn [trace]; by rewrite <- app_assoc|]. split; [|reflexivity].
  exists (inl items), l. split; [reflexivity|]. exists claimed, errs. by split.
Qed.

Lemma getServicesForMXJob_found j sel (s : St W) :
  job_selector j = inl sel →
  post (getServicesForMXJob j) (λ r s', pending s' = pending s ∧ ∃ l, trace s' = trace s ++ l ∧
      found (ListServices (job_Namespace j)) (service_pass j sel) r l ∧
      head l = Some (ListServices (job_Namespace j) (c_listServices (job_Namespace j) (world s)).1)) (λ _, False) s.
Proof.
  intros Hsel. unfold getServicesForMXJob. rewrite Hsel. apply post_bind, post_ask. intros answer w E.
  replace (c_listServices (job_Namespace j) (world s)).1 with answer by by rewrite E.
  destruct answer as [items|err].
  2:{ apply post_ret. split; [done|]. eexists. split; [reflexivity|]. split; [|reflexivity].
    exists (inr err), []. repeat split. }
  apply post_bind. rewrite serviceList_id. eapply post_mono; [apply ClaimServices_pass_real | | done].
  intros [[claimed errs] once] s' (Hp & l & Ht & Hpass). apply post_ret. split; [done|].
  exists (ListServices (job_Namespace j) (inl items) :: l). split; [rewrite Ht; cbn [trace]; by rewrite <- app_assoc|]. split; [|reflexivity].
  exists (inl items), l. split; [reflexivity|]. exists claimed, errs. by split.
Qed.

(** A pass in full: when there is nothing to adopt any answer to the check will do. *)
Lemma claim_pass_answers {O} `{!MetaObject O} j sel (adopted released : O → option error → request) denied objs claimed errs l :
  claim_pass j (selects sel) adopted released denied (checked_by j) objs claimed errs l →
  ∃ answers fresh, length answers = length objs ∧
    l = claim_entries j (selects sel) adopted released (fresh_verdict j fresh)
          [GetMXJob (job_Namespace j) (job_Name j) fresh] (zip objs answers) ∧
    claimed = omap (claim_of j (selects sel) (fresh_verdict j fresh)) (zip objs answers) ∧
    errs = omap (claim_error j (selects sel) denied (fresh_verdict j fresh)) (zip objs answers).
Proof.
  intros (answers & verdict & checked & Hlen & HV & -> & -> & ->). exists answers.
  destruct (existsb (λ o, bool_decide (action_of j (selects sel) o.1 = Adopt)) (zip objs answers)) eqn:E.
  - apply existsb_exists in E as ([obj a] & Hin%list_elem_of_In & Ha%bool_decide_eq_true).
    apply elem_of_zip_l in Hin. destruct HV as (fresh & -> & ->); [by exists obj|]. by exists fresh.
  - exists (inr (Errorf "" None)). split; [done|]. by apply claim_entries_free.
Qed.
End claims.
