(* ===== verification/Hooks.v ===== *)
(** * Calling webhooks: the goroutines of pkg/mx/handler.go

    [callHook] sends one notification, the REST client under it sends it again when the server asks for that
    with a Retry-After header, the goroutine of [callHookAsync] repeats the call with
    [wait.ExponentialBackoff], and the goroutine of [handleMXJobFinalizers] runs the finish hook and
    then removes the finalizer.  They share the cache of webhook clients; the group that keeps two
    finalizer goroutines of a job apart is in [Singleflight]. *)
From S2P Require Import Prelude Types Runtime Api RefCluster Labels Naming Replicas Conditions.
From S2P Require Import JobStatus Controls RefManager Handler Lru Json WebhookClient.

(** The state of a hook goroutine: the cluster, the cache of clients, the times slept between calls and the
    times the REST client waited because a server asked for it. *)
Record HSt (W : Type) := mkHSt {
  h_api : St W; h_cache : LRU RESTClient; h_slept : list Z; h_waited : list Z }.
Arguments mkHSt {W}.
Arguments h_api {W}.
Arguments h_cache {W}.
Arguments h_slept {W}.
Arguments h_waited {W}.

(** What a goroutine takes from the runtime: unique identifiers, and
    [time.Duration(rand.Float64() * maxFactor * float64(duration))] for [maxFactor] = num/den, an
    amount between nothing and that fraction of the duration. *)
Class HookRuntime (W : Type) := {
  rt_newUUID : W → string * W;
  rt_jitter : Z → Z → Z → W → Z * W;
  rt_jitter_bound : ∀ num den d w, 0 ≤ num → 0 < den → 0 ≤ d →
    0 ≤ (rt_jitter num den d w).1 ∧ den * (rt_jitter num den d w).1 ≤ num * d }.

(** [mxjob.Finalizers = f(mxjob.Finalizers)] *)
Definition update_Finalizers (f : list string → list string) (j : MXJob) : MXJob :=
  mkMXJob (job_TypeMeta j) (set_meta_Finalizers (f (meta_Finalizers (job_Meta j))) (job_Meta j))
    (job_Spec j) (job_Status j).

(** k8s.io/apiserver/pkg/admission/plugin/webhook/errors.  The name is quoted with [%q], which here is
    the name between quotes: escapes in it are left out. *)
Definition ToStatusErr (webhookName : string) (result : option MetaStatus) : error :=
  let deniedBy :=
    "admission webhook " +:+ String quote (webhookName +:+ String quote " denied the request") in
  let result := default (mkMetaStatus StatusFailure "" "" 0) result in
  let message :=
    if decide (ms_Message result ≠ "") then deniedBy +:+ ": " +:+ ms_Message result
    else if decide (ms_Reason result ≠ "") then deniedBy +:+ ": " +:+ ms_Reason result
    else deniedBy +:+ " without explanation" in
  StatusError (mkMetaStatus (ms_Status result) message (ms_Reason result) (ms_Code result)).

(** k8s.io/apimachinery/pkg/util/wait.  [Factor] and [Jitter] are the fractions num/den: the floating
    point products of the operator's factor 3/2 with its durations are exact. *)
Record Backoff := mkBackoff {
  Duration : Z; Factor_num : Z; Factor_den : Z; Jitter_num : Z; Jitter_den : Z; Steps : nat }.
Definition Second : Z := 1000000000.
Definition ErrWaitTimeout : error := Errorf "timed out waiting for the condition" None.

(** ** k8s.io/client-go/rest/request.go *)

(** Any 500 status and 429 can make the client wait, for the number of seconds in the header. *)
Definition checkWait (resp : HttpResponse) : option Z :=
  if (resp_StatusCode resp =? 429) || (500 <=? resp_StatusCode resp) then resp_RetryAfter resp else None.
(** [transformResponse] and [Result.Into] *)
Definition transformResponse (resp : HttpResponse) : Notification + error :=
  if (resp_StatusCode resp =? 101) || ((200 <=? resp_StatusCode resp) && (resp_StatusCode resp <=? 206))
  then resp_decoded resp else inr (resp_error resp).
Definition post_maxRetries : nat := 10.

Section hooks.
Context {W : Type} `{!Cluster W} `{!GoRuntime} `{!HookRuntime W} `{!Net}.

Definition lift_api {A} (m : M (St W) A) : M (HSt W) A := λ s,
  match m (h_api s) with
  | Ret a s' => Ret a (mkHSt s' (h_cache s) (h_slept s) (h_waited s))
  | Panicked s' => Panicked (mkHSt s' (h_cache s) (h_slept s) (h_waited s))
  end.
Definition lift_cache {A} (m : M (LRU RESTClient) A) : M (HSt W) A := λ s,
  match m (h_cache s) with
  | Ret a c => Ret a (mkHSt (h_api s) c (h_slept s) (h_waited s))
  | Panicked c => Panicked (mkHSt (h_api s) c (h_slept s) (h_waited s))
  end.
(** [f] on the cluster, without a request. *)
Definition runtime {A} (f : W → A * W) : M (HSt W) A :=
  lift_api (λ s, let '(a, w) := f (world s) in Ret a (mkSt w (trace s) (pending s))).
Definition Sleep (d : Z) : M (HSt W) () :=
  modify (λ s, mkHSt (h_api s) (h_cache s) (h_slept s ++ [d]) (h_waited s)).
(** [r.backoffMgr.Sleep(d)] of a [NoBackoff] *)
Definition Wait (d : Z) : M (HSt W) () :=
  modify (λ s, mkHSt (h_api s) (h_cache s) (h_slept s) (h_waited s ++ [d])).

Definition Jitter (duration num den : Z) : M (HSt W) Z :=
  let '(num, den) := if num <=? 0 then (1, 1) else (num, den) in
  extra ← runtime (rt_jitter num den duration);
  mret (duration + extra).

(** The loop, from its [i]-th iteration on ([first] is [i = 0]) with [steps] iterations left. *)
Fixpoint backoff_loop (backoff : Backoff) (condition : M (HSt W) (bool * option error))
  (steps : nat) (first : bool) (duration : Z) : M (HSt W) (option error) :=
  match steps with
  | O => mret (Some ErrWaitTimeout)
  | S steps =>
      duration ←
        (if first then mret duration
         else
           adjusted ←
             (if 0 <? Jitter_num backoff
              then Jitter duration (Jitter_num backoff) (Jitter_den backoff)
              else mret duration);
           Sleep adjusted;;
           mret ((duration * Factor_num backoff) `quot` Factor_den backoff));
      '(ok, err) ← condition;
      if bool_decide (is_Some err) || ok then mret err
      else backoff_loop backoff condition steps false duration
  end.
Definition ExponentialBackoff (backoff : Backoff) (condition : M (HSt W) (bool * option error))
  : M (HSt W) (option error) :=
  backoff_loop backoff condition (Steps backoff) true (Duration backoff).

Definition hook_request (uid : string) (mxjob : MXJob) : Notification :=
  mkNotification
    (Some (mkNotificationRequest uid
       (mkGVK (gvk_Group SchemeGroupVersionKind) (gvk_Version SchemeGroupVersionKind)
          (gvk_Kind SchemeGroupVersionKind))
       (job_Name mxjob) (job_Namespace mxjob) (job_Status mxjob)
       (meta_DeletionTimestamp (job_Meta mxjob))))
    None.

(** The last part of [callHook]: what the response means. *)
Definition judge_response (wh : Webhook) (response : Notification) : M (HSt W) (option error) :=
  match notif_Response response with
  | None =>
      mret (Some (ErrCallingWebhook (wh_Name wh) (Errorf "Webhook response was absent" None)))
  | Some resp =>
      result ← deref (nresp_Result resp);
      if 500 <=? ms_Code result then
        mret (Some (ErrCallingWebhook (wh_Name wh)
                      (Errorf ("Webhook server error " +:+ ms_Message result) None)))
      else if decide (ms_Status result = StatusSuccess) then mret None
      else mret (Some (ToStatusErr (wh_Name wh) (Some result)))
  end.

(** [Request.request], with [more] attempts left after this one.  The body is a [bytes.Reader], so it can
    be sent again; a POST is not repeated after an error of the connection. *)
Fixpoint Request_request (client : RESTClient) (body : Notification) (more : nat)
  : M (HSt W) (Notification + error) :=
  r ← lift_api (Hook_Post client body);
  match r with
  | inr err => mret (inr err)
  | inl resp =>
      match checkWait resp, more with
      | Some seconds, S more =>
          Wait (int64 (seconds * Second));;
          Request_request client body more
      | _, _ => mret (transformResponse resp)
      end
  end.
(** [client.Post().Body(&body).Do().Into(response)] *)
Definition Post_Do_Into (client : RESTClient) (body : Notification) : M (HSt W) (Notification + error) :=
  Request_request client body (Nat.pred post_maxRetries).

Definition callHook (cm : ClientManager) (wh : Webhook) (mxjob : MXJob) : M (HSt W) (option error) :=
  uid ← runtime rt_newUUID;
  r ← lift_cache (HookClient cm wh);
  match r with
  | inr err => mret (Some (ErrCallingWebhook (wh_Name wh) err))
  | inl client =>
      r ← Post_Do_Into client (hook_request uid mxjob);
      match r with
      | inr err => mret (Some (ErrCallingWebhook (wh_Name wh) err))
      | inl response => judge_response wh response
      end
  end.

(** The type assertion to [webhookerrors.ErrCallingWebhook]. *)
Definition is_calling_error (err : option error) : bool :=
  match err with Some (ErrCallingWebhook _ _) => true | _ => false end.

(** The goroutine of [callHookAsync]; the result is what it sends on the channel. *)
Definition hook_backoff : Backoff := mkBackoff (1 * Second) 3 2 1 5 5.
Definition hook_goroutine (cm : ClientManager) (wh : Webhook) (job : MXJob)
  : M (HSt W) (option error) :=
  ExponentialBackoff hook_backoff
    (err ← callHook cm wh job;
     mret (if bool_decide (err = None) then (true, None)
           else if is_calling_error err then (false, None)
           else (false, err))).

(** [<-h.callHookAsync(ctx, mxjob, startOrFinish)] *)
Definition callHook_wait (cm : ClientManager) (mxjob : MXJob) (startOrFinish : bool)
  : M (HSt W) (option error) :=
  match
    (if startOrFinish then jobspec_StartWebhook (job_Spec mxjob)
     else jobspec_FinishWebhook (job_Spec mxjob))
  with
  | None => mret None
  | Some wh => hook_goroutine cm wh mxjob
  end.

(** The function [handleMXJobFinalizers] runs in its singleflight group.  [append(f[:i], f[i+1:]...)]
    panics when there is no [i]-th finalizer. *)
Definition remove_index (i : nat) (l : list string) : option (list string) :=
  if decide (i < length l)%nat then Some (take i l ++ drop (S i) l) else None.
Definition finalizer_call_body (cm : ClientManager) (mxjob : MXJob) (indexFound : nat)
  : M (HSt W) (option error) :=
  (if negb (IsJobFinished (job_Status mxjob)) then callHook_wait cm mxjob false;; mret tt
   else mret tt);;
  finalizers ← deref (remove_index indexFound (meta_Finalizers (job_Meta mxjob)));
  '(err, _) ← lift_api (sdk_Update (update_Finalizers (λ _, finalizers) mxjob));
  mret err.
End hooks.

(** ** One call *)

(** What a reply of the webhook server means; nothing for a response without a result, on which
    [callHook] panics. *)
Definition reply_verdict (name : string) (reply : Notification + error) : option (option error) :=
  match reply with
  | inr err => Some (Some (ErrCallingWebhook name err))
  | inl n =>
      match notif_Response n with
      | None => Some (Some (ErrCallingWebhook name (Errorf "Webhook response was absent" None)))
      | Some resp =>
          result ← nresp_Result resp;
          Some (if 500 <=? ms_Code result then
                  Some (ErrCallingWebhook name (Errorf ("Webhook server error " +:+ ms_Message result) None))
                else if decide (ms_Status result = StatusSuccess) then None
                else Some (ToStatusErr name (Some result)))
      end
  end.

Section call.
Context {W : Type} `{!Cluster W} `{!HookRuntime W} `{!Net}.

(** The attempts to send [body] from [w], with [more] after the first one: the waits between them, what comes of
    the last one, and the cluster then. *)
Fixpoint attempts (client : RESTClient) (body : Notification) (more : nat) (w : W)
  : list Z * (Notification + error) * W :=
  let '(r, w) := c_postHook client body w in
  match r with
  | inr err => ([], inr err, w)
  | inl resp =>
      match checkWait resp, more with
      | Some seconds, S more =>
          let '(waits, reply, w) := attempts client body more w in (int64 (seconds * Second) :: waits, reply, w)
      | _, _ => ([], transformResponse resp, w)
      end
  end.

(** The state after a call that sent [l] and waited [ws]: only the cluster, the trace and the cache moved. *)
Definition sent_by_hook (cm : ClientManager) (l : list request) (ws : list Z) (s s' : HSt W) : Prop :=
  trace (h_api s') = trace (h_api s) ++ l ∧ pending (h_api s') = pending (h_api s) ∧
  h_slept s' = h_slept s ∧ h_waited s' = h_waited s ++ ws ∧ cache_ok cm (h_cache s').

Lemma sent_nothing cm (s s' : HSt W) :
  trace (h_api s') = trace (h_api s) → pending (h_api s') = pending (h_api s) →
  h_slept s' = h_slept s → h_waited s' = h_waited s → cache_ok cm (h_cache s') → sent_by_hook cm [] [] s s'.
Proof. intros. split_and!; try done; by rewrite app_nil_r. Qed.

Lemma Request_request_run client body more (s : HSt W) :
  let '(waits, reply, w) := attempts client body more (world (h_api s)) in
  Request_request client body more s =
  Ret reply (mkHSt (mkSt w (trace (h_api s) ++ replicate (S (length waits)) (PostHook client body)) (pending (h_api s)))
    (h_cache s) (h_slept s) (h_waited s ++ waits)).
Proof.
  revert s. induction more as [|more IH]; intros s; cbn [attempts Request_request];
    unfold lift_api at 1, Hook_Post, send, mbind, M_bind, mret, M_ret;
    destruct (c_postHook client body (world (h_api s))) as [[resp|err] w] eqn:E; cbn [h_api h_cache h_slept h_waited];
    try (cbn; by rewrite app_nil_r).
  { destruct (checkWait resp); cbn; by rewrite app_nil_r. }
  destruct (checkWait resp) as [seconds|]; [|cbn; by rewrite app_nil_r].
  set (s1 := mkHSt (mkSt w (trace (h_api s) ++ [PostHook client body]) (pending (h_api s))) (h_cache s) (h_slept s)
    (h_waited s ++ [int64 (seconds * Second)])).
  specialize (IH s1). change (world (h_api s1)) with w in IH.
  destruct (attempts client body more w) as [[waits reply] w']. cbn [Wait modify].
  transitivity (Request_request client body more s1); [done|]. rewrite IH. unfold s1. cbn.
  by rewrite <- !app_assoc.
Qed.

(** The last attempt, and what the waits are. *)
Lemma attempts_facts client body more (w : W) :
  let '(waits, reply, _) := attempts client body more w in
  (length waits ≤ more)%nat ∧
  (∃ w0, match (c_postHook client body w0).1 with inr err => reply = inr err | inl resp => reply = transformResponse resp end) ∧
  Forall (λ x, ∃ w0 resp seconds, (c_postHook client body w0).1 = inl resp ∧ checkWait resp = Some seconds ∧
    x = int64 (seconds * Second)) waits.
Proof.
  revert w. induction more as [|more IH]; intros w; cbn [attempts];
    destruct (c_postHook client body w) as [[resp|err] w'] eqn:E.
  1,2,4: try destruct (checkWait resp); (split; [cbn; lia|]); (split; [|done]); exists w; by rewrite E.
  destruct (checkWait resp) as [seconds|] eqn:Ew.
  2:{ split; [cbn; lia|]. split; [|done]. exists w. by rewrite E. }
  specialize (IH w'). destruct (attempts client body more w') as [[waits reply] w'']. destruct IH as (Hlen & Hlast & Hall).
  split; [cbn; lia|]. split; [done|]. constructor; [|done]. exists w, resp, seconds. by rewrite E.
Qed.

Lemma transformed_no_wait resp n : transformResponse resp = inl n → checkWait resp = None.
Proof.
  unfold transformResponse, checkWait. intros Hdecoded.
  destruct (Z.eqb_spec (resp_StatusCode resp) 429) as [E|]; [by rewrite E in Hdecoded|].
  destruct (Z.leb_spec 500 (resp_StatusCode resp)); [|done].
  destruct (Z.eqb_spec (resp_StatusCode resp) 101); [lia|].
  destruct (Z.leb_spec (resp_StatusCode resp) 206); [lia|]. by rewrite andb_false_r in Hdecoded.
Qed.

(** The outcome of one call for [job]: [None] when it panics. *)
Definition call_outcome (cm : ClientManager) (wh : Webhook) (job : MXJob) (s : HSt W)
  (outcome : option (option error)) (s' : HSt W) : Prop :=
  match fresh_client cm wh with
  | None => outcome = None ∧ sent_by_hook cm [] [] s s'
  | Some (inr err) => outcome = Some (Some (ErrCallingWebhook (wh_Name wh) err)) ∧ sent_by_hook cm [] [] s s'
  | Some (inl client) =>
      let '(uid, w) := rt_newUUID (world (h_api s)) in
      let '(waits, reply, w') := attempts client (hook_request uid job) (Nat.pred post_maxRetries) w in
      outcome = reply_verdict (wh_Name wh) reply ∧ world (h_api s') = w' ∧
      sent_by_hook cm (replicate (S (length waits)) (PostHook client (hook_request uid job))) waits s s'
  end.

Lemma judge_response_verdict wh response (s : HSt W) :
  judge_response wh response s =
  match reply_verdict (wh_Name wh) (inl response) with
  | Some err => Ret err s
  | None => Panicked s
  end.
Proof.
  unfold judge_response, reply_verdict. destruct (notif_Response response) as [resp|]; [|done].
  destruct (nresp_Result resp) as [result|]; [|done]. rewrite bind_deref. cbn [mbind option_bind].
  destruct (500 <=? ms_Code result); [done|]. by case_decide.
Qed.

Lemma callHook_outcome cm wh job (s : HSt W) :
  cache_ok cm (h_cache s) → valid_config (wh_ClientConfig wh) →
  post (callHook cm wh job) (λ err s', call_outcome cm wh job s (Some err) s')
    (λ s', call_outcome cm wh job s None s') s.
Proof.
  intros Hc Hv. unfold callHook, call_outcome. apply post_bind. unfold post at 1, runtime, lift_api.
  destruct (rt_newUUID (world (h_api s))) as [uid w]. apply post_bind.
  pose proof (HookClient_fresh cm wh (h_cache s) Hc Hv) as Hclient.
  unfold post in Hclient. unfold post at 1, lift_cache. cbn [h_cache].
  destruct (HookClient cm wh (h_cache s)) as [[client|err] cache'|cache'];
    destruct Hclient as [Hc' ->]; [| | split; [done|]; by apply sent_nothing].
  2:{ apply post_ret. split; [done|]. by apply sent_nothing. }
  cbn [h_api h_slept h_waited]. apply post_bind. unfold post at 1, Post_Do_Into.
  match goal with |- context [Request_request client ?body ?n ?s1] => pose proof (Request_request_run client body n s1) as Hreq end.
  cbn [h_api h_cache h_slept h_waited world trace pending] in Hreq. destruct (attempts client (hook_request uid job) _ w) as [[waits reply] w'].
  rewrite Hreq. destruct reply as [response|err]; cbn beta iota.
  - unfold post. rewrite judge_response_verdict.
    by destruct (reply_verdict (wh_Name wh) (inl response)).
  - by apply post_ret.
Qed.
End call.

(** ** The retries *)
Section retries.
Context {W : Type} `{!Cluster W} `{!HookRuntime W} `{!Net}.

(** The base of the [i]-th pause of the operator: 1, 1.5, 2.25 and 3.375 seconds. *)
Definition pause_base (i : nat) : Z := (Second * 3 ^ Z.of_nat i) `div` 2 ^ Z.of_nat i.
(** A pause is its base and at most a fifth more. *)
Definition pause_ok (i : nat) (x : Z) : Prop := pause_base i ≤ x ∧ 5 * x ≤ 6 * pause_base i.

(** [rounds cm wh job es d s s']: the calls from [s] to [s'] ended with [es]; all but the last failed
    to reach a working webhook, and the pauses [d] lie between them. *)
Inductive rounds (cm : ClientManager) (wh : Webhook) (job : MXJob)
  : list (option error) → list Z → HSt W → HSt W → Prop :=
| rounds_one e s s' :
    callHook cm wh job s = Ret e s' → rounds cm wh job [e] [] s s'
| rounds_more es e d x w e' s s1 s' :
    rounds cm wh job (es ++ [e]) d s s1 → is_calling_error e = true → pause_ok (length es) x →
    callHook cm wh job
      (mkHSt (mkSt w (trace (h_api s1)) (pending (h_api s1))) (h_cache s1) (h_slept s1 ++ [x]) (h_waited s1))
      = Ret e' s' →
    rounds cm wh job ((es ++ [e]) ++ [e']) (d ++ [x]) s s'.

Lemma pause_step i :
  (i < 4)%nat → 0 ≤ pause_base i ∧ (pause_base i * 3) `quot` 2 = pause_base (S i).
Proof. intros Hi. do 4 (destruct i as [|i]; [by split; vm_compute|]). lia. Qed.

(** What the condition of the operator makes of an error. *)
Lemma hook_condition cm wh job (s : HSt W) :
  (err ← callHook cm wh job;
   mret (if bool_decide (err = None) then (true, None)
         else if is_calling_error err then (false, None) else (false, err))) s =
  match callHook cm wh job s with
  | Ret None s' => Ret (true, None) s'
  | Ret (Some e) s' => Ret (if is_calling_error (Some e) then (false, None) else (false, Some e)) s'
  | Panicked s' => Panicked s'
  end.
Proof.
  unfold mbind, M_bind. destruct (callHook cm wh job s) as [[e|] s'|s']; try done.
Qed.

(** The end of a sequence of calls. *)
Definition retried cm wh job (err : option error) (s s' : HSt W) : Prop :=
  ∃ es e d, rounds cm wh job (es ++ [e]) d s s' ∧ (length es < 5)%nat ∧
    (if is_calling_error e then length es = 4%nat ∧ err = Some ErrWaitTimeout else err = e).
(** A state in which the goroutine started in [s] makes a call. *)
Definition before_call cm wh job (s s0 : HSt W) : Prop :=
  s0 = s ∨ ∃ es e d x w s1, rounds cm wh job (es ++ [e]) d s s1 ∧ is_calling_error e = true ∧
    (length es < 4)%nat ∧ pause_ok (length es) x ∧
    s0 = mkHSt (mkSt w (trace (h_api s1)) (pending (h_api s1))) (h_cache s1) (h_slept s1 ++ [x]) (h_waited s1).
Definition call_panics cm wh job (s s' : HSt W) : Prop :=
  ∃ s0, before_call cm wh job s s0 ∧ callHook cm wh job s0 = Panicked s'.

(** The loop after the call with result [e], with [n] iterations left. *)
Lemma backoff_rounds cm wh job n :
  ∀ es e d s s1, rounds cm wh job (es ++ [e]) d s s1 → is_calling_error e = true →
  (length es + n = 4)%nat →
  post (backoff_loop hook_backoff
          (err ← callHook cm wh job;
           mret (if bool_decide (err = None) then (true, None)
                 else if is_calling_error err then (false, None) else (false, err)))
          n false (pause_base (length es)))
    (λ err s', retried cm wh job err s s') (call_panics cm wh job s) s1.
Proof.
  induction n as [|n IH]; intros es e d s s1 Hr He Hn.
  { apply post_ret. exists es, e, d. rewrite He. split_and!; try done; lia. }
  cbn [backoff_loop]. destruct (pause_step (length es) ltac:(lia)) as [Hpos Hnext].
  change (0 <? Jitter_num hook_backoff) with true. cbn iota. apply post_bind, post_bind.
  unfold Jitter. change (Jitter_num hook_backoff <=? 0) with false. cbn [Jitter_num Jitter_den hook_backoff].
  apply post_bind. unfold post at 1, runtime, lift_api.
  pose proof (rt_jitter_bound 1 5 (pause_base (length es)) (world (h_api s1))
    ltac:(lia) ltac:(lia) Hpos) as [Hj1 Hj2].
  destruct (rt_jitter 1 5 (pause_base (length es)) (world (h_api s1))) as [extra w]. cbn [fst] in *.
  apply post_ret, post_bind, post_modify, post_ret. cbn [h_api h_cache h_slept].
  cbn [Factor_num Factor_den hook_backoff]. rewrite Hnext. apply post_bind. unfold post at 1.
  rewrite hook_condition.
  match goal with |- context [callHook cm wh job ?s2] => set (s2' := s2) end.
  destruct (callHook cm wh job s2') as [e' s'|s'] eqn:Hcall.
  2:{ exists s2'. split; [|exact Hcall]. right. do 6 eexists. split; [exact Hr|]. split_and!; [done | lia | | reflexivity].
      unfold pause_ok. lia. }
  assert (rounds cm wh job ((es ++ [e]) ++ [e']) (d ++ [pause_base (length es) + extra]) s s') as Hr'.
  { eapply rounds_more; [done | done | | exact Hcall]. unfold pause_ok. lia. }
  assert (length (es ++ [e]) = S (length es)) as Hlen by (rewrite length_app; cbn; lia).
  destruct e' as [err|]; cbn beta iota.
  2:{ apply post_ret. eexists _, _, _. split; [exact Hr'|]. split; [lia | done]. }
  destruct (is_calling_error (Some err)) eqn:He'.
  - cbn [bool_decide orb]. rewrite <- Hlen. eapply IH; [exact Hr' | done | lia].
  - apply post_ret. eexists _, _, _. split; [exact Hr'|]. rewrite He'. split; [lia | done].
Qed.

Lemma hook_goroutine_rounds cm wh job (s : HSt W) :
  post (hook_goroutine cm wh job) (λ err s', retried cm wh job err s s') (call_panics cm wh job s) s.
Proof.
  unfold hook_goroutine, ExponentialBackoff. cbn [Steps hook_backoff backoff_loop].
  apply post_bind, post_ret, post_bind. unfold post at 1. rewrite hook_condition.
  destruct (callHook cm wh job s) as [e s'|s'] eqn:Hcall; [|exists s; split; [by left | done]].
  pose proof (rounds_one cm wh job e s s' Hcall) as Hr.
  destruct e as [err|]; cbn beta iota.
  2:{ apply post_ret. exists [], None, []. split_and!; try done. cbn. lia. }
  destruct (is_calling_error (Some err)) eqn:He.
  - apply (backoff_rounds cm wh job 4 [] (Some err) [] s s' Hr He). done.
  - apply post_ret. exists [], (Some err), []. rewrite He. split_and!; try done. cbn. lia.
Qed.
End retries.

Section bounds.
Context {W : Type} `{!Cluster W} `{!HookRuntime W} `{!Net}.

(** A notification about [job], sent to the client of [wh]. *)
Definition hook_post (cm : ClientManager) (wh : Webhook) (job : MXJob) (r : request) : Prop :=
  ∃ client uid, fresh_client cm wh = Some (inl client) ∧ r = PostHook client (hook_request uid job).

(** A time the server of [wh] asked to wait. *)
Definition hook_wait (cm : ClientManager) (wh : Webhook) (job : MXJob) (x : Z) : Prop :=
  ∃ client uid (w : W) resp seconds, fresh_client cm wh = Some (inl client) ∧
    (c_postHook client (hook_request uid job) w).1 = inl resp ∧ checkWait resp = Some seconds ∧
    x = int64 (seconds * Second).

Lemma callHook_sent cm wh job (s s' : HSt W) e :
  cache_ok cm (h_cache s) → valid_config (wh_ClientConfig wh) → callHook cm wh job s = Ret e s' →
  ∃ l ws, sent_by_hook cm l ws s s' ∧ Forall (hook_post cm wh job) l ∧ Forall (hook_wait cm wh job) ws ∧
    (e = None → l ≠ []) ∧ (length l ≤ S (length ws))%nat ∧ (length ws ≤ 9)%nat.
Proof.
  intros Hc Hv Hcall. pose proof (callHook_outcome cm wh job s Hc Hv) as Hout.
  unfold post in Hout. rewrite Hcall in Hout. unfold call_outcome in Hout.
  destruct (fresh_client cm wh) as [[client|err]|] eqn:Hf; [| | by destruct Hout].
  - destruct (rt_newUUID _) as [uid w]. pose proof (attempts_facts client (hook_request uid job) (Nat.pred post_maxRetries) w) as Hfacts.
    destruct (attempts _ _ _ _) as [[waits reply] w']. destruct Hfacts as (Hlen & _ & Hall), Hout as (_ & _ & Hs).
    do 2 eexists. split; [exact Hs|]. rewrite length_replicate. split_and!; [| |done|lia|exact Hlen].
    + apply Forall_replicate. by exists client, uid.
    + eapply Forall_impl; [exact Hall|]. intros x (w0 & resp & seconds & ?). by exists client, uid, w0, resp, seconds.
  - destruct Hout as [[= ->] Hs]. exists [], []. split; [exact Hs|]. split_and!; try done; cbn; lia.
Qed.

(** What a sequence of calls sent, and how long it paused. *)
Lemma rounds_sent cm wh job es d (s s' : HSt W) :
  rounds cm wh job es d s s' → cache_ok cm (h_cache s) → valid_config (wh_ClientConfig wh) →
  cache_ok cm (h_cache s') ∧ pending (h_api s') = pending (h_api s) ∧
  h_slept s' = h_slept s ++ d ∧ length es = S (length d) ∧
  (∀ i x, d !! i = Some x → pause_ok i x) ∧
  ∃ l ws, trace (h_api s') = trace (h_api s) ++ l ∧ h_waited s' = h_waited s ++ ws ∧
    Forall (hook_post cm wh job) l ∧ Forall (hook_wait cm wh job) ws ∧
    (length l ≤ length es + length ws)%nat ∧ (length ws ≤ 9 * length es)%nat ∧ (last es = Some None → l ≠ []).
Proof.
  induction 1 as [e s s' Hcall | es e d x w e' s s1 s' Hr IH He Hx Hcall]; intros Hc Hv.
  - destruct (callHook_sent _ _ _ _ _ _ Hc Hv Hcall) as (l & ws & (Ht & Hp & Hd & Hw & Hc') & Hl & Hws & H1 & H2 & H3).
    split_and!; try done; [by rewrite app_nil_r|]. exists l, ws. split_and!; try done; cbn; [lia..|].
    intros [= ->]. by apply H1.
  - destruct (IH Hc Hv) as (Hc1 & Hp1 & Hd1 & Hlen & Hpause & l1 & ws1 & Ht1 & Hw1 & Hl1 & Hws1 & Hn1 & Hm1 & _).
    destruct ((λ H, callHook_sent cm wh job _ s' e' H Hv Hcall) Hc1)
      as (l & ws & (Ht & Hp & Hd & Hw & Hc') & Hl & Hws & H1 & H2 & H3).
    cbn in *. split_and!; try done; [congruence | | |
      | exists (l1 ++ l), (ws1 ++ ws); rewrite Ht, Ht1, Hw, Hw1, !app_assoc; split_and!; try done].
    + by rewrite Hd, Hd1, app_assoc.
    + rewrite !length_app. rewrite length_app in Hlen. cbn in *. lia.
    + intros i y [Hi|[Hi Hy]]%lookup_app_Some; [by apply Hpause|].
      destruct (i - length d)%nat as [|k] eqn:Ek; [|by rewrite lookup_cons in Hy].
      injection Hy as <-. rewrite length_app in Hlen. cbn in Hlen. by replace i with (length es) by lia.
    + by apply Forall_app.
    + by apply Forall_app.
    + rewrite !length_app. rewrite length_app in Hn1. cbn in *. lia.
    + rewrite !length_app. rewrite length_app in Hm1. cbn in *. lia.
    + rewrite last_snoc. intros [= ->] [_ ->]%app_eq_nil. by apply H1.
Qed.

(** At most four pauses: nine and three quarter seconds. *)
Lemma pauses_sum (d : list Z) :
  (length d ≤ 4)%nat → (∀ i x, d !! i = Some x → pause_ok i x) →
  foldr Z.add 0 d ≤ 9750000000.
Proof.
  intros Hlen Hd. assert (∀ i x, d !! i = Some x → 5 * x ≤ 6 * pause_base i) as Hx
    by (intros i x Hi; by apply Hd). clear Hd.
  assert (pause_base 0 = 1000000000 ∧ pause_base 1 = 1500000000 ∧ pause_base 2 = 2250000000 ∧
    pause_base 3 = 3375000000) as (B0 & B1 & B2 & B3) by done.
  destruct d as [|x0 d]; [cbn; lia|]. pose proof (Hx 0%nat x0 eq_refl).
  destruct d as [|x1 d]; [cbn; lia|]. pose proof (Hx 1%nat x1 eq_refl).
  destruct d as [|x2 d]; [cbn; lia|]. pose proof (Hx 2%nat x2 eq_refl).
  destruct d as [|x3 d]; [cbn; lia|]. pose proof (Hx 3%nat x3 eq_refl).
  destruct d as [|x4 d]; [|cbn in Hlen; lia]. cbn [foldr]. lia.
Qed.
End bounds.

Section finalizer.
Context {W : Type} `{!Cluster W} `{!HookRuntime W} `{!Net}.

(** The [i]-th finalizer, the operator's, is removed from the stored job; nothing else of it changes;
    [err] is the answer of the server. *)
Definition finalizer_removed (job : MXJob) (i : nat) (s1 : HSt W) (err : option error) (s' : HSt W)
  : Prop :=
  ∃ before after, meta_Finalizers (job_Meta job) = before ++ FinalizerFinishWebhook :: after ∧
    length before = i ∧
    let job' := update_Finalizers (λ _, before ++ after) job in
    trace (h_api s') = trace (h_api s1) ++ [UpdateMXJob job'] ∧
    err = match (c_updateMXJob job' (world (h_api s1))).1 with inl _ => None | inr e => Some e end ∧
    pending (h_api s') = pending (h_api s1).

Lemma finalizer_update job i (s1 : HSt W) :
  meta_Finalizers (job_Meta job) !! i = Some FinalizerFinishWebhook →
  post
    (finalizers ← deref (remove_index i (meta_Finalizers (job_Meta job)));
     '(err, _) ← lift_api (sdk_Update (update_Finalizers (λ _, finalizers) job));
     mret err) (finalizer_removed job i s1) (λ _, False) s1.
Proof.
  intros Hi. pose proof (take_drop_middle _ _ _ Hi) as Hsplit. apply lookup_lt_Some in Hi as Hlt.
  unfold remove_index. rewrite decide_True by done. apply post_bind, post_deref_some.
  apply post_bind. unfold post at 1, lift_api, sdk_Update, mbind, M_bind, send, mret, M_ret.
  destruct (c_updateMXJob _ _) as [r w] eqn:Hr.
  destruct r as [j|e];
    (exists (take i (meta_Finalizers (job_Meta job))), (drop (S i) (meta_Finalizers (job_Meta job)));
     cbv zeta; rewrite Hr; split_and!; [done | rewrite length_take; lia | done..]).
Qed.
End finalizer.

(** ** Properties *)


#[local] Existing Instance plain_net.
(** Every notification has the same identifier, pauses are not prolonged. *)
#[refine, export] Instance ref_hook_runtime : HookRuntime RefCluster :=
  {| rt_newUUID := λ w, ("uuid", w); rt_jitter := λ _ _ _ w, (0, w) |}.
Proof. cbn. lia. Defined.
Definition new_cache : LRU RESTClient := default (mkLRU 0 [] ∅ ∅ 0%nat) (NewLRU defaultCacheSize).
(** The cluster with a job whose webhook answers with [reply]. *)
Definition hook_state (reply : Notification → HttpResponse + error) : HSt RefCluster :=
  mkHSt (start (mkRefCluster 100 0 [example_job] [] [] (λ _, None) reply)) new_cache [] [].
(** A webhook that is never ready and asks for two seconds each time. *)
Definition not_ready (_ : Notification) : HttpResponse + error :=
  inl (mkHttpResponse 503 (Some 2) (inr (Errorf "" None)) (status_error "ServiceUnavailable" 503)).


(** C25. A webhook server can bring the operator down: if the first answer is a
    response without a result, the goroutine that calls the webhook panics, which ends the process. *)
Theorem hook_nil_result_panics {W} `{!Cluster W} `{!HookRuntime W} `{!Net} cm wh job client http n resp
  (s : HSt W) :
  cache_ok cm (h_cache s) → valid_config (wh_ClientConfig wh) →
  fresh_client cm wh = Some (inl client) →
  (let '(uid, w) := rt_newUUID (world (h_api s)) in
   (c_postHook client (hook_request uid job) w).1 = inl http) →
  transformResponse http = inl n → notif_Response n = Some resp → nresp_Result resp = None →
  ∃ s', hook_goroutine cm wh job s = Panicked s'.
Proof.
  intros Hc Hv Hf Hreply Hhttp Hn Hr. pose proof (callHook_outcome cm wh job s Hc Hv) as Hout.
  unfold post, call_outcome in Hout. rewrite Hf in Hout.
  destruct (rt_newUUID _) as [uid w]. cbn [post_maxRetries Nat.pred attempts] in Hout.
  destruct (c_postHook _ _ _) as [reply w']. cbn in Hreply. subst reply. cbn beta iota in Hout.
  rewrite (transformed_no_wait _ _ Hhttp), Hhttp in Hout.
  unfold reply_verdict in Hout. rewrite Hn, Hr in Hout. cbn in Hout.
  unfold hook_goroutine, ExponentialBackoff. cbn [Steps hook_backoff backoff_loop].
  rewrite bind_ret. unfold mbind at 1, M_bind at 1. rewrite hook_condition.
  destruct (callHook cm wh job s) as [e s'|s'].
  - by destruct Hout as [Hout _].
  - by exists s'.
Qed.

Definition no_result (n : Notification) : HttpResponse + error :=
  inl (http_ok (mkNotification (notif_Request n) (Some (mkNotificationResponse "" None)))).
Lemma hook_nil_result_panics_witness :
  ∃ s', hook_goroutine operator_manager example_hook example_job (hook_state no_result) = Panicked s'.
Proof.
  apply (hook_nil_result_panics operator_manager example_hook example_job
    (client_of (fresh_client operator_manager example_hook))
    (http_ok (mkNotification (notif_Request (hook_request "uuid" example_job)) (Some (mkNotificationResponse "" None))))
    (mkNotification (notif_Request (hook_request "uuid" example_job))
       (Some (mkNotificationResponse "" None)))
    (mkNotificationResponse "" None) (hook_state no_result)).
  - by apply new_cache_ok.
  - apply (bool_decide_unpack _). by vm_compute.
  - reflexivity.
  - reflexivity.
  - reflexivity.
  - reflexivity.
  - reflexivity.
Defined.

(** C19. The work of a finalizer goroutine.  Unless the job was finished, in which
    case it was notified already, or has no finish webhook, the webhook is called, with all its
    retries; then, whatever came of that, the job is stored exactly once, with exactly the found
    finalizer gone and everything else as it was, and the answer of the server is the result. *)
Theorem finalizer_correct {W} `{!Cluster W} `{!HookRuntime W} `{!Net} cm job i (s : HSt W) :
  meta_Finalizers (job_Meta job) !! i = Some FinalizerFinishWebhook →
  post (finalizer_call_body cm job i)
    (λ err s', ∃ s1,
       match jobspec_FinishWebhook (job_Spec job) with
       | Some wh => if finished job then s1 = s else ∃ e, retried cm wh job e s s1
       | None => s1 = s
       end ∧ finalizer_removed job i s1 err s')
    (λ s', ∃ wh, jobspec_FinishWebhook (job_Spec job) = Some wh ∧ call_panics cm wh job s s') s.
Proof.
  intros Hi. unfold finalizer_call_body. fold (finished job).
  destruct (finished job) eqn:Hf; cbn [negb].
  { apply post_bind, post_ret. eapply post_mono; [by apply finalizer_update | | done].
    intros err s' Hrem. exists s. split; [by destruct (jobspec_FinishWebhook _) | exact Hrem]. }
  apply post_bind, post_bind. unfold callHook_wait.
  destruct (jobspec_FinishWebhook (job_Spec job)) as [wh|].
  - eapply post_mono; [apply hook_goroutine_rounds | | by intros s' ?; exists wh].
    intros e s1 Hret. apply post_ret. eapply post_mono; [by apply finalizer_update | | done].
    intros err s' Hrem. exists s1. split; [by exists e | exact Hrem].
  - apply post_ret, post_ret. eapply post_mono; [by apply finalizer_update | | done].
    intros err s' Hrem. by exists s.
Qed.

(** A job that is deleted before it finished. *)
Lemma finalizer_correct_witness :
  let s := hook_state ok_reply in
  post (finalizer_call_body operator_manager example_job 0)
    (λ err s', ∃ s1, (∃ e, retried operator_manager example_hook example_job e s s1) ∧
       finalizer_removed example_job 0 s1 err s')
    (λ s', ∃ wh, Some example_hook = Some wh ∧ call_panics operator_manager wh example_job s s') s.
Proof. apply (finalizer_correct operator_manager example_job 0 (hook_state ok_reply)). reflexivity. Defined.
