(* ===== verification/Singleflight.v ===== *)
(** * The group of finalizer goroutines: golang/groupcache singleflight

    [handleMXJobFinalizers] starts a goroutine for every event of a job pending deletion; the goroutines run
    the finalizer code through [finalizerGroup.Do], keyed by the job.  Here any number of goroutines call
    [Do], and every lock operation, access to the map, wait and step of the function is a step of one of
    them.  The function is a parameter, given by its steps; [finalizer_step] is the operator's. *)
From S2P Require Import Prelude Threads Types Runtime Api RefCluster Conditions Lru WebhookClient Handler Hooks.

Section singleflight.
(** [S] is the state the functions work on, [F] a function that has not returned yet, [R] its result
    ([zero] before it is known). *)
Context {S F R : Type} (zero : R) (fn_step : F → M S (F + R)).

(** [call]: the wait group has been counted down; the result. *)
Record call := mkCall { call_done : bool; call_val : R }.
(** [Group], the calls on the heap, what the functions work on, and a record of the results that functions
    returned, which no code reads. *)
Record Group := mkGroup {
  g_mu : bool; g_m : option (gmap string nat); g_calls : list call; g_state : S; g_log : list (string * R) }.

Definition set_mu (b : bool) : M Group () :=
  modify (λ g, mkGroup b (g_m g) (g_calls g) (g_state g) (g_log g)).
Definition set_m (m : option (gmap string nat)) : M Group () :=
  modify (λ g, mkGroup (g_mu g) m (g_calls g) (g_state g) (g_log g)).
Definition new_call : M Group nat := λ g,
  Ret (length (g_calls g)) (mkGroup (g_mu g) (g_m g) (g_calls g ++ [mkCall false zero]) (g_state g) (g_log g)).
(** [*c = f( *c )]: a nil pointer panics. *)
Definition update_call (c : nat) (f : call → call) : M Group () := λ g,
  (cl ← deref (g_calls g !! c);
   modify (λ g, mkGroup (g_mu g) (g_m g) (<[c := f cl]> (g_calls g)) (g_state g) (g_log g))) g.
Definition on_group {A} (m : M S A) : M Group A := λ g,
  match m (g_state g) with
  | Ret a s => Ret a (mkGroup (g_mu g) (g_m g) (g_calls g) s (g_log g))
  | Panicked s => Panicked (mkGroup (g_mu g) (g_m g) (g_calls g) s (g_log g))
  end.
Definition note_result (key : string) (r : R) : M Group () :=
  modify (λ g, mkGroup (g_mu g) (g_m g) (g_calls g) (g_state g) (g_log g ++ [(key, r)])).

(** A point of [Do]. *)
Inductive Caller :=
| Locking (key : string) (fn : F)              (* g.mu.Lock() *)
| Searching (key : string) (fn : F)            (* g.m[key] *)
| Joining (key : string) (c : nat)             (* g.mu.Unlock(), the call exists *)
| Waiting (key : string) (c : nat)             (* c.wg.Wait() *)
| Leaving (key : string) (c : nat) (fn : F)    (* g.mu.Unlock(), the call is new *)
| Calling (key : string) (c : nat) (fn : F)    (* fn() *)
| Storing (key : string) (c : nat) (r : R)     (* c.val, c.err = *)
| Signalling (key : string) (c : nat)          (* c.wg.Done() *)
| Relocking (key : string) (c : nat)           (* g.mu.Lock() *)
| Removing (key : string) (c : nat)            (* delete(g.m, key) *)
| Unlocking (key : string) (c : nat)           (* g.mu.Unlock() *)
| Returning (key : string) (c : nat)           (* return c.val, c.err *)
| Returned (key : string) (r : R).

Definition Do_step (t : Caller) : M Group Caller :=
  match t with
  | Locking key fn => set_mu true;; mret (Searching key fn)
  | Searching key fn =>
      g ← get_state;
      let m := default ∅ (g_m g) in
      match m !! key with
      | Some c => set_m (Some m);; mret (Joining key c)
      | None => c ← new_call; set_m (Some (<[key := c]> m));; mret (Leaving key c fn)
      end
  | Joining key c => set_mu false;; mret (Waiting key c)
  | Waiting key c => mret (Returning key c)
  | Leaving key c fn => set_mu false;; mret (Calling key c fn)
  | Calling key c fn =>
      x ← on_group (fn_step fn);
      match x with
      | inl fn' => mret (Calling key c fn')
      | inr r => note_result key r;; mret (Storing key c r)
      end
  | Storing key c r => update_call c (λ cl, mkCall (call_done cl) r);; mret (Signalling key c)
  | Signalling key c => update_call c (λ cl, mkCall true (call_val cl));; mret (Relocking key c)
  | Relocking key c => set_mu true;; mret (Removing key c)
  | Removing key c =>
      g ← get_state;
      set_m (delete key <$> g_m g);; mret (Unlocking key c)
  | Unlocking key c => set_mu false;; mret (Returning key c)
  | Returning key c =>
      g ← get_state;
      cl ← deref (g_calls g !! c); mret (Returned key (call_val cl))
  | Returned key r => mret (Returned key r)
  end.

(** A caller can move unless it has returned, waits for the lock or for the call it joined. *)
Definition enabled (t : Caller) (g : Group) : bool :=
  match t with
  | Locking _ _ | Relocking _ _ => negb (g_mu g)
  | Waiting _ c => match g_calls g !! c with Some cl => call_done cl | None => true end
  | Returned _ _ => false
  | _ => true
  end.

Notation Callers := (Pool Group Caller).
(** Goroutines that call [Do] on a new group. *)
Definition launched (calls : list (string * F)) (s : S) : Callers :=
  Running (mkGroup false None [] s []) ((λ '(key, fn), Locking key fn) <$> calls).

(** ** Specification *)

(** The function of the caller is running. *)
Definition executing (key : string) (t : Caller) : Prop :=
  match t with Calling k _ _ => k = key | _ => False end.
Definition returned (t : Caller) : bool := match t with Returned _ _ => true | _ => false end.

Definition key_of (t : Caller) : string :=
  match t with
  | Locking k _ | Searching k _ | Joining k _ | Waiting k _ | Leaving k _ _ | Calling k _ _ | Storing k _ _
  | Signalling k _ | Relocking k _ | Removing k _ | Unlocking k _ | Returning k _ | Returned k _ => k
  end.

(** ** The invariant *)

(** Between [Lock] and [Unlock]. *)
Definition holds (t : Caller) : bool :=
  match t with
  | Searching _ _ | Joining _ _ | Leaving _ _ _ | Removing _ _ | Unlocking _ _ => true
  | _ => false
  end.
(** The entry of the map that the caller made and has not deleted. *)
Definition registered (t : Caller) : option (string * nat) :=
  match t with
  | Leaving k c _ | Calling k c _ | Storing k c _ | Signalling k c | Relocking k c | Removing k c => Some (k, c)
  | _ => None
  end.

Definition map_inv (g : Group) (ts : list Caller) : Prop :=
  ∀ key c, default ∅ (g_m g) !! key = Some c ↔ ∃ i t, ts !! i = Some t ∧ registered t = Some (key, c).
(** A call belongs to one caller. *)
Definition owner_inv (ts : list Caller) : Prop :=
  ∀ i j t t' k k' c, ts !! i = Some t → ts !! j = Some t' →
    registered t = Some (k, c) → registered t' = Some (k', c) → i = j.
(** What a caller knows, [keys] being the keys of the calls. *)
Definition known (keys : list string) (g : Group) (t : Caller) : Prop :=
  match t with
  | Locking _ _ | Searching _ _ => True
  | Joining k c | Waiting k c => keys !! c = Some k
  | Leaving k c _ | Calling k c _ => keys !! c = Some k ∧ ∃ v, g_calls g !! c = Some (mkCall false v)
  | Storing k c r => keys !! c = Some k ∧ (∃ v, g_calls g !! c = Some (mkCall false v)) ∧ (k, r) ∈ g_log g
  | Signalling k c => keys !! c = Some k ∧ ∃ v, g_calls g !! c = Some (mkCall false v) ∧ (k, v) ∈ g_log g
  | Relocking k c | Removing k c | Unlocking k c | Returning k c =>
      keys !! c = Some k ∧ ∃ v, g_calls g !! c = Some (mkCall true v) ∧ (k, v) ∈ g_log g
  | Returned k r => (k, r) ∈ g_log g
  end.
(** Every call is either done, with a result a function returned, or will be. *)
Definition call_inv (keys : list string) (g : Group) (ts : list Caller) : Prop :=
  length keys = length (g_calls g) ∧
  ∀ c k cl, keys !! c = Some k → g_calls g !! c = Some cl →
    if call_done cl then (k, call_val cl) ∈ g_log g
    else ∃ i t, ts !! i = Some t ∧ registered t = Some (k, c).
Definition group_inv (g : Group) (ts : list Caller) : Prop :=
  lock_inv holds (g_mu g) ts ∧ map_inv g ts ∧ owner_inv ts ∧
  ∃ keys, call_inv keys g ts ∧ ∀ i t, ts !! i = Some t → known keys g t.

(** *** One caller moves *)
Lemma map_keep g g' ts i t t' :
  ts !! i = Some t → map_inv g ts → default ∅ (g_m g') = default ∅ (g_m g) → registered t' = registered t →
  map_inv g' (<[i := t']> ts).
Proof.
  intros Hi Hm Hm' Hr key c. rewrite Hm', (Hm key c). split.
  - intros (j & u & Hj & Hu). destruct (decide (j = i)) as [->|Hne].
    + exists i, t'. simplify_eq. split; [by eapply at_moved|congruence].
    + exists j, u. split; [by apply at_others|done].
  - intros (j & u & [[-> ->]|[_ Hj]]%moved & Hu); [exists i, t|exists j, u]; split; congruence.
Qed.

Lemma map_add g g' ts i t t' key c :
  ts !! i = Some t → map_inv g ts → registered t = None → registered t' = Some (key, c) →
  default ∅ (g_m g) !! key = None → default ∅ (g_m g') = <[key := c]> (default ∅ (g_m g)) →
  map_inv g' (<[i := t']> ts).
Proof.
  intros Hi Hm Hr Hr' Hnone Hm' key' c'. rewrite Hm', lookup_insert_Some, (Hm key' c'). split.
  - intros [[<- <-]|[_ (j & u & Hj & Hu)]]; [exists i, t'; split; [by eapply at_moved|done]|].
    exists j, u. split; [|done]. apply at_others; [|done]. intros ->. congruence.
  - intros (j & u & [[-> ->]|[Hne Hj]]%moved & Hu); [left; split; congruence|right].
    assert (default ∅ (g_m g) !! key' = Some c') by (apply Hm; by exists j, u).
    split; [congruence|by exists j, u].
Qed.

Lemma map_remove g g' ts i t t' key c :
  ts !! i = Some t → map_inv g ts → owner_inv ts → registered t = Some (key, c) → registered t' = None →
  default ∅ (g_m g') = delete key (default ∅ (g_m g)) → map_inv g' (<[i := t']> ts).
Proof.
  intros Hi Hm Ho Hr Hr' Hm' key' c'. rewrite Hm', lookup_delete_Some, (Hm key' c'). split.
  - intros (Hne & j & u & Hj & Hu). exists j, u. split; [|done]. apply at_others; [|done].
    intros ->. congruence.
  - intros (j & u & [[-> ->]|[Hne Hj]]%moved & Hu); [congruence|]. split; [|by exists j, u].
    intros <-. destruct Hne. assert (default ∅ (g_m g) !! key = Some c') as H1 by (apply Hm; by exists j, u).
    assert (default ∅ (g_m g) !! key = Some c) as H2 by (apply Hm; by exists i, t).
    simplify_eq. by eapply Ho.
Qed.

Lemma owner_move ts i t t' :
  ts !! i = Some t → owner_inv ts →
  (∀ k c, registered t' = Some (k, c) → registered t = Some (k, c) ∨
     ∀ j u k', ts !! j = Some u → registered u ≠ Some (k', c)) →
  owner_inv (<[i := t']> ts).
Proof.
  intros Hi Ho Hr j1 j2 u1 u2 k k' c [[-> ->]|[Hn1 H1]]%moved [[-> ->]|[Hn2 H2]]%moved Hu1 Hu2; [done|..].
  - destruct (Hr _ _ Hu1) as [Ht|Hf]; [by eapply Ho|by destruct (Hf _ _ k' H2)].
  - destruct (Hr _ _ Hu2) as [Ht|Hf]; [by eapply Ho|by destruct (Hf _ _ k H1)].
  - by eapply Ho.
Qed.

(** The call whose content a caller relies on, and whether it is done. *)
Definition call_of (t : Caller) : option (nat * bool) :=
  match t with
  | Leaving _ c _ | Calling _ c _ | Storing _ c _ | Signalling _ c => Some (c, false)
  | Relocking _ c | Removing _ c | Unlocking _ c | Returning _ c => Some (c, true)
  | _ => None
  end.

Lemma known_call keys g t c b : known keys g t → call_of t = Some (c, b) → ∃ v, g_calls g !! c = Some (mkCall b v).
Proof. destruct t; cbn; intros Hk [=]; subst; naive_solver. Qed.

Lemma known_frame keys keys' g g' t l :
  (∀ c k, keys !! c = Some k → keys' !! c = Some k) → g_log g' = g_log g ++ l →
  (∀ c b, call_of t = Some (c, b) → g_calls g' !! c = g_calls g !! c) → known keys g t → known keys' g' t.
Proof.
  intros Hkeys Hlog Hc Hk. assert (∀ x, x ∈ g_log g → x ∈ g_log g') as Hsub by (rewrite Hlog; set_solver).
  destruct t; cbn in *; rewrite ?(Hc _ _ eq_refl); naive_solver.
Qed.

Lemma registered_call t k c : registered t = Some (k, c) → ∃ b, call_of t = Some (c, b).
Proof. destruct t; cbn; intros [=]; subst; by eexists. Qed.
Lemma call_registered t c : call_of t = Some (c, false) → ∃ k, registered t = Some (k, c).
Proof. destruct t; cbn; intros [=]; subst; by eexists. Qed.
Lemma registered_key keys g t k c : known keys g t → registered t = Some (k, c) → keys !! c = Some k.
Proof. destruct t; cbn; intros Hk [=]; subst; naive_solver. Qed.

(** Nobody else relies on a call that is not done. *)
Lemma other_call keys g ts i j t u k c v c' b :
  owner_inv ts → ts !! i = Some t → registered t = Some (k, c) → g_calls g !! c = Some (mkCall false v) →
  ts !! j = Some u → j ≠ i → known keys g u → call_of u = Some (c', b) → c' ≠ c.
Proof.
  intros Ho Hi Hr Hc Hj Hne Hu Hcu ->. destruct (known_call _ _ _ _ _ Hu Hcu) as [w Hw].
  assert (b = false) as -> by congruence. destruct (call_registered _ _ Hcu) as [k' Hk'].
  destruct Hne. by eapply Ho.
Qed.

(** A step that leaves the calls alone. *)
Lemma inv_quiet g g' ts i t t' l :
  ts !! i = Some t → group_inv g ts → lock_inv holds (g_mu g') (<[i := t']> ts) → map_inv g' (<[i := t']> ts) →
  g_calls g' = g_calls g → g_log g' = g_log g ++ l →
  (∀ k c, registered t' = Some (k, c) → registered t = Some (k, c)) →
  (∀ k c, registered t = Some (k, c) →
     registered t' = Some (k, c) ∨ ∃ v, g_calls g !! c = Some (mkCall true v)) →
  (∀ keys, (∀ j u, ts !! j = Some u → known keys g u) → call_inv keys g ts → known keys g' t') →
  group_inv g' (<[i := t']> ts).
Proof.
  intros Hi (_ & _ & Ho & keys & Hci & Hk) Hl' Hm' Hcalls Hlog Hr Hr' Hkn. split_and!; [done..| |].
  { apply (owner_move _ _ t); [done..|]. intros k c Hrt. left. by apply Hr. }
  exists keys. pose proof (Hkn keys Hk Hci) as Ht'. split.
  - destruct Hci as [Hlen Hci]. split; [by rewrite Hcalls|]. intros c k cl Hkey Hc. rewrite Hcalls in Hc.
    specialize (Hci c k cl Hkey Hc). destruct (call_done cl) eqn:Ed; [rewrite Hlog; set_solver|].
    destruct Hci as (j & u & Hj & Hu). destruct (decide (j = i)) as [->|Hne].
    + simplify_eq. exists i, t'. split; [by eapply at_moved|]. destruct (Hr' _ _ Hu) as [|[v Hv]]; [done|].
      rewrite Hc in Hv. injection Hv as ->. by cbn in Ed.
    + exists j, u. split; [by apply at_others|done].
  - intros j u [[_ ->]|[_ Hj]]%moved; [done|]. eapply known_frame; [done|done| |by eapply Hk].
    intros c b _. by rewrite Hcalls.
Qed.

(** A step of the owner of a call that changes it. *)
Lemma inv_call g ts i t t' k c v cl' :
  ts !! i = Some t → group_inv g ts → registered t = Some (k, c) → g_calls g !! c = Some (mkCall false v) →
  let g' := mkGroup (g_mu g) (g_m g) (<[c := cl']> (g_calls g)) (g_state g) (g_log g) in
  registered t' = Some (k, c) → holds t' = holds t → (call_done cl' = true → (k, call_val cl') ∈ g_log g) →
  (∀ keys, keys !! c = Some k → g_calls g' !! c = Some cl' → known keys g' t') →
  group_inv g' (<[i := t']> ts).
Proof.
  intros Hi (Hl & Hm & Ho & keys & [Hlen Hci] & Hk) Hr Hc g' Hr' Hh Hdone Hkn.
  assert (g_calls g' !! c = Some cl') as Hc' by (apply list_lookup_insert_eq; by eapply lookup_lt_Some).
  pose proof (registered_key _ _ _ _ _ (Hk _ _ Hi) Hr) as Hkey. split_and!.
  - by apply (lock_stays _ _ _ _ t).
  - apply (map_keep g _ _ _ t); [done..|congruence].
  - apply (owner_move _ _ t); [done..|]. intros ?? E. left. congruence.
  - exists keys. split; [split; [by cbn; rewrite length_insert|]|].
    + intros c0 k0 cl0 Hk0 Hc0. destruct (decide (c0 = c)) as [->|Hne].
      * replace k0 with k by congruence. replace cl0 with cl' by congruence.
        destruct (call_done cl'); [by apply Hdone|].
        exists i, t'. split; [by eapply at_moved|done].
      * cbn in Hc0. rewrite list_lookup_insert_ne in Hc0 by done. specialize (Hci _ _ _ Hk0 Hc0).
        destruct (call_done cl0); [done|]. destruct Hci as (j & u & Hj & Hu).
        exists j, u. split; [|done]. apply at_others; [|done]. intros ->. congruence.
    + intros j u [[_ ->]|[Hne Hj]]%moved; [by apply Hkn|].
      apply (known_frame keys _ g _ _ []); [done|cbn; by rewrite app_nil_r| |by eapply Hk].
      intros c0 b Hu. apply list_lookup_insert_ne. symmetry.
      eapply (other_call keys g ts i j); try done. by eapply Hk.
Qed.

(** *** Every step *)
Definition fn_panics : Prop := ∃ fn s s', fn_step fn s = Panicked s'.

Lemma Searching_moves g ts i key fn :
  ts !! i = Some (Searching key fn) → group_inv g ts →
  post (Do_step (Searching key fn)) (λ t' g', group_inv g' (<[i := t']> ts)) (λ _, False) g.
Proof.
  intros Hi Hinv. pose proof Hinv as (Hl & Hm & Ho & keys & [Hlen Hci] & Hk).
  cbn [Do_step]. apply post_bind. unfold post at 1, get_state.
  destruct (default ∅ (g_m g) !! key) as [c|] eqn:Ec.
  - apply post_bind, post_modify, post_ret. apply (inv_quiet g _ _ _ (Searching key fn) _ []); try done.
    + by apply (lock_stays _ _ _ _ (Searching key fn)).
    + by apply (map_keep g _ _ _ (Searching key fn)).
    + by rewrite app_nil_r.
    + intros keys' Hk' _. cbn. apply Hm in Ec as (j & u & Hj & Hu). exact (registered_key _ _ _ _ _ (Hk' _ _ Hj) Hu).
  - apply post_bind. unfold post at 1, new_call. apply post_bind, post_modify, post_ret. cbn.
    assert (∀ j u k' , ts !! j = Some u → registered u ≠ Some (k', length (g_calls g))) as Hfresh.
    { intros j u k' Hj Hu. pose proof (registered_key _ _ _ _ _ (Hk _ _ Hj) Hu) as Hkey.
      apply lookup_lt_Some in Hkey. lia. }
    assert ((keys ++ [key]) !! length (g_calls g) = Some key) as Hnew by (rewrite <- Hlen; apply list_lookup_middle; done).
    split_and!.
    + by apply (lock_stays _ _ _ _ (Searching key fn)).
    + by apply (map_add g _ _ _ (Searching key fn) _ key (length (g_calls g))).
    + apply (owner_move _ _ (Searching key fn)); [done..|]. intros ? ? [= <- <-].
      right. exact Hfresh.
    + exists (keys ++ [key]). split; [split; [cbn; rewrite !length_app; cbn; lia|]|].
      * intros c k cl Hkc Hc. cbn in Hc. apply lookup_app_Some in Hc as [Hc|[Hc1 Hc2]].
        -- rewrite lookup_app_l in Hkc by (rewrite Hlen; by eapply lookup_lt_Some).
           specialize (Hci _ _ _ Hkc Hc). destruct (call_done cl); [done|].
           destruct Hci as (j & u & Hj & Hu). exists j, u. split; [|done].
           apply at_others; [|done]. intros ->. rewrite Hi in Hj. by injection Hj as <-.
        -- apply list_lookup_singleton_Some in Hc2 as [Hc2 <-]. cbn.
           assert (c = length (g_calls g)) as -> by lia. rewrite Hnew in Hkc. injection Hkc as <-.
           eexists i, _. split; [by eapply at_moved|done].
      * intros j u [[_ ->]|[_ Hj]]%moved.
        -- split; [done|]. exists zero. cbn. by apply list_lookup_middle.
        -- apply (known_frame keys _ g _ _ []); [intros; by apply lookup_app_l_Some|cbn; by rewrite app_nil_r| |by eapply Hk].
           intros c b Hu. cbn. destruct (known_call _ _ _ _ _ (Hk _ _ Hj) Hu) as [v Hv].
           rewrite Hv. by apply lookup_app_l_Some.
Qed.

(** A step that leaves the calls and the registration alone. *)
Lemma inv_same g g' ts i t t' l :
  ts !! i = Some t → group_inv g ts → lock_inv holds (g_mu g') (<[i := t']> ts) →
  default ∅ (g_m g') = default ∅ (g_m g) → g_calls g' = g_calls g → g_log g' = g_log g ++ l →
  registered t' = registered t →
  (∀ keys, call_inv keys g ts → known keys g t → known keys g' t') →
  group_inv g' (<[i := t']> ts).
Proof.
  intros Hi Hinv Hl Hm' Hc Hlog Hr Hkn. pose proof Hinv as (_ & Hm & _).
  eapply inv_quiet; [done..| |done|done| | |].
  - by eapply map_keep.
  - intros k c. by rewrite Hr.
  - intros k c. rewrite Hr. by left.
  - intros keys Hk Hci. apply Hkn; [done|by eapply Hk].
Qed.

Lemma Calling_moves g ts i key c fn :
  ts !! i = Some (Calling key c fn) → group_inv g ts →
  post (Do_step (Calling key c fn)) (λ t' g', group_inv g' (<[i := t']> ts)) (λ _, fn_panics) g.
Proof.
  intros Hi Hinv. pose proof Hinv as (Hl & _). cbn [Do_step]. apply post_bind. unfold post at 1, on_group.
  destruct (fn_step fn (g_state g)) as [[fn'|r] s|s] eqn:E; [..|by exists fn, (g_state g), s].
  - apply post_ret. apply (inv_same g _ _ _ (Calling key c fn) _ []); try done;
      [by eapply lock_stays|by rewrite app_nil_r].
  - apply post_bind, post_modify, post_ret.
    apply (inv_same g _ _ _ (Calling key c fn) _ [(key, r)]); try done; [by eapply lock_stays|].
    intros keys _ [Hkey Hc]. split_and!; [done..|]. cbn. set_solver.
Qed.

Lemma Removing_moves g ts i key c :
  ts !! i = Some (Removing key c) → group_inv g ts →
  post (Do_step (Removing key c)) (λ t' g', group_inv g' (<[i := t']> ts)) (λ _, False) g.
Proof.
  intros Hi Hinv. pose proof Hinv as (Hl & Hm & Ho & keys & _ & Hk).
  cbn [Do_step]. apply post_bind. unfold post at 1, get_state. apply post_bind, post_modify, post_ret.
  apply (inv_quiet g _ _ _ (Removing key c) _ []); try done.
  - by eapply lock_stays.
  - eapply map_remove; try done. cbn. destruct (g_m g); [done|]. symmetry. apply delete_empty.
  - by rewrite app_nil_r.
  - intros k0 c0 [= <- <-]. right. destruct (Hk _ _ Hi) as (_ & v & Hv & _). by exists v.
  - intros keys' Hk' _. exact (Hk' i _ Hi).
Qed.

Lemma update_call_run c f (g : Group) cl :
  g_calls g !! c = Some cl →
  update_call c f g = Ret tt (mkGroup (g_mu g) (g_m g) (<[c := f cl]> (g_calls g)) (g_state g) (g_log g)).
Proof. intros Hc. unfold update_call. by rewrite Hc. Qed.

Lemma owner_moves g ts i t :
  ts !! i = Some t → group_inv g ts → (∃ k c r, t = Storing k c r) ∨ (∃ k c, t = Signalling k c) →
  post (Do_step t) (λ t' g', group_inv g' (<[i := t']> ts)) (λ _, False) g.
Proof.
  intros Hi Hinv Ht. pose proof Hinv as (_ & _ & _ & keys & _ & Hk). pose proof (Hk _ _ Hi) as Hkt.
  destruct Ht as [(k & c & r & ->)|(k & c & ->)]; cbn [Do_step]; apply post_bind; unfold post at 1.
  - destruct Hkt as (Hkey & [v Hc] & Hr). rewrite (update_call_run _ _ _ _ Hc). apply post_ret.
    apply (inv_call g ts i _ _ k c v (mkCall false r) Hi Hinv); try done.
    intros keys' Hk' Hc'. split; [done|]. by exists r.
  - destruct Hkt as (Hkey & v & Hc & Hv). rewrite (update_call_run _ _ _ _ Hc). apply post_ret.
    apply (inv_call g ts i _ _ k c v (mkCall true v) Hi Hinv); try done.
    intros keys' Hk' Hc'. split; [done|]. by exists v.
Qed.

Lemma Do_step_moves g ts i t :
  ts !! i = Some t → enabled t g = true → group_inv g ts →
  post (Do_step t) (λ t' g', group_inv g' (<[i := t']> ts)) (λ _, fn_panics) g.
Proof.
  intros Hi Hen Hinv. pose proof Hinv as (Hl & Hm & Ho & keys & Hci & Hk). pose proof (Hk _ _ Hi) as Ht.
  assert (∀ t' g', Do_step t g = Ret t' g' → lock_inv holds (g_mu g') (<[i := t']> ts) →
    default ∅ (g_m g') = default ∅ (g_m g) → g_calls g' = g_calls g → g_log g' = g_log g ++ [] →
    registered t' = registered t → (∀ keys, call_inv keys g ts → known keys g t → known keys g' t') →
    post (Do_step t) (λ t' g', group_inv g' (<[i := t']> ts)) (λ _, fn_panics) g) as Hsame.
  { intros t' g' Hrun ??????. unfold post. rewrite Hrun. by eapply inv_same. }
  destruct t as [key fn|key fn|key c|key c|key c fn|key c fn|key c r|key c|key c|key c|key c|key c|key r];
    cbn [enabled] in Hen; try done; rewrite ?negb_true_iff in Hen.
  - eapply Hsame; try done; [|by rewrite app_nil_r]. rewrite Hen in Hl. by eapply lock_take.
  - eapply post_mono; [by apply Searching_moves|done|done].
  - eapply Hsame; try done; [by eapply lock_release|by rewrite app_nil_r].
  - eapply Hsame; try done; [by eapply lock_stays|by rewrite app_nil_r|].
    intros keys' [Hlen Hc] Hkey. split; [done|]. cbn in Hkey.
    destruct (lookup_lt_is_Some_2 (g_calls g) c) as [[d v] Hcl];
      [rewrite <- Hlen; by eapply lookup_lt_Some|].
    rewrite Hcl in Hen. cbn in Hen. subst d. exists v. split; [done|]. apply (Hc c key _ Hkey Hcl).
  - eapply Hsame; try done; [by eapply lock_release|by rewrite app_nil_r].
  - by apply Calling_moves.
  - eapply post_mono; [apply owner_moves; [done..|left; by eexists _, _, _]|done|done].
  - eapply post_mono; [apply owner_moves; [done..|right; by eexists _, _]|done|done].
  - eapply Hsame; try done; [|by rewrite app_nil_r]. rewrite Hen in Hl. by eapply lock_take.
  - eapply post_mono; [by apply Removing_moves|done|done].
  - eapply Hsame; try done; [by eapply lock_release|by rewrite app_nil_r].
  - destruct Ht as (_ & v & Hc & Hv). eapply (Hsame (Returned key v) g); try done.
    + cbn [Do_step]. unfold mbind, M_bind, get_state. by rewrite Hc.
    + by eapply lock_stays.
    + by rewrite app_nil_r.
Qed.

Definition group_step : Callers → Callers → Prop := step enabled Do_step.

(** *** No deadlock *)
Lemma group_progress g ts i t :
  group_inv g ts → ts !! i = Some t → returned t = false → ∃ x, group_step (Running g ts) x.
Proof.
  intros (Hl & _ & _ & keys & [Hlen Hci] & Hk) Hi Ht. unfold lock_inv in Hl. destruct (g_mu g) eqn:Emu.
  { destruct Hl as (j & u & Hj & Hu & _). apply (can_step _ _ _ _ _ _ Hj). by destruct u. }
  destruct (enabled t g) eqn:Een; [by eapply can_step|].
  assert (∃ key c, t = Waiting key c) as (key & c & ->).
  { destruct t; cbn in Een; rewrite ?Emu in Een; try done. by eexists _, _. }
  cbn in Een. destruct (g_calls g !! c) as [cl|] eqn:Ec; [|done].
  pose proof (Hci c key cl (Hk _ _ Hi) Ec) as Hcl. rewrite Een in Hcl. destruct Hcl as (j & u & Hj & Hu).
  apply (can_step _ _ _ _ _ _ Hj). by destruct u; cbn; rewrite ?Emu.
Qed.

(** *** Steps left, given those of the functions *)
Section termination.
Context (fn_left : F → nat)
  (fn_left_step : ∀ fn fn' s s', fn_step fn s = Ret (inl fn') s' → (fn_left fn' < fn_left fn)%nat).

Definition rank (t : Caller) : nat :=
  match t with
  | Locking _ fn => 10 + fn_left fn
  | Searching _ fn => 9 + fn_left fn
  | Leaving _ _ fn => 8 + fn_left fn
  | Calling _ _ fn => 7 + fn_left fn
  | Storing _ _ _ => 6
  | Signalling _ _ => 5
  | Relocking _ _ => 4
  | Removing _ _ | Joining _ _ => 3
  | Unlocking _ _ | Waiting _ _ => 2
  | Returning _ _ => 1
  | Returned _ _ => 0
  end.
Lemma group_rank_step t g t' g' : enabled t g = true → Do_step t g = Ret t' g' → (rank t' < rank t)%nat.
Proof.
  intros Hen Hrun. destruct t; cbn [Do_step] in Hrun; try done;
    try (apply bind_inv in Hrun as (? & ? & _ & [= <- _]); cbn; lia).
  - apply bind_inv in Hrun as (g1 & ? & _ & Hrun). case_match;
      repeat (apply bind_inv in Hrun as (? & ? & _ & Hrun)); injection Hrun as <- _; cbn; lia.
  - injection Hrun as <- _. cbn. lia.
  - apply bind_inv in Hrun as ([fn'|r] & g1 & Hfn & Hrun).
    + injection Hrun as <- _. unfold on_group in Hfn. destruct (fn_step _ _) as [a s|] eqn:E; [|done].
      injection Hfn as -> _. apply fn_left_step in E. cbn. lia.
    + apply bind_inv in Hrun as (? & ? & _ & [= <- _]). cbn. lia.
  - repeat (apply bind_inv in Hrun as (? & ? & _ & Hrun)). injection Hrun as <- _. cbn. lia.
Qed.

End termination.

Lemma key_of_step t g t' g' : Do_step t g = Ret t' g' → key_of t' = key_of t.
Proof.
  intros Hrun. destruct t; cbn [Do_step] in Hrun; repeat case_match;
    repeat (apply bind_inv in Hrun as (? & ? & _ & Hrun); repeat case_match); by injection Hrun as <- _.
Qed.

Lemma group_launched calls s :
  match launched calls s with Running g ts => group_inv g ts | Crashed => False end.
Proof.
  assert (∀ i t, ((λ '(key, fn), Locking key fn) <$> calls) !! i = Some t → ∃ key fn, t = Locking key fn) as Hl.
  { intros i t Ht. apply list_lookup_fmap_Some in Ht as ([key fn] & -> & _). by exists key, fn. }
  cbn. split_and!.
  - intros i t Ht. by destruct (Hl _ _ Ht) as (? & ? & ->).
  - intros key c. split; [done|]. intros (i & t & Ht & Hr). by destruct (Hl _ _ Ht) as (? & ? & ->).
  - intros i j t t' k k' c Ht _ Hr. by destruct (Hl _ _ Ht) as (? & ? & ->).
  - exists []. split; [done|]. intros i t Ht. by destruct (Hl _ _ Ht) as (? & ? & ->).
Qed.

(** Any number of steps. *)
Lemma group_kept (calls : list (string * F)) :
  kept_by enabled Do_step (λ g ts, group_inv g ts ∧ key_of <$> ts = fst <$> calls) fn_panics.
Proof.
  intros g ts i t Hi Hen [Hinv Hkeys]. pose proof (Do_step_moves g ts i t Hi Hen Hinv) as Hp. unfold post in *.
  destruct (Do_step t g) as [t' g'|g'] eqn:Hrun; [|done]. split; [done|].
  rewrite <- Hkeys, list_fmap_insert, (key_of_step _ _ _ _ Hrun). apply list_insert_id. by rewrite list_lookup_fmap, Hi.
Qed.

Lemma group_run (fn_left : F → nat) calls s n x :
  (∀ fn fn' s s', fn_step fn s = Ret (inl fn') s' → (fn_left fn' < fn_left fn)%nat) →
  nsteps group_step n (launched calls s) x →
  match x with
  | Running g ts => group_inv g ts ∧ key_of <$> ts = fst <$> calls
  | Crashed => fn_panics
  end ∧ (n ≤ sum_list ((λ c, 10 + fn_left c.2) <$> calls))%nat.
Proof.
  intros Hleft Hn. pose proof (group_launched calls s) as H0.
  assert (steps_left (rank fn_left) (launched calls s) = sum_list ((λ c, 10 + fn_left c.2) <$> calls))%nat as <-.
  { cbn. f_equal. rewrite <- list_fmap_compose. by apply list_fmap_ext; intros ? [] ?. }
  eapply (pool_run _ _ (rank fn_left)) in Hn as [Hx Hle].
  - split; [exact Hx|]. unfold launched. lia.
  - intros ????. by apply group_rank_step.
  - apply group_kept.
  - split; [exact H0|]. rewrite <- list_fmap_compose. by apply list_fmap_ext; intros ? [] ?.
  - intros [] g Hen; cbn in *; try done; lia.
Qed.

(** What holds of every state that is reached. *)
Lemma reached (g : Group) ts :
  group_inv g ts →
  (∀ i j t u key, ts !! i = Some t → ts !! j = Some u → executing key t → executing key u → i = j) ∧
  (∀ i key r, ts !! i = Some (Returned key r) → (key, r) ∈ g_log g) ∧
  (Forall returned ts ∨ ∃ x, group_step (Running g ts) x).
Proof.
  intros Hinv. pose proof Hinv as (_ & Hm & Ho & keys & _ & Hk). split_and!.
  - intros i j t u key Hi Hj Ht Hu. destruct t as [| | | | |k c fn| | | | | | |], u as [| | | | |k' c' fn'| | | | | | |];
      try done. cbn in Ht, Hu. subst k k'.
    assert (default ∅ (g_m g) !! key = Some c) as H1 by (apply Hm; by exists i, (Calling key c fn)).
    assert (default ∅ (g_m g) !! key = Some c') as H2 by (apply Hm; by exists j, (Calling key c' fn')).
    assert (c' = c) as -> by congruence. by eapply (Ho i j).
  - intros i key r Hi. exact (Hk _ _ Hi).
  - destruct (decide (Forall returned ts)) as [|Hnot]; [by left|right].
    apply not_Forall_Exists, Exists_exists in Hnot as (t & [i Hi]%list_elem_of_lookup & Ht); [|apply _].
    eapply group_progress; [done..|]. cbn in Ht. by destruct (returned t); [destruct Ht|].
Qed.

End singleflight.
Notation Callers S F R := (Pool (Group (S := S) (R := R)) (Caller (F := F) (R := R))).

(** ** The finalizer goroutines *)
Section finalizers.
Context {W : Type} `{!Cluster W} `{!HookRuntime W} `{!Net}.

(** The function of [handleMXJobFinalizers], whose body takes one step here, and its key. *)
Definition finalizer_step (cm : ClientManager) (fn : MXJob * nat)
  : M (HSt W) ((MXJob * nat) + option error) :=
  err ← finalizer_call_body cm fn.1 fn.2; mret (inr err).
Definition finalizer_key (mxjob : MXJob) : string := job_Namespace mxjob +:+ "/" +:+ job_Name mxjob.
(** A finalizer goroutine for each of [jobs], with the index of its finalizer. *)
Definition finalizers (jobs : list (MXJob * nat)) (s : HSt W)
  : Callers (HSt W) (MXJob * nat) (option error) :=
  launched ((λ '(mxjob, i), (finalizer_key mxjob, (mxjob, i))) <$> jobs) s.
End finalizers.

(** ** Properties *)

(** C20. Whatever finalizer goroutines are started and however they are scheduled: they
    make at most ten steps each and never block each other for good; the finalizer code is never run by
    two goroutines of the same job at the same time; every goroutine that has returned has a result that
    the code gave for its job; and the only panic is one of the finalizer code itself. *)
Theorem singleflight_correct {W} `{!Cluster W} `{!HookRuntime W} `{!Net} cm jobs (s : HSt W) n x :
  nsteps (group_step None (finalizer_step cm)) n (finalizers jobs s) x →
  (n ≤ 10 * length jobs)%nat ∧
  match x with
  | Running g ts =>
      key_of <$> ts = (finalizer_key ∘ fst) <$> jobs ∧
      (∀ i j t u key, ts !! i = Some t → ts !! j = Some u → executing key t → executing key u → i = j) ∧
      (∀ i key err, ts !! i = Some (Returned key err) → (key, err) ∈ g_log g) ∧
      (Forall returned ts ∨ ∃ y, group_step None (finalizer_step cm) x y)
  | Crashed => ∃ job i s1 s2, finalizer_call_body cm job i s1 = Panicked s2
  end.
Proof.
  intros Hn. apply (group_run None (finalizer_step cm) (λ _, 0%nat)) in Hn as [Hx Hle].
  2:{ intros fn fn' s1 s2 Hrun. by apply bind_inv in Hrun as (? & ? & _ & ?). }
  split.
  { clear Hx. replace (10 * length jobs)%nat with
      (sum_list ((λ c : string * (MXJob * nat), 10 + 0) <$> ((λ '(mxjob, i), (finalizer_key mxjob, (mxjob, i))) <$> jobs)))%nat.
    - exact Hle.
    - clear. induction jobs as [|[] jobs IH]; [done|]. cbn in *. lia. }
  destruct x as [g ts|].
  - destruct Hx as [Hinv Hkeys]. split; [|by apply reached].
    rewrite Hkeys. clear. induction jobs as [|[] jobs IH]; [done|]. cbn in *. by rewrite IH.
  - destruct Hx as ([job i] & s1 & s2 & Hp). exists job, i, s1, s2. revert Hp.
    unfold finalizer_step, mbind, M_bind. cbn [fst snd].
    destruct (finalizer_call_body cm job i s1) as [err s3|s3]; [discriminate|]. by intros [= ->].
Qed.

#[local] Existing Instance plain_net.
(** Two events of a job pending deletion: the second goroutine joins the call of the first. *)
Definition two_events : list (MXJob * nat) := [(example_job, 0%nat); (example_job, 0%nat)].
Definition two_finalizers :=
  run_schedule enabled (Do_step None (finalizer_step operator_manager)) [0; 0; 0; 1; 1; 1; 0; 0; 0; 1; 1; 0; 0; 0; 0]%nat
    (finalizers two_events (hook_state ok_reply)).

Definition ended_well (x : option (Callers (HSt RefCluster) (MXJob * nat) (option error))) : Prop :=
  match x with
  | Some (Running g ts) =>
      forallb returned ts = true ∧ count is_Update (trace (h_api (g_state g))) = 1%nat
  | _ => False
  end.
Lemma two_finalizers_end : ended_well two_finalizers.
Proof. vm_compute. by split. Qed.

(** Both have returned, and the job was stored once. *)
Lemma singleflight_correct_witness :
  ∃ g ts, two_finalizers = Some (Running g ts) ∧ forallb returned ts = true ∧
    count is_Update (trace (h_api (g_state g))) = 1%nat ∧ (15 ≤ 10 * 2)%nat ∧
    (∀ i key err, ts !! i = Some (Returned key err) → (key, err) ∈ g_log g).
Proof.
  pose proof two_finalizers_end as Hend. destruct two_finalizers as [x|] eqn:E; [|destruct Hend].
  pose proof (singleflight_correct operator_manager two_events (hook_state ok_reply) 15 x
    (run_schedule_steps _ _ _ _ _ E)) as H.
  destruct x as [g ts|]; [|destruct Hend]. destruct Hend as [Hret Hcount], H as (Hn & _ & _ & Hlog & _).
  exists g, ts. split; [reflexivity|]. split; [exact Hret|]. split; [exact Hcount|]. by split.
Defined.
