(* ===== verification/Footprint.v ===== *)
(** * What a sync may do

    [request_ok] and [goroutine_ok] say which requests the operator may send and which goroutines it
    may start on behalf of a job; the lemmas show it, method by method, of the reconciler with the
    real pod and service control, for every cluster and every Go runtime.  What is allowed depends on the
    answers heard before in the same sync: only what the server listed is deleted or patched.  They also show
    that the methods panic only on a job that is not [well_formed]. *)
From S2P Require Import Prelude Types Runtime Api RefCluster Labels Naming Replicas Conditions.
From S2P Require Import JobStatus Controls RefManager Handler Claims.

(** ** The specification *)
Definition well_formed (j : MXJob) : Prop := job_ok j ∧ job_Name j ≠ "".

#[export] Instance well_formed_dec j : Decision (well_formed j).
Proof. unfold well_formed. apply _. Defined.

Definition created (j : MXJob) : bool := checkCondition (job_Status j) MXJobCreated.
Definition initialized (j : MXJob) : bool := checkCondition (job_Status j) MXJobInitialized.

(** What is known from the requests and answers of a sync so far: the objects the server listed, and that the
    job was read and may adopt. *)
Definition listed_pod (j : MXJob) (heard : list request) (pod : Pod) : Prop :=
  ∃ items, ListPods (job_Namespace j) (inl items) ∈ heard ∧ pod ∈ items.
Definition listed_service (j : MXJob) (heard : list request) (svc : Service) : Prop :=
  ∃ items, ListServices (job_Namespace j) (inl items) ∈ heard ∧ svc ∈ items.
Definition may_adopt (j : MXJob) (heard : list request) : Prop :=
  ∃ answer, GetMXJob (job_Namespace j) (job_Name j) answer ∈ heard ∧ fresh_verdict j answer = None.

(** The pods of a job: of those the server listed, the ones it controls and selects, and the selected orphans
    that the server let it adopt. *)
Definition claimed `{!GoRuntime} (j : MXJob) (heard : list request) (pod : Pod) : Prop :=
  listed_pod j heard pod ∧ ∃ sel, job_selector j = inl sel ∧
    (claim_action j (selects sel) pod = Keep ∨
     (claim_action j (selects sel) pod = Adopt ∧ adopted_pod j pod None ∈ heard)).

(** The pods a job may create. *)
Definition job_pod (j : MXJob) (pod : Pod) : Prop :=
  ∃ rtype, is_replica_type rtype ∧
    meta_OwnerReferences (pod_Meta pod) = [NewControllerRef j SchemeGroupVersionKind] ∧
    genLabels j rtype ⊆ labels_of (meta_Labels (pod_Meta pod)).

(** The one service of a job: its selector and its labels are those of the scheduler pod. *)
Definition scheduler_service (j : MXJob) (port : Z) : Service :=
  let labels := genLabels j MXReplicaTypeScheduler in
  let name := serviceName j MXReplicaTypeScheduler in
  mkService (mkObjectMeta name "" "" "" (Some labels) None [] None [])
    (mkServiceSpec (Some labels) [mkServicePort name port]).

(** A status the operator may store. *)
Definition writable (j j' : MXJob) : Prop :=
  same_object j j' ∧ (status_inv j → status_inv j') ∧
  created j' = true ∧ initialized j' = true.

(** The requests of a sync of [j], after [heard]. *)
Definition request_ok `{!GoRuntime} (j : MXJob) (heard : list request) (r : request) : Prop :=
  match r with
  | ListPods ns _ => ns = job_Namespace j ∧ ∀ ns' answer, ListPods ns' answer ∉ heard
  | ListServices ns _ => ns = job_Namespace j ∧ ∀ ns' answer, ListServices ns' answer ∉ heard
  | GetMXJob ns name _ => ns = job_Namespace j ∧ name = job_Name j
  | UpdateMXJob j' => writable j j'
  | CreatePod ns pod => ns = job_Namespace j ∧ job_pod j pod ∧ initialized j = false
  | DeletePodReq ns name =>
      ∃ pod, claimed j heard pod ∧ IsPodActive pod = true ∧
             ns = meta_Namespace (pod_Meta pod) ∧ name = meta_Name (pod_Meta pod)
  | CreateService ns service => ns = job_Namespace j ∧ ∃ port, service = scheduler_service j port
  | PatchPodReq _ _ _ answer =>
      ∃ pod sel, listed_pod j heard pod ∧ job_selector j = inl sel ∧
        ((claim_action j (selects sel) pod = Adopt ∧ may_adopt j heard ∧ r = adopted_pod j pod answer) ∨
         (claim_action j (selects sel) pod = Release ∧ r = released_pod j pod answer))
  | PatchServiceReq _ _ _ answer =>
      ∃ svc sel, listed_service j heard svc ∧ job_selector j = inl sel ∧
        ((claim_action j (selects sel) svc = Adopt ∧ may_adopt j heard ∧ r = adopted_svc j svc answer) ∨
         (claim_action j (selects sel) svc = Release ∧ r = released_svc j svc answer))
  | PostHook _ _ => False
  | RecordEvent _ _ => True
  end.

Definition goroutine_ok (j : MXJob) (g : goroutine) : Prop :=
  match g with
  | CallHook wh j' =>
      writable j j' ∧
      ((jobspec_StartWebhook (job_Spec j) = Some wh ∧ initialized j = false) ∨
       (jobspec_FinishWebhook (job_Spec j) = Some wh ∧ finished j' = true ∧ finished j = false))
  | RunFinalizer j' i =>
      j' = j ∧ is_Some (meta_DeletionTimestamp (job_Meta j)) ∧
      meta_Finalizers (job_Meta j) !! i = Some FinalizerFinishWebhook
  end.

(** The kinds of requests of the phases of a pass. *)
Definition pod_claim (r : request) : Prop :=
  match r with ListPods _ _ | GetMXJob _ _ _ | PatchPodReq _ _ _ _ => True | _ => False end.
Definition service_claim (r : request) : Prop :=
  match r with ListServices _ _ | GetMXJob _ _ _ | PatchServiceReq _ _ _ _ => True | _ => False end.
Definition listing (r : request) : Prop :=
  match r with ListPods _ _ | ListServices _ _ => True | _ => False end.
Definition pod_creation (r : request) : Prop :=
  match r with CreatePod _ _ | RecordEvent _ _ => True | _ => False end.
Definition service_creation (r : request) : Prop :=
  match r with CreateService _ _ | RecordEvent _ _ => True | _ => False end.
Definition pod_deletion (r : request) : Prop :=
  match r with DeletePodReq _ _ | RecordEvent _ _ => True | _ => False end.
Definition scheduler_phase (r : request) : Prop :=
  pod_creation r ∨ service_claim r ∨ service_creation r.

(** ** Jobs that differ in status only *)
Section same.
Context `{!GoRuntime}.

Lemma same_meta j j' : same_object j j' → job_Meta j' = job_Meta j.
Proof. by intros (_ & ? & _). Qed.
Lemma same_name j j' : same_object j j' → job_Name j' = job_Name j.
Proof. intros Hs. unfold job_Name. by rewrite (same_meta j). Qed.
Lemma same_namespace j j' : same_object j j' → job_Namespace j' = job_Namespace j.
Proof. intros Hs. unfold job_Namespace. by rewrite (same_meta j). Qed.
Lemma same_uid j j' : same_object j j' → job_UID j' = job_UID j.
Proof. intros Hs. unfold job_UID. by rewrite (same_meta j). Qed.
Lemma same_specs j j' : same_object j j' → job_specs j' = job_specs j.
Proof. intros (_ & _ & Hs). unfold job_specs. by rewrite Hs. Qed.
Lemma same_labels j j' rt : same_object j j' → genLabels j' rt = genLabels j rt.
Proof. intros Hs. unfold genLabels. by rewrite (same_name j). Qed.
Lemma same_selector j j' : same_object j j' → job_selector j' = job_selector j.
Proof. intros Hs. unfold job_selector. by rewrite (same_labels j). Qed.
Lemma same_ref j j' gvk : same_object j j' → NewControllerRef j' gvk = NewControllerRef j gvk.
Proof. intros Hs. unfold NewControllerRef, obj_meta, job_object. by rewrite (same_meta j). Qed.
Lemma same_action {O} `{!MetaObject O} j j' matches (obj : O) :
  same_object j j' → claim_action j' matches obj = claim_action j matches obj.
Proof. intros Hs. unfold claim_action. by rewrite (same_meta j), (same_uid j). Qed.
Lemma same_service j j' port : same_object j j' → scheduler_service j' port = scheduler_service j port.
Proof. intros Hs. unfold scheduler_service, serviceName. by rewrite (same_labels j), (same_name j). Qed.
Lemma same_pod_pass {W} `{!Cluster W} j j' sel : same_object j j' → pod_pass j' sel = pod_pass j sel.
Proof. destruct j, j'. by intros (? & ? & ?); simplify_eq/=. Qed.
Lemma same_service_pass j j' sel : same_object j j' → service_pass j' sel = service_pass j sel.
Proof. destruct j, j'. by intros (? & ? & ?); simplify_eq/=. Qed.
Lemma same_well_formed j j' : same_object j j' → well_formed j' ↔ well_formed j.
Proof. intros Hs. unfold well_formed, job_ok. by rewrite (same_specs j), (same_name j). Qed.
End same.

(** ** What is known stays known *)
Section heard.
Context `{!GoRuntime} (j : MXJob).

Lemma listed_pod_more h h' pod : listed_pod j h pod → listed_pod j (h ++ h') pod.
Proof. intros (items & Hin & Hp). exists items. split; [apply elem_of_app; by left | done]. Qed.
Lemma listed_service_more h h' svc : listed_service j h svc → listed_service j (h ++ h') svc.
Proof. intros (items & Hin & Hp). exists items. split; [apply elem_of_app; by left | done]. Qed.
Lemma may_adopt_more h h' : may_adopt j h → may_adopt j (h ++ h').
Proof. intros (answer & Hin & Hv). exists answer. split; [apply elem_of_app; by left | done]. Qed.
Lemma claimed_more h h' pod : claimed j h pod → claimed j (h ++ h') pod.
Proof.
  intros (Hl & sel & Hs & Ha). split; [by apply listed_pod_more|]. exists sel. split; [done|].
  rewrite elem_of_app. tauto.
Qed.
Lemma request_ok_more h h' r : ¬ listing r → request_ok j h r → request_ok j (h ++ h') r.
Proof.
  destruct r; cbn; try done; intros _.
  - intros (pod & Hc & Hrest). exists pod. split; [by apply claimed_more | done].
  - intros (pod & sel & Hl & Hs & Ha). exists pod, sel. split; [by apply listed_pod_more|].
    split; [done|]. destruct Ha as [(? & ? & ?)|?]; [left; split_and!; [done | by apply may_adopt_more | done] | by right].
  - intros (svc & sel & Hl & Hs & Ha). exists svc, sel. split; [by apply listed_service_more|].
    split; [done|]. destruct Ha as [(? & ? & ?)|?]; [left; split_and!; [done | by apply may_adopt_more | done] | by right].
Qed.
End heard.

(** ** Claiming *)
Section claiming.
Context {W : Type} `{!Cluster W} `{!GoRuntime} (j0 : MXJob).

(** A pass over listed objects. *)
Lemma claim_entries_told {O} `{!MetaObject O} (K : request → Prop) (sel : Selector)
  (adopted released : O → option error → request) (listed : list request → O → Prop) verdict oas :
  (∀ h h' o, listed h o → listed (h ++ h') o) →
  (∀ ns name a, K (GetMXJob ns name a)) →
  (∀ h o a, listed h o → claim_action j0 (selects sel) o = Release →
     request_ok j0 h (released o a) ∧ K (released o a)) →
  (∀ h o a, listed h o → may_adopt j0 h → claim_action j0 (selects sel) o = Adopt →
     request_ok j0 h (adopted o a) ∧ K (adopted o a)) →
  ∀ h checked, Forall (λ o, listed h o.1) oas →
  (List.Exists (λ o, claim_action j0 (selects sel) o.1 = Adopt) oas →
     checked_by j0 verdict checked ∨ (checked = [] ∧ (verdict = None → may_adopt j0 h))) →
  told (λ h r, request_ok j0 h r ∧ K r) h (claim_entries j0 (selects sel) adopted released verdict checked oas).
Proof.
  intros Hmore HK Hrel Hadopt. induction oas as [|[o a] oas IH]; intros h checked Hl Hv; [done|].
  apply Forall_cons in Hl as [Ho Hl]. cbn in Ho. cbn. unfold action_of.
  assert (∀ h', Forall (λ o, listed (h ++ h') o.1) oas) as Hl'.
  { intros h'. eapply Forall_impl; [exact Hl|]. intros [o' a']. apply Hmore. }
  destruct (claim_action j0 (selects sel) o) eqn:Ea.
  - apply IH; [done|]. intros Hex. apply Hv. by right.
  - apply IH; [done|]. intros Hex. apply Hv. by right.
  - split; [by apply Hrel|]. apply IH; [done|]. intros Hex. destruct Hv as [Hv|[Hv1 Hv2]]; [by right | by left |].
    right. split; [done|]. intros Hn. by apply may_adopt_more, Hv2.
  - assert (∃ h1, h1 = h ++ checked ∧ told (λ h r, request_ok j0 h r ∧ K r) h checked ∧ (verdict = None → may_adopt j0 h1))
      as (h1 & -> & Hc & Hm).
    { eexists. split; [reflexivity|]. destruct Hv as [(answer & -> & ->)|[-> Hm]]; [by left | |].
      - split; [done|]. intros Hn. exists answer. split; [apply elem_of_app; right; by left | done].
      - rewrite app_nil_r. by split. }
    apply told_app. split; [exact Hc|]. apply told_app. split.
    + destruct verdict; [done|]. cbn. split; [|done]. apply Hadopt; [by apply Hmore | by apply Hm | done].
    + rewrite <- app_assoc. apply IH; [done|]. intros _. right. split; [done|]. intros Hn. rewrite app_assoc.
      by apply may_adopt_more, Hm.
Qed.
End claiming.

(** ** The methods, for a job [j0] and its later versions [j] *)
Section methods.
Context {W : Type} `{!Cluster W} `{!GoRuntime} (j0 : MXJob) (heard : list request).
(** What [m] sends is allowed after [heard] and of the kinds [K]; it starts no goroutine. *)
#[local] Abbreviation does K m Q :=
  (safe (W := W) (λ r, request_ok j0 heard r ∧ K r) (λ _, False) (¬ well_formed j0) m Q).

(** *** The reconciler's view of the job

    [snapshot i f j]: [j] is [j0] with a later status, [i] tells whether it is initialized, and the
    replica statuses of the types in [ts] are present. *)
Definition snapshot (i : bool) (ts : list MXReplicaType) (j : MXJob) : Prop :=
  same_object j0 j ∧ (status_inv j0 → status_inv j) ∧ created j = true ∧ initialized j = i ∧
  Forall (λ t, is_Some (getMXReplicaStatus j t)) ts.

Lemma version_conditions i ts j f :
  (∀ st, st_Conditions (f st) = st_Conditions st) →
  (∀ t, is_Some (getMXReplicaStatus j t) → is_Some (getMXReplicaStatus (set_job_Status f j) t)) →
  snapshot i ts j → snapshot i ts (set_job_Status f j).
Proof.
  intros Hf Hrs (Hs & Hi & Hc & Hin & Ht). split_and!.
  - done.
  - intros Hinv. specialize (Hi Hinv). unfold status_inv, conditions_wf, exclusive, checkCondition,
      getCondition in *. cbn. by rewrite Hf.
  - unfold created, checkCondition, getCondition in *. cbn. by rewrite Hf.
  - unfold initialized, checkCondition, getCondition in *. cbn. by rewrite Hf.
  - eapply Forall_impl; [exact Ht | auto].
Qed.

Lemma set_replica_status_present rt rs j t :
  is_Some (getMXReplicaStatus j t) →
  is_Some (getMXReplicaStatus (set_job_Status (set_st_ReplicaStatuses
             (set_replica_status rt (Some rs))) j) t).
Proof.
  destruct (decide (rt = t)) as [->|Hne]; [|by rewrite getMXReplicaStatus_set_ne].
  unfold getMXReplicaStatus, set_replica_status. cbn. repeat case_decide; subst; done.
Qed.

Lemma version_replica_status i ts j rt rs :
  snapshot i ts j →
  snapshot i ts (set_job_Status (set_st_ReplicaStatuses (set_replica_status rt (Some rs))) j).
Proof. apply version_conditions; [done|]. apply set_replica_status_present. Qed.

Lemma version_add i ts j rt rs :
  is_replica_type rt → getMXReplicaStatus j rt = Some rs → snapshot i ts j → snapshot i (rt :: ts) j.
Proof. intros Hrt Hrs (? & ? & ? & ? & ?). split_and!; try done. constructor; [by rewrite Hrs | done]. Qed.

(** The status operation keeps the snapshot. *)
Lemma keeps_version i ts j j' rt n rs :
  keeps j j' → job_view j' = status_view rt n rs (job_view j) → snapshot i ts j → snapshot i ts j'.
Proof.
  intros (Hso & Hrs & Hwf & Hoth) Hv (Hs & Hi & Hc & Hin & Ht).
  assert (¬ managed MXJobCreated ∧ ¬ managed MXJobInitialized) as [Hm1 Hm2].
  { unfold managed. split; intros [H1|[H1|H1]]; discriminate. }
  split_and!.
  - by transitivity j.
  - intros Hinv. destruct (Hi Hinv) as [Hw Hex]. split; [auto|].
    assert (job_verdict j' = status_verdict rt n rs (job_verdict j)) as Hverd.
    { pose proof (f_equal w_verdict Hv) as E. exact E. }
    unfold exclusive. intros [H1 H2].
    apply (verdict_step_exclusive
      (bool_decide (rt = MXReplicaTypeWorker) && (int32 (n - rs_Succeeded rs) =? 0))
      ((0 <? rs_Failed rs) || (0 <? rs_Gone rs)) (job_verdict j)); [exact Hex|].
    unfold status_verdict in Hverd. rewrite <- Hverd. done.
  - unfold created, checkCondition in *. by rewrite Hoth.
  - unfold initialized, checkCondition in *. by rewrite Hoth.
  - eapply Forall_impl; [exact Ht|]. intros t. unfold getMXReplicaStatus. by rewrite Hrs.
Qed.

Lemma updateMXJobStatus_safe K i ts j rt n :
  snapshot i (rt :: ts) j →
  does K (updateMXJobStatus j rt n) (λ '(err, j'), snapshot i (rt :: ts) j').
Proof.
  intros Hv. pose proof Hv as (_ & _ & _ & _ & Ht). apply Forall_cons in Ht as [[rs Hrs] _].
  apply safe_quiet. intros s. eapply quiet_mono; [by apply updateMXJobStatus_view|].
  intros [err j'] (_ & Hk & Hview). by eapply keeps_version.
Qed.

(** *** Creating *)
Lemma not_wf_scheduler j : same_object j0 j → specs_Scheduler (job_specs j) = None → ¬ well_formed j0.
Proof. intros Hs E [(H1 & _ & _) _]. rewrite <- (same_specs j0 j), E in H1 by done. done. Qed.
Lemma not_wf_spec j rt spec :
  same_object j0 j → replica_spec j rt = Some spec →
  spec_Replicas spec = None ∨ spec_Template spec = None → ¬ well_formed j0.
Proof.
  intros Hs Hspec Hnone [(H1 & H2 & H3) _]. unfold replica_spec in Hspec.
  rewrite (same_specs j0 j) in Hspec by done.
  assert (spec_ok (Some spec)) as [(n & Hn & _) [tpl Ht]].
  { repeat case_decide; simplify_eq; by rewrite Hspec in *. }
  destruct Hnone; congruence.
Qed.

Lemma genMXConfigEnv_safe K j rt : same_object j0 j → does K (genMXConfigEnv j rt) (λ _, True).
Proof.
  intros Hs s. destruct (genMXConfigEnv_cases j rt s) as [[env Henv]|[Hpanic Hbad]].
  - unfold post. rewrite Henv. by split.
  - unfold post. rewrite Hpanic. split; [|reflexivity]. intros [(H1 & H2 & H3) _].
    rewrite <- (same_specs j0 j) in H1, H2, H3 by done. apply Hbad. by split_and!.
Qed.

Lemma createNewPod_safe j rt spec :
  same_object j0 j → is_replica_type rt → replica_spec j rt = Some spec → initialized j0 = false →
  does pod_creation (createNewPod j rt spec) (λ _, True).
Proof.
  intros Hs Hrt Hspec Hinit. unfold createNewPod. eapply safe_bind with (Q' := λ _, True).
  { apply safe_deref; [done|]. intros E. eapply not_wf_spec; eauto. }
  intros tpl _. eapply safe_bind; [by apply genMXConfigEnv_safe|]. intros env _.
  eapply safe_bind with (Q' := λ _, True); [|intros; repeat case_match; by apply safe_ret].
  cbn. unfold real_CreatePodsWithControllerRef. rewrite NewControllerRef_valid. unfold createPods.
  eapply safe_bind with (Q' := λ pod, job_pod j0 pod).
  { unfold GetPodFromTemplate. eapply safe_bind with (Q' := λ _, True).
    - intros s. destruct (getPodsPrefix_cases (job_Name j) s) as [[Hn Hr]|(pfx & Hr & _)];
        unfold post; rewrite Hr; split; try done; try reflexivity.
      intros [_ Hne]. apply Hne. by rewrite <- (same_name j0 j).
    - intros pfx _. apply safe_ret. exists rt. cbn. rewrite (same_ref j0 j _ Hs), merge_labels_map.
      split; [done|]. split; [done|]. rewrite (same_labels j0 j _ Hs). apply map_union_subseteq_l. }
  intros pod Hpod. cbn. case_match; [by apply safe_ret|].
  eapply safe_bind with (Q' := λ _, True).
  { apply safe_send; [|done]. split; [|done]. split; [by apply same_namespace | done]. }
  intros [p|e] _; (eapply safe_bind with (Q' := λ _, True); [by apply safe_send|]);
    intros; by apply safe_ret.
Qed.

Lemma create_pods_safe j rt spec active diff :
  same_object j0 j → is_replica_type rt → replica_spec j rt = Some spec → initialized j0 = false →
  does pod_creation (create_pods j rt spec active diff) (λ _, True).
Proof.
  intros. unfold create_pods. apply safe_foldM; [done|]. intros i [a errs] _ _.
  eapply safe_bind; [by apply createNewPod_safe|]. intros [e|] _; by apply safe_ret.
Qed.

(** *** Reconciling *)
Lemma filterPodsForMXReplicaType_safe K pods rt :
  is_replica_type rt → does K (filterPodsForMXReplicaType pods rt) (λ mine, mine = pods_of_type rt pods).
Proof.
  intros Hrt s. unfold post. rewrite filterPodsForMXReplicaType_run by done. split; [done|reflexivity].
Qed.

Lemma reconcilePods_safe i ts j pods rt spec :
  snapshot i ts j → is_replica_type rt → replica_spec j rt = Some spec → initialized j0 = i →
  does pod_creation (reconcilePods j pods rt spec) (λ '(err, j'), err = None → snapshot i (rt :: ts) j').
Proof.
  intros Hv Hrt Hspec Hi0. pose proof Hv as (Hs & _ & _ & Hi & _). unfold reconcilePods.
  eapply safe_bind; [by apply filterPodsForMXReplicaType_safe|]. intros ? ->.
  eapply safe_bind with (Q' := λ _, True).
  { apply safe_deref; [done|]. intros E. eapply not_wf_spec; eauto. }
  intros replicas _. cbv zeta. unfold initializeMXReplicaStatuses.
  rewrite getMXReplicaStatus_set by done. eapply safe_bind with (Q' := λ _, True); [by apply safe_ret|].
  intros status _.
  match goal with |- context [set_job_Status ?f j] => set (j1 := set_job_Status f j) end.
  assert (snapshot i ts j1) as Hv1 by (by apply version_replica_status).
  pose proof Hv1 as (Hs1 & _ & _ & Hi1 & _).
  eapply safe_bind with (Q' := λ _, True).
  { case_match; [|by apply safe_ret]. fold (initialized j1).
    destruct (initialized j1) eqn:Ej1; [by apply safe_ret|].
    eapply safe_bind; [apply create_pods_safe; try done; congruence|].
    intros [a errs] _. by apply safe_ret. }
  intros [[active gone] errs] _. destruct errs as [|e errs]; [|by apply safe_ret].
  destruct (getStatus _) as [succ failed]. unfold updateMXReplicaStatuses.
  eapply safe_mono; [apply updateMXJobStatus_safe|].
  - eapply version_add; [done | by apply getMXReplicaStatus_set |]. by apply version_replica_status.
  - intros [err j'] Hj' _. exact Hj'.
Qed.

Lemma reconcileServices_safe j services rt spec :
  same_object j0 j → does service_creation (reconcileServices j services rt spec) (λ _, True).
Proof.
  intros Hs. unfold reconcileServices. case_decide as Hrt; [by apply safe_ret|].
  subst rt. case_match; [|by apply safe_ret].
  eapply safe_bind with (Q' := λ _, True); [|intros; repeat case_match; by apply safe_ret].
  cbn. unfold real_CreateServicesWithControllerRef. rewrite NewControllerRef_valid.
  unfold createServices. case_match; [by apply safe_ret|].
  eapply safe_bind with (Q' := λ _, True).
  { apply safe_send; [|done]. split; [|done]. split; [by apply same_namespace|]. eexists. symmetry.
    by apply same_service. }
  intros [svc|e] _; (eapply safe_bind with (Q' := λ _, True); [by apply safe_send|]);
    intros; by apply safe_ret.
Qed.

(** A condition other than the two verdicts set to true. *)
Lemma update_true_version K i ts j t reason msg :
  same_object j0 j → (status_inv j0 → status_inv j) →
  Forall (λ t, is_Some (getMXReplicaStatus j t)) ts →
  t ≠ MXJobSucceeded → t ≠ MXJobFailed →
  created j || bool_decide (t = MXJobCreated) = true →
  initialized j || bool_decide (t = MXJobInitialized) = i →
  does K (updateMXJobConditions j t reason msg) (λ j', snapshot i ts j' ∧ finished j' = finished j).
Proof.
  intros Hs Hi Hts Hns Hnf Hc Hin. apply safe_quiet. intros s.
  eapply quiet_mono; [apply quiet_and; [apply update_true | apply updateMXJobConditions_quiet]|].
  intros j' [(Hso & Hrs & Hwf & Ht & Hoth & _ & _) (c & Hct & _ & _ & _ & Hj')].
  assert (∀ t', t' ≠ t → checkCondition (job_Status j') t' = checkCondition (job_Status j) t') as Hchk.
  { intros t' Hne. unfold checkCondition. by rewrite Hoth. }
  split.
  - split_and!.
    + by transitivity j.
    + intros Hinv. destruct (Hi Hinv) as [Hw Hex]. split; [auto|]. unfold exclusive in *.
      by rewrite !Hchk by done.
    + unfold created in *. destruct (decide (t = MXJobCreated)) as [->|Hne]; [done|].
      rewrite Hchk by done. by rewrite (bool_decide_false _ Hne), orb_false_r in Hc.
    + unfold initialized in *. destruct (decide (t = MXJobInitialized)) as [->|Hne].
      * rewrite Ht, <- Hin. by rewrite orb_true_r.
      * rewrite Hchk by done. by rewrite (bool_decide_false _ Hne), orb_false_r in Hin.
    + eapply Forall_impl; [exact Hts|]. intros t'. unfold getMXReplicaStatus. by rewrite Hrs.
  - subst j' t. unfold finished. cbn. by apply IsJobFinished_setCondition.
Qed.

Lemma version_writable ts j : snapshot true ts j → writable j0 j.
Proof. intros (? & ? & ? & ? & _). by split_and!. Qed.

(** *** Terminating *)
Lemma note_terminated_safe K i ts j pod :
  snapshot i ts j → (∀ rt, is_Some (replica_spec j0 rt) → rt ∈ ts) →
  does K (note_terminated j pod) (λ j', snapshot i ts j' ∧ finished j' = finished j).
Proof.
  intros Hv Hts. unfold note_terminated. case_decide as Hrt; [|by apply safe_ret].
  eapply safe_bind with (Q' := λ _, True).
  - apply safe_deref; [done|]. intros Hnone [(H1 & H2 & H3) _]. destruct Hv as (_ & _ & _ & _ & Hall).
    match type of Hnone with getMXReplicaStatus _ ?t = _ => set (rt := t) in * end. clearbody rt.
    rewrite Forall_forall in Hall.
    assert (is_Some (replica_spec j0 rt)) as Hin%Hts%Hall; [|rewrite Hnone in Hin; by destruct Hin].
    unfold spec_ok in *. destruct Hrt as [->|[->| ->]]; unfold replica_spec; cbn;
      repeat case_match; by eauto.
  - intros rs _. apply safe_ret. split; [by apply version_replica_status | done].
Qed.

Lemma terminateMXJob_safe i ts j pods :
  snapshot i ts j → (∀ rt, is_Some (replica_spec j0 rt) → rt ∈ ts) → Forall (claimed j0 heard) pods →
  does pod_deletion (terminateMXJob j pods) (λ '(err, j'), snapshot i ts j' ∧ finished j' = finished j).
Proof.
  intros Hv Hts Hpods. unfold terminateMXJob. case_match; [by apply safe_ret|].
  eapply safe_bind with (Q' := λ '(j', _), snapshot i ts j' ∧ finished j' = finished j).
  2:{ intros [j' errs] [Hv' Hf']. by apply safe_ret. }
  apply safe_foldM; [done|]. intros pod [j1 errs] Hin [Hv1 Hf1].
  rewrite go_order_perm in Hin. apply FilterActivePods_elem in Hin as [Hin Hact].
  eapply safe_bind with (Q' := λ _, True).
  { cbn. eapply safe_bind with (Q' := λ _, True).
    - apply safe_send; [|done]. split; [|done]. exists pod. split_and!; try done. by eapply Forall_forall in Hpods.
    - intros [e|] _; (eapply safe_bind with (Q' := λ _, True); [by apply safe_send|]);
        intros; by apply safe_ret. }
  intros err _. cbv zeta. eapply safe_bind; [by apply note_terminated_safe|].
  intros j2 [Hv2 Hf2]. apply safe_ret. split; [done | congruence].
Qed.

(** *** Hooks *)
#[local] Abbreviation runs m Q :=
  (safe (W := W) (λ r, request_ok j0 heard r ∧ False) (goroutine_ok j0) (¬ well_formed j0) m Q).

Lemma start_hook_safe ts j :
  snapshot true ts j → initialized j0 = false → runs (callHookAsync j true) (λ _, True).
Proof.
  intros Hv Hi. unfold callHookAsync. case_match eqn:E; [|by apply safe_ret]. apply safe_go; [|done].
  split; [by eapply version_writable|]. left. split; [|done]. destruct Hv as ((_ & _ & Hs) & _).
  by rewrite <- Hs.
Qed.

Lemma finish_hook_safe ts j :
  snapshot true ts j → finished j = true → finished j0 = false →
  runs (callHookAsync j false) (λ _, True).
Proof.
  intros Hv Hf Hf0. unfold callHookAsync. case_match eqn:E; [|by apply safe_ret].
  apply safe_go; [|done]. split; [by eapply version_writable|]. right.
  destruct Hv as ((_ & _ & Hs) & _). by rewrite <- Hs.
Qed.

(** *** The types of the job *)
Definition with_type (rt : MXReplicaType) (ts : list MXReplicaType) : list MXReplicaType :=
  match replica_spec j0 rt with Some _ => rt :: ts | None => ts end.

Lemma replica_spec_same j rt : same_object j0 j → replica_spec j rt = replica_spec j0 rt.
Proof. intros Hs. unfold replica_spec. by rewrite (same_specs j0 j Hs). Qed.

Lemma reconcile_optional_safe i ts j pods rt :
  snapshot i ts j → is_replica_type rt → initialized j0 = i →
  does pod_creation (reconcile_optional j pods rt (replica_spec j0 rt))
    (λ '(err, j'), err = None → snapshot i (with_type rt ts) j').
Proof.
  intros Hv Hrt Hi. unfold reconcile_optional, with_type.
  destruct (replica_spec j0 rt) as [spec|] eqn:E; [|by apply safe_ret].
  apply reconcilePods_safe; try done. rewrite replica_spec_same; [done|]. by destruct Hv.
Qed.

Definition all_types : list MXReplicaType :=
  with_type MXReplicaTypeWorker (with_type MXReplicaTypeServer (with_type MXReplicaTypeScheduler [])).

Lemma all_types_spec rt : is_Some (replica_spec j0 rt) → rt ∈ all_types.
Proof.
  intros [sp Hsp]. assert (is_replica_type rt) as Hrt.
  { unfold replica_spec in Hsp. unfold is_replica_type. repeat case_decide; naive_solver. }
  unfold all_types, with_type.
  destruct Hrt as [->|[->| ->]]; rewrite Hsp; repeat case_match; rewrite ?elem_of_cons; auto.
Qed.
End methods.

(** Case distinction on a request for facts about kinds. *)
Ltac by_kind :=
  let r := fresh "r" in intros r; destruct r; cbn; first [tauto | intros; discriminate | intros []; fail].

(** ** A pass, from what it hears to what it does *)
Section passes.
Context {W : Type} `{!Cluster W} `{!GoRuntime} (j0 : MXJob).
#[local] Abbreviation runs h m Q :=
  (safe_told (W := W) (request_ok j0) (goroutine_ok j0) (¬ well_formed j0) h m Q).
#[local] Abbreviation does h K G m Q :=
  (safe (W := W) (λ r, request_ok j0 h r ∧ K r) G (¬ well_formed j0) m Q).

(** What lists nothing may be run after anything was heard. *)
Lemma runs_does {A} h (K : request → Prop) (G : goroutine → Prop) (m : M (St W) A) (Q : A → Prop) :
  does h K G m Q → (∀ r, K r → ¬ listing r) → (∀ g, G g → goroutine_ok j0 g) →
  runs h m (λ l a, Q a ∧ Forall K l).
Proof.
  intros Hm HK HG. apply told_safe.
  - eapply safe_weaken; [exact Hm | done | exact HG].
  - intros r h' Hr%HK. by apply request_ok_more.
Qed.

(** What a pass sends is of its kind, and allowed. *)
Lemma told_pass_post {A} h K (m : M (St W) A) (Q : list request → A → Prop) X :
  (∀ s, post m (λ a s', pending s' = pending s ∧ ∃ l, trace s' = trace s ++ l ∧ Q l a ∧
     told (λ h r, request_ok j0 h r ∧ K r) h l) (λ _, False) s) →
  safe_told (λ h r, request_ok j0 h r ∧ K r) (λ _, False) X h m Q.
Proof.
  intros Hm s. eapply post_mono; [apply Hm | | done]. intros a s' (Hp & l & Ht & HQ & Hl). exists l.
  split; [done|]. split; [done|]. split; [done|]. exists []. by rewrite app_nil_r.
Qed.

Lemma told_kinds (R : list request → request → Prop) K h l : told (λ h r, R h r ∧ K r) h l → told R h l ∧ Forall K l.
Proof.
  revert h. induction l as [|r l IH]; intros h; [done|]. cbn. intros [[Hr HK] [Hl Hall]%IH].
  by split; [|constructor].
Qed.

Lemma getPodsForMXJob_told j h X :
  same_object j0 j → (∀ ns answer, ListPods ns answer ∉ h) →
  safe_told (λ h r, request_ok j0 h r ∧ pod_claim r) (λ _, False) X h (getPodsForMXJob (W := W) j)
    (λ l '(pods, err), err = None → Forall (claimed j0 (h ++ l)) pods).
Proof.
  intros Hs Hh. destruct (job_selector j0) as [sel|e] eqn:Hsel.
  2:{ unfold getPodsForMXJob. rewrite (same_selector j0 j Hs), Hsel. by apply told_ret. }
  apply told_pass_post. intros s. rewrite <- (same_selector j0 j Hs) in Hsel.
  eapply post_mono; [by apply getPodsForMXJob_found | | done].
  rewrite (same_selector j0 j Hs) in Hsel.
  intros r s' (Hp & l & Ht & (answer & l' & -> & Hans) & _). split; [done|]. eexists. split; [exact Ht|].
  rewrite (same_namespace j0 j Hs). destruct answer as [items|err].
  2:{ destruct Hans as [-> ->]. split; [done|]. cbn. by split_and!. }
  destruct Hans as (cl & errs & -> & Hpass). rewrite (same_pod_pass j0 j sel Hs) in Hpass.
  assert (∀ h', ListPods (job_Namespace j0) (inl items) ∈ h ++ ListPods (job_Namespace j0) (inl items) :: h') as Hin.
  { intros h'. apply elem_of_app. right. by left. }
  split.
  - intros _. apply claim_pass_claimed in Hpass as Hcl. eapply Forall_impl; [exact Hcl|].
    intros p (Hitem & Hact). split; [exists items; split; [apply Hin | exact Hitem]|]. exists sel.
    split; [exact Hsel|]. destruct Hact as [Hact|[Hact Ha]]; [left; exact Hact|]. right. split; [exact Hact|].
    apply elem_of_app. right. right. exact Ha.
  - cbn. split; [by split_and!|]. destruct Hpass as (answers & verdict & checked & _ & HV & -> & _).
    apply (claim_entries_told j0 pod_claim sel (adopted_pod j0) (released_pod j0) (listed_pod j0)).
    + apply listed_pod_more.
    + done.
    + intros h' p a Hl Ha. split; [|exact Logic.I]. exists p, sel. split; [exact Hl|]. split; [exact Hsel|]. right. split; [exact Ha | reflexivity].
    + intros h' p a Hl Hm Ha. split; [|exact Logic.I]. exists p, sel. split; [exact Hl|]. split; [exact Hsel|]. left. split; [exact Ha|]. split; [exact Hm | reflexivity].
    + apply Forall_forall. intros [p a] Hz. exists items. split; [apply Hin | by eapply elem_of_zip_l].
    + intros ([p a] & Hz & Ha)%List.Exists_exists. left. apply HV. exists p.
      split; [|done]. apply list_elem_of_In in Hz. by eapply elem_of_zip_l.
Qed.

Lemma getServicesForMXJob_told j h X :
  same_object j0 j → (∀ ns answer, ListServices ns answer ∉ h) →
  safe_told (λ h r, request_ok j0 h r ∧ service_claim r) (λ _, False) X h (getServicesForMXJob (W := W) j) (λ _ _, True).
Proof.
  intros Hs Hh. destruct (job_selector j0) as [sel|e] eqn:Hsel.
  2:{ unfold getServicesForMXJob. rewrite (same_selector j0 j Hs), Hsel. by apply told_ret. }
  apply told_pass_post. intros s. rewrite <- (same_selector j0 j Hs) in Hsel.
  eapply post_mono; [by apply getServicesForMXJob_found | | done].
  rewrite (same_selector j0 j Hs) in Hsel.
  intros r s' (Hp & l & Ht & (answer & l' & -> & Hans) & _). split; [done|]. eexists. split; [exact Ht|].
  split; [done|]. rewrite (same_namespace j0 j Hs). destruct answer as [items|err].
  2:{ destruct Hans as [-> ->]. cbn. by split_and!. }
  destruct Hans as (cl & errs & -> & Hpass). rewrite (same_service_pass j0 j sel Hs) in Hpass.
  cbn. split; [by split_and!|]. destruct Hpass as (answers & verdict & checked & _ & HV & -> & _).
  apply (claim_entries_told j0 service_claim sel (adopted_svc j0) (released_svc j0) (listed_service j0)).
  - apply listed_service_more.
  - done.
  - intros h' p a Hl Ha. split; [|exact Logic.I]. exists p, sel. split; [exact Hl|]. split; [exact Hsel|]. right. split; [exact Ha | reflexivity].
  - intros h' p a Hl Hm Ha. split; [|exact Logic.I]. exists p, sel. split; [exact Hl|]. split; [exact Hsel|]. left. split; [exact Ha|]. split; [exact Hm | reflexivity].
  - apply Forall_forall. intros [p a] Hz. exists items. split; [|by eapply elem_of_zip_l].
    apply elem_of_app. right. by left.
  - intros ([p a] & Hz & Ha)%List.Exists_exists. left. apply HV. exists p.
    split; [|done]. apply list_elem_of_In in Hz. by eapply elem_of_zip_l.
Qed.

(** What is only looked at for its kind. *)
Lemma told_safe_kinds {A} K X h (m : M (St W) A) Q :
  safe_told (λ h r, request_ok j0 h r ∧ K r) (λ _, False) X h m Q →
  safe (λ r, True ∧ K r) (λ _, False) X m (λ _, True).
Proof.
  intros Hm s. assert (∀ s' l, grows_told (λ h r, request_ok j0 h r ∧ K r) (λ _, False) h s s' l →
    grows (λ r, True ∧ K r) (λ _, False) s s') as Hg.
  { intros s' l (Ht & Hl & gs & Hp & Hgs). apply told_kinds in Hl as [_ HK]. exists l, gs.
    split_and!; [done | | done | done]. eapply Forall_impl; [exact HK | done]. }
  eapply post_mono; [apply Hm | |].
  - intros a s' (l & _ & Hl). split; [done | by eapply Hg].
  - intros s' (HX & l & Hl). split; [done | by eapply Hg].
Qed.
Lemma getPodsForMXJob_safe j X :
  same_object j0 j → safe (λ r, True ∧ pod_claim r) (λ _, False) X (getPodsForMXJob (W := W) j) (λ _, True).
Proof. intros Hs. eapply told_safe_kinds, (getPodsForMXJob_told j []); [done | intros ns a; by apply not_elem_of_nil]. Qed.
Lemma getServicesForMXJob_safe j X :
  same_object j0 j → safe (λ r, True ∧ service_claim r) (λ _, False) X (getServicesForMXJob (W := W) j) (λ _, True).
Proof. intros Hs. eapply told_safe_kinds, (getServicesForMXJob_told j []); [done | intros ns a; by apply not_elem_of_nil]. Qed.

(** The two claiming methods in a run. *)
Lemma runs_told {A} h K (m : M (St W) A) Q :
  safe_told (λ h r, request_ok j0 h r ∧ K r) (λ _, False) (¬ well_formed j0) h m Q →
  runs h m (λ l a, Q l a ∧ Forall K l).
Proof.
  intros Hm s. assert (∀ s' l, grows_told (λ h r, request_ok j0 h r ∧ K r) (λ _, False) h s s' l →
    Forall K l ∧ grows_told (request_ok j0) (goroutine_ok j0) h s s' l) as Hg.
  { intros s' l (Ht & Hl & gs & Hp & Hgs). apply told_kinds in Hl as [Hl HK]. split; [done|]. split; [done|].
    split; [done|]. exists gs. split; [done|]. by eapply Forall_impl. }
  eapply post_mono; [apply Hm | |].
  - intros a s' (l & HQ & [HK Hl]%Hg). by exists l.
  - intros s' (HX & l & [HK Hl]%Hg). split; [done | by exists l].
Qed.

Lemma not_listed h (K : request → Prop) l ns answer :
  Forall K l → (∀ r, K r → ∀ ns answer, r ≠ ListServices ns answer) →
  ListServices ns answer ∉ h → ListServices ns answer ∉ h ++ l.
Proof. intros Hl HK Hh [?|Hin]%elem_of_app; [done|]. eapply Forall_forall in Hl; [|done]. by eapply HK. Qed.

Lemma reconcile_scheduler_told h i j pods :
  snapshot j0 i [] j → initialized j0 = i → (∀ ns answer, ListServices ns answer ∉ h) →
  runs h (reconcile_scheduler j pods)
    (λ _ '(err, j'), err = None → snapshot j0 i (with_type j0 MXReplicaTypeScheduler []) j').
Proof.
  intros Hv Hi Hh. unfold reconcile_scheduler, with_type. pose proof Hv as (Hs & _).
  rewrite <- (replica_spec_same j0 j _ Hs).
  change (replica_spec j MXReplicaTypeScheduler) with (specs_Scheduler (job_specs j)).
  destruct (specs_Scheduler (job_specs j)) as [spec|] eqn:E; [|by apply told_ret].
  eapply told_bind.
  { eapply runs_does; [apply (reconcilePods_safe j0 h i []); try done; by left | by_kind | done]. }
  intros l1 [[err|] j1] [Hv1 HK1]; [by apply told_ret|]. specialize (Hv1 eq_refl).
  assert (∀ ns answer, ListServices ns answer ∉ h ++ l1) as Hh1.
  { intros ns answer. eapply not_listed; [exact HK1 | by_kind | done]. }
  eapply told_bind.
  { eapply runs_told, (getServicesForMXJob_told j1); [by destruct Hv1 | exact Hh1]. }
  intros l2 [services [err|]] _; [by apply told_ret|].
  eapply told_bind.
  { eapply runs_does; [apply reconcileServices_safe; by destruct Hv1 | by_kind | done]. }
  intros l3 err _. by apply told_ret.
Qed.

(** The two last phases. *)
Lemma initialize_told h j :
  snapshot j0 (initialized j0) (all_types j0) j →
  runs h (if negb (checkCondition (job_Status j) MXJobInitialized) then
      mxjob ← updateMXJobConditions j MXJobInitialized MXJobReasonInitialized
                ("MXJob " +:+ job_Name j +:+ " is initialized.");
      callHookAsync mxjob true;;
      mret mxjob
    else mret j) (λ _ j', snapshot j0 true (all_types j0) j').
Proof.
  intros Hv. fold (initialized j). pose proof Hv as (Hs & Hi & Hc & Hin & Hts).
  destruct (initialized j) eqn:E; [apply told_ret; by split_and!|].
  eapply told_bind.
  { eapply (runs_does _ (λ _, False) (λ _, False)); [|done..].
    apply (update_true_version j0 h (λ _, False) true (all_types j0)); try done; [by rewrite Hc | by apply orb_true_r]. }
  intros l1 j4 [[Hv4 _] _]. eapply told_bind.
  { eapply (runs_does _ (λ _, False)); [eapply start_hook_safe; [done | congruence] | done..]. }
  intros l2 _ _. by apply told_ret.
Qed.
Lemma finish_told h j pods :
  snapshot j0 true (all_types j0) j → finished j0 = false → Forall (claimed j0 h) pods →
  runs h (if IsJobFinished (job_Status j) then
      '(err, mxjob) ← terminateMXJob j pods;
      match err with
      | Some err => mret (Some err, mxjob)
      | None => callHookAsync mxjob false;; mret (None, mxjob)
      end
    else mret (None, j)) (λ _ '(err, j'), err = None → snapshot j0 true (all_types j0) j').
Proof.
  intros Hv Hf0 Hpods. fold (finished j). destruct (finished j) eqn:E; [|by apply told_ret].
  eapply told_bind.
  { eapply runs_does; [by eapply (terminateMXJob_safe j0 h true (all_types j0)); [| apply all_types_spec |] | by_kind | done]. }
  intros l1 [[err|] j5] [[Hv5 Hf5] _]; [by apply told_ret|].
  eapply told_bind.
  { eapply (runs_does _ (λ _, False)); [eapply finish_hook_safe; [done | congruence | done] | done..]. }
  intros l2 _ _. by apply told_ret.
Qed.

Definition is_update (r : request) : Prop := match r with UpdateMXJob _ => True | _ => False end.
Lemma reconcileMXJobs_told h j :
  snapshot j0 (initialized j0) [] j → finished j0 = false →
  (∀ ns answer, ListPods ns answer ∉ h) → (∀ ns answer, ListServices ns answer ∉ h) →
  runs h (reconcileMXJobs j) (λ _ _, True).
Proof.
  intros Hv Hf0 Hh Hh'. unfold reconcileMXJobs. pose proof Hv as (Hs & _).
  eapply told_bind; [by eapply runs_told, getPodsForMXJob_told|].
  intros l1 [pods [err|]] [Hpods HK1]; [by apply told_ret|]. specialize (Hpods eq_refl).
  assert (∀ ns answer, ListServices ns answer ∉ h ++ l1) as Hh1.
  { intros ns answer. eapply not_listed; [exact HK1 | by_kind | done]. }
  eapply told_bind; [by eapply reconcile_scheduler_told|].
  intros l2 [[err|] j1] Hv1; [by apply told_ret|]. specialize (Hv1 eq_refl).
  pose proof Hv1 as (Hs1 & _). rewrite (same_specs j0 j1 Hs1).
  eapply told_bind.
  { eapply runs_does; [apply (reconcile_optional_safe j0 _ (initialized j0) (with_type j0 MXReplicaTypeScheduler []) j1 pods
      MXReplicaTypeServer); [done | by right; left | done] | by_kind | done]. }
  intros l3 [[err|] j2] [Hv2 _]; [by apply told_ret|]. specialize (Hv2 eq_refl).
  pose proof Hv2 as (Hs2 & _). rewrite (same_specs j0 j2 Hs2).
  eapply told_bind.
  { eapply runs_does; [apply (reconcile_optional_safe j0 _ (initialized j0)
      (with_type j0 MXReplicaTypeServer (with_type j0 MXReplicaTypeScheduler [])) j2 pods MXReplicaTypeWorker);
      [done | by right; right | done] | by_kind | done]. }
  intros l4 [[err|] j3] [Hv3 _]; [by apply told_ret|]. specialize (Hv3 eq_refl). fold (all_types j0) in Hv3.
  eapply told_bind; [by eapply initialize_told|]. intros l5 j4 Hv4.
  eapply told_bind.
  { apply (finish_told _ j4 pods); [done | done |]. eapply Forall_impl; [exact Hpods|]. intros pod Hpod.
    rewrite <- !app_assoc, (app_assoc h l1). by apply claimed_more. }
  intros l6 [[err|] j5] Hv5; [by apply told_ret|]. specialize (Hv5 eq_refl).
  case_decide; [by apply told_ret|].
  eapply told_mono; [eapply (runs_does _ is_update (λ _, False) _ (λ _, True)) | done]; [|by_kind | done].
  eapply safe_bind with (Q' := λ _, True).
  - apply safe_send; [|done]. split; [by eapply version_writable | done].
  - intros [j6|err] _; by apply safe_ret.
Qed.

Lemma last_index_lookup x (l : list string) i found k :
  last_index x l i found = Some k →
  found = Some k ∨ ((i ≤ k)%nat ∧ l !! (k - i)%nat = Some x).
Proof.
  revert i found. induction l as [|f l IH]; intros i found; cbn; [by left|].
  intros [E|[Hle Hl]]%IH.
  - case_decide; [|by left]. right. simplify_eq. split; [lia|]. by rewrite Nat.sub_diag.
  - right. split; [lia|]. replace (k - i)%nat with (S (k - S i)) by lia. done.
Qed.

Lemma Sync_told deleted : runs [] (Sync j0 deleted) (λ _ _, True).
Proof.
  unfold Sync. destruct deleted; [by apply told_ret|]. case_decide as Hdel.
  { eapply told_bind with (Q' := λ _ _, True); [|intros; by apply told_ret].
    eapply told_mono; [eapply (runs_does _ (λ _, False) (goroutine_ok j0) _ (λ _, True)) | done]; [|done..].
    unfold handleMXJobFinalizers. case_match eqn:E; [|by apply safe_ret]. apply safe_go; [|done].
    apply last_index_lookup in E as [|[_ E]]; [done|]. rewrite Nat.sub_0_r in E. by split_and!. }
  eapply told_bind with (Q' := λ l j, (snapshot j0 (initialized j0) [] j ∧ finished j = finished j0) ∧ Forall (λ _, False) l).
  { eapply (runs_does _ (λ _, False) (λ _, False)); [|done..].
    fold (created j0). destruct (created j0) eqn:E; cbn [negb].
    - apply safe_ret. split; [|done]. by split_and!.
    - apply update_true_version; try done; [by apply orb_true_r | by apply orb_false_r]. }
  intros l j [[Hv Hf] Hl]. fold (finished j). rewrite Hf. destruct (finished j0) eqn:Hf0; [by apply told_ret|].
  cbn [andb]. case_match; [|by apply told_ret].
  destruct l as [|r l]; [|by apply Forall_cons in Hl as [[] _]]. cbn [app].
  eapply told_mono; [apply reconcileMXJobs_told | done]; try done; intros ns answer; by apply not_elem_of_nil.
Qed.
End passes.

(** ** Properties *)

(** C1. Whatever the API server answers and however the runtime orders maps and
    goroutines, a sync of a job only does what [request_ok] and [goroutine_ok] allow.  It lists the pods and the
    services of the job's own namespace, each at most once, and reads only the job; it creates only pods that carry the
    job's labels and owner reference, and only before the job is initialized; it deletes only active pods that the server listed
    before in this sync, and that the job controls and selects, or that are orphans whose adoption the server
    has just confirmed; it patches only listed objects: to adopt a selected orphan, after the job was read
    and found alive, or to release what it no longer selects; the one kind of service it creates
    selects the scheduler; every status it stores keeps the object and the status invariant and is
    created and initialized; the start hook is called only for a job not yet initialized and the
    finish hook only when it becomes finished.  It panics only on a job that is not well formed. *)
Theorem Sync_footprint {W} `{!Cluster W} `{!GoRuntime} (mxjob : MXJob) deleted (s : St W) :
  let does s' := ∃ l gs, trace s' = trace s ++ l ∧ pending s' = pending s ++ gs ∧
    (∀ before r after, l = before ++ r :: after → request_ok mxjob before r) ∧
    Forall (goroutine_ok mxjob) gs in
  post (Sync mxjob deleted) (λ _ s', does s') (λ s', ¬ well_formed mxjob ∧ does s') s.
Proof.
  intros does. assert (∀ s' l, grows_told (request_ok mxjob) (goroutine_ok mxjob) [] s s' l → does s') as Hdoes.
  { intros s' l (Ht & Hl & gs & Hp & Hg). exists l, gs. split_and!; try done. intros before r after ->.
    by apply told_split in Hl. }
  eapply post_mono; [apply Sync_told | |].
  - intros a s' (l & _ & Hl). by eapply Hdoes.
  - intros s' (Hill & l & Hl). split; [done | by eapply Hdoes].
Qed.

(** A sync of a well-formed job returns: whatever the API server answers, no nil
    pointer is dereferenced on the way. *)
Theorem Sync_no_panic {W} `{!Cluster W} `{!GoRuntime} (mxjob : MXJob) deleted :
  well_formed mxjob → no_panic (Sync (W := W) mxjob deleted).
Proof. intros Hwf s. eapply post_mono; [apply Sync_told | done | by intros ? [? _]]. Qed.

(** A fresh job with the three replica types. *)
Lemma Sync_no_panic_witness :
  well_formed example_job ∧ no_panic (Sync (W := RefCluster) example_job false).
Proof.
  assert (well_formed example_job) as Hwf by (apply (bool_decide_unpack _); by vm_compute).
  split; [exact Hwf | exact (Sync_no_panic example_job false Hwf)].
Defined.
