(* ===== verification/Reconcile.v ===== *)
(** * What a pass computes

    [observe] is the replica status a pass reports for a type from the pods it found, [observed] the
    effect of that on a [summary] of the job (the view of JobStatus and the replica statuses) and
    [pass] the effect of a whole pass, termination included.  The lemmas relate [reconcilePods],
    [terminateMXJob] and [reconcileMXJobs] to them. *)
From S2P Require Import Prelude Types Runtime Api RefCluster Labels Naming Replicas Conditions.
From S2P Require Import JobStatus Controls RefManager Handler Footprint.

(** ** The abstract pass *)

(** The missing pods, of [n] wanted; negative when there are too many. *)
Definition missing (n : Z) (mine : list Pod) : Z := n - zlen mine.

(** The status of a type of which [n] pods are wanted and [mine] are there: the missing ones are
    created, and count as active, before the job is initialized; afterwards they are gone. *)
Definition observe (init : bool) (n : Z) (mine : list Pod) : MXReplicaStatus :=
  let lacking := Z.max 0 (missing n mine) in
  mkMXReplicaStatus (zlen (FilterActivePods mine) + (if init then 0 else lacking))
    (filterPods mine PodSucceeded) (filterPods mine PodFailed) (if init then lacking else 0).

(** The number of pods of a type that is wanted. *)
Definition wanted (specs : MXReplicaSpecs) (rt : MXReplicaType) : option Z :=
  (if decide (rt = MXReplicaTypeScheduler) then specs_Scheduler specs
   else if decide (rt = MXReplicaTypeServer) then specs_Server specs
   else if decide (rt = MXReplicaTypeWorker) then specs_Worker specs
   else None) ≫= spec_Replicas.

Lemma wanted_types specs :
  wanted specs MXReplicaTypeScheduler = specs_Scheduler specs ≫= spec_Replicas ∧
  wanted specs MXReplicaTypeServer = specs_Server specs ≫= spec_Replicas ∧
  wanted specs MXReplicaTypeWorker = specs_Worker specs ≫= spec_Replicas.
Proof. done. Qed.

(** What requests store and create. *)
Definition stored (l : list request) : list MXJob :=
  omap (λ r, match r with UpdateMXJob j => Some j | _ => None end) l.
Definition creations (l : list request) : list (string * Pod) :=
  omap (λ r, match r with CreatePod ns pod => Some (ns, pod) | _ => None end) l.

Record summary := mkSummary { sm_view : view; sm_statuses : MXReplicaStatuses }.
Definition summary_of (j : MXJob) : summary :=
  mkSummary (job_view j) (st_ReplicaStatuses (job_Status j)).
Definition report (rt : MXReplicaType) (n : Z) (rs : MXReplicaStatus) (a : summary) : summary :=
  mkSummary (status_view rt n rs (sm_view a)) (set_replica_status rt (Some rs) (sm_statuses a)).

(** ** Machine arithmetic of the counters *)

(** Replica counts and pod counts fit the machine integers. *)
Definition sizes_ok (n : Z) (pods : list Pod) : Prop := 0 ≤ n < 2 ^ 31 ∧ zlen pods < 2 ^ 31.

Lemma pods_of_type_length rt pods : zlen (pods_of_type rt pods) ≤ zlen pods.
Proof. unfold zlen, pods_of_type. pose proof (length_filter (pod_of_type rt) pods). lia. Qed.

Lemma FilterActivePods_length pods : zlen (FilterActivePods pods) ≤ zlen pods.
Proof. rewrite FilterActivePods_filter. unfold zlen. pose proof (length_filter IsPodActive pods). lia. Qed.

Lemma missing_int32 n mine : sizes_ok n mine → int32 (n - int32 (zlen mine)) = missing n mine.
Proof.
  intros [Hn Hm]. pose proof (zlen_nonneg mine). unfold missing.
  rewrite (int32_small (zlen mine)) by (unfold in_int32; lia). apply int32_small. unfold in_int32. lia.
Qed.

Lemma active_int32 n mine :
  sizes_ok n mine → int32 (zlen (FilterActivePods mine)) = zlen (FilterActivePods mine).
Proof.
  intros [_ Hm]. apply int32_small. pose proof (FilterActivePods_length mine).
  pose proof (zlen_nonneg (FilterActivePods mine)). unfold in_int32. lia.
Qed.

Lemma getStatus_exact n mine :
  sizes_ok n mine → getStatus mine = (filterPods mine PodSucceeded, filterPods mine PodFailed).
Proof.
  intros [_ Hm]. unfold getStatus.
  pose proof (filterPods_bounds mine PodSucceeded). pose proof (filterPods_bounds mine PodFailed).
  rewrite !int32_small by (unfold in_int32; lia). done.
Qed.

Lemma sizes_ok_type n pods rt : sizes_ok n pods → sizes_ok n (pods_of_type rt pods).
Proof. intros [? ?]. split; [done|]. pose proof (pods_of_type_length rt pods). lia. Qed.

Lemma getMXReplicaStatus_initialize j rt :
  is_replica_type rt →
  getMXReplicaStatus (initializeMXReplicaStatuses j rt) rt = Some empty_replica_status.
Proof. apply getMXReplicaStatus_set. Qed.

(** ** [reconcilePods] when it creates nothing *)
Section observe.
Context {W : Type} `{!Cluster W} `{!GoRuntime}.

(** The end of [reconcilePods]: the status of the type is stored and the job status updated. *)
Definition reported (rt : MXReplicaType) (n : Z) (rs : MXReplicaStatus) (j j' : MXJob) : Prop :=
  same_object j j' ∧ summary_of j' = report rt n rs (summary_of j) ∧
  (conditions_wf (job_Status j) → conditions_wf (job_Status j')) ∧
  (∀ t, ¬ managed t → getCondition (job_Status j') t = getCondition (job_Status j) t).

Lemma report_quiet rt n rs j (s : St W) :
  is_replica_type rt →
  quiet (updateMXJobStatus (updateMXReplicaStatuses (initializeMXReplicaStatuses j rt) rt rs) rt n)
    (λ '(err, j'), err = None ∧ reported rt n rs j j') s.
Proof.
  intros Hrt. set (j1 := updateMXReplicaStatuses _ rt rs).
  assert (getMXReplicaStatus j1 rt = Some rs) as Hrs by by apply getMXReplicaStatus_set.
  eapply quiet_mono; [by apply (updateMXJobStatus_view j1 rt n rs)|].
  intros [err j'] (He & (Hs & Hst & Hw & Hc) & Hv). cbn in *. split; [done|]. split_and!.
  - etransitivity; [|exact Hs]. done.
  - unfold summary_of. rewrite Hst, Hv. unfold report. cbn. f_equal.
    unfold set_replica_status. by repeat case_decide.
  - exact Hw.
  - exact Hc.
Qed.

(** It ends with [updateMXJobStatus] on the observed replica status. *)
Lemma reconcilePods_reports j pods rt spec n Q (s : St W) :
  is_replica_type rt → spec_Replicas spec = Some n → sizes_ok n pods →
  initialized j = true ∨ missing n (pods_of_type rt pods) ≤ 0 →
  (∀ s', quiet (updateMXJobStatus (updateMXReplicaStatuses (initializeMXReplicaStatuses j rt) rt
                   (observe (initialized j) n (pods_of_type rt pods))) rt n) Q s') →
  quiet (reconcilePods j pods rt spec) Q s.
Proof.
  intros Hrt Hn Hsz Hno HQ. unfold reconcilePods.
  apply (quiet_bind _ _ (λ mine, mine = pods_of_type rt pods)).
  { unfold quiet, post. by rewrite filterPodsForMXReplicaType_run. }
  intros ? s1 ->. apply (sizes_ok_type _ _ rt) in Hsz. set (mine := pods_of_type rt pods) in *.
  rewrite Hn. apply (quiet_bind _ _ (λ r, r = n)); [by apply quiet_ret|]. intros ? s2 ->. cbv zeta.
  rewrite (missing_int32 n mine Hsz), (active_int32 n mine Hsz).
  rewrite getMXReplicaStatus_initialize by done.
  apply (quiet_bind _ _ (λ st, st = empty_replica_status)); [by apply quiet_ret|]. intros ? s3 ->.
  apply (quiet_bind _ _ (λ r, r = (rs_Active (observe (initialized j) n mine),
                                  rs_Gone (observe (initialized j) n mine), []))).
  { unfold observe. cbn. case_match eqn:E.
    - change (checkCondition _ MXJobInitialized) with (initialized j).
      apply Z.ltb_lt in E. destruct Hno as [-> | Hno]; [|lia]. apply quiet_ret.
      by rewrite Z.max_r, Z.add_0_r by lia.
    - apply Z.ltb_ge in E. apply quiet_ret. rewrite Z.max_l by lia.
      destruct (initialized j); by rewrite Z.add_0_r. }
  intros ? s4 ->. rewrite (getStatus_exact n mine Hsz). apply HQ.
Qed.
Lemma reconcilePods_observe j pods rt spec n (s : St W) :
  is_replica_type rt → spec_Replicas spec = Some n → sizes_ok n pods →
  initialized j = true ∨ missing n (pods_of_type rt pods) ≤ 0 →
  quiet (reconcilePods j pods rt spec)
    (λ '(err, j'), err = None ∧
       reported rt n (observe (initialized j) n (pods_of_type rt pods)) j j') s.
Proof. intros Hrt Hn Hsz Hno. apply (reconcilePods_reports _ _ _ _ n); try done. intros s'. by apply report_quiet. Qed.
End observe.

(** ** Termination *)

(** [k] of the active pods of a type are gone. *)
Definition lower (k : Z) (rs : MXReplicaStatus) : MXReplicaStatus :=
  mkMXReplicaStatus (rs_Active rs - k) (rs_Succeeded rs) (rs_Failed rs) (rs_Gone rs + k).
Definition status_of (r : MXReplicaStatuses) (rt : MXReplicaType) : option MXReplicaStatus :=
  if decide (rt = MXReplicaTypeScheduler) then rss_Scheduler r
  else if decide (rt = MXReplicaTypeServer) then rss_Server r
  else if decide (rt = MXReplicaTypeWorker) then rss_Worker r
  else None.
(** The pods [dead] are gone. *)
Definition kill (dead : list Pod) (r : MXReplicaStatuses) : MXReplicaStatuses :=
  let lowered rt := lower (zlen (pods_of_type rt dead)) <$> status_of r rt in
  mkMXReplicaStatuses (lowered MXReplicaTypeScheduler) (lowered MXReplicaTypeServer)
    (lowered MXReplicaTypeWorker).

(** The counters have room for [dead]: the types of the pods have a status, and no counter leaves
    the range of the machine integers. *)
Definition room_for (dead : list Pod) (r : MXReplicaStatuses) (rt : MXReplicaType) : Prop :=
  match status_of r rt with
  | Some rs =>
      - 2 ^ 31 ≤ rs_Active rs - zlen (pods_of_type rt dead) ∧ rs_Active rs < 2 ^ 31 ∧
      - 2 ^ 31 ≤ rs_Gone rs ∧ rs_Gone rs + zlen (pods_of_type rt dead) < 2 ^ 31
  | None => zlen (pods_of_type rt dead) = 0
  end.
Definition room (dead : list Pod) (r : MXReplicaStatuses) : Prop :=
  room_for dead r MXReplicaTypeScheduler ∧ room_for dead r MXReplicaTypeServer ∧
  room_for dead r MXReplicaTypeWorker.
#[export] Instance room_for_dec dead r rt : Decision (room_for dead r rt).
Proof. unfold room_for. destruct (status_of r rt); apply _. Defined.
#[export] Instance room_dec dead r : Decision (room dead r).
Proof. unfold room. apply _. Defined.

(** The pods a list of requests deletes. *)
Definition deletion (r : request) : option (string * string) :=
  match r with DeletePodReq ns name => Some (ns, name) | _ => None end.
Definition deletions (l : list request) : list (string * string) := omap deletion l.
Definition pod_key (p : Pod) : string * string :=
  (meta_Namespace (pod_Meta p), meta_Name (pod_Meta p)).

(** The job with other replica statuses. *)
Definition with_statuses (r : MXReplicaStatuses) (j : MXJob) : MXJob :=
  set_job_Status (set_st_ReplicaStatuses (λ _, r)) j.

Lemma getMXReplicaStatus_of j rt :
  getMXReplicaStatus j rt = status_of (st_ReplicaStatuses (job_Status j)) rt.
Proof. done. Qed.

Lemma kill_nil r : kill [] r = r.
Proof.
  unfold kill. destruct r as [a b c]. cbn.
  assert (∀ o : option MXReplicaStatus, lower 0 <$> o = o) as Hl; [|by rewrite !Hl].
  intros [[]|]; [|done]. cbn. unfold lower. cbn. f_equal. f_equal; lia.
Qed.

Lemma kill_perm dead dead' r : dead ≡ₚ dead' → kill dead r = kill dead' r.
Proof.
  intros Hp. unfold kill.
  assert (∀ rt, zlen (pods_of_type rt dead) = zlen (pods_of_type rt dead')) as Hl.
  { intros rt. unfold zlen, pods_of_type. by rewrite Hp. }
  by rewrite !Hl.
Qed.

Lemma room_type dead r rt : room dead r → is_replica_type rt → room_for dead r rt.
Proof. intros (? & ? & ?) [->|[->| ->]]; done. Qed.

Lemma room_perm dead dead' r : dead ≡ₚ dead' → room dead r → room dead' r.
Proof.
  intros Hp. assert (∀ rt, zlen (pods_of_type rt dead) = zlen (pods_of_type rt dead')) as Hl
    by (intros rt; unfold zlen, pods_of_type; by rewrite Hp).
  unfold room, room_for. by rewrite !Hl.
Qed.

Lemma status_of_kill dead r rt :
  status_of (kill dead r) rt = lower (zlen (pods_of_type rt dead)) <$> status_of r rt.
Proof. unfold status_of, kill. by repeat (case_decide; subst). Qed.

Lemma pods_of_type_snoc rt ps p :
  pods_of_type rt (ps ++ [p]) = pods_of_type rt ps ++ (if pod_of_type rt p then [p] else []).
Proof.
  unfold pods_of_type. rewrite filter_app, filter_cons.
  destruct (pod_of_type rt p); by case_decide.
Qed.

(** The type of a pod, by its label. *)
Definition type_of (p : Pod) : MXReplicaType :=
  default "" (labels_of (meta_Labels (pod_Meta p)) !! mxLabelReplicaType).
Lemma pod_of_type_of rt p : is_replica_type rt → pod_of_type rt p = bool_decide (type_of p = rt).
Proof.
  intros Hrt. unfold pod_of_type, type_of. apply bool_decide_ext.
  destruct (_ !! mxLabelReplicaType) as [t|]; cbn; [naive_solver|].
  split; [done|]. intros <-. by destruct Hrt as [?|[?|?]].
Qed.

Section termination.
Context {W : Type} `{!Cluster W} `{!GoRuntime}.

(** One more pod gone. *)
Lemma kill_snoc r seen p rs :
  is_replica_type (type_of p) → status_of (kill seen r) (type_of p) = Some rs →
  kill (seen ++ [p]) r = set_replica_status (type_of p) (Some (lower 1 rs)) (kill seen r).
Proof.
  intros Hrt. rewrite status_of_kill. destruct (status_of r (type_of p)) as [rs0|] eqn:E; [|done].
  intros [= <-]. unfold kill, set_replica_status. rewrite !pods_of_type_snoc, !zlen_app.
  rewrite !pod_of_type_of by (unfold is_replica_type; tauto).
  assert (∀ k, lower (k + zlen [p]) rs0 = lower 1 (lower k rs0)) as Hlow.
  { intros k. unfold lower. cbn. f_equal; unfold zlen; cbn; lia. }
  assert (∀ k (o : option MXReplicaStatus), lower (k + zlen (A := Pod) []) <$> o = lower k <$> o) as Hzero.
  { intros k o. by rewrite Z.add_0_r. }
  destruct Hrt as [Ht|[Ht|Ht]]; rewrite Ht in *;
    repeat first [rewrite (bool_decide_true (_ = _)) by done
                 | rewrite (bool_decide_false (_ = _)) by done
                 | rewrite decide_True by done | rewrite decide_False by done];
    rewrite E, !Hzero; cbn; by rewrite Hlow.
Qed.

Lemma kill_skip r seen p : ¬ is_replica_type (type_of p) → kill (seen ++ [p]) r = kill seen r.
Proof.
  intros Hrt. unfold kill. rewrite !pods_of_type_snoc.
  rewrite !pod_of_type_of by (unfold is_replica_type; tauto).
  rewrite !bool_decide_false, !app_nil_r; [done|..]; intros E; apply Hrt; rewrite E;
    unfold is_replica_type; tauto.
Qed.

(** One pod noted, after the pods [seen]. *)
Lemma note_terminated_run j r seen p rest (s : St W) :
  st_ReplicaStatuses (job_Status j) = kill seen r → room (seen ++ p :: rest) r →
  note_terminated j p s = Ret (with_statuses (kill (seen ++ [p]) r) j) s.
Proof.
  intros Hj Hroom. unfold note_terminated. fold (type_of p). case_decide as Hrt.
  - pose proof (room_type _ _ _ Hroom Hrt) as Hrange. unfold room_for in Hrange.
    assert (zlen (pods_of_type (type_of p) (seen ++ p :: rest)) =
            zlen (pods_of_type (type_of p) seen) + 1 + zlen (pods_of_type (type_of p) rest)) as Hlen.
    { change (p :: rest) with ([p] ++ rest). rewrite app_assoc. unfold pods_of_type at 1.
      rewrite filter_app. fold (pods_of_type (type_of p) (seen ++ [p])).
      rewrite pods_of_type_snoc, pod_of_type_of, bool_decide_true, !zlen_app by done. done. }
    pose proof (zlen_nonneg (pods_of_type (type_of p) seen)).
    pose proof (zlen_nonneg (pods_of_type (type_of p) rest)).
    destruct (status_of r (type_of p)) as [rs|] eqn:Hrs; [|lia].
    assert (status_of (kill seen r) (type_of p) =
            Some (lower (zlen (pods_of_type (type_of p) seen)) rs)) as Hk
      by (by rewrite status_of_kill, Hrs).
    rewrite getMXReplicaStatus_of, Hj, Hk, (kill_snoc r seen p _ Hrt Hk).
    unfold deref, mbind, M_bind, mret, M_ret. cbn. rewrite !int32_small by (unfold in_int32; lia).
    unfold updateMXReplicaStatuses, with_statuses, set_job_Status, set_st_ReplicaStatuses. cbn.
    by rewrite Hj.
  - rewrite (kill_skip r seen p Hrt), <- Hj. unfold mret, M_ret, with_statuses. do 2 f_equal.
    by destruct j as [? ? ? []].
Qed.

Lemma deletions_app l l' : deletions (l ++ l') = deletions l ++ deletions l'.
Proof. apply omap_app. Qed.

Lemma real_DeletePod_post ns name (s : St W) :
  post (real_DeletePod ns name)
    (λ _ s', ∃ l, trace s' = trace s ++ l ∧ deletions l = [(ns, name)] ∧ Forall pod_deletion l ∧
       pending s' = pending s)
    (λ _, False) s.
Proof.
  apply post_bind, post_send. intros err w _.
  assert (∀ reason ev (e : option error), post (Eventf ev reason;; mret e)
    (λ _ s', ∃ l, trace s' = trace s ++ l ∧ deletions l = [(ns, name)] ∧ Forall pod_deletion l ∧
       pending s' = pending s)
    (λ _, False) (mkSt w (trace s ++ [DeletePodReq ns name]) (pending s))) as Hev.
  { intros reason ev e. apply post_bind, post_send. intros _ w' _. apply post_ret.
    exists [DeletePodReq ns name; RecordEvent ev reason]. cbn. rewrite <- app_assoc.
    by repeat constructor. }
  destruct err; apply Hev.
Qed.

(** The status of every type drops by its active pods; every active pod is deleted once. *)
Lemma terminateMXJob_post j pods (s : St W) :
  room (FilterActivePods pods) (st_ReplicaStatuses (job_Status j)) →
  post (terminateMXJob j pods)
    (λ '(err, j') s', j' = with_statuses
         (kill (FilterActivePods pods) (st_ReplicaStatuses (job_Status j))) j ∧
       ∃ l, trace s' = trace s ++ l ∧ deletions l ≡ₚ pod_key <$> FilterActivePods pods ∧
            Forall pod_deletion l ∧ pending s' = pending s)
    (λ _, False) s.
Proof.
  intros Hroom. unfold terminateMXJob. destruct (Z.eqb_spec (zlen (FilterActivePods pods)) 0) as [E|_].
  { apply zlen_zero in E. rewrite E, kill_nil. apply post_ret. split; [|by exists []; rewrite app_nil_r; repeat constructor].
    by destruct j as [? ? ? []]. }
  set (r := st_ReplicaStatuses (job_Status j)) in *.
  set (act := FilterActivePods pods) in *. pose proof (go_order_perm act) as Hp.
  apply (room_perm _ (go_order act)) in Hroom; [|by rewrite Hp].
  apply post_bind. eapply post_mono; [eapply (post_foldM _ (λ rest '(j', errs) s', ∃ seen l,
    go_order act = seen ++ rest ∧ j' = with_statuses (kill seen r) j ∧
    trace s' = trace s ++ l ∧ deletions l = pod_key <$> seen ∧ Forall pod_deletion l ∧
    pending s' = pending s) (λ _, False)) | | done].
  - exists [], []. rewrite kill_nil, app_nil_r. split_and!; try done. by destruct j as [? ? ? []].
  - intros p rest [j1 errs] s1 (seen & l & Hs & -> & Ht & Hd & Hf & Hpd). apply post_bind.
    eapply post_mono; [apply real_DeletePod_post | | done]. intros err s2 (l2 & Ht2 & Hd2 & Hf2 & Hp2).
    cbv zeta. apply post_bind. unfold post at 1.
    rewrite (note_terminated_run _ r seen p rest) by (done || by rewrite <- Hs).
    apply post_ret. exists (seen ++ [p]), (l ++ l2).
    split_and!; [by rewrite <- app_assoc | done | by rewrite Ht2, Ht, app_assoc | |
      by apply Forall_app | congruence].
    by rewrite deletions_app, fmap_app, Hd, Hd2.
  - intros [j' errs] s' (seen & l & Hs & -> & Ht & Hd & Hf & Hpd). apply post_ret.
    rewrite app_nil_r in Hs. rewrite <- Hs in Hd |- *. rewrite (kill_perm _ act) by done.
    split; [done|]. exists l. by rewrite Hd, Hp.
Qed.
End termination.

(** ** Properties *)

(** C11. Terminating a job deletes every active pod of the given ones once and
    no other, in whatever order the goroutines run, and whether or not the deletions succeed: for each
    replica type, active drops and gone rises by the number of active pods of the type; nothing else
    of the job changes. *)
Theorem terminateMXJob_correct {W} `{!Cluster W} `{!GoRuntime} (j : MXJob) pods (s : St W) :
  room (FilterActivePods pods) (st_ReplicaStatuses (job_Status j)) →
  post (terminateMXJob j pods)
    (λ '(err, j') s', j' = with_statuses
         (kill (FilterActivePods pods) (st_ReplicaStatuses (job_Status j))) j ∧
       ∃ l, trace s' = trace s ++ l ∧ deletions l ≡ₚ pod_key <$> FilterActivePods pods ∧
            Forall pod_deletion l ∧ pending s' = pending s)
    (λ _, False) s.
Proof. apply terminateMXJob_post. Qed.

Definition worker_pod (name : string) (phase : PodPhase) : Pod :=
  mkPod (mkObjectMeta name "" "default" name (Some {[mxLabelReplicaType := MXReplicaTypeWorker]})
           None [] None []) (mkPodSpec [] "" "") phase.
Definition two_active : MXJob :=
  job_with example_specs (mkMXJobStatus (mkMXReplicaStatuses None None
    (Some (mkMXReplicaStatus 2 1 0 0))) None None []).

(** Two running workers and a succeeded one: two are deleted. *)
Lemma terminateMXJob_correct_witness :
  let pods := [worker_pod "a" PodRunning; worker_pod "b" PodSucceeded; worker_pod "c" PodPending] in
  post (terminateMXJob two_active pods)
    (λ '(err, j') s', j' = with_statuses (kill (FilterActivePods pods)
         (st_ReplicaStatuses (job_Status two_active))) two_active ∧
       ∃ l, trace s' = [] ++ l ∧ deletions l ≡ₚ [("default", "a"); ("default", "c")] ∧
            Forall pod_deletion l ∧ pending s' = [])
    (λ _, False) (start (empty_cluster two_active)) ∧
  kill (FilterActivePods pods) (st_ReplicaStatuses (job_Status two_active)) =
    mkMXReplicaStatuses None None (Some (mkMXReplicaStatus 0 1 0 2)).
Proof.
  cbv zeta. split; [|by vm_compute].
  apply (terminateMXJob_correct two_active
    [worker_pod "a" PodRunning; worker_pod "b" PodSucceeded; worker_pod "c" PodPending]
    (start (empty_cluster two_active))).
  apply (bool_decide_unpack _). by vm_compute.
Defined.
