(* ===== verification/Creation.v ===== *)
(** * Creating the pods and the service of a job

    What [createNewPod], [reconcilePods] and [reconcileServices] submit while a job is not
    initialized, with the real pod and service control. *)
From S2P Require Import Prelude Types Runtime Api RefCluster Strconv Labels Naming Replicas.
From S2P Require Import Conditions JobStatus Controls RefManager Handler Footprint Reconcile.

(** ** The environment *)

(** The verbosity of a replica type. *)
Definition verbose_of (j : MXJob) (rt : MXReplicaType) : option Z :=
  replica_spec j rt ≫= spec_PsVerbose.
Definition root_port (j : MXJob) : Z :=
  default defaultPsRootPort (specs_Scheduler (job_specs j) ≫= spec_PsRootPort).

(** The environment of a pod of type [rt] of a job with [servers] servers and [workers] workers. *)
Definition env_spec (j : MXJob) (rt : MXReplicaType) (servers workers : Z) (key : string)
  : option string :=
  if decide (key = "DMLC_PS_ROOT_URI") then Some (serviceName j MXReplicaTypeScheduler)
  else if decide (key = "DMLC_PS_ROOT_PORT") then Some (FormatInt (root_port j))
  else if decide (key = "DMLC_NUM_SERVER") then Some (FormatInt servers)
  else if decide (key = "DMLC_NUM_WORKER") then Some (FormatInt workers)
  else if decide (key = "DMLC_ROLE") then Some rt
  else if decide (key = "PS_VERBOSE") then FormatInt <$> verbose_of j rt
  else None.

Lemma env_lookup verbose (uri port servers workers role : string) key :
  (add_verbose verbose (<["DMLC_ROLE" := role]> (<["DMLC_NUM_WORKER" := workers]>
    (<["DMLC_NUM_SERVER" := servers]> (<["DMLC_PS_ROOT_PORT" := port]>
      (<["DMLC_PS_ROOT_URI" := uri]> ∅)))))) !! key =
  if decide (key = "DMLC_PS_ROOT_URI") then Some uri
  else if decide (key = "DMLC_PS_ROOT_PORT") then Some port
  else if decide (key = "DMLC_NUM_SERVER") then Some servers
  else if decide (key = "DMLC_NUM_WORKER") then Some workers
  else if decide (key = "DMLC_ROLE") then Some role
  else if decide (key = "PS_VERBOSE") then FormatInt <$> verbose
  else None.
Proof.
  destruct verbose as [v|]; cbn [add_verbose]; rewrite !lookup_insert, lookup_empty;
    repeat (match goal with
            | |- context [decide (?k = key)] => destruct (decide (k = key)) as [<-|]
            | |- context [decide (key = ?k)] => destruct (decide (key = k)) as [->|]
            end); try reflexivity; congruence.
Qed.

Lemma genMXConfigEnv_spec {S} j rt servers workers (s : S) :
  is_replica_type rt → is_Some (specs_Scheduler (job_specs j)) →
  wanted (job_specs j) MXReplicaTypeServer = Some servers →
  wanted (job_specs j) MXReplicaTypeWorker = Some workers →
  ∃ env, genMXConfigEnv j rt s = Ret env s ∧
    ∀ key, env !! key = env_spec j rt servers workers key.
Proof.
  destruct (wanted_types (job_specs j)) as (_ & -> & ->).
  intros Hrt [sch E1] (srv & E2 & E3)%bind_Some (wrk & E4 & E5)%bind_Some.
  unfold genMXConfigEnv, deref, mbind, M_bind, mret, M_ret.
  rewrite E1, E2, E3, E4, E5. eexists. split; [done|]. intros key.
  unfold env_spec, verbose_of, root_port, replica_spec. rewrite E1, E2, E4. cbn [mbind option_bind].
  destruct Hrt as [->|[->| ->]]; apply env_lookup.
Qed.

(** ** One pod *)

(** The container of the template with the environment [env] added, in some order. *)
Definition container_of (env : Labels) (c c' : Container) : Prop :=
  ctr_Name c' = ctr_Name c ∧ ctr_Image c' = ctr_Image c ∧ ctr_Command c' = ctr_Command c ∧
  ctr_Env c' ≡ₚ ctr_Env c ++ ((λ kv : string * string, mkEnvVar kv.1 kv.2) <$> map_to_list env).

(** The pod of a template for a job: a generated name, the labels of the job over those of the
    template, the job as controller, the containers with the environment. *)
Definition pod_of (j : MXJob) (rt : MXReplicaType) (tpl : PodTemplateSpec) (env : Labels) (pod : Pod)
  : Prop :=
  meta_Name (pod_Meta pod) = "" ∧
  (meta_GenerateName (pod_Meta pod) = job_Name j ∨
   meta_GenerateName (pod_Meta pod) = job_Name j +:+ "-") ∧
  meta_Labels (pod_Meta pod) = Some (genLabels j rt ∪ labels_of (meta_Labels (tpl_Meta tpl))) ∧
  meta_OwnerReferences (pod_Meta pod) = [NewControllerRef j SchemeGroupVersionKind] ∧
  Forall2 (container_of env) (ps_Containers (tpl_Spec tpl)) (ps_Containers (pod_Spec pod)) ∧
  ps_RestartPolicy (pod_Spec pod) = ps_RestartPolicy (tpl_Spec tpl).

(** What the cluster's answer to the creation of a pod means: success and timeout are both success. *)
Definition creation_error (r : Pod + error) : option error :=
  match r with
  | inl _ => None
  | inr e => if IsTimeout (Some e) then None else Some e
  end.
Definition creation_event (r : Pod + error) : request :=
  match r with
  | inl _ => RecordEvent EventTypeNormal SuccessfulCreatePodReason
  | inr _ => RecordEvent EventTypeWarning FailedCreatePodReason
  end.

Lemma labels_of_Some l : labels_of (Some l) = l.
Proof. done. Qed.

Section creation.
Context {W : Type} `{!Cluster W} `{!GoRuntime}.

Lemma append_env_containers env cs : Forall2 (container_of env) cs (append_env env <$> cs).
Proof.
  induction cs as [|c cs IH]; [constructor|]. cbn. constructor; [|exact IH].
  split_and!; try done. cbn. by rewrite map_range_perm.
Qed.

Lemma selector_not_empty (j : MXJob) rt (ls : Labels) :
  Selector_Empty (AsSelectorPreValidated (genLabels j rt ∪ ls)) = false.
Proof.
  rewrite AsSelectorPreValidated_Empty. apply bool_decide_eq_false_2. intros E.
  assert ((genLabels j rt ∪ ls) !! mxLabelGroupName = Some groupName) as Hl.
  { apply lookup_union_Some_l. by rewrite genLabels_lookup. }
  by rewrite E, lookup_empty in Hl.
Qed.

(** One creation request and its event; the result is the answer. *)
Lemma createNewPod_run j rt spec tpl (s : St W) :
  well_formed j → is_replica_type rt → spec_Template spec = Some tpl →
  ∃ env pod, genMXConfigEnv j rt s = Ret env s ∧ pod_of j rt tpl env pod ∧
    let '(r, w) := c_createPod (job_Namespace j) pod (world s) in
    ∃ w', createNewPod j rt spec s =
      Ret (creation_error r)
        (mkSt w' (trace s ++ [CreatePod (job_Namespace j) pod; creation_event r]) (pending s)).
Proof.
  intros [Hok Hname] Hrt Htpl. destruct (genMXConfigEnv_ok j rt s Hok) as [env Henv].
  destruct (getPodsPrefix_cases (job_Name j) s) as [[? _]|(pfx & Hpfx & Hp)]; [done|].
  eexists env, _. split; [done|]. split; cycle 1.
  - unfold createNewPod. rewrite Htpl, bind_deref, (bind_run _ _ _ _ _ Henv).
    unfold CreatePodsWithControllerRef, RealPodControl, real_CreatePodsWithControllerRef.
    rewrite NewControllerRef_valid. unfold createPods, GetPodFromTemplate.
    unfold mbind, M_bind. rewrite Hpfx. cbn -[Selector_Empty labels_of].
    rewrite (decide_False (P := str_len "" ≠ 0)) by (intros Hne; by apply Hne).
    cbn -[Selector_Empty labels_of].
    rewrite merge_labels_map, !labels_of_Some, selector_not_empty.
    unfold Pods_Create, send. cbn.
    match goal with |- context [c_createPod _ ?p _] => instantiate (1 := p) end. cbn.
    destruct (c_createPod _ _ _) as [[p|e] w]; cbn.
    + eexists. by rewrite <- app_assoc.
    + eexists. destruct (IsTimeout (Some e)); cbn; by rewrite <- app_assoc.
  - split_and!; try done. apply append_env_containers.
Qed.

Lemma creations_app l l' : creations (l ++ l') = creations l ++ creations l'.
Proof. apply omap_app. Qed.

(** What the creation of pods of a type of [j] sends. *)
Definition created_pods (j : MXJob) (rt : MXReplicaType) (tpl : PodTemplateSpec) (n : nat)
  (l : list request) : Prop :=
  Forall pod_creation l ∧ length (creations l) = n ∧
  Forall (λ c, c.1 = job_Namespace j ∧ ∃ env, pod_of j rt tpl env c.2) (creations l).

Lemma created_pods_app j rt tpl n n' l l' :
  created_pods j rt tpl n l → created_pods j rt tpl n' l' →
  created_pods j rt tpl (n + n') (l ++ l').
Proof.
  intros (H1 & H2 & H3) (H1' & H2' & H3'). split_and!; [by apply Forall_app | |].
  - rewrite creations_app, length_app. lia.
  - rewrite creations_app. by apply Forall_app.
Qed.

Lemma createNewPod_post j rt spec tpl (s : St W) :
  well_formed j → is_replica_type rt → spec_Template spec = Some tpl →
  post (createNewPod j rt spec)
    (λ _ s', ∃ l, trace s' = trace s ++ l ∧ created_pods j rt tpl 1 l ∧ pending s' = pending s)
    (λ _, False) s.
Proof.
  intros Hwf Hrt Htpl. destruct (createNewPod_run j rt spec tpl s Hwf Hrt Htpl) as
    (env & pod & _ & Hpod & Hrun).
  destruct (c_createPod _ _ _) as [r w]. destruct Hrun as [w' Hrun]. unfold post. rewrite Hrun.
  eexists. split; [done|]. split; [|done].
  split_and!; destruct r; repeat constructor; cbn; by eauto.
Qed.

Lemma create_pods_post j rt spec tpl active n (s : St W) :
  well_formed j → is_replica_type rt → spec_Template spec = Some tpl →
  post (create_pods j rt spec active n)
    (λ '(a, errs) s', ∃ l, trace s' = trace s ++ l ∧ created_pods j rt tpl (Z.to_nat n) l ∧
       pending s' = pending s ∧ (errs = [] → a = active)) (λ _, False) s.
Proof.
  intros Hwf Hrt Htpl. unfold create_pods. pose proof (go_order_perm (seq 0 (Z.to_nat n))) as Hp.
  apply Permutation_length in Hp. rewrite length_seq in Hp.
  eapply post_mono; [eapply (post_foldM _ (λ rest '(a, errs) s', ∃ k l, (k + length rest = Z.to_nat n)%nat ∧
    trace s' = trace s ++ l ∧ created_pods j rt tpl k l ∧ pending s' = pending s ∧
    (errs = [] → a = active)) (λ _, False)) | | done].
  - exists 0%nat, []. rewrite app_nil_r. by split_and!.
  - intros i rest [a errs] s1 (k & l & Hk & Ht & Hl & Hpd & Ha). apply post_bind.
    eapply post_mono; [by apply (createNewPod_post j rt spec tpl) | | done].
    intros err s2 (l2 & Ht2 & Hl2 & Hp2).
    assert (created_pods j rt tpl (k + 1) (l ++ l2)) as Hl3 by by apply created_pods_app.
    destruct err as [e|]; apply post_ret; exists (k + 1)%nat, (l ++ l2);
      rewrite Ht2, Ht, app_assoc; split_and!; try done; try congruence; cbn in Hk; try lia.
    intros E. by destruct errs.
  - intros [a errs] s' (k & l & Hk & Ht & Hl & Hpd & Ha). exists l. cbn in Hk.
    assert (Z.to_nat n = k) as -> by lia. by split_and!.
Qed.

(** [reconcilePods], creating or not: the pods created are the missing ones of a job that is not
    initialized. *)
Definition to_create (j : MXJob) (n : Z) (mine : list Pod) : nat :=
  if initialized j then 0 else Z.to_nat (missing n mine).

Lemma reconcilePods_post j pods rt spec tpl n (s : St W) :
  well_formed j → is_replica_type rt → spec_Replicas spec = Some n → spec_Template spec = Some tpl →
  sizes_ok n pods →
  let mine := pods_of_type rt pods in
  post (reconcilePods j pods rt spec)
    (λ '(err, j') s', ∃ l, trace s' = trace s ++ l ∧ pending s' = pending s ∧
       created_pods j rt tpl (to_create j n mine) l ∧ same_object j j' ∧
       (err = None → reported rt n (observe (initialized j) n mine) j j') ∧
       (is_Some err → st_Conditions (job_Status j') = st_Conditions (job_Status j)))
    (λ _, False) s.
Proof.
  intros Hwf Hrt Hn Htpl Hsz mine. unfold to_create.
  destruct (decide (initialized j = true ∨ missing n mine ≤ 0)) as [Hno|Hyes].
  { eapply quiet_post; [by apply (reconcilePods_observe j pods rt spec n)|].
    intros [err j'] s' [-> Hrep] Ht Hp. exists []. rewrite app_nil_r.
    assert ((if initialized j then 0%nat else Z.to_nat (missing n mine)) = 0%nat) as ->.
    { destruct Hno as [-> | ?]; [done|]. destruct (initialized j); [done|]. lia. }
    split_and!; try done; by destruct Hrep. }
  destruct (initialized j) eqn:Hi; [tauto|]. assert (0 < missing n mine) as Hmiss by lia.
  unfold reconcilePods.
  apply post_bind. unfold post at 1. rewrite filterPodsForMXReplicaType_run by done. fold mine.
  apply (sizes_ok_type _ _ rt) in Hsz. fold mine in Hsz.
  rewrite Hn. apply post_bind, post_deref_some. cbv zeta.
  rewrite (missing_int32 n mine Hsz), (active_int32 n mine Hsz).
  rewrite getMXReplicaStatus_initialize by done. apply post_bind, post_deref_some.
  destruct (Z.ltb_spec 0 (missing n mine)) as [_|]; [|lia].
  change (checkCondition _ MXJobInitialized) with (initialized j). rewrite Hi.
  rewrite int32_small.
  2:{ pose proof (FilterActivePods_length mine). pose proof (zlen_nonneg (FilterActivePods mine)).
      destruct Hsz. unfold missing, in_int32 in *. lia. }
  apply post_bind, post_bind. eapply post_mono; [by apply create_pods_post | | done].
  intros [a errs] s1 (l & Ht & Hl & Hp & Ha). apply post_ret.
  destruct errs as [|e errs]; [|apply post_ret; by exists l].
  rewrite (Ha eq_refl), (getStatus_exact n mine Hsz).
  assert (observe false n mine = mkMXReplicaStatus (zlen (FilterActivePods mine) + missing n mine)
    (filterPods mine PodSucceeded) (filterPods mine PodFailed) (rs_Gone empty_replica_status)) as <-
    by (unfold observe; cbn; by rewrite Z.max_r by lia).
  eapply quiet_post; [by apply (report_quiet rt n _ j)|].
  intros [err j'] s2 [-> Hrep] Ht2 Hp2. exists l. rewrite Ht2, Hp2.
  split_and!; try done; by destruct Hrep.
Qed.
End creation.

(** ** The service *)

(** What the answer to the creation of the service means. *)
Definition service_events (r : Service + error) : list request :=
  match r with
  | inl _ => [RecordEvent EventTypeNormal SuccessfulCreateServiceReason]
  | inr _ => [RecordEvent EventTypeWarning FailedCreateServiceReason]
  end.

Section service.
Context {W : Type} `{!Cluster W} `{!GoRuntime}.

Lemma scheduler_labels_not_empty j :
  Selector_Empty (AsSelectorPreValidated (genLabels j MXReplicaTypeScheduler)) = false.
Proof.
  rewrite AsSelectorPreValidated_Empty. apply bool_decide_eq_false_2. apply genLabels_not_empty.
Qed.

Lemma reconcileServices_run j services spec (s : St W) :
  let port := default defaultPsRootPort (spec_PsRootPort spec) in
  let '(r, w) := c_createService (job_Namespace j) (scheduler_service j port) (world s) in
  reconcileServices j services MXReplicaTypeScheduler spec s =
  match services with
  | [] =>
      Ret (match r with
           | inl _ => None
           | inr e => Some (Errorf "unable to create services: " (Some e))
           end)
        (mkSt (match r with
               | inl _ => c_event EventTypeNormal SuccessfulCreateServiceReason w
               | inr _ => c_event EventTypeWarning FailedCreateServiceReason w
               end)
           (trace s ++ CreateService (job_Namespace j) (scheduler_service j port) :: service_events r)
           (pending s))
  | _ => Ret None s
  end.
Proof.
  intros port. destruct (c_createService _ _ _) as [r w] eqn:Ec. unfold reconcileServices.
  rewrite decide_False by (intros Hne; by apply Hne).
  destruct services as [|svc services]; [|by rewrite zlen_cons; destruct (Z.eqb_spec (1 + zlen services) 0);
    [pose proof (zlen_nonneg services); lia|]].
  change (zlen [] =? 0) with true. cbn iota.
  unfold CreateServicesWithControllerRef, RealServiceControl, real_CreateServicesWithControllerRef.
  rewrite NewControllerRef_valid. unfold createServices.
  change (labels_of _) with (genLabels j MXReplicaTypeScheduler). rewrite scheduler_labels_not_empty.
  unfold mbind, M_bind, Services_Create, send. cbv beta.
  match goal with |- context [c_createService _ ?sv _] => change sv with (scheduler_service j port) end.
  rewrite Ec.
  destruct r as [svc|e]; cbn; by rewrite <- app_assoc.
Qed.
End service.

(** ** Properties *)

(** C13. [createNewPod] sends one request and one event: it creates, in the
    namespace of the job, a pod made from the template, with a generated name, the labels of the job
    and the replica type laid over those of the template, the job as its controller, and in every
    container the DMLC environment of the job added to the one of the template; it fails exactly if
    the server refuses the pod with something other than a timeout. *)
Theorem createNewPod_correct {W} `{!Cluster W} `{!GoRuntime} (j : MXJob) rt spec tpl servers workers
  (s : St W) :
  well_formed j → is_replica_type rt → spec_Template spec = Some tpl →
  wanted (job_specs j) MXReplicaTypeServer = Some servers →
  wanted (job_specs j) MXReplicaTypeWorker = Some workers →
  ∃ env pod, (∀ key, env !! key = env_spec j rt servers workers key) ∧ pod_of j rt tpl env pod ∧
    let '(r, _) := c_createPod (job_Namespace j) pod (world s) in
    ∃ w', createNewPod j rt spec s =
      Ret (creation_error r)
        (mkSt w' (trace s ++ [CreatePod (job_Namespace j) pod; creation_event r]) (pending s)).
Proof.
  intros Hwf Hrt Htpl Hs Hw.
  destruct (createNewPod_run j rt spec tpl s Hwf Hrt Htpl) as (env & pod & Henv & Hpod & Hrun).
  exists env, pod. split; [|by split].
  assert (is_Some (specs_Scheduler (job_specs j))) as Hsch.
  { destruct Hwf as [(H1 & _) _]. by destruct (specs_Scheduler _). }
  destruct (genMXConfigEnv_spec j rt servers workers s Hrt Hsch Hs Hw) as (env' & Henv' & Hspec).
  rewrite Henv in Henv'. by injection Henv' as <-.
Qed.

(** A worker of the example job. *)
Lemma createNewPod_correct_witness :
  ∃ env pod,
    (∀ key, env !! key = env_spec example_job MXReplicaTypeWorker 1 2 key) ∧
    pod_of example_job MXReplicaTypeWorker example_template env pod ∧
    let s := start (empty_cluster example_job) in
    let '(r, _) := c_createPod "default" pod (world s) in
    ∃ w', createNewPod example_job MXReplicaTypeWorker (example_spec 2) s =
      Ret (creation_error r) (mkSt w' ([] ++ [CreatePod "default" pod; creation_event r]) []).
Proof.
  apply (createNewPod_correct example_job MXReplicaTypeWorker (example_spec 2) example_template 1 2
    (start (empty_cluster example_job))).
  - apply (bool_decide_unpack _); by vm_compute.
  - apply (bool_decide_unpack _); by vm_compute.
  - reflexivity.
  - reflexivity.
  - reflexivity.
Defined.

(** C10. One replica type: as long as the job is not initialized exactly the
    missing pods are created, each from the template of the type and owned by the job, and never one
    afterwards; without error the status of the type counts what was observed, with missing pods as
    active before and as gone after initialization; with an error no condition changes. *)
Theorem reconcilePods_creates {W} `{!Cluster W} `{!GoRuntime} (j : MXJob) pods rt spec tpl n (s : St W) :
  well_formed j → is_replica_type rt → spec_Replicas spec = Some n → spec_Template spec = Some tpl →
  sizes_ok n pods →
  let mine := pods_of_type rt pods in
  post (reconcilePods j pods rt spec)
    (λ '(err, j') s', ∃ l, trace s' = trace s ++ l ∧ pending s' = pending s ∧
       zlen (creations l) = (if initialized j then 0 else Z.max 0 (n - zlen mine)) ∧
       Forall (λ c, c.1 = job_Namespace j ∧ ∃ env, pod_of j rt tpl env c.2) (creations l) ∧
       (err = None → getMXReplicaStatus j' rt = Some (observe (initialized j) n mine)) ∧
       (is_Some err → st_Conditions (job_Status j') = st_Conditions (job_Status j)))
    (λ _, False) s.
Proof.
  intros Hwf Hrt Hn Htpl Hsz. cbv zeta.
  eapply post_mono; [by apply (reconcilePods_post j pods rt spec tpl n) | | done].
  intros [err j'] s' (l & Ht & Hp & (Hk & Hlen & Hall) & _ & Hok & Herr). exists l.
  split_and!; try done.
  - unfold zlen at 1. rewrite Hlen. unfold to_create, missing. destruct (initialized j); lia.
  - intros He. destruct (Hok He) as (_ & Hsum & _).
    rewrite getMXReplicaStatus_of. change (st_ReplicaStatuses (job_Status j')) with
      (sm_statuses (summary_of j')). rewrite Hsum. unfold report. cbn.
    by destruct Hrt as [->|[->| ->]].
Qed.

(** The two workers of a fresh job. *)
Lemma reconcilePods_creates_witness :
  post (reconcilePods example_job [] MXReplicaTypeWorker (example_spec 2))
    (λ '(err, j') s', ∃ l, trace s' = [] ++ l ∧ pending s' = [] ∧
       zlen (creations l) = 2 ∧
       Forall (λ c, c.1 = "default" ∧
                    ∃ env, pod_of example_job MXReplicaTypeWorker example_template env c.2)
         (creations l) ∧
       (err = None → getMXReplicaStatus j' MXReplicaTypeWorker = Some (mkMXReplicaStatus 2 0 0 0)) ∧
       (is_Some err → st_Conditions (job_Status j') = []))
    (λ _, False) (start (empty_cluster example_job)).
Proof.
  apply (reconcilePods_creates example_job [] MXReplicaTypeWorker (example_spec 2) example_template 2
    (start (empty_cluster example_job))).
  - apply (bool_decide_unpack _); by vm_compute.
  - apply (bool_decide_unpack _); by vm_compute.
  - reflexivity.
  - reflexivity.
  - split; vm_compute; [split; [discriminate | reflexivity] | reflexivity].
Defined.

(** C28. The scheduler's service is created exactly when the job has no
    service: one request, with the selector of the scheduler pod and the root port of the spec or
    9091; otherwise nothing is sent.  An error of the server is returned wrapped, whatever its
    reason: a timeout is reported as a failure too, because the wrapping hides it from the test that
    was to tolerate it. *)
Theorem reconcileServices_correct {W} `{!Cluster W} `{!GoRuntime} (j : MXJob) services spec (s : St W) :
  let service := scheduler_service j (default defaultPsRootPort (spec_PsRootPort spec)) in
  let '(r, _) := c_createService (job_Namespace j) service (world s) in
  ∃ w', reconcileServices j services MXReplicaTypeScheduler spec s =
    (if decide (services = []) then
       Ret (match r with
            | inl _ => None
            | inr e => Some (Errorf "unable to create services: " (Some e))
            end)
         (mkSt w' (trace s ++ CreateService (job_Namespace j) service :: service_events r) (pending s))
     else Ret None s).
Proof.
  cbv zeta. pose proof (reconcileServices_run j services spec s) as Hrun. cbv zeta in Hrun.
  destruct (c_createService _ _ _) as [r w]. eexists. rewrite Hrun.
  by destruct services.
Qed.

(** ** What the processes in the pods read *)

(** The environment of a process in a container: of two entries with one name the later counts. *)
Definition container_env (c : Container) : Labels :=
  list_to_map (reverse ((λ e, (env_Name e, env_Value e)) <$> ctr_Env c)).
(** The place of a process in the parameter server, as MXNet reads it from its environment. *)
Record Topology := mkTopology {
  tp_root_uri : string; tp_root_port : Z; tp_servers : Z; tp_workers : Z; tp_role : string;
  tp_verbose : option Z }.
Definition read_int (env : Labels) (key : string) : option Z :=
  s ← env !! key; match ParseInt s with inl n => Some n | inr _ => None end.
Definition read_topology (env : Labels) : option Topology :=
  uri ← env !! "DMLC_PS_ROOT_URI"; port ← read_int env "DMLC_PS_ROOT_PORT";
  servers ← read_int env "DMLC_NUM_SERVER"; workers ← read_int env "DMLC_NUM_WORKER";
  role ← env !! "DMLC_ROLE";
  Some (mkTopology uri port servers workers role (read_int env "PS_VERBOSE")).

Lemma append_env_overrides `{!GoRuntime} (env : Labels) c :
  container_env (append_env env c) = env ∪ container_env c.
Proof.
  unfold container_env, append_env. cbn [ctr_Env]. rewrite fmap_app, reverse_app, list_to_map_app. f_equal.
  rewrite <- list_fmap_compose.
  assert (((λ e, (env_Name e, env_Value e)) ∘ (λ kv : string * string, mkEnvVar kv.1 kv.2)) <$> map_range env
          = map_range env) as ->.
  { rewrite <- list_fmap_id. apply list_fmap_ext. intros _ [k v] _. done. }
  rewrite <- (list_to_map_to_list (M := gmap string) env) at 2.
  assert (reverse (map_range env) ≡ₚ map_to_list env) as Hp by (rewrite reverse_Permutation; apply map_range_perm).
  apply list_to_map_proper; [|exact Hp]. rewrite Hp. apply NoDup_fst_map_to_list.
Qed.

Lemma read_int_format (env : Labels) key n :
  env !! key = Some (FormatInt n) → in_int64 n → read_int env key = Some n.
Proof. intros He Hn. unfold read_int. rewrite He. cbn. by rewrite format_ParseInt. Qed.

Lemma int32_int64 n : in_int32 n → in_int64 n.
Proof. unfold in_int32, in_int64. lia. Qed.

(** The numbers of a job are machine integers. *)
Definition numbers_ok (j : MXJob) (rt : MXReplicaType) : Prop :=
  in_int32 (root_port j) ∧ from_option in_int32 True (verbose_of j rt).

(** C39. A process in a container of a pod of the job reads from its environment
    what the job says: where the scheduler is, how many servers and workers there are, its role, and the
    verbosity if the job sets it for that role.  Variables of the same names in the pod template
    do not change it (a template may set the verbosity when the job does not). *)
Theorem environment_roundtrip `{!GoRuntime} {S} (j : MXJob) rt servers workers (c : Container) (s : S) :
  is_replica_type rt → is_Some (specs_Scheduler (job_specs j)) → numbers_ok j rt →
  wanted (job_specs j) MXReplicaTypeServer = Some servers → in_int32 servers →
  wanted (job_specs j) MXReplicaTypeWorker = Some workers → in_int32 workers →
  (verbose_of j rt = None → "PS_VERBOSE" ∉ env_Name <$> ctr_Env c) →
  ∃ env, genMXConfigEnv j rt s = Ret env s ∧
    read_topology (container_env (append_env env c)) =
      Some (mkTopology (job_Name j +:+ "-scheduler") (root_port j) servers workers rt (verbose_of j rt)).
Proof.
  intros Hrt Hsch [Hport Hverb] Hs Hs32 Hw Hw32 Hc.
  destruct (genMXConfigEnv_spec j rt servers workers s Hrt Hsch Hs Hw) as (env & Hrun & Hspec).
  exists env. split; [done|]. rewrite append_env_overrides.
  assert (∀ key v, env_spec j rt servers workers key = Some v → (env ∪ container_env c) !! key = Some v) as Hkey.
  { intros key v Hv. apply lookup_union_Some_l. by rewrite Hspec. }
  unfold read_topology. rewrite (Hkey "DMLC_PS_ROOT_URI" _ eq_refl). cbn.
  rewrite (read_int_format _ _ (root_port j) (Hkey "DMLC_PS_ROOT_PORT" _ eq_refl) (int32_int64 _ Hport)). cbn.
  rewrite (read_int_format _ _ servers (Hkey "DMLC_NUM_SERVER" _ eq_refl) (int32_int64 _ Hs32)). cbn.
  rewrite (read_int_format _ _ workers (Hkey "DMLC_NUM_WORKER" _ eq_refl) (int32_int64 _ Hw32)). cbn.
  rewrite (Hkey "DMLC_ROLE" _ eq_refl). cbn. do 2 f_equal. destruct (verbose_of j rt) as [v|] eqn:Hv.
  - apply read_int_format; [|by apply int32_int64]. apply Hkey. unfold env_spec. by rewrite Hv.
  - unfold read_int. assert ((env ∪ container_env c) !! "PS_VERBOSE" = None) as ->; [|done].
    apply lookup_union_None. split; [rewrite Hspec; unfold env_spec; by rewrite Hv|].
    unfold container_env. apply not_elem_of_list_to_map_1. rewrite fmap_reverse, <- list_fmap_compose.
    rewrite elem_of_reverse. by apply Hc.
Qed.

(** A worker of the example job, with a template that sets the role itself. *)
Lemma environment_roundtrip_witness :
  ∃ env, genMXConfigEnv example_job MXReplicaTypeWorker tt = Ret env tt ∧
    read_topology (container_env (append_env env
      (mkContainer "mxnet" "mxnet:1.0" [] [mkEnvVar "DMLC_ROLE" "scheduler"]))) =
      Some (mkTopology "train-scheduler" 9091 1 2 "worker" None).
Proof.
  apply (environment_roundtrip example_job MXReplicaTypeWorker 1 2
    (mkContainer "mxnet" "mxnet:1.0" [] [mkEnvVar "DMLC_ROLE" "scheduler"]) tt);
    try (apply (bool_decide_unpack _); by vm_compute); try done.
Defined.
