(* ===== verification/Pass.v ===== *)
(** * The pass

    [pass] is the abstract effect of [reconcileMXJobs] on the summary of a job, given the pods found;
    [pass_done] says what else the pass does: the pods it creates and deletes, the job it stores, the
    hooks it starts.  [reconcileMXJobs_pass] shows that the code implements it.  The theorems about
    lost pods and completion are read off [pass]. *)
From S2P Require Import Prelude Types Runtime Api RefCluster Labels Naming Replicas Conditions.
From S2P Require Import JobStatus Controls RefManager Handler Footprint Reconcile Creation.

(** ** Specification *)
Definition report_spec (init : bool) (rt : MXReplicaType) (spec : option MXReplicaSpec)
  (pods : list Pod) (a : summary) : summary :=
  match spec ≫= spec_Replicas with
  | Some n => report rt n (observe init n (pods_of_type rt pods)) a
  | None => a
  end.
Definition observed (init : bool) (specs : MXReplicaSpecs) (pods : list Pod) (a : summary) : summary :=
  report_spec init MXReplicaTypeWorker (specs_Worker specs) pods
    (report_spec init MXReplicaTypeServer (specs_Server specs) pods
       (report_spec init MXReplicaTypeScheduler (specs_Scheduler specs) pods a)).
Definition summary_finished (a : summary) : bool :=
  v_succeeded (w_verdict (sm_view a)) || v_failed (w_verdict (sm_view a)).
(** Observe; when that finishes the job, the active pods go. *)
Definition pass (init : bool) (specs : MXReplicaSpecs) (pods : list Pod) (a : summary) : summary :=
  let a' := observed init specs pods a in
  if summary_finished a'
  then mkSummary (sm_view a') (kill (FilterActivePods pods) (sm_statuses a'))
  else a'.

Lemma pass_view init specs pods a :
  sm_view (pass init specs pods a) = sm_view (observed init specs pods a).
Proof. unfold pass. cbv zeta. by destruct (summary_finished _). Qed.

(** The pods of type [rt] that a pass creates: the missing ones, each made from the template. *)
Definition created_for (j : MXJob) (pods : list Pod) (rt : MXReplicaType)
  (cs : list (string * Pod)) : Prop :=
  ∃ spec n tpl, replica_spec j rt = Some spec ∧ spec_Replicas spec = Some n ∧
    spec_Template spec = Some tpl ∧ length cs = to_create j n (pods_of_type rt pods) ∧
    Forall (λ c, c.1 = job_Namespace j ∧ ∃ env, pod_of j rt tpl env c.2) cs.
Definition created_types (j : MXJob) (pods : list Pod) (rts : list MXReplicaType)
  (cs : list (string * Pod)) : Prop :=
  ∃ css, Forall2 (created_for j pods) rts css ∧ cs = concat css.
(** The replica types in the order of the pass. *)
Definition pass_order : list MXReplicaType :=
  [MXReplicaTypeScheduler; MXReplicaTypeServer; MXReplicaTypeWorker].

(** The start hook, started with the job [js] when the pass initializes the job; the finish hook,
    started with a finished job. *)
Definition start_call (j js : MXJob) : list goroutine :=
  if initialized j then []
  else match jobspec_StartWebhook (job_Spec j) with Some wh => [CallHook wh js] | None => [] end.
Definition finish_call (j : MXJob) : list goroutine :=
  if finished j then
    match jobspec_FinishWebhook (job_Spec j) with Some wh => [CallHook wh j] | None => [] end
  else [].

(** The job as it is when the hooks are considered: initialized, with what was observed. *)
Definition settled (j : MXJob) (pods : list Pod) (js : MXJob) : Prop :=
  same_object j js ∧ conditions_wf (job_Status js) ∧ initialized js = true ∧
  summary_of js = observed (initialized j) (job_specs j) pods (summary_of j).

(** What a pass over [j] that found [pods] did: the requests [l], the goroutines [gs], the error
    [err].  Either it gave up before it stored anything, after the creations for some of the types,
    or it reached the status of [pass]. *)
Definition pass_done (j : MXJob) (pods : list Pod) (err : option error) (l : list request)
  (gs : list goroutine) : Prop :=
  (is_Some err ∧ stored l = [] ∧ (∃ k, created_types j pods (take k pass_order) (creations l)) ∧
   (gs = [] ∨ ∃ js, settled j pods js ∧ finished js = true ∧ gs = start_call j js)) ∨
  (created_types j pods pass_order (creations l) ∧
   ∃ js j', settled j pods js ∧ same_object j j' ∧ conditions_wf (job_Status j') ∧
     initialized j' = true ∧
     summary_of j' = pass (initialized j) (job_specs j) pods (summary_of j) ∧
     stored l = (if decide (job_Status j = job_Status j') then [] else [j']) ∧
     deletions l ≡ₚ (if finished j' then pod_key <$> FilterActivePods pods else []) ∧
     gs = start_call j js ++ finish_call j').

(** ** Lemmas *)
Lemma omap_nothing {A B} (f : A → option B) (l : list A) :
  Forall (λ x, f x = None) l → omap f l = [].
Proof. induction 1 as [|x l Hx _ IH]; [done|]. cbn. by rewrite Hx. Qed.

Lemma quiet_kinds (K : request → Prop) l :
  (∀ r, K r → match r with UpdateMXJob _ | CreatePod _ _ | DeletePodReq _ _ => False | _ => True end) →
  Forall K l → stored l = [] ∧ creations l = [] ∧ deletions l = [].
Proof.
  intros HK Hl. split_and!; apply omap_nothing; (eapply Forall_impl; [exact Hl|]);
    intros [] Hr; try done; by destruct (HK _ Hr).
Qed.

Lemma quiet_kinds_creation l : Forall pod_creation l → stored l = [] ∧ deletions l = [].
Proof.
  intros Hl. split; apply omap_nothing; (eapply Forall_impl; [exact Hl|]); by intros [].
Qed.

Lemma deletion_kinds l : Forall pod_deletion l → stored l = [] ∧ creations l = [].
Proof.
  intros Hl. split; apply omap_nothing; (eapply Forall_impl; [exact Hl|]); by intros [].
Qed.

Lemma stored_app l l' : stored (l ++ l') = stored l ++ stored l'.
Proof. apply omap_app. Qed.

Lemma created_types_app j pods rts rts' cs cs' :
  created_types j pods rts cs → created_types j pods rts' cs' →
  created_types j pods (rts ++ rts') (cs ++ cs').
Proof.
  intros (css & H & ->) (css' & H' & ->). exists (css ++ css').
  split; [by apply Forall2_app | by rewrite concat_app].
Qed.

Section pass.
Context {W : Type} `{!Cluster W} `{!GoRuntime}.

(** [j'] is [j] with the status [a]. *)
Definition became (j : MXJob) (a : summary) (j' : MXJob) : Prop :=
  same_object j j' ∧ summary_of j' = a ∧ conditions_wf (job_Status j') ∧
  (∀ t, ¬ managed t → getCondition (job_Status j') t = getCondition (job_Status j) t).

Lemma became_initialized j a j' : became j a j' → initialized j' = initialized j.
Proof.
  intros (_ & _ & _ & Hc). unfold initialized, checkCondition. rewrite Hc; [done|].
  unfold managed. intros [H1|[H1|H1]]; discriminate.
Qed.

Lemma became_reported j a rt n rs j1 j2 :
  became j a j1 → reported rt n rs j1 j2 → became j (report rt n rs a) j2.
Proof.
  intros (Hs & Ha & Hw & Hc) (Hs' & Ha' & Hw' & Hc'). split_and!.
  - by transitivity j1.
  - by rewrite Ha', Ha.
  - auto.
  - intros t Ht. by rewrite Hc', Hc.
Qed.

(** The specs of the job that make the pass total. *)
Definition pass_ok (j : MXJob) (pods : list Pod) : Prop :=
  well_formed j ∧ conditions_wf (job_Status j) ∧ zlen pods < 2 ^ 31.

#[export] Instance pass_ok_dec j pods : Decision (pass_ok j pods).
Proof. unfold pass_ok. apply _. Defined.

Lemma spec_ok_some spec : spec_ok spec →
  ∃ sp n tpl, spec = Some sp ∧ spec_Replicas sp = Some n ∧ 0 ≤ n < 2 ^ 31 ∧
    spec_Template sp = Some tpl.
Proof. destruct spec as [sp|]; [|done]. intros [(n & Hn & ?) [tpl ?]]. by exists sp, n, tpl. Qed.

(** What was sent between two states is the creations for the types [rts] and requests of the kinds
    [K], and no goroutine was started. *)
Definition made (j : MXJob) (pods : list Pod) (rts : list MXReplicaType) (s s' : St W) : Prop :=
  ∃ l, trace s' = trace s ++ l ∧ pending s' = pending s ∧ stored l = [] ∧ deletions l = [] ∧
    created_types j pods rts (creations l).

Lemma made_quiet j pods s s' : trace s' = trace s → pending s' = pending s → made j pods [] s s'.
Proof. intros Ht Hp. exists []. rewrite app_nil_r. split_and!; try done. by exists []. Qed.

Lemma made_trans j pods rts rts' s1 s2 s3 :
  made j pods rts s1 s2 → made j pods rts' s2 s3 → made j pods (rts ++ rts') s1 s3.
Proof.
  intros (l & Ht & Hp & Hst & Hd & Hc) (l' & Ht' & Hp' & Hst' & Hd' & Hc'). exists (l ++ l').
  rewrite Ht', Ht, app_assoc, stored_app, deletions_app, creations_app, Hst, Hst', Hd, Hd'.
  split_and!; try done; [congruence | by apply created_types_app].
Qed.

(** Requests that store, create and delete nothing. *)
Definition neutral (r : request) : Prop :=
  match r with UpdateMXJob _ | CreatePod _ _ | DeletePodReq _ _ => False | _ => True end.

Lemma safe_made {A} j pods R K X (m : M (St W) A) Q s :
  safe (λ r, R r ∧ K r) (λ _, False) X m Q → ¬ X → (∀ r, K r → neutral r) →
  post m (λ a s', Q a ∧ made j pods [] s s') (λ _, False) s.
Proof.
  intros Hm HX HK. eapply post_mono; [apply Hm | | by intros s' [? _]].
  intros a s' [HQ (l & gs & Ht & Hl & Hp & Hg)]. split; [done|]. exists l.
  destruct (quiet_kinds (λ r, R r ∧ K r) l) as (Hst & Hc & Hd); [| done |].
  { intros r [_ Hr%HK]. done. }
  split_and!; try done.
  - destruct gs as [|g gs]; [by rewrite app_nil_r in Hp|]. by apply Forall_cons in Hg as [[] _].
  - rewrite Hc. by exists [].
Qed.

(** *** One type *)
Lemma pod_of_same j j1 rt tpl env pod :
  same_object j j1 → pod_of j1 rt tpl env pod → pod_of j rt tpl env pod.
Proof.
  intros Hs. unfold pod_of. by rewrite (same_name j), (same_labels j), (same_ref j) by done.
Qed.

Lemma reconcilePods_became j a j1 pods rt sp (s : St W) :
  pass_ok j pods → became j a j1 → is_replica_type rt → replica_spec j rt = Some sp →
  spec_ok (Some sp) →
  post (reconcilePods j1 pods rt sp)
    (λ '(err, j2) s', made j pods [rt] s s' ∧ same_object j j2 ∧
       (err = None → became j (report_spec (initialized j) rt (Some sp) pods a) j2))
    (λ _, False) s.
Proof.
  intros (Hwf & Hcw & Hp) Hb Hrt Hsp Hok.
  destruct (spec_ok_some _ Hok) as (? & n & tpl & [= <-] & Hn & Hr & Htpl).
  pose proof (became_initialized _ _ _ Hb) as Hi. pose proof Hb as (Hs & _).
  eapply post_mono; [apply (reconcilePods_post j1 pods rt sp tpl n);
    [by apply (same_well_formed j) | done..] | | done].
  intros [err j2] s' (l & Ht & Hpd & (Hk & Hlen & Hall) & Hs2 & Hrep & _). split_and!.
  - exists l. destruct (quiet_kinds_creation l Hk) as [Hst Hd]. split_and!; try done.
    exists [creations l]. split; [|cbn; by rewrite app_nil_r]. repeat constructor.
    exists sp, n, tpl. split_and!; try done.
    + rewrite Hlen. unfold to_create. by rewrite Hi.
    + eapply Forall_impl; [exact Hall|]. intros c [-> [env Henv]].
      split; [by apply same_namespace | exists env; by apply (pod_of_same j j1)].
  - by transitivity j1.
  - intros He. unfold report_spec. cbn. rewrite Hn. eapply became_reported; [done|].
    rewrite <- Hi. by apply Hrep.
Qed.

Lemma reconcile_scheduler_became j pods (s : St W) :
  pass_ok j pods →
  post (reconcile_scheduler j pods)
    (λ '(err, j1) s', made j pods [MXReplicaTypeScheduler] s s' ∧
       (err = None → became j (report_spec (initialized j) MXReplicaTypeScheduler
                       (specs_Scheduler (job_specs j)) pods (summary_of j)) j1)) (λ _, False) s.
Proof.
  intros Hok. pose proof Hok as (Hwf & Hcw & Hp). unfold reconcile_scheduler.
  assert (spec_ok (specs_Scheduler (job_specs j))) as Hspec by by destruct Hwf as [(? & _) _].
  destruct (specs_Scheduler (job_specs j)) as [sp|] eqn:Hsp; [|done].
  apply post_bind. eapply post_mono; [apply (reconcilePods_became j (summary_of j) j pods
    MXReplicaTypeScheduler sp); [done | by split_and! | by left | done | done] | | done].
  intros [err j1] s1 (Hm1 & Hs1 & Hb). destruct err as [err|]; [by apply post_ret|].
  specialize (Hb eq_refl). cbn beta iota. apply post_bind.
  eapply post_mono; [eapply (safe_made j pods); [apply (getServicesForMXJob_safe j j1 (¬ well_formed j) Hs1) | tauto |] | | done].
  { by intros []. }
  intros [services err] s2 [_ Hm2]. pose proof (made_trans _ _ _ _ _ _ _ Hm1 Hm2) as Hm12.
  destruct err as [err|]; [by apply post_ret|]. apply post_bind.
  eapply post_mono; [eapply (safe_made j pods); [apply (reconcileServices_safe j [] j1 services
    MXReplicaTypeScheduler sp Hs1) | tauto |] | | done].
  { by intros []. }
  intros err s3 [_ Hm3]. apply post_ret. split; [|done].
  exact (made_trans _ _ _ _ _ _ _ Hm12 Hm3).
Qed.

Lemma reconcile_optional_became j a j1 pods rt spec (s : St W) :
  pass_ok j pods → spec_ok spec → is_replica_type rt → replica_spec j rt = spec → became j a j1 →
  post (reconcile_optional j1 pods rt spec)
    (λ '(err, j2) s', made j pods [rt] s s' ∧
       (err = None → became j (report_spec (initialized j) rt spec pods a) j2)) (λ _, False) s.
Proof.
  intros Hok Hspec Hrt Hsp Hb. destruct spec as [sp|]; [|done].
  eapply post_mono; [by eapply reconcilePods_became | | done].
  intros [err j2] s' (? & _ & ?). done.
Qed.

(** *** The counters after observing *)
Lemma observed_status init specs pods a rt n :
  wanted specs rt = Some n → is_replica_type rt →
  status_of (sm_statuses (observed init specs pods a)) rt =
    Some (observe init n (pods_of_type rt pods)).
Proof.
  unfold observed, report_spec, report. intros Hn [->|[->| ->]];
    [ change (specs_Scheduler specs ≫= spec_Replicas = Some n) in Hn
    | change (specs_Server specs ≫= spec_Replicas = Some n) in Hn
    | change (specs_Worker specs ≫= spec_Replicas = Some n) in Hn ];
    rewrite Hn; repeat case_match; done.
Qed.

Lemma active_of_type rt pods :
  pods_of_type rt (FilterActivePods pods) = FilterActivePods (pods_of_type rt pods).
Proof.
  rewrite !FilterActivePods_filter. unfold pods_of_type.
  rewrite !list_filter_filter. apply list_filter_iff. tauto.
Qed.

Lemma wanted_some j rt :
  job_ok j → is_replica_type rt → ∃ n, wanted (job_specs j) rt = Some n ∧ 0 ≤ n < 2 ^ 31.
Proof.
  intros (H1 & H2 & H3) Hrt. unfold wanted.
  destruct Hrt as [->|[->| ->]]; cbn.
  - destruct (spec_ok_some _ H1) as (? & n & ? & -> & ? & ? & _). by exists n.
  - destruct (spec_ok_some _ H2) as (? & n & ? & -> & ? & ? & _). by exists n.
  - destruct (spec_ok_some _ H3) as (? & n & ? & -> & ? & ? & _). by exists n.
Qed.

Lemma room_observed init j pods a :
  job_ok j → zlen pods < 2 ^ 31 →
  room (FilterActivePods pods) (sm_statuses (observed init (job_specs j) pods a)).
Proof.
  intros Hok Hp. assert (∀ rt, is_replica_type rt → room_for (FilterActivePods pods)
    (sm_statuses (observed init (job_specs j) pods a)) rt) as Hall;
    [|by split_and!; apply Hall; unfold is_replica_type; auto].
  intros rt Hrt. destruct (wanted_some j rt Hok Hrt) as (n & Hn & Hr). unfold room_for.
  rewrite (observed_status _ _ _ _ _ n Hn Hrt), active_of_type. unfold observe, missing. cbn.
  pose proof (FilterActivePods_length (pods_of_type rt pods)).
  pose proof (pods_of_type_length rt pods). pose proof (zlen_nonneg (pods_of_type rt pods)).
  pose proof (zlen_nonneg (FilterActivePods (pods_of_type rt pods))). destruct init; lia.
Qed.

(** *** Initialization *)
Lemma settle j pods j3 (s : St W) :
  became j (observed (initialized j) (job_specs j) pods (summary_of j)) j3 →
  post (if negb (checkCondition (job_Status j3) MXJobInitialized) then
          j4 ← updateMXJobConditions j3 MXJobInitialized MXJobReasonInitialized
                 ("MXJob " +:+ job_Name j3 +:+ " is initialized.");
          callHookAsync j4 true;;
          mret j4
        else mret j3)
    (λ js s', settled j pods js ∧ trace s' = trace s ∧ pending s' = pending s ++ start_call j js)
    (λ _, False) s.
Proof.
  intros Hb. change (checkCondition _ MXJobInitialized) with (initialized j3).
  unfold start_call. rewrite (became_initialized _ _ _ Hb). destruct Hb as (Hs & Hsum & Hw & Hc).
  destruct (initialized j) eqn:Hi; cbn [negb].
  { apply post_ret. rewrite app_nil_r. split; [|done].
    unfold settled. rewrite Hi. split_and!; try done.
    rewrite <- Hi. unfold initialized, checkCondition. rewrite Hc; [done|].
    unfold managed. intros [H1|[H1|H1]]; discriminate. }
  apply post_bind. eapply quiet_post; [apply update_true|].
  intros js s1 (Hs3 & Hr3 & Hw3 & Ht3 & Hc3 & Hst3 & Hct3) Ht Hp.
  assert (settled j pods js) as Hset.
  { split_and!; [by transitivity j3 | auto | done |].
    rewrite Hi, <- Hsum. unfold summary_of, job_view, job_verdict, running_noted, checkCondition.
    by rewrite Hr3, Hst3, Hct3, !Hc3. }
  apply post_bind. unfold callHookAsync.
  assert (job_Spec js = job_Spec j) as -> by (by destruct (transitivity Hs Hs3) as (_ & _ & ->)).
  destruct (jobspec_StartWebhook _) as [wh|].
  - unfold post at 1. cbn. rewrite Ht, Hp. by split_and!.
  - apply post_ret, post_ret. by rewrite app_nil_r.
Qed.

(** *** The end of the pass *)
Lemma callHook_finish j (s : St W) :
  finished j = true →
  post (callHookAsync j false)
    (λ _ s', trace s' = trace s ∧ pending s' = pending s ++ finish_call j) (λ _, False) s.
Proof.
  intros Hf. unfold callHookAsync, finish_call. rewrite Hf.
  destruct (jobspec_FinishWebhook _); [done|]. apply post_ret. by rewrite app_nil_r.
Qed.

(** What is known between the initialization and the end: the requests [l] and goroutines so far. *)
Definition under_way (j : MXJob) (pods : list Pod) (js : MXJob) (l : list request) (s0 s : St W)
  : Prop :=
  settled j pods js ∧ trace s = trace s0 ++ l ∧ pending s = pending s0 ++ start_call j js ∧
  stored l = [] ∧ created_types j pods pass_order (creations l).

(** The last step, from a job [j4] whose summary is that of the pass. *)
Lemma store_done j pods js j4 l (s0 s4 : St W) :
  settled j pods js → same_object j j4 → conditions_wf (job_Status j4) → initialized j4 = true →
  summary_of j4 = pass (initialized j) (job_specs j) pods (summary_of j) →
  trace s4 = trace s0 ++ l → pending s4 = pending s0 ++ start_call j js ++ finish_call j4 →
  stored l = [] → created_types j pods pass_order (creations l) →
  deletions l ≡ₚ (if finished j4 then pod_key <$> FilterActivePods pods else []) →
  post (if decide (job_Status j = job_Status j4) then mret (None, j4) else sdk_Update j4)
    (λ '(err, _) s', ∃ l gs, trace s' = trace s0 ++ l ∧ pending s' = pending s0 ++ gs ∧
       pass_done j pods err l gs) (λ _, False) s4.
Proof.
  intros Hset Hs4 Hw4 Hi4 Hsum Ht4 Hp4 Hst4 Hcr4 Hde4. case_decide as Hsame.
  - apply post_ret. exists l, (start_call j js ++ finish_call j4). split_and!; try done. right.
    split; [done|]. exists js, j4. rewrite decide_True by done. by split_and!.
  - apply post_bind, post_send. intros r w _.
    assert (pass_done j pods (match r with inl _ => None | inr e => Some e end)
              (l ++ [UpdateMXJob j4]) (start_call j js ++ finish_call j4)) as Hdone.
    { right. rewrite creations_app, app_nil_r. split; [done|].
      exists js, j4. rewrite decide_False by done. split_and!; try done.
      - by rewrite stored_app, Hst4.
      - rewrite deletions_app. cbn. by rewrite app_nil_r. }
    destruct r as [j5|e]; apply post_ret;
      exists (l ++ [UpdateMXJob j4]), (start_call j js ++ finish_call j4); cbn;
      rewrite Ht4, <- app_assoc; by split_and!.
Qed.

(** From the settled job to the end of [reconcileMXJobs]. *)
Lemma reconcile_end j pods js l0 (s0 s : St W) :
  pass_ok j pods → under_way j pods js l0 s0 s → deletions l0 = [] →
  post
    ('(err, j4) ←
       (if IsJobFinished (job_Status js) then
          '(err, j4) ← terminateMXJob js pods;
          match err with
          | Some err => mret (Some err, j4)
          | None => callHookAsync j4 false;; mret (None, j4)
          end
        else mret (None, js));
     match err with
     | Some err => mret (Some err, j4)
     | None =>
         if decide (job_Status j = job_Status j4) then mret (None, j4) else sdk_Update j4
     end)
    (λ '(err, _) s', ∃ l gs, trace s' = trace s0 ++ l ∧ pending s' = pending s0 ++ gs ∧
       pass_done j pods err l gs) (λ _, False) s.
Proof.
  intros Hok (Hset & Ht0 & Hp0 & Hst & Hcr) Hde. pose proof Hset as (Hs & Hw & Hi & Hsum).
  pose proof (finished_verdict js Hw) as Hfin. fold (finished js).
  change (finished js = summary_finished (summary_of js)) in Hfin. rewrite Hsum in Hfin.
  destruct (finished js) eqn:Hf; apply post_bind.
  2:{ apply post_ret. apply (store_done j pods js js l0); try done.
      - unfold pass. by rewrite <- Hfin.
      - unfold finish_call. by rewrite Hf, app_nil_r.
      - by rewrite Hf, Hde. }
  assert (st_ReplicaStatuses (job_Status js) =
    sm_statuses (observed (initialized j) (job_specs j) pods (summary_of j))) as Hsts
    by exact (f_equal sm_statuses Hsum).
  apply post_bind. eapply post_mono; [apply terminateMXJob_post | | done].
  { rewrite Hsts. destruct Hok as ([? _] & _ & ?). by apply room_observed. }
  intros [err j4] s4 [-> (l1 & Ht4 & Hd4 & Hk4 & Hp4)]. rewrite Hsts.
  destruct (deletion_kinds l1 Hk4) as [Hst4 Hcr4]. set (j4 := with_statuses _ js).
  assert (stored (l0 ++ l1) = []) as Hst5 by by rewrite stored_app, Hst, Hst4.
  assert (creations (l0 ++ l1) = creations l0) as Hcr5 by by rewrite creations_app, Hcr4, app_nil_r.
  destruct err as [err|].
  { apply post_ret, post_ret. exists (l0 ++ l1), (start_call j js).
    rewrite Ht4, Ht0, Hp4, Hp0, app_assoc. split_and!; try done. left. split_and!; try done.
    - exists 3%nat. by rewrite Hcr5.
    - right. by exists js. }
  apply post_bind. eapply post_mono; [by apply callHook_finish | | done].
  intros _ s5 [Ht5 Hp5]. apply post_ret. apply (store_done j pods js j4 (l0 ++ l1)); try done.
  - unfold pass, j4. by rewrite <- Hfin, <- Hsum.
  - by rewrite Ht5, Ht4, Ht0, app_assoc.
  - by rewrite Hp5, Hp4, Hp0, app_assoc.
  - by rewrite Hcr5.
  - change (finished j4) with (finished js). rewrite Hf, deletions_app, Hde. exact Hd4.
Qed.

Lemma gave_up j pods k e (s s' : St W) :
  made j pods (take k pass_order) s s' →
  ∃ l gs, trace s' = trace s ++ l ∧ pending s' = pending s ++ gs ∧ pass_done j pods (Some e) l gs.
Proof.
  intros (l & Ht & Hp & Hst & _ & Hc). exists l, []. rewrite app_nil_r. split_and!; try done.
  left. split_and!; try done; [by exists k | by left].
Qed.

(** The whole pass, once the pods are known. *)
Lemma reconcileMXJobs_pass j pods (s s1 : St W) :
  pass_ok j pods → getPodsForMXJob j s = Ret (pods, None) s1 →
  post (reconcileMXJobs j)
    (λ '(err, _) s', ∃ l gs, trace s' = trace s ++ l ∧ pending s' = pending s ++ gs ∧
       pass_done j pods err l gs) (λ _, False) s.
Proof.
  intros Hok Hpods. pose proof Hok as (Hwf & Hcw & Hlen).
  pose proof Hwf as ((Hsp1 & Hsp2 & Hsp3) & Hname).
  assert (made j pods [] s s1) as Hm.
  { pose proof (safe_made j pods _ _ _ _ _ s (getPodsForMXJob_safe j j (¬ well_formed j) (reflexivity j)) ltac:(tauto)
      ltac:(by intros [])) as H1.
    unfold post in H1. rewrite Hpods in H1. by destruct H1. }
  unfold reconcileMXJobs. unfold post. rewrite (bind_run _ _ _ _ _ Hpods). cbn beta iota.
  clear Hpods. apply post_bind. eapply post_mono; [by apply reconcile_scheduler_became | | done].
  intros [err j1] s2 [Hm1 Hb1]. pose proof (made_trans _ _ _ _ _ _ _ Hm Hm1) as Hm'.
  destruct err as [err|]; [by apply post_ret, (gave_up j pods 1)|]. specialize (Hb1 eq_refl).
  assert (job_specs j1 = job_specs j) as -> by (apply same_specs; by destruct Hb1).
  apply post_bind. eapply post_mono; [eapply reconcile_optional_became;
    [done | done | by right; left | done | done] | | done].
  intros [err j2] s3 [Hm2 Hb2]. apply (made_trans _ _ _ _ _ _ _ Hm') in Hm2.
  destruct err as [err|]; [by apply post_ret, (gave_up j pods 2)|]. specialize (Hb2 eq_refl).
  assert (job_specs j2 = job_specs j) as -> by (apply same_specs; by destruct Hb2).
  apply post_bind. eapply post_mono; [eapply reconcile_optional_became;
    [done | done | by right; right | done | done] | | done].
  intros [err j3] s4 [Hm3 Hb3]. apply (made_trans _ _ _ _ _ _ _ Hm2) in Hm3.
  destruct err as [err|]; [by apply post_ret, (gave_up j pods 3)|]. specialize (Hb3 eq_refl).
  cbn beta iota. apply post_bind. eapply post_mono; [by apply settle | | done].
  intros js s5 (Hset & Ht5 & Hp5). destruct Hm3 as (l & Ht & Hp & Hst & Hd & Hc).
  eapply (reconcile_end j pods js l); [done | | done].
  split_and!; try done; congruence.
Qed.
End pass.

(** ** The verdict of a pass *)

(** Some of the [n] pods wanted failed, or are not there although the job was initialized. *)
Definition lost (init : bool) (n : Z) (mine : list Pod) : bool :=
  (0 <? filterPods mine PodFailed) || (init && (0 <? missing n mine)).
(** [n] of the pods succeeded. *)
Definition all_succeeded (n : Z) (mine : list Pod) : bool := filterPods mine PodSucceeded =? n.

Lemma report_verdict init rt n mine a :
  0 ≤ n < 2 ^ 31 → zlen mine < 2 ^ 31 →
  w_verdict (sm_view (report rt n (observe init n mine) a)) =
  verdict_step (bool_decide (rt = MXReplicaTypeWorker) && all_succeeded n mine) (lost init n mine)
    (w_verdict (sm_view a)).
Proof.
  intros Hn Hm. unfold report, status_view, status_verdict, observe, all_succeeded, lost. cbn.
  pose proof (filterPods_bounds mine PodSucceeded). rewrite int32_small by (unfold in_int32; lia).
  f_equal.
  - f_equal. destruct (Z.eqb_spec (n - filterPods mine PodSucceeded) 0), (Z.eqb_spec
      (filterPods mine PodSucceeded) n); try done; lia.
  - f_equal. destruct init; [|done].
    destruct (Z.ltb_spec 0 (Z.max 0 (missing n mine))), (Z.ltb_spec 0 (missing n mine)); try done; lia.
Qed.

(** Types and counts of a job, in the order of the pass. *)
Definition lost_type (init : bool) (specs : MXReplicaSpecs) (pods : list Pod) (rt : MXReplicaType)
  : bool :=
  match wanted specs rt with Some n => lost init n (pods_of_type rt pods) | None => false end.
Definition workers_done (specs : MXReplicaSpecs) (pods : list Pod) : bool :=
  match wanted specs MXReplicaTypeWorker with
  | Some n => all_succeeded n (pods_of_type MXReplicaTypeWorker pods)
  | None => false
  end.

(** Some type lost a pod. *)
Definition lost_any (init : bool) (specs : MXReplicaSpecs) (pods : list Pod) : bool :=
  existsb (lost_type init specs pods) pass_order.

Lemma observed_verdict init j pods a :
  job_ok j → zlen pods < 2 ^ 31 → summary_finished a = false →
  w_verdict (sm_view (observed init (job_specs j) pods a)) =
  mkVerdict (workers_done (job_specs j) pods)
    (negb (workers_done (job_specs j) pods) && lost_any init (job_specs j) pods).
Proof.
  intros Hok Hp Hf. unfold observed, report_spec, lost_any, existsb, pass_order, lost_type, workers_done.
  destruct (wanted_types (job_specs j)) as (-> & -> & ->).
  destruct Hok as (H1 & H2 & H3).
  destruct (spec_ok_some _ H1) as (sp1 & n1 & ? & -> & E1 & R1 & _).
  destruct (spec_ok_some _ H2) as (sp2 & n2 & ? & -> & E2 & R2 & _).
  destruct (spec_ok_some _ H3) as (sp3 & n3 & ? & -> & E3 & R3 & _).
  cbn -[report observe lost all_succeeded]. rewrite E1, E2, E3.
  cbn -[report observe lost all_succeeded].
  pose proof (λ rt, pods_of_type_length rt pods) as Hl.
  rewrite !report_verdict by (done || (eapply Z.le_lt_trans; [apply Hl | done])).
  rewrite (bool_decide_false (MXReplicaTypeScheduler = MXReplicaTypeWorker)) by done.
  rewrite (bool_decide_false (MXReplicaTypeServer = MXReplicaTypeWorker)) by done.
  rewrite (bool_decide_true (MXReplicaTypeWorker = MXReplicaTypeWorker)) by done. cbn [andb].
  unfold summary_finished in Hf. destruct (w_verdict (sm_view a)) as [[] []]; try done.
  by destruct (lost init n1 _), (lost init n2 _), (lost init n3 _), (all_succeeded _ _).
Qed.
