(* ===== verification/Lifecycle.v ===== *)
(** * The life of a job: theorems about [Sync]

    What one event does to a job in each phase of its life: deleted, pending deletion, finished,
    new, initialized. *)
From S2P Require Import Prelude Types Runtime Api RefCluster Labels Naming Replicas Conditions.
From S2P Require Import JobStatus Controls RefManager Handler Footprint Reconcile Creation Pass.

Section lifecycle.
Context {W : Type} `{!Cluster W} `{!GoRuntime}.

(** A job whose events are reconciled. *)
Definition active_job (j : MXJob) : Prop :=
  meta_DeletionTimestamp (job_Meta j) = None ∧ finished j = false.
#[export] Instance active_job_dec j : Decision (active_job j).
Proof. unfold active_job. apply _. Defined.

(** The first step of a sync: the job is marked as created. *)
Definition enter (j : MXJob) : M (St W) MXJob :=
  if negb (checkCondition (job_Status j) MXJobCreated) then
    updateMXJobConditions j MXJobCreated MXJobReasonCreated
      ("MXJob " +:+ job_Name j +:+ " is created.")
  else mret j.

(** The created condition is added at most, and it does not finish the job. *)
Lemma created_quiet j (s : St W) :
  quiet (enter j)
    (λ j', same_object j j' ∧ finished j' = finished j ∧ created j' = true ∧
       (conditions_wf (job_Status j) → conditions_wf (job_Status j')) ∧
       st_ReplicaStatuses (job_Status j') = st_ReplicaStatuses (job_Status j) ∧
       ∀ t, t ≠ MXJobCreated → getCondition (job_Status j') t = getCondition (job_Status j) t) s.
Proof.
  unfold enter. fold (created j). destruct (created j) eqn:Hc; cbn [negb]; [by apply quiet_ret|].
  eapply quiet_mono; [apply quiet_and; [apply update_true | apply updateMXJobConditions_quiet]|].
  intros j' [(Hs & Hr & Hw & Ht & Hoth & _) (c & Hct & _ & _ & _ & ->)]. split_and!; try done.
  unfold finished. cbn. apply IsJobFinished_setCondition; by rewrite Hct.
Qed.

Lemma Sync_reconciles j jc (s sc : St W) :
  active_job j → enter j s = Ret jc sc →
  Sync j false s = reconcileMXJobs jc sc ∧ trace sc = trace s ∧ pending sc = pending s ∧
  same_object j jc ∧ created jc = true ∧ initialized jc = initialized j ∧
  (conditions_wf (job_Status j) → conditions_wf (job_Status jc)) ∧ finished jc = false.
Proof.
  intros [Hd Hf] He. pose proof (created_quiet j s) as Hq. unfold quiet, post in Hq. rewrite He in Hq.
  destruct Hq as ((Hs & Hfin & Hc & Hw & _ & Hoth) & Ht & Hp). split; [|split_and!; try done].
  - unfold Sync. rewrite Hd. rewrite decide_False by (by intros [? ?]). fold (enter j).
    rewrite (bind_run _ _ _ _ _ He). fold (finished jc). rewrite Hfin, Hf.
    rewrite (same_meta j jc Hs), Hd. done.
  - unfold initialized, checkCondition. by rewrite Hoth.
  - by rewrite Hfin.
Qed.

(** What the finalizer code starts. *)
Definition finalizer_call (j : MXJob) : list goroutine :=
  match last_index FinalizerFinishWebhook (meta_Finalizers (job_Meta j)) 0 None with
  | Some i => [RunFinalizer j i]
  | None => []
  end.

Lemma last_index_none (l : list string) i :
  FinalizerFinishWebhook ∈ l → ∀ found, is_Some (last_index FinalizerFinishWebhook l i found).
Proof.
  revert i. induction l as [|f l IH]; intros i Hin found; [by apply not_elem_of_nil in Hin|].
  cbn. apply elem_of_cons in Hin as [<-|Hin]; [|by apply IH].
  rewrite decide_True by done. generalize (S i). clear. intros k.
  assert (∀ l k found, is_Some found → is_Some (last_index FinalizerFinishWebhook l k found)) as Hl.
  { clear. induction l as [|f l IH]; intros k found Hf; cbn; [done|]. apply IH. by case_decide. }
  by apply Hl.
Qed.

(** A sync of a finished job stops after the created condition. *)
Lemma finished_quiet (j : MXJob) (s : St W) :
  meta_DeletionTimestamp (job_Meta j) = None → finished j = true →
  quiet (Sync j false)
    (λ '(err, j'), err = None ∧ same_object j j' ∧ finished j' = true ∧
       st_ReplicaStatuses (job_Status j') = st_ReplicaStatuses (job_Status j) ∧
       ∀ t, t ≠ MXJobCreated →
         getCondition (job_Status j') t = getCondition (job_Status j) t) s.
Proof.
  intros Hd Hf. unfold Sync. rewrite decide_False by (rewrite Hd; by intros [? ?]).
  eapply quiet_bind; [apply created_quiet|]. intros j' s' (Hs & Hf' & Hc & _ & Hr & Hoth).
  fold (finished j'). rewrite Hf', Hf. apply quiet_ret. split_and!; try done. congruence.
Qed.
End lifecycle.

(** ** Properties *)

(** C12. An event that needs no reconciling changes nothing in the cluster.  A deletion event
    is dropped.  For a job pending deletion the one thing that happens is that the finalizer
    goroutine is started, and exactly when the job carries the operator's finalizer.  A job that is
    finished stays finished: no request is sent, no goroutine started, and of its status at most the
    created condition is set. *)
Theorem Sync_idle {W} `{!Cluster W} `{!GoRuntime} (j : MXJob) (s : St W) :
  Sync j true s = Ret (None, j) s ∧
  (is_Some (meta_DeletionTimestamp (job_Meta j)) →
     Sync j false s = Ret (None, j) (mkSt (world s) (trace s) (pending s ++ finalizer_call j)) ∧
     (finalizer_call j = [] ↔ FinalizerFinishWebhook ∉ meta_Finalizers (job_Meta j))) ∧
  (meta_DeletionTimestamp (job_Meta j) = None → finished j = true →
     quiet (Sync j false)
       (λ '(err, j'), err = None ∧ same_object j j' ∧ finished j' = true ∧
          st_ReplicaStatuses (job_Status j') = st_ReplicaStatuses (job_Status j) ∧
          ∀ t, t ≠ MXJobCreated →
            getCondition (job_Status j') t = getCondition (job_Status j) t) s).
Proof.
  split; [done|]. split.
  - intros Hd. split.
    + unfold Sync. rewrite decide_True by done. unfold handleMXJobFinalizers, finalizer_call.
      destruct (last_index _ _ _ _); [done|]. rewrite bind_ret, app_nil_r. by destruct s.
    + unfold finalizer_call. destruct (last_index _ _ _ _) as [i|] eqn:E.
      * split; [done|]. intros []. apply last_index_lookup in E as [|[_ E]]; [done|].
        by eapply list_elem_of_lookup_2.
      * split; [|done]. intros _ Hin. destruct (last_index_none _ 0 Hin None) as [i Hi]. congruence.
  - apply finished_quiet.
Qed.

(** A finished job. *)
Definition finished_job : MXJob :=
  job_with example_specs (mkMXJobStatus (mkMXReplicaStatuses None None None) None None
    [mkMXJobCondition MXJobSucceeded ConditionTrue MXJobReasonSucceeded "" 7 7]).

Lemma Sync_idle_witness :
  quiet (Sync finished_job false)
    (λ '(err, j'), err = None ∧ same_object finished_job j' ∧ finished j' = true ∧
       st_ReplicaStatuses (job_Status j') = st_ReplicaStatuses (job_Status finished_job) ∧
       ∀ t, t ≠ MXJobCreated →
         getCondition (job_Status j') t = getCondition (job_Status finished_job) t)
    (start (empty_cluster finished_job)).
Proof.
  apply (Sync_idle finished_job (start (empty_cluster finished_job))); vm_compute; reflexivity.
Defined.

(** C2. A pass over an active job implements its specification: for the pods it found,
    unless it gives up before storing anything, it creates exactly the missing pods of each type when
    the job is not initialized and none otherwise; the job it stores is initialized and has the status
    of [pass] (every replica status counted anew, the verdict moved accordingly, the active pods
    deleted and counted as gone when the job finishes); it is stored exactly when the status changed;
    the pods deleted are exactly the active ones of a job that finishes; the start hook runs exactly
    when the job was not initialized, the finish hook exactly when it finishes. *)
Theorem Sync_pass {W} `{!Cluster W} `{!GoRuntime} (j jc : MXJob) pods (s sc s1 : St W) :
  active_job j → enter j s = Ret jc sc → pass_ok jc pods →
  getPodsForMXJob jc sc = Ret (pods, None) s1 →
  post (Sync j false)
    (λ '(err, _) s', ∃ l gs, trace s' = trace s ++ l ∧ pending s' = pending s ++ gs ∧
       pass_done jc pods err l gs) (λ _, False) s.
Proof.
  intros Ha He Hok Hpods. pose proof (reconcileMXJobs_pass jc pods sc s1 Hok Hpods) as Hpass.
  destruct (Sync_reconciles j jc s sc Ha He) as (Hrun & Ht & Hp & _).
  unfold post in *. by rewrite Hrun, <- Ht, <- Hp.
Qed.

(** C3. When a pass finishes a job: every job it stores is succeeded exactly if as many
    workers as wanted succeeded, and failed exactly if they did not and some replica type has a failed
    pod or, after initialization, a missing one; and if one of these is the case, a pass without error
    does store such a job and deletes exactly the active pods. *)
Theorem Sync_verdict {W} `{!Cluster W} `{!GoRuntime} (j jc : MXJob) pods (s sc s1 : St W) :
  active_job j → enter j s = Ret jc sc → pass_ok jc pods →
  getPodsForMXJob jc sc = Ret (pods, None) s1 →
  let done := workers_done (job_specs j) pods in
  let lost := lost_any (initialized j) (job_specs j) pods in
  post (Sync j false)
    (λ '(err, _) s', ∃ l, trace s' = trace s ++ l ∧
       (∀ j', j' ∈ stored l →
          checkCondition (job_Status j') MXJobSucceeded = done ∧
          checkCondition (job_Status j') MXJobFailed = negb done && lost) ∧
       (err = None → done || lost = true →
          (∃ j', stored l = [j'] ∧ finished j' = true) ∧
          deletions l ≡ₚ pod_key <$> FilterActivePods pods)) (λ _, False) s.
Proof.
  intros Ha He Hok Hpods. pose proof (reconcileMXJobs_pass jc pods sc s1 Hok Hpods) as Hpass.
  destruct (Sync_reconciles j jc s sc Ha He) as (Hrun & Ht0 & _ & Hsame & _ & Hinit & _ & Hf).
  unfold post in *. rewrite Hrun. clear Hpods Hrun He. cbv zeta.
  destruct (reconcileMXJobs jc sc) as [[err jr] s'|s']; [|done].
  rewrite <- (same_specs j jc Hsame), <- Hinit.
  destruct Hpass as (l & gs & Ht & _ & Hdone). exists l. split; [by rewrite <- Ht0|].
  destruct Hdone as [([e ->] & -> & _)|(_ & js & j' & _ & Hs & Hw & _ & Hsum & Hst & Hdel & _)].
  { split; [by intros ? ?%not_elem_of_nil | done]. }
  destruct Hok as ([Hjob _] & Hcw & Hlen).
  assert (summary_finished (summary_of jc) = false) as Hsf
    by (rewrite <- Hf; symmetry; by apply finished_verdict).
  pose proof (observed_verdict (initialized jc) jc pods (summary_of jc) Hjob Hlen Hsf) as Hv.
  rewrite <- pass_view, <- Hsum in Hv. change (job_verdict j' = mkVerdict
    (workers_done (job_specs jc) pods) (negb (workers_done (job_specs jc) pods) &&
      lost_any (initialized jc) (job_specs jc) pods)) in Hv.
  pose proof (f_equal v_succeeded Hv) as Hsucc. pose proof (f_equal v_failed Hv) as Hfail.
  cbn in Hsucc, Hfail. split.
  - intros j'' Hin. rewrite Hst in Hin. case_decide; [by apply not_elem_of_nil in Hin|].
    apply list_elem_of_singleton in Hin as ->. by split.
  - intros _ Hend. assert (finished j' = true) as Hf'.
    { rewrite finished_verdict by done. rewrite Hv. cbn. revert Hend. by destruct (workers_done _ _). }
    rewrite Hf' in Hdel. split; [|done]. exists j'. split; [|done]. rewrite Hst.
    rewrite decide_False; [done|]. intros E. unfold finished in *. congruence.
Qed.

(** ** Executions on the reference cluster *)

(** The job and the state after a sync. *)
Definition after (r : outcome (St RefCluster) (option error * MXJob)) : option (MXJob * St RefCluster) :=
  match r with Ret (None, j) s => Some (j, s) | _ => None end.
Definition run (j : MXJob) (s : St RefCluster) : MXJob * St RefCluster :=
  default (j, s) (after (Sync j false s)).
(** The example job after its first event: its pods exist. *)
Definition started : MXJob * St RefCluster := run example_job (start (empty_cluster example_job)).
(** Something happens to the pods. *)
Definition change_pods (f : list Pod → list Pod) (s : St RefCluster) : St RefCluster :=
  mkSt (with_pods (f (rc_pods (world s))) (world s)) (trace s) (pending s).
Definition in_phase (rt : MXReplicaType) (phase : PodPhase) (p : Pod) : Pod :=
  if pod_of_type rt p then mkPod (pod_Meta p) (pod_Spec p) phase else p.
(** A worker is gone; all workers succeeded. *)
Definition worker_gone : St RefCluster := change_pods (take 3) started.2.
Definition workers_succeeded : St RefCluster :=
  change_pods (fmap (in_phase MXReplicaTypeWorker PodSucceeded)) started.2.
(** The state in which the pass of a sync starts, and the pods it finds. *)
Definition entered (j : MXJob) (s : St RefCluster) : MXJob * St RefCluster :=
  match enter j s with Ret jc sc => (jc, sc) | _ => (j, s) end.
Definition pods_seen (j : MXJob) (s : St RefCluster) : list Pod * St RefCluster :=
  match getPodsForMXJob (entered j s).1 (entered j s).2 with
  | Ret (pods, None) s' => (pods, s')
  | _ => ([], s)
  end.

(** The first event of a job: no pods yet. *)
Lemma Sync_pass_witness :
  let s := start (empty_cluster example_job) in
  let jc := (entered example_job s).1 in
  post (Sync example_job false)
    (λ '(err, _) s', ∃ l gs, trace s' = trace s ++ l ∧ pending s' = pending s ++ gs ∧
       pass_done jc (pods_seen example_job s).1 err l gs) (λ _, False) s ∧
  initialized jc = false ∧ (pods_seen example_job s).1 = [].
Proof.
  cbv zeta. split; [|by vm_compute].
  apply (Sync_pass example_job (entered example_job (start (empty_cluster example_job))).1
    (pods_seen example_job (start (empty_cluster example_job))).1
    (start (empty_cluster example_job))
    (entered example_job (start (empty_cluster example_job))).2
    (pods_seen example_job (start (empty_cluster example_job))).2).
  - apply (bool_decide_unpack _); by vm_compute.
  - by vm_compute.
  - apply (bool_decide_unpack _); by vm_compute.
  - by vm_compute.
Defined.

(** The second event, a worker gone: the job fails. *)
Lemma Sync_verdict_witness :
  let pods := (pods_seen started.1 worker_gone).1 in
  post (Sync started.1 false)
    (λ '(err, _) s', ∃ l, trace s' = trace worker_gone ++ l ∧
       (∀ j', j' ∈ stored l →
          checkCondition (job_Status j') MXJobSucceeded = false ∧
          checkCondition (job_Status j') MXJobFailed = true) ∧
       (err = None → true = true →
          (∃ j', stored l = [j'] ∧ finished j' = true) ∧
          deletions l ≡ₚ pod_key <$> FilterActivePods pods)) (λ _, False) worker_gone ∧
  length (FilterActivePods pods) = 3%nat.
Proof.
  split; [|by vm_compute].
  apply (Sync_verdict started.1 (entered started.1 worker_gone).1
    (pods_seen started.1 worker_gone).1 worker_gone (entered started.1 worker_gone).2
    (pods_seen started.1 worker_gone).2).
  - apply (bool_decide_unpack _); by vm_compute.
  - by vm_compute.
  - apply (bool_decide_unpack _); by vm_compute.
  - by vm_compute.
Defined.
