(* ===== verification/Selection.v ===== *)
(** * Which objects a job gets

    The selector of a job, and what [getPodsForMXJob] returns with the real controls: the pods of the
    namespace that the job controls and selects, and the orphans it adopts; and that a job finds again the pods
    and the service it creates. *)
From S2P Require Import Prelude Types Runtime Api RefCluster Labels Naming Replicas Conditions.
From S2P Require Import JobStatus Controls RefManager Handler Claims Footprint Reconcile Pass Lifecycle.
From S2P Require Import Creation.

(** ** The selector *)
Section selector.
Context `{!GoRuntime}.

Lemma job_labels_valid j :
  valid_labels (genLabels j "") ↔ IsValidLabelValue (job_Name j) = [].
Proof.
  split; [|intros; by apply genLabels_valid].
  intros Hv. assert (genLabels j "" !! mxLabelJobName = Some (job_Name j)) as Hl
    by by rewrite genLabels_lookup.
  by destruct (Hv _ _ Hl).
Qed.

Lemma job_labels_subseteq j (ls : Labels) :
  genLabels j "" ⊆ ls ↔
  ls !! mxLabelGroupName = Some groupName ∧ ls !! mxLabelJobName = Some (job_Name j).
Proof.
  rewrite map_subseteq_spec. split.
  - intros Hs. split; apply Hs; by rewrite genLabels_lookup.
  - intros [Hg Hn] k v. rewrite genLabels_lookup. repeat case_decide; subst; by intros [= <-].
Qed.

Lemma job_selector_cases j :
  match job_selector j with
  | inl sel => IsValidLabelValue (job_Name j) = [] ∧
      ∀ ls, Selector_Matches sel ls = true ↔ genLabels j "" ⊆ ls
  | inr _ => IsValidLabelValue (job_Name j) ≠ []
  end.
Proof.
  unfold job_selector. destruct (LabelSelectorAsSelector _) as [sel|err] eqn:E.
  - apply LabelSelectorAsSelector_error in E as Hl. split; [by apply job_labels_valid|].
    destruct (LabelSelectorAsSelector_labels _ Hl) as (sel' & E' & Hm). rewrite E in E'.
    by injection E' as <-.
  - rewrite <- job_labels_valid. intros Hl.
    destruct (LabelSelectorAsSelector_labels _ Hl) as (sel' & E' & _). congruence.
Qed.
End selector.

(** ** Properties *)

(** C17. The selector of a job exists exactly if the job's name is a valid label
    value, and it then matches exactly the label sets with the operator's group and the job's name.
    For any other name, one of more than 63 characters for instance, every event of an unfinished job
    ends in the same error and nothing is ever created for it. *)
Theorem job_selector_correct {W} `{!Cluster W} `{!GoRuntime} (j : MXJob) (s : St W) :
  match job_selector j with
  | inl sel =>
      IsValidLabelValue (job_Name j) = [] ∧
      ∀ ls, Selector_Matches sel ls = true ↔
        ls !! mxLabelGroupName = Some groupName ∧ ls !! mxLabelJobName = Some (job_Name j)
  | inr err =>
      IsValidLabelValue (job_Name j) ≠ [] ∧
      reconcileMXJobs j s = Ret (Some (Errorf "couldn't convert Job selector: " (Some err)), j) s
  end.
Proof.
  pose proof (job_selector_cases j) as Hj. unfold reconcileMXJobs, getPodsForMXJob.
  destruct (job_selector j) as [sel|err]; [|done].
  destruct Hj as [Hv Hm]. split; [done|]. intros ls. by rewrite Hm, job_labels_subseteq.
Qed.

(** ** The pods and services of a job *)
Section found.
Context {W : Type} `{!Cluster W} `{!GoRuntime}.

(** What is stored of a created object: it keeps its labels and owners, and is not being deleted. *)
Definition stored_as (created stored : ObjectMeta) : Prop :=
  meta_Labels stored = meta_Labels created ∧ meta_OwnerReferences stored = meta_OwnerReferences created ∧
  meta_DeletionTimestamp stored = None.

Lemma created_pod_kept j rt tpl env pod stored sel :
  job_selector j = inl sel → pod_of j rt tpl env pod → stored_as (pod_Meta pod) (pod_Meta stored) →
  claim_action j (selects sel) stored = Keep.
Proof.
  intros Hsel (_ & _ & Hl & Hr & _) (El & Er & _).
  pose proof (job_selector_cases j) as Hj. rewrite Hsel in Hj. destruct Hj as [_ Hm].
  assert (selects sel stored = true) as Hmatch.
  { apply Hm. unfold obj_meta, pod_object. rewrite El, Hl. cbn. etransitivity; [apply genLabels_subseteq|].
    apply map_union_subseteq_l. }
  unfold claim_action, GetControllerOf, obj_meta at 1, pod_object. rewrite Er, Hr. cbn.
  rewrite decide_True by done. rewrite decide_False by (intros Hne; by apply Hne).
  unfold pod_object in Hmatch. by rewrite Hmatch.
Qed.

Lemma created_service_adopted j port stored sel :
  job_selector j = inl sel → meta_DeletionTimestamp (job_Meta j) = None →
  stored_as (svc_Meta (scheduler_service j port)) (svc_Meta stored) →
  claim_action j (selects sel) stored = Adopt.
Proof.
  intros Hsel Hd (El & Er & Hdel).
  pose proof (job_selector_cases j) as Hj. rewrite Hsel in Hj. destruct Hj as [_ Hm].
  assert (selects sel stored = true) as Hmatch.
  { apply Hm. unfold obj_meta, service_object. rewrite El. apply genLabels_subseteq. }
  unfold service_object in Hmatch. unfold claim_action, GetControllerOf, obj_meta at 1, service_object.
  rewrite Er. cbn. rewrite Hmatch, Hd.
  cbn. change (obj_meta stored) with (svc_Meta stored). by rewrite Hdel.
Qed.

(** What listing finds. *)
Lemma getPodsForMXJob_keeps j sel items pod (s : St W) :
  job_selector j = inl sel → (c_listPods (job_Namespace j) (world s)).1 = inl items → pod ∈ items →
  claim_action j (selects sel) pod = Keep →
  post (getPodsForMXJob j) (λ '(pods, _) _, pod ∈ pods) (λ _, False) s.
Proof.
  intros Hsel Hlist Hin Ha. eapply post_mono; [by apply getPodsForMXJob_found | | done].
  intros r s' (_ & l & _ & (answer & l' & -> & Hans) & Hhead). injection Hhead as ->. rewrite Hlist in Hans.
  destruct Hans as (cl & errs & -> & Hpass). by eapply claim_pass_keeps.
Qed.
Lemma getServicesForMXJob_adopts j sel items svc (s : St W) :
  job_selector j = inl sel → (c_listServices (job_Namespace j) (world s)).1 = inl items → svc ∈ items →
  claim_action j (selects sel) svc = Adopt →
  post (getServicesForMXJob j) (λ '(svcs, _) s', ∃ l fresh, trace s' = trace s ++ l ∧
    GetMXJob (job_Namespace j) (job_Name j) fresh ∈ l ∧
    (fresh_verdict j fresh = None → ∃ answer, adopted_svc j svc answer ∈ l ∧ (answer = None → svc ∈ svcs)))
    (λ _, False) s.
Proof.
  intros Hsel Hlist Hin Ha. eapply post_mono; [by apply getServicesForMXJob_found | | done].
  intros r s' (_ & l & Ht & (answer & l' & -> & Hans) & Hhead). injection Hhead as ->. rewrite Hlist in *.
  destruct Hans as (cl & errs & -> & Hpass).
  destruct (claim_pass_adopts _ _ _ _ _ _ _ _ _ _ _ Hpass Hin Ha) as (verdict & checked & (fresh & -> & ->) & Hc & Had).
  eexists _, fresh. split; [exact Ht|]. split; [right; apply Hc; by left|]. intros Hv.
  destruct (Had Hv) as (a & Hin' & Hcl). exists a. split; [by right | done].
Qed.
End found.

(** C16. What a job creates, it finds again.  The pod that [createNewPod] asks for, once it is stored and listed,
    is among the pods of the job in every later pass.  The service that [reconcileServices] asks for has no
    owner reference; once it is stored and listed, and unless the job is being deleted, a later pass reads the job, and if the job
    is there and alive it asks for the adoption of the service, and counts it as the job's when that succeeds. *)
Theorem created_objects_claimed {W} `{!Cluster W} `{!GoRuntime} (j : MXJob) rt spec tpl sel (s : St W) :
  well_formed j → is_replica_type rt → spec_Template spec = Some tpl → job_selector j = inl sel →
  post (createNewPod j rt spec)
    (λ _ s1, ∃ pod l, trace s1 = trace s ++ CreatePod (job_Namespace j) pod :: l ∧
       ∀ pod' items (s2 : St W), stored_as (pod_Meta pod) (pod_Meta pod') → pod' ∈ items →
         (c_listPods (job_Namespace j) (world s2)).1 = inl items →
         post (getPodsForMXJob j) (λ '(pods, _) _, pod' ∈ pods) (λ _, False) s2)
    (λ _, False) s ∧
  post (reconcileServices j [] MXReplicaTypeScheduler spec)
    (λ _ s1, ∃ svc l, trace s1 = trace s ++ CreateService (job_Namespace j) svc :: l ∧
       ∀ svc' items (s2 : St W), stored_as (svc_Meta svc) (svc_Meta svc') → svc' ∈ items →
         meta_DeletionTimestamp (job_Meta j) = None →
         (c_listServices (job_Namespace j) (world s2)).1 = inl items →
         post (getServicesForMXJob j) (λ '(svcs, _) s3, ∃ l fresh, trace s3 = trace s2 ++ l ∧
             GetMXJob (job_Namespace j) (job_Name j) fresh ∈ l ∧
             (fresh_verdict j fresh = None →
                ∃ answer, adopted_svc j svc' answer ∈ l ∧ (answer = None → svc' ∈ svcs)))
           (λ _, False) s2)
    (λ _, False) s.
Proof.
  intros Hwf Hrt Htpl Hsel. split.
  - destruct (createNewPod_run j rt spec tpl s Hwf Hrt Htpl) as (env & pod & _ & Hpod & Hrun).
    destruct (c_createPod _ _ _) as [r w]. destruct Hrun as [w' Hrun]. unfold post at 1. rewrite Hrun.
    exists pod, [creation_event r]. split; [done|]. intros pod' items s2 Hst Hin Hlist.
    by eapply getPodsForMXJob_keeps, created_pod_kept.
  - pose proof (reconcileServices_run j [] spec s) as Hrun. cbv zeta in Hrun.
    destruct (c_createService _ _ _) as [r w]. unfold post at 1. rewrite Hrun. do 2 eexists. split; [reflexivity|].
    intros svc' items s2 Hst Hin Hd Hlist. by eapply getServicesForMXJob_adopts, created_service_adopted.
Qed.


Definition example_selector : Selector :=
  match job_selector example_job with inl sel => sel | inr _ => NothingSelector end.

(** A worker and the service of the example job. *)
Lemma created_objects_claimed_witness (s := start (empty_cluster example_job)) :
  post (createNewPod example_job MXReplicaTypeWorker (example_spec 2))
    (λ _ s1, ∃ pod l, trace s1 = trace s ++ CreatePod (job_Namespace example_job) pod :: l ∧
       ∀ pod' items (s2 : St RefCluster), stored_as (pod_Meta pod) (pod_Meta pod') → pod' ∈ items →
         (c_listPods (job_Namespace example_job) (world s2)).1 = inl items →
         post (getPodsForMXJob example_job) (λ '(pods, _) _, pod' ∈ pods) (λ _, False) s2)
    (λ _, False) s ∧
  post (reconcileServices example_job [] MXReplicaTypeScheduler (example_spec 2))
    (λ _ s1, ∃ svc l, trace s1 = trace s ++ CreateService (job_Namespace example_job) svc :: l ∧
       ∀ svc' items (s2 : St RefCluster), stored_as (svc_Meta svc) (svc_Meta svc') → svc' ∈ items →
         meta_DeletionTimestamp (job_Meta example_job) = None →
         (c_listServices (job_Namespace example_job) (world s2)).1 = inl items →
         post (getServicesForMXJob example_job) (λ '(svcs, _) s3, ∃ l fresh, trace s3 = trace s2 ++ l ∧
             GetMXJob (job_Namespace example_job) (job_Name example_job) fresh ∈ l ∧
             (fresh_verdict example_job fresh = None →
                ∃ answer, adopted_svc example_job svc' answer ∈ l ∧ (answer = None → svc' ∈ svcs)))
           (λ _, False) s2)
    (λ _, False) s.
Proof.
  refine (created_objects_claimed example_job MXReplicaTypeWorker (example_spec 2) example_template example_selector s _ _ _ _).
  - apply (bool_decide_unpack _). by vm_compute.
  - by right; right.
  - reflexivity.
  - by vm_compute.
Defined.

(** C15. [getPodsForMXJob] lists the pods of the namespace once.  If that fails, it returns the error and sends nothing else.
    Otherwise it goes through the pods listed and, by the decision of [claim_action], it patches what it has to
    adopt or release, in their order, and sends nothing else but one read of the job,
    before the first adoption.  It adopts only if that read finds the same job and it is not being deleted.  It returns exactly the
    pods it keeps and those whose adoption succeeded, in their order, and the other failures as its error,
    except that a pod that is gone, or whose release the server refuses as invalid, is no failure. *)
Theorem getPodsForMXJob_correct {W} `{!Cluster W} `{!GoRuntime} (j : MXJob) sel (s : St W) :
  job_selector j = inl sel →
  post (getPodsForMXJob j)
    (λ '(pods, err) s', pending s' = pending s ∧
       match (c_listPods (job_Namespace j) (world s)).1 with
       | inr e => pods = [] ∧ err = Some e ∧ trace s' = trace s ++ [ListPods (job_Namespace j) (inr e)]
       | inl items => ∃ answers fresh, length answers = length items ∧
           let verdict := fresh_verdict j fresh in
           let action := claim_action j (selects sel) in
           (verdict = None ↔ ∃ job, fresh = inl job ∧ job_UID job = job_UID j ∧ meta_DeletionTimestamp (job_Meta job) = None) ∧
           trace s' = trace s ++ ListPods (job_Namespace j) (inl items) ::
             claim_entries j (selects sel) (adopted_pod j) (released_pod j) verdict
               [GetMXJob (job_Namespace j) (job_Name j) fresh] (zip items answers) ∧
           pods = omap (λ '(pod, answer), match action pod, verdict, answer with
               | Keep, _, _ | Adopt, None, None => Some pod
               | _, _, _ => None
               end) (zip items answers) ∧
           err = NewAggregate (omap (λ '(pod, answer), match action pod, verdict with
               | Adopt, Some e => Some (Errorf "can't adopt Pod" (Some e))
               | Adopt, None => if IsNotFound answer then None else answer
               | Release, _ => if IsNotFound answer || IsInvalid answer then None else answer
               | _, _ => None
               end) (zip items answers))
       end)
    (λ _, False) s.
Proof.
  intros Hsel. eapply post_mono; [by apply getPodsForMXJob_found | | done].
  intros [pods err] s' (Hp & l & Ht & (answer & l' & -> & Hans) & Hhead). split; [done|]. injection Hhead as ->.
  destruct (c_listPods _ _).1 as [items|e].
  2:{ destruct Hans as [-> Hr]. injection Hr as -> ->. split; [reflexivity|]. split; [reflexivity | exact Ht]. }
  destruct Hans as (cl & errs & [= -> ->] & Hpass).
  destruct (claim_pass_answers _ _ _ _ _ _ _ _ _ Hpass) as (answers & fresh & Hlen & -> & -> & ->).
  exists answers, fresh. split; [done|]. cbv zeta. split; [apply fresh_verdict_None|]. split; [exact Ht|]. split.
  - apply omap_pointwise. intros [pod a]. unfold claim_of, action_of. cbn.
    by destruct (claim_action _ _ _), (fresh_verdict _ _), a.
  - f_equal. apply omap_pointwise. intros [pod a]. unfold claim_error, action_of. cbn.
    by destruct (claim_action _ _ _), (fresh_verdict _ _).
Qed.

(** A namespace with an orphan of the job, a pod of the job, a pod of nobody, and one that the job no longer selects. *)
Definition pod_called (name : string) (labels : option Labels) (owners : list OwnerReference) : Pod :=
  mkPod (mkObjectMeta name "" "default" name labels None owners None []) (mkPodSpec [] "" "") PodRunning.
Definition claimed_pods : list Pod :=
  [pod_called "orphan" (Some (genLabels example_job MXReplicaTypeWorker)) [];
   pod_called "own" (Some (genLabels example_job MXReplicaTypeWorker)) [NewControllerRef example_job SchemeGroupVersionKind];
   pod_called "stranger" None [];
   pod_called "relabelled" None [NewControllerRef example_job SchemeGroupVersionKind]].
Definition claiming : St RefCluster := start (with_pods claimed_pods (empty_cluster example_job)).

Lemma getPodsForMXJob_correct_witness :
  claim_action example_job (selects example_selector) <$> claimed_pods = [Adopt; Keep; Ignore; Release] ∧
  post (getPodsForMXJob example_job)
    (λ '(pods, err) s', pending s' = pending claiming ∧
       match (c_listPods (job_Namespace example_job) (world claiming)).1 with
       | inr e => pods = [] ∧ err = Some e ∧ trace s' = trace claiming ++ [ListPods (job_Namespace example_job) (inr e)]
       | inl items => ∃ answers fresh, length answers = length items ∧
           let verdict := fresh_verdict example_job fresh in
           let action := claim_action example_job (selects example_selector) in
           (verdict = None ↔
              ∃ job, fresh = inl job ∧ job_UID job = job_UID example_job ∧ meta_DeletionTimestamp (job_Meta job) = None) ∧
           trace s' = trace claiming ++ ListPods (job_Namespace example_job) (inl items) ::
             claim_entries example_job (selects example_selector) (adopted_pod example_job) (released_pod example_job) verdict
               [GetMXJob (job_Namespace example_job) (job_Name example_job) fresh] (zip items answers) ∧
           pods = omap (λ '(pod, answer), match action pod, verdict, answer with
               | Keep, _, _ | Adopt, None, None => Some pod
               | _, _, _ => None
               end) (zip items answers) ∧
           err = NewAggregate (omap (λ '(pod, answer), match action pod, verdict with
               | Adopt, Some e => Some (Errorf "can't adopt Pod" (Some e))
               | Adopt, None => if IsNotFound answer then None else answer
               | Release, _ => if IsNotFound answer || IsInvalid answer then None else answer
               | _, _ => None
               end) (zip items answers))
       end)
    (λ _, False) claiming.
Proof.
  split; [by vm_compute|]. apply (getPodsForMXJob_correct example_job example_selector claiming). by vm_compute.
Defined.
