(* ===== verification/OpenAPI.v ===== *)
(** * OpenAPI definitions

    The data types of the generated definitions (pkg/apis/ava/v1alpha1/openapi_generated.go) and the
    shapes of schema that occur there, as functions.  [CrdValidation] has what cmd/crd-validation makes
    of the definitions. *)
From S2P Require Import Prelude.
From Stdlib Require Import Ascii.

(** ** Data *)

(** [spec.Schema], the fields that occur; a map is a list of pairs with distinct keys. *)
Inductive Schema := mkSchema {
  Description : string;
  Type_ : list string;
  Format : string;
  Ref : string;
  Properties : list (string * Schema);
  Required : list string;
  Items : option Schema;
  AdditionalProperties : option Schema;
  AnyOf : list Schema;
  Extensions : list (string * string) }.
Record OpenAPIDefinition := mkOpenAPIDefinition {
  od_Schema : Schema; od_Dependencies : list string }.

(** Characters of the descriptions. *)
Definition dq : string := String (Ascii.ascii_of_nat 34) "".
Definition nl : string := String (Ascii.ascii_of_nat 10) "".

(** The literals of the generated file. *)
Definition empty_schema : Schema := mkSchema "" [] "" "" [] [] None None [] [].
Definition leaf (type format : string) : Schema := mkSchema "" [type] format "" [] [] None None [] [].
Definition ref_to (name : string) : Schema := mkSchema "" [] "" name [] [] None None [] [].
Definition array_of (items : Schema) : Schema := mkSchema "" ["array"] "" "" [] [] (Some items) None [] [].
Definition map_of (values : Schema) : Schema := mkSchema "" ["object"] "" "" [] [] None (Some values) [] [].
Definition extended (ext : list (string * string)) (s : Schema) : Schema :=
  mkSchema (Description s) (Type_ s) (Format s) (Ref s) (Properties s) (Required s) (Items s)
    (AdditionalProperties s) (AnyOf s) ext.
Definition described (description : string) (s : Schema) : Schema :=
  mkSchema description (Type_ s) (Format s) (Ref s) (Properties s) (Required s) (Items s)
    (AdditionalProperties s) (AnyOf s) (Extensions s).
Definition definition_of (s : Schema) (deps : list string) : OpenAPIDefinition :=
  mkOpenAPIDefinition s deps.
Definition object_of (description : string) (props : list (string * Schema)) (required deps : list string)
  : OpenAPIDefinition :=
  mkOpenAPIDefinition (mkSchema description [] "" "" props required None None [] []) deps.

(** The packages the names are in. *)
Definition ava (name : string) : string :=
  "github.com/qiniu-ava/mxnet-operator/pkg/apis/ava/v1alpha1." +:+ name.
Definition core (name : string) : string := "k8s.io/api/core/v1." +:+ name.
Definition meta (name : string) : string := "k8s.io/apimachinery/pkg/apis/meta/v1." +:+ name.
Definition resource (name : string) : string := "k8s.io/apimachinery/pkg/api/resource." +:+ name.
Definition runtime_pkg (name : string) : string := "k8s.io/apimachinery/pkg/runtime." +:+ name.
Definition intstr (name : string) : string := "k8s.io/apimachinery/pkg/util/intstr." +:+ name.
