(* ===== verification/OpenAPIAva.v ===== *)
(** * OpenAPI definitions: the types of the operator

    The entries of the map in pkg/apis/ava/v1alpha1/openapi_generated.go, one definition each. *)
From S2P Require Import Prelude OpenAPI.

Definition ava_v1alpha1_MXJob : OpenAPIDefinition :=
  object_of "" [
    ("kind", described "Kind is a string value representing the REST resource this object represents. Servers may infer this from the endpoint the client submits requests to. Cannot be updated. In CamelCase. More info: https://git.k8s.io/community/contributors/devel/api-conventions.md#types-kinds"
       (leaf "string" ""));
    ("apiVersion", described "APIVersion defines the versioned schema of this representation of an object. Servers should convert recognized schemas to the latest internal value, and may reject unrecognized values. More info: https://git.k8s.io/community/contributors/devel/api-conventions.md#resources"
       (leaf "string" ""));
    ("metadata", ref_to (meta "ObjectMeta"));
    ("spec", ref_to (ava "MXJobSpec"));
    ("status", ref_to (ava "MXJobStatus"))
  ] ["metadata"; "spec"]
    [ava "MXJobSpec"; ava "MXJobStatus"; meta "ObjectMeta"].

Definition ava_v1alpha1_MXJobCondition : OpenAPIDefinition :=
  object_of "MXJobCondition describes the state of the MXJob at a certain point." [
    ("type", described "Type of MXJob condition."
       (leaf "string" ""));
    ("status", described "Status of the condition, one of True, False, Unknown."
       (leaf "string" ""));
    ("reason", described "The reason for the condition's last transition."
       (leaf "string" ""));
    ("message", described "A human readable message indicating details about the transition."
       (leaf "string" ""));
    ("lastUpdateTime", described "The last time this condition was updated."
       (ref_to (meta "Time")));
    ("lastTransitionTime", described "Last time the condition transitioned from one status to another."
       (ref_to (meta "Time")))
  ] ["type"; "status"]
    [meta "Time"].

Definition ava_v1alpha1_MXJobList : OpenAPIDefinition :=
  object_of "" [
    ("kind", described "Kind is a string value representing the REST resource this object represents. Servers may infer this from the endpoint the client submits requests to. Cannot be updated. In CamelCase. More info: https://git.k8s.io/community/contributors/devel/api-conventions.md#types-kinds"
       (leaf "string" ""));
    ("apiVersion", described "APIVersion defines the versioned schema of this representation of an object. Servers should convert recognized schemas to the latest internal value, and may reject unrecognized values. More info: https://git.k8s.io/community/contributors/devel/api-conventions.md#resources"
       (leaf "string" ""));
    ("metadata", ref_to (meta "ListMeta"));
    ("items", array_of (ref_to (ava "MXJob")))
  ] ["metadata"; "items"]
    [ava "MXJob"; meta "ListMeta"].

Definition ava_v1alpha1_MXJobSpec : OpenAPIDefinition :=
  object_of "MXJobSpec is a desired state description of the MXJob." [
    ("replicaSpecs", described ("MXReplicaSpecs is map of MXReplicaType and MXReplicaSpec specifies the MX replicas to run. For example," +:+ nl +:+ "  {" +:+ nl +:+ "    " +:+ dq +:+ "scheduler" +:+ dq +:+ ": MXReplicaSpec," +:+ nl +:+ "    " +:+ dq +:+ "server" +:+ dq +:+ ": MXReplicaSpec," +:+ nl +:+ "    " +:+ dq +:+ "worker" +:+ dq +:+ ": MXReplicaSpe," +:+ nl +:+ "  }")
       (ref_to (ava "MXReplicaSpecs")))
  ] ["replicaSpecs"]
    [ava "MXReplicaSpecs"].

Definition ava_v1alpha1_MXJobStatus : OpenAPIDefinition :=
  object_of "" [
    ("replicaStatuses", described "ReplicaStatuses specifies the status of each MX replica."
       (ref_to (ava "MXReplicaStatuses")));
    ("startTime", described "Represents time when the MXJob was acknowledged by the MXJob controller. It is not guaranteed to be set in happens-before order across separate operations. It is represented in RFC3339 form and is in UTC."
       (ref_to (meta "Time")));
    ("completionTime", described "Represents time when the MXJob was completed. It is not guaranteed to be set in happens-before order across separate operations. It is represented in RFC3339 form and is in UTC."
       (ref_to (meta "Time")));
    ("conditions", described "Represents is an array of current observed MXJob conditions."
       (array_of (ref_to (ava "MXJobCondition"))))
  ] ["replicaStatuses"; "conditions"]
    [ava "MXJobCondition"; ava "MXReplicaStatuses"; meta "Time"].

Definition ava_v1alpha1_MXReplicaSpec : OpenAPIDefinition :=
  object_of "" [
    ("replicas", described "Replicas is the number of desired replicas."
       (leaf "integer" "int32"));
    ("template", ref_to (core "PodTemplateSpec"));
    ("psRootPort", described "PsRootPort is the port to use for scheduler."
       (leaf "integer" "int32"));
    ("psVerbose", described "PsVerbose is the communication loggining level."
       (leaf "integer" "int32"))
  ] []
    [core "PodTemplateSpec"].

Definition ava_v1alpha1_MXReplicaSpecs : OpenAPIDefinition :=
  object_of "" [
    ("scheduler", described "ReplicaSpecs specifies the MX scheduler replicas to run."
       (ref_to (ava "MXReplicaSpec")));
    ("server", described "ReplicaSpecs specifies the MX server replicas to run."
       (ref_to (ava "MXReplicaSpec")));
    ("worker", described "ReplicaSpecs specifies the MX worker replicas to run."
       (ref_to (ava "MXReplicaSpec")))
  ] []
    [ava "MXReplicaSpec"].

Definition ava_v1alpha1_MXReplicaStatus : OpenAPIDefinition :=
  object_of "MXReplicaStatus mxnet replica status" [
    ("active", described "The number of actively running pods."
       (leaf "integer" "int32"));
    ("succeeded", described "The number of pods which reached phase Succeeded."
       (leaf "integer" "int32"));
    ("failed", described "The number of pods which reached phase Failed."
       (leaf "integer" "int32"));
    ("gone", described "The number of pods which is deleted."
       (leaf "integer" "int32"))
  ] []
    [].

Definition ava_v1alpha1_MXReplicaStatuses : OpenAPIDefinition :=
  object_of "MXReplicaStatuses is the status collection of mxnet replica." [
    ("scheduler", ref_to (ava "MXReplicaStatus"));
    ("server", ref_to (ava "MXReplicaStatus"));
    ("worker", ref_to (ava "MXReplicaStatus"))
  ] []
    [ava "MXReplicaStatus"].
