(* ===== verification/OpenAPIMeta.v ===== *)
(** * OpenAPI definitions: meta/v1 of Kubernetes

    The entries of the map in pkg/apis/ava/v1alpha1/openapi_generated.go, one definition each;
    [Time] and [MicroTime] get theirs from apimachinery. *)
From S2P Require Import Prelude OpenAPI.

Definition meta_v1_APIGroup : OpenAPIDefinition :=
  object_of "APIGroup contains the name, the supported versions, and the preferred version of a group." [
    ("kind", described "Kind is a string value representing the REST resource this object represents. Servers may infer this from the endpoint the client submits requests to. Cannot be updated. In CamelCase. More info: https://git.k8s.io/community/contributors/devel/api-conventions.md#types-kinds"
       (leaf "string" ""));
    ("apiVersion", described "APIVersion defines the versioned schema of this representation of an object. Servers should convert recognized schemas to the latest internal value, and may reject unrecognized values. More info: https://git.k8s.io/community/contributors/devel/api-conventions.md#resources"
       (leaf "string" ""));
    ("name", described "name is the name of the group."
       (leaf "string" ""));
    ("versions", described "versions are the versions supported in this group."
       (array_of (ref_to (meta "GroupVersionForDiscovery"))));
    ("preferredVersion", described "preferredVersion is the version preferred by the API server, which probably is the storage version."
       (ref_to (meta "GroupVersionForDiscovery")));
    ("serverAddressByClientCIDRs", described "a map of client CIDR to server address that is serving this group. This is to help clients reach servers in the most network-efficient way possible. Clients can use the appropriate server address as per the CIDR that they match. In case of multiple matches, clients should use the longest matching CIDR. The server returns only those CIDRs that it thinks that the client can match. For example: the master will return an internal IP CIDR only, if the client reaches the server using an internal IP. Server looks at X-Forwarded-For header or X-Real-Ip header or request.RemoteAddr (in that order) to get the client IP."
       (array_of (ref_to (meta "ServerAddressByClientCIDR"))))
  ] ["name"; "versions"; "serverAddressByClientCIDRs"]
    [meta "GroupVersionForDiscovery"; meta "ServerAddressByClientCIDR"].

Definition meta_v1_APIGroupList : OpenAPIDefinition :=
  object_of "APIGroupList is a list of APIGroup, to allow clients to discover the API at /apis." [
    ("kind", described "Kind is a string value representing the REST resource this object represents. Servers may infer this from the endpoint the client submits requests to. Cannot be updated. In CamelCase. More info: https://git.k8s.io/community/contributors/devel/api-conventions.md#types-kinds"
       (leaf "string" ""));
    ("apiVersion", described "APIVersion defines the versioned schema of this representation of an object. Servers should convert recognized schemas to the latest internal value, and may reject unrecognized values. More info: https://git.k8s.io/community/contributors/devel/api-conventions.md#resources"
       (leaf "string" ""));
    ("groups", described "groups is a list of APIGroup."
       (array_of (ref_to (meta "APIGroup"))))
  ] ["groups"]
    [meta "APIGroup"].

Definition meta_v1_APIResource : OpenAPIDefinition :=
  object_of "APIResource specifies the name of a resource and whether it is namespaced." [
    ("name", described "name is the plural name of the resource."
       (leaf "string" ""));
    ("singularName", described "singularName is the singular name of the resource.  This allows clients to handle plural and singular opaquely. The singularName is more correct for reporting status on a single item and both singular and plural are allowed from the kubectl CLI interface."
       (leaf "string" ""));
    ("namespaced", described "namespaced indicates if a resource is namespaced or not."
       (leaf "boolean" ""));
    ("group", described ("group is the preferred group of the resource.  Empty implies the group of the containing resource list. For subresources, this may have a different value, for example: Scale" +:+ dq +:+ ".")
       (leaf "string" ""));
    ("version", described ("version is the preferred version of the resource.  Empty implies the version of the containing resource list For subresources, this may have a different value, for example: v1 (while inside a v1beta1 version of the core resource's group)" +:+ dq +:+ ".")
       (leaf "string" ""));
    ("kind", described "kind is the kind for the resource (e.g. 'Foo' is the kind for a resource 'foo')"
       (leaf "string" ""));
    ("verbs", described "verbs is a list of supported kube verbs (this includes get, list, watch, create, update, patch, delete, deletecollection, and proxy)"
       (array_of (leaf "string" "")));
    ("shortNames", described "shortNames is a list of suggested short names of the resource."
       (array_of (leaf "string" "")));
    ("categories", described "categories is a list of the grouped resources this resource belongs to (e.g. 'all')"
       (array_of (leaf "string" "")))
  ] ["name"; "singularName"; "namespaced"; "kind"; "verbs"]
    [].

Definition meta_v1_APIResourceList : OpenAPIDefinition :=
  object_of "APIResourceList is a list of APIResource, it is used to expose the name of the resources supported in a specific group and version, and if the resource is namespaced." [
    ("kind", described "Kind is a string value representing the REST resource this object represents. Servers may infer this from the endpoint the client submits requests to. Cannot be updated. In CamelCase. More info: https://git.k8s.io/community/contributors/devel/api-conventions.md#types-kinds"
       (leaf "string" ""));
    ("apiVersion", described "APIVersion defines the versioned schema of this representation of an object. Servers should convert recognized schemas to the latest internal value, and may reject unrecognized values. More info: https://git.k8s.io/community/contributors/devel/api-conventions.md#resources"
       (leaf "string" ""));
    ("groupVersion", described "groupVersion is the group and version this APIResourceList is for."
       (leaf "string" ""));
    ("resources", described "resources contains the name of the resources and if they are namespaced."
       (array_of (ref_to (meta "APIResource"))))
  ] ["groupVersion"; "resources"]
    [meta "APIResource"].

Definition meta_v1_APIVersions : OpenAPIDefinition :=
  object_of "APIVersions lists the versions that are available, to allow clients to discover the API at /api, which is the root path of the legacy v1 API." [
    ("kind", described "Kind is a string value representing the REST resource this object represents. Servers may infer this from the endpoint the client submits requests to. Cannot be updated. In CamelCase. More info: https://git.k8s.io/community/contributors/devel/api-conventions.md#types-kinds"
       (leaf "string" ""));
    ("apiVersion", described "APIVersion defines the versioned schema of this representation of an object. Servers should convert recognized schemas to the latest internal value, and may reject unrecognized values. More info: https://git.k8s.io/community/contributors/devel/api-conventions.md#resources"
       (leaf "string" ""));
    ("versions", described "versions are the api versions that are available."
       (array_of (leaf "string" "")));
    ("serverAddressByClientCIDRs", described "a map of client CIDR to server address that is serving this group. This is to help clients reach servers in the most network-efficient way possible. Clients can use the appropriate server address as per the CIDR that they match. In case of multiple matches, clients should use the longest matching CIDR. The server returns only those CIDRs that it thinks that the client can match. For example: the master will return an internal IP CIDR only, if the client reaches the server using an internal IP. Server looks at X-Forwarded-For header or X-Real-Ip header or request.RemoteAddr (in that order) to get the client IP."
       (array_of (ref_to (meta "ServerAddressByClientCIDR"))))
  ] ["versions"; "serverAddressByClientCIDRs"]
    [meta "ServerAddressByClientCIDR"].

Definition meta_v1_DeleteOptions : OpenAPIDefinition :=
  object_of "DeleteOptions may be provided when deleting an API object." [
    ("kind", described "Kind is a string value representing the REST resource this object represents. Servers may infer this from the endpoint the client submits requests to. Cannot be updated. In CamelCase. More info: https://git.k8s.io/community/contributors/devel/api-conventions.md#types-kinds"
       (leaf "string" ""));
    ("apiVersion", described "APIVersion defines the versioned schema of this representation of an object. Servers should convert recognized schemas to the latest internal value, and may reject unrecognized values. More info: https://git.k8s.io/community/contributors/devel/api-conventions.md#resources"
       (leaf "string" ""));
    ("gracePeriodSeconds", described "The duration in seconds before the object should be deleted. Value must be non-negative integer. The value zero indicates delete immediately. If this value is nil, the default grace period for the specified type will be used. Defaults to a per object value if not specified. zero means delete immediately."
       (leaf "integer" "int64"));
    ("preconditions", described "Must be fulfilled before a deletion is carried out. If not possible, a 409 Conflict status will be returned."
       (ref_to (meta "Preconditions")));
    ("orphanDependents", described ("Deprecated: please use the PropagationPolicy, this field will be deprecated in 1.7. Should the dependent objects be orphaned. If true/false, the " +:+ dq +:+ "orphan" +:+ dq +:+ " finalizer will be added to/removed from the object's finalizers list. Either this field or PropagationPolicy may be set, but not both.")
       (leaf "boolean" ""));
    ("propagationPolicy", described "Whether and how garbage collection will be performed. Either this field or OrphanDependents may be set, but not both. The default policy is decided by the existing finalizer set in the metadata.finalizers and the resource-specific default policy. Acceptable values are: 'Orphan' - orphan the dependents; 'Background' - allow the garbage collector to delete the dependents in the background; 'Foreground' - a cascading policy that deletes all dependents in the foreground."
       (leaf "string" ""))
  ] []
    [meta "Preconditions"].

Definition meta_v1_Duration : OpenAPIDefinition :=
  object_of "Duration is a wrapper around time.Duration which supports correct marshaling to YAML and JSON. In particular, it marshals into strings, which can be used as map keys in json." [
    ("Duration", leaf "integer" "int64")
  ] ["Duration"]
    [].

Definition meta_v1_ExportOptions : OpenAPIDefinition :=
  object_of "ExportOptions is the query options to the standard REST get call." [
    ("kind", described "Kind is a string value representing the REST resource this object represents. Servers may infer this from the endpoint the client submits requests to. Cannot be updated. In CamelCase. More info: https://git.k8s.io/community/contributors/devel/api-conventions.md#types-kinds"
       (leaf "string" ""));
    ("apiVersion", described "APIVersion defines the versioned schema of this representation of an object. Servers should convert recognized schemas to the latest internal value, and may reject unrecognized values. More info: https://git.k8s.io/community/contributors/devel/api-conventions.md#resources"
       (leaf "string" ""));
    ("export", described "Should this value be exported.  Export strips fields that a user can not specify."
       (leaf "boolean" ""));
    ("exact", described "Should the export be exact.  Exact export maintains cluster-specific fields like 'Namespace'."
       (leaf "boolean" ""))
  ] ["export"; "exact"]
    [].

Definition meta_v1_GetOptions : OpenAPIDefinition :=
  object_of "GetOptions is the standard query options to the standard REST get call." [
    ("kind", described "Kind is a string value representing the REST resource this object represents. Servers may infer this from the endpoint the client submits requests to. Cannot be updated. In CamelCase. More info: https://git.k8s.io/community/contributors/devel/api-conventions.md#types-kinds"
       (leaf "string" ""));
    ("apiVersion", described "APIVersion defines the versioned schema of this representation of an object. Servers should convert recognized schemas to the latest internal value, and may reject unrecognized values. More info: https://git.k8s.io/community/contributors/devel/api-conventions.md#resources"
       (leaf "string" ""));
    ("resourceVersion", described "When specified: - if unset, then the result is returned from remote storage based on quorum-read flag; - if it's 0, then we simply return what we currently have in cache, no guarantee; - if set to non zero, then the result is at least as fresh as given rv."
       (leaf "string" ""));
    ("includeUninitialized", described "If true, partially initialized resources are included in the response."
       (leaf "boolean" ""))
  ] []
    [].

Definition meta_v1_GroupKind : OpenAPIDefinition :=
  object_of "GroupKind specifies a Group and a Kind, but does not force a version.  This is useful for identifying concepts during lookup stages without having partially valid types" [
    ("group", leaf "string" "");
    ("kind", leaf "string" "")
  ] ["group"; "kind"]
    [].

Definition meta_v1_GroupResource : OpenAPIDefinition :=
  object_of "GroupResource specifies a Group and a Resource, but does not force a version.  This is useful for identifying concepts during lookup stages without having partially valid types" [
    ("group", leaf "string" "");
    ("resource", leaf "string" "")
  ] ["group"; "resource"]
    [].

Definition meta_v1_GroupVersion : OpenAPIDefinition :=
  object_of ("GroupVersion contains the " +:+ dq +:+ "group" +:+ dq +:+ " and the " +:+ dq +:+ "version" +:+ dq +:+ ", which uniquely identifies the API.") [
    ("group", leaf "string" "");
    ("version", leaf "string" "")
  ] ["group"; "version"]
    [].

Definition meta_v1_GroupVersionForDiscovery : OpenAPIDefinition :=
  object_of ("GroupVersion contains the " +:+ dq +:+ "group/version" +:+ dq +:+ " and " +:+ dq +:+ "version" +:+ dq +:+ " string of a version. It is made a struct to keep extensibility.") [
    ("groupVersion", described ("groupVersion specifies the API group and version in the form " +:+ dq +:+ "group/version" +:+ dq)
       (leaf "string" ""));
    ("version", described ("version specifies the version in the form of " +:+ dq +:+ "version" +:+ dq +:+ ". This is to save the clients the trouble of splitting the GroupVersion.")
       (leaf "string" ""))
  ] ["groupVersion"; "version"]
    [].

Definition meta_v1_GroupVersionKind : OpenAPIDefinition :=
  object_of "GroupVersionKind unambiguously identifies a kind.  It doesn't anonymously include GroupVersion to avoid automatic coersion.  It doesn't use a GroupVersion to avoid custom marshalling" [
    ("group", leaf "string" "");
    ("version", leaf "string" "");
    ("kind", leaf "string" "")
  ] ["group"; "version"; "kind"]
    [].

Definition meta_v1_GroupVersionResource : OpenAPIDefinition :=
  object_of "GroupVersionResource unambiguously identifies a resource.  It doesn't anonymously include GroupVersion to avoid automatic coersion.  It doesn't use a GroupVersion to avoid custom marshalling" [
    ("group", leaf "string" "");
    ("version", leaf "string" "");
    ("resource", leaf "string" "")
  ] ["group"; "version"; "resource"]
    [].

Definition meta_v1_Initializer : OpenAPIDefinition :=
  object_of "Initializer is information about an initializer that has not yet completed." [
    ("name", described "name of the process that is responsible for initializing this object."
       (leaf "string" ""))
  ] ["name"]
    [].

Definition meta_v1_Initializers : OpenAPIDefinition :=
  object_of "Initializers tracks the progress of initialization." [
    ("pending", described "Pending is a list of initializers that must execute in order before this object is visible. When the last pending initializer is removed, and no failing result is set, the initializers struct will be set to nil and the object is considered as initialized and visible to all clients."
       (extended [("x-kubernetes-patch-merge-key", "name"); ("x-kubernetes-patch-strategy", "merge")] (array_of (ref_to (meta "Initializer")))));
    ("result", described "If result is set with the Failure field, the object will be persisted to storage and then deleted, ensuring that other clients can observe the deletion."
       (ref_to (meta "Status")))
  ] ["pending"]
    [meta "Initializer"; meta "Status"].

Definition meta_v1_InternalEvent : OpenAPIDefinition :=
  object_of "InternalEvent makes watch.Event versioned" [
    ("Type", leaf "string" "");
    ("Object", described ("Object is:" +:+ nl +:+ " * If Type is Added or Modified: the new state of the object." +:+ nl +:+ " * If Type is Deleted: the state of the object immediately before deletion." +:+ nl +:+ " * If Type is Error: *api.Status is recommended; other types may make sense" +:+ nl +:+ "   depending on context.")
       (ref_to (runtime_pkg "Object")))
  ] ["Type"; "Object"]
    [runtime_pkg "Object"].

Definition meta_v1_LabelSelector : OpenAPIDefinition :=
  object_of "A label selector is a label query over a set of resources. The result of matchLabels and matchExpressions are ANDed. An empty label selector matches all objects. A null label selector matches no objects." [
    ("matchLabels", described ("matchLabels is a map of {key,value} pairs. A single {key,value} in the matchLabels map is equivalent to an element of matchExpressions, whose key field is " +:+ dq +:+ "key" +:+ dq +:+ ", the operator is " +:+ dq +:+ "In" +:+ dq +:+ ", and the values array contains only " +:+ dq +:+ "value" +:+ dq +:+ ". The requirements are ANDed.")
       (map_of (leaf "string" "")));
    ("matchExpressions", described "matchExpressions is a list of label selector requirements. The requirements are ANDed."
       (array_of (ref_to (meta "LabelSelectorRequirement"))))
  ] []
    [meta "LabelSelectorRequirement"].

Definition meta_v1_LabelSelectorRequirement : OpenAPIDefinition :=
  object_of "A label selector requirement is a selector that contains values, a key, and an operator that relates the key and values." [
    ("key", described "key is the label key that the selector applies to."
       (extended [("x-kubernetes-patch-merge-key", "key"); ("x-kubernetes-patch-strategy", "merge")] (leaf "string" "")));
    ("operator", described "operator represents a key's relationship to a set of values. Valid operators are In, NotIn, Exists and DoesNotExist."
       (leaf "string" ""));
    ("values", described "values is an array of string values. If the operator is In or NotIn, the values array must be non-empty. If the operator is Exists or DoesNotExist, the values array must be empty. This array is replaced during a strategic merge patch."
       (array_of (leaf "string" "")))
  ] ["key"; "operator"]
    [].

Definition meta_v1_List : OpenAPIDefinition :=
  object_of "List holds a list of objects, which may not be known by the server." [
    ("kind", described "Kind is a string value representing the REST resource this object represents. Servers may infer this from the endpoint the client submits requests to. Cannot be updated. In CamelCase. More info: https://git.k8s.io/community/contributors/devel/api-conventions.md#types-kinds"
       (leaf "string" ""));
    ("apiVersion", described "APIVersion defines the versioned schema of this representation of an object. Servers should convert recognized schemas to the latest internal value, and may reject unrecognized values. More info: https://git.k8s.io/community/contributors/devel/api-conventions.md#resources"
       (leaf "string" ""));
    ("metadata", described "Standard list metadata. More info: https://git.k8s.io/community/contributors/devel/api-conventions.md#types-kinds"
       (ref_to (meta "ListMeta")));
    ("items", described "List of objects"
       (array_of (ref_to (runtime_pkg "RawExtension"))))
  ] ["items"]
    [meta "ListMeta"; runtime_pkg "RawExtension"].

Definition meta_v1_ListMeta : OpenAPIDefinition :=
  object_of "ListMeta describes metadata that synthetic resources must have, including lists and various status objects. A resource may have only one of {ObjectMeta, ListMeta}." [
    ("selfLink", described "selfLink is a URL representing this object. Populated by the system. Read-only."
       (leaf "string" ""));
    ("resourceVersion", described "String that identifies the server's internal version of this object that can be used by clients to determine when objects have changed. Value must be treated as opaque by clients and passed unmodified back to the server. Populated by the system. Read-only. More info: https://git.k8s.io/community/contributors/devel/api-conventions.md#concurrency-control-and-consistency"
       (leaf "string" ""));
    ("continue", described "continue may be set if the user set a limit on the number of items returned, and indicates that the server has more data available. The value is opaque and may be used to issue another request to the endpoint that served this list to retrieve the next set of available objects. Continuing a list may not be possible if the server configuration has changed or more than a few minutes have passed. The resourceVersion field returned when using this continue value will be identical to the value in the first response."
       (leaf "string" ""))
  ] []
    [].

Definition meta_v1_ListOptions : OpenAPIDefinition :=
  object_of "ListOptions is the query options to a standard REST list call." [
    ("kind", described "Kind is a string value representing the REST resource this object represents. Servers may infer this from the endpoint the client submits requests to. Cannot be updated. In CamelCase. More info: https://git.k8s.io/community/contributors/devel/api-conventions.md#types-kinds"
       (leaf "string" ""));
    ("apiVersion", described "APIVersion defines the versioned schema of this representation of an object. Servers should convert recognized schemas to the latest internal value, and may reject unrecognized values. More info: https://git.k8s.io/community/contributors/devel/api-conventions.md#resources"
       (leaf "string" ""));
    ("labelSelector", described "A selector to restrict the list of returned objects by their labels. Defaults to everything."
       (leaf "string" ""));
    ("fieldSelector", described "A selector to restrict the list of returned objects by their fields. Defaults to everything."
       (leaf "string" ""));
    ("includeUninitialized", described "If true, partially initialized resources are included in the response."
       (leaf "boolean" ""));
    ("watch", described "Watch for changes to the described resources and return them as a stream of add, update, and remove notifications. Specify resourceVersion."
       (leaf "boolean" ""));
    ("resourceVersion", described "When specified with a watch call, shows changes that occur after that particular version of a resource. Defaults to changes from the beginning of history. When specified for list: - if unset, then the result is returned from remote storage based on quorum-read flag; - if it's 0, then we simply return what we currently have in cache, no guarantee; - if set to non zero, then the result is at least as fresh as given rv."
       (leaf "string" ""));
    ("timeoutSeconds", described "Timeout for the list/watch call."
       (leaf "integer" "int64"));
    ("limit", described ("limit is a maximum number of responses to return for a list call. If more items exist, the server will set the `continue` field on the list metadata to a value that can be used with the same initial query to retrieve the next set of results. Setting a limit may return fewer than the requested amount of items (up to zero items) in the event all requested objects are filtered out and clients should only use the presence of the continue field to determine whether more results are available. Servers may choose not to support the limit argument and will return all of the available results. If limit is specified and the continue field is empty, clients may assume that no more results are available. This field is not supported if watch is true." +:+ nl +:+ nl +:+ "The server guarantees that the objects returned when using continue will be identical to issuing a single list call without a limit - that is, no objects created, modified, or deleted after the first request is issued will be included in any subsequent continued requests. This is sometimes referred to as a consistent snapshot, and ensures that a client that is using limit to receive smaller chunks of a very large result can ensure they see all possible objects. If objects are updated during a chunked list the version of the object that was present at the time the first list result was calculated is returned.")
       (leaf "integer" "int64"));
    ("continue", described "The continue option should be set when retrieving more results from the server. Since this value is server defined, clients may only use the continue value from a previous query result with identical query parameters (except for the value of continue) and the server may reject a continue value it does not recognize. If the specified continue value is no longer valid whether due to expiration (generally five to fifteen minutes) or a configuration change on the server the server will respond with a 410 ResourceExpired error indicating the client must restart their list without the continue field. This field is not supported when watch is true. Clients may start a watch from the last resourceVersion value returned by the server and not miss any modifications."
       (leaf "string" ""))
  ] []
    [].

Definition meta_v1_MicroTime : OpenAPIDefinition :=
  definition_of (leaf "string" "date-time") [].

Definition meta_v1_ObjectMeta : OpenAPIDefinition :=
  object_of "ObjectMeta is metadata that all persisted resources must have, which includes all objects users must create." [
    ("name", described "Name must be unique within a namespace. Is required when creating resources, although some resources may allow a client to request the generation of an appropriate name automatically. Name is primarily intended for creation idempotence and configuration definition. Cannot be updated. More info: http://kubernetes.io/docs/user-guide/identifiers#names"
       (leaf "string" ""));
    ("generateName", described ("GenerateName is an optional prefix, used by the server, to generate a unique name ONLY IF the Name field has not been provided. If this field is used, the name returned to the client will be different than the name passed. This value will also be combined with a unique suffix. The provided value has the same validation rules as the Name field, and may be truncated by the length of the suffix required to make the value unique on the server." +:+ nl +:+ nl +:+ "If this field is specified and the generated name exists, the server will NOT return a 409 - instead, it will either return 201 Created or 500 with Reason ServerTimeout indicating a unique name could not be found in the time allotted, and the client should retry (optionally after the time indicated in the Retry-After header)." +:+ nl +:+ nl +:+ "Applied only if Name is not specified. More info: https://git.k8s.io/community/contributors/devel/api-conventions.md#idempotency")
       (leaf "string" ""));
    ("namespace", described ("Namespace defines the space within each name must be unique. An empty namespace is equivalent to the " +:+ dq +:+ "default" +:+ dq +:+ " namespace, but " +:+ dq +:+ "default" +:+ dq +:+ " is the canonical representation. Not all objects are required to be scoped to a namespace - the value of this field for those objects will be empty." +:+ nl +:+ nl +:+ "Must be a DNS_LABEL. Cannot be updated. More info: http://kubernetes.io/docs/user-guide/namespaces")
       (leaf "string" ""));
    ("selfLink", described "SelfLink is a URL representing this object. Populated by the system. Read-only."
       (leaf "string" ""));
    ("uid", described ("UID is the unique in time and space value for this object. It is typically generated by the server on successful creation of a resource and is not allowed to change on PUT operations." +:+ nl +:+ nl +:+ "Populated by the system. Read-only. More info: http://kubernetes.io/docs/user-guide/identifiers#uids")
       (leaf "string" ""));
    ("resourceVersion", described ("An opaque value that represents the internal version of this object that can be used by clients to determine when objects have changed. May be used for optimistic concurrency, change detection, and the watch operation on a resource or set of resources. Clients must treat these values as opaque and passed unmodified back to the server. They may only be valid for a particular resource or set of resources." +:+ nl +:+ nl +:+ "Populated by the system. Read-only. Value must be treated as opaque by clients and . More info: https://git.k8s.io/community/contributors/devel/api-conventions.md#concurrency-control-and-consistency")
       (leaf "string" ""));
    ("generation", described "A sequence number representing a specific generation of the desired state. Populated by the system. Read-only."
       (leaf "integer" "int64"));
    ("creationTimestamp", described ("CreationTimestamp is a timestamp representing the server time when this object was created. It is not guaranteed to be set in happens-before order across separate operations. Clients may not set this value. It is represented in RFC3339 form and is in UTC." +:+ nl +:+ nl +:+ "Populated by the system. Read-only. Null for lists. More info: https://git.k8s.io/community/contributors/devel/api-conventions.md#metadata")
       (ref_to (meta "Time")));
    ("deletionTimestamp", described ("DeletionTimestamp is RFC 3339 date and time at which this resource will be deleted. This field is set by the server when a graceful deletion is requested by the user, and is not directly settable by a client. The resource is expected to be deleted (no longer visible from resource lists, and not reachable by name) after the time in this field, once the finalizers list is empty. As long as the finalizers list contains items, deletion is blocked. Once the deletionTimestamp is set, this value may not be unset or be set further into the future, although it may be shortened or the resource may be deleted prior to this time. For example, a user may request that a pod is deleted in 30 seconds. The Kubelet will react by sending a graceful termination signal to the containers in the pod. After that 30 seconds, the Kubelet will send a hard termination signal (SIGKILL) to the container and after cleanup, remove the pod from the API. In the presence of network partitions, this object may still exist after this timestamp, until an administrator or automated process can determine the resource is fully terminated. If not set, graceful deletion of the object has not been requested." +:+ nl +:+ nl +:+ "Populated by the system when a graceful deletion is requested. Read-only. More info: https://git.k8s.io/community/contributors/devel/api-conventions.md#metadata")
       (ref_to (meta "Time")));
    ("deletionGracePeriodSeconds", described "Number of seconds allowed for this object to gracefully terminate before it will be removed from the system. Only set when deletionTimestamp is also set. May only be shortened. Read-only."
       (leaf "integer" "int64"));
    ("labels", described "Map of string keys and values that can be used to organize and categorize (scope and select) objects. May match selectors of replication controllers and services. More info: http://kubernetes.io/docs/user-guide/labels"
       (map_of (leaf "string" "")));
    ("annotations", described "Annotations is an unstructured key value map stored with a resource that may be set by external tools to store and retrieve arbitrary metadata. They are not queryable and should be preserved when modifying objects. More info: http://kubernetes.io/docs/user-guide/annotations"
       (map_of (leaf "string" "")));
    ("ownerReferences", described "List of objects depended by this object. If ALL objects in the list have been deleted, this object will be garbage collected. If this object is managed by a controller, then an entry in this list will point to this controller, with the controller field set to true. There cannot be more than one managing controller."
       (extended [("x-kubernetes-patch-merge-key", "uid"); ("x-kubernetes-patch-strategy", "merge")] (array_of (ref_to (meta "OwnerReference")))));
    ("initializers", described ("An initializer is a controller which enforces some system invariant at object creation time. This field is a list of initializers that have not yet acted on this object. If nil or empty, this object has been completely initialized. Otherwise, the object is considered uninitialized and is hidden (in list/watch and get calls) from clients that haven't explicitly asked to observe uninitialized objects." +:+ nl +:+ nl +:+ "When an object is created, the system will populate this list with the current set of initializers. Only privileged users may set or modify this list. Once it is empty, it may not be modified further by any user.")
       (ref_to (meta "Initializers")));
    ("finalizers", described "Must be empty before the object is deleted from the registry. Each entry is an identifier for the responsible component that will remove the entry from the list. If the deletionTimestamp of the object is non-nil, entries in this list can only be removed."
       (extended [("x-kubernetes-patch-strategy", "merge")] (array_of (leaf "string" ""))));
    ("clusterName", described "The name of the cluster which the object belongs to. This is used to distinguish resources with same name and namespace in different clusters. This field is not set anywhere right now and apiserver is going to ignore it if set in create or update request."
       (leaf "string" ""))
  ] []
    [meta "Initializers"; meta "OwnerReference"; meta "Time"].

Definition meta_v1_OwnerReference : OpenAPIDefinition :=
  object_of "OwnerReference contains enough information to let you identify an owning object. Currently, an owning object must be in the same namespace, so there is no namespace field." [
    ("apiVersion", described "API version of the referent."
       (leaf "string" ""));
    ("kind", described "Kind of the referent. More info: https://git.k8s.io/community/contributors/devel/api-conventions.md#types-kinds"
       (leaf "string" ""));
    ("name", described "Name of the referent. More info: http://kubernetes.io/docs/user-guide/identifiers#names"
       (leaf "string" ""));
    ("uid", described "UID of the referent. More info: http://kubernetes.io/docs/user-guide/identifiers#uids"
       (leaf "string" ""));
    ("controller", described "If true, this reference points to the managing controller."
       (leaf "boolean" ""));
    ("blockOwnerDeletion", described ("If true, AND if the owner has the " +:+ dq +:+ "foregroundDeletion" +:+ dq +:+ " finalizer, then the owner cannot be deleted from the key-value store until this reference is removed. Defaults to false. To set this field, a user needs " +:+ dq +:+ "delete" +:+ dq +:+ " permission of the owner, otherwise 422 (Unprocessable Entity) will be returned.")
       (leaf "boolean" ""))
  ] ["apiVersion"; "kind"; "name"; "uid"]
    [].

Definition meta_v1_Patch : OpenAPIDefinition :=
  object_of "Patch is provided to give a concrete name and type to the Kubernetes PATCH request body." [

  ] []
    [].

Definition meta_v1_Preconditions : OpenAPIDefinition :=
  object_of "Preconditions must be fulfilled before an operation (update, delete, etc.) is carried out." [
    ("uid", described "Specifies the target UID."
       (leaf "string" ""))
  ] []
    [].

Definition meta_v1_RootPaths : OpenAPIDefinition :=
  object_of ("RootPaths lists the paths available at root. For example: " +:+ dq +:+ "/healthz" +:+ dq +:+ ", " +:+ dq +:+ "/apis" +:+ dq +:+ ".") [
    ("paths", described "paths are the paths available at root."
       (array_of (leaf "string" "")))
  ] ["paths"]
    [].

Definition meta_v1_ServerAddressByClientCIDR : OpenAPIDefinition :=
  object_of "ServerAddressByClientCIDR helps the client to determine the server address that they should use, depending on the clientCIDR that they match." [
    ("clientCIDR", described "The CIDR with which clients can match their IP to figure out the server address that they should use."
       (leaf "string" ""));
    ("serverAddress", described "Address of this server, suitable for a client that matches the above CIDR. This can be a hostname, hostname:port, IP or IP:port."
       (leaf "string" ""))
  ] ["clientCIDR"; "serverAddress"]
    [].

Definition meta_v1_Status : OpenAPIDefinition :=
  object_of "Status is a return value for calls that don't return other objects." [
    ("kind", described "Kind is a string value representing the REST resource this object represents. Servers may infer this from the endpoint the client submits requests to. Cannot be updated. In CamelCase. More info: https://git.k8s.io/community/contributors/devel/api-conventions.md#types-kinds"
       (leaf "string" ""));
    ("apiVersion", described "APIVersion defines the versioned schema of this representation of an object. Servers should convert recognized schemas to the latest internal value, and may reject unrecognized values. More info: https://git.k8s.io/community/contributors/devel/api-conventions.md#resources"
       (leaf "string" ""));
    ("metadata", described "Standard list metadata. More info: https://git.k8s.io/community/contributors/devel/api-conventions.md#types-kinds"
       (ref_to (meta "ListMeta")));
    ("status", described ("Status of the operation. One of: " +:+ dq +:+ "Success" +:+ dq +:+ " or " +:+ dq +:+ "Failure" +:+ dq +:+ ". More info: https://git.k8s.io/community/contributors/devel/api-conventions.md#spec-and-status")
       (leaf "string" ""));
    ("message", described "A human-readable description of the status of this operation."
       (leaf "string" ""));
    ("reason", described ("A machine-readable description of why this operation is in the " +:+ dq +:+ "Failure" +:+ dq +:+ " status. If this value is empty there is no information available. A Reason clarifies an HTTP status code but does not override it.")
       (leaf "string" ""));
    ("details", described "Extended data associated with the reason.  Each reason may define its own extended details. This field is optional and the data returned is not guaranteed to conform to any schema except that defined by the reason type."
       (ref_to (meta "StatusDetails")));
    ("code", described "Suggested HTTP return code for this status, 0 if not set."
       (leaf "integer" "int32"))
  ] []
    [meta "ListMeta"; meta "StatusDetails"].

Definition meta_v1_StatusCause : OpenAPIDefinition :=
  object_of "StatusCause provides more information about an api.Status failure, including cases when multiple errors are encountered." [
    ("reason", described "A machine-readable description of the cause of the error. If this value is empty there is no information available."
       (leaf "string" ""));
    ("message", described "A human-readable description of the cause of the error.  This field may be presented as-is to a reader."
       (leaf "string" ""));
    ("field", described ("The field of the resource that has caused this error, as named by its JSON serialization. May include dot and postfix notation for nested attributes. Arrays are zero-indexed.  Fields may appear more than once in an array of causes due to fields having multiple errors. Optional." +:+ nl +:+ nl +:+ "Examples:" +:+ nl +:+ "  " +:+ dq +:+ "name" +:+ dq +:+ " - the field " +:+ dq +:+ "name" +:+ dq +:+ " on the current resource" +:+ nl +:+ "  " +:+ dq +:+ "items[0].name" +:+ dq +:+ " - the field " +:+ dq +:+ "name" +:+ dq +:+ " on the first array entry in " +:+ dq +:+ "items" +:+ dq)
       (leaf "string" ""))
  ] []
    [].

Definition meta_v1_StatusDetails : OpenAPIDefinition :=
  object_of "StatusDetails is a set of additional properties that MAY be set by the server to provide additional information about a response. The Reason field of a Status object defines what attributes will be set. Clients must ignore fields that do not match the defined type of each attribute, and should assume that any attribute may be empty, invalid, or under defined." [
    ("name", described "The name attribute of the resource associated with the status StatusReason (when there is a single name which can be described)."
       (leaf "string" ""));
    ("group", described "The group attribute of the resource associated with the status StatusReason."
       (leaf "string" ""));
    ("kind", described "The kind attribute of the resource associated with the status StatusReason. On some operations may differ from the requested resource Kind. More info: https://git.k8s.io/community/contributors/devel/api-conventions.md#types-kinds"
       (leaf "string" ""));
    ("uid", described "UID of the resource. (when there is a single resource which can be described). More info: http://kubernetes.io/docs/user-guide/identifiers#uids"
       (leaf "string" ""));
    ("causes", described "The Causes array includes more details associated with the StatusReason failure. Not all StatusReasons may provide detailed causes."
       (array_of (ref_to (meta "StatusCause"))));
    ("retryAfterSeconds", described "If specified, the time in seconds before the operation should be retried. Some errors may indicate the client must take an alternate action - for those errors this field may indicate how long to wait before taking the alternate action."
       (leaf "integer" "int32"))
  ] []
    [meta "StatusCause"].

Definition meta_v1_Time : OpenAPIDefinition :=
  definition_of (leaf "string" "date-time") [].

Definition meta_v1_Timestamp : OpenAPIDefinition :=
  object_of "Timestamp is a struct that is equivalent to Time, but intended for protobuf marshalling/unmarshalling. It is generated into a serialization that matches Time. Do not use in Go structs." [
    ("seconds", described "Represents seconds of UTC time since Unix epoch 1970-01-01T00:00:00Z. Must be from 0001-01-01T00:00:00Z to 9999-12-31T23:59:59Z inclusive."
       (leaf "integer" "int64"));
    ("nanos", described "Non-negative fractions of a second at nanosecond resolution. Negative second values with fractions must still have non-negative nanos values that count forward in time. Must be from 0 to 999,999,999 inclusive. This field may be limited in precision depending on context."
       (leaf "integer" "int32"))
  ] ["seconds"; "nanos"]
    [].

Definition meta_v1_TypeMeta : OpenAPIDefinition :=
  object_of "TypeMeta describes an individual object in an API response or request with strings representing the type of the object and its API schema version. Structures that are versioned or persisted should inline TypeMeta." [
    ("kind", described "Kind is a string value representing the REST resource this object represents. Servers may infer this from the endpoint the client submits requests to. Cannot be updated. In CamelCase. More info: https://git.k8s.io/community/contributors/devel/api-conventions.md#types-kinds"
       (leaf "string" ""));
    ("apiVersion", described "APIVersion defines the versioned schema of this representation of an object. Servers should convert recognized schemas to the latest internal value, and may reject unrecognized values. More info: https://git.k8s.io/community/contributors/devel/api-conventions.md#resources"
       (leaf "string" ""))
  ] []
    [].

Definition meta_v1_WatchEvent : OpenAPIDefinition :=
  object_of "Event represents a single event to a watched resource." [
    ("type", leaf "string" "");
    ("object", described ("Object is:" +:+ nl +:+ " * If Type is Added or Modified: the new state of the object." +:+ nl +:+ " * If Type is Deleted: the state of the object immediately before deletion." +:+ nl +:+ " * If Type is Error: *Status is recommended; other types may make sense" +:+ nl +:+ "   depending on context.")
       (ref_to (runtime_pkg "RawExtension")))
  ] ["type"; "object"]
    [runtime_pkg "RawExtension"].
