(* ===== verification/OpenAPICoreA.v ===== *)
(** * OpenAPI definitions: core/v1 of Kubernetes, the first half (AWSElasticBlockStoreVolumeSource to NodeSpec)

    The entries of the map in pkg/apis/ava/v1alpha1/openapi_generated.go, one definition each. *)
From S2P Require Import Prelude OpenAPI.

Definition core_v1_AWSElasticBlockStoreVolumeSource : OpenAPIDefinition :=
  object_of ("Represents a Persistent Disk resource in AWS." +:+ nl +:+ nl +:+ "An AWS EBS disk must exist before mounting to a container. The disk must also be in the same AWS zone as the kubelet. An AWS EBS disk can only be mounted as read/write once. AWS EBS volumes support ownership management and SELinux relabeling.") [
    ("volumeID", described "Unique ID of the persistent disk resource in AWS (Amazon EBS volume). More info: https://kubernetes.io/docs/concepts/storage/volumes#awselasticblockstore"
       (leaf "string" ""));
    ("fsType", described ("Filesystem type of the volume that you want to mount. Tip: Ensure that the filesystem type is supported by the host operating system. Examples: " +:+ dq +:+ "ext4" +:+ dq +:+ ", " +:+ dq +:+ "xfs" +:+ dq +:+ ", " +:+ dq +:+ "ntfs" +:+ dq +:+ ". Implicitly inferred to be " +:+ dq +:+ "ext4" +:+ dq +:+ " if unspecified. More info: https://kubernetes.io/docs/concepts/storage/volumes#awselasticblockstore")
       (leaf "string" ""));
    ("partition", described ("The partition in the volume that you want to mount. If omitted, the default is to mount by volume name. Examples: For volume /dev/sda1, you specify the partition as " +:+ dq +:+ "1" +:+ dq +:+ ". Similarly, the volume partition for /dev/sda is " +:+ dq +:+ "0" +:+ dq +:+ " (or you can leave the property empty).")
       (leaf "integer" "int32"));
    ("readOnly", described ("Specify " +:+ dq +:+ "true" +:+ dq +:+ " to force and set the ReadOnly property in VolumeMounts to " +:+ dq +:+ "true" +:+ dq +:+ ". If omitted, the default is " +:+ dq +:+ "false" +:+ dq +:+ ". More info: https://kubernetes.io/docs/concepts/storage/volumes#awselasticblockstore")
       (leaf "boolean" ""))
  ] ["volumeID"]
    [].

Definition core_v1_Affinity : OpenAPIDefinition :=
  object_of "Affinity is a group of affinity scheduling rules." [
    ("nodeAffinity", described "Describes node affinity scheduling rules for the pod."
       (ref_to (core "NodeAffinity")));
    ("podAffinity", described "Describes pod affinity scheduling rules (e.g. co-locate this pod in the same node, zone, etc. as some other pod(s))."
       (ref_to (core "PodAffinity")));
    ("podAntiAffinity", described "Describes pod anti-affinity scheduling rules (e.g. avoid putting this pod in the same node, zone, etc. as some other pod(s))."
       (ref_to (core "PodAntiAffinity")))
  ] []
    [core "NodeAffinity"; core "PodAffinity"; core "PodAntiAffinity"].

Definition core_v1_AttachedVolume : OpenAPIDefinition :=
  object_of "AttachedVolume describes a volume attached to a node" [
    ("name", described "Name of the attached volume"
       (leaf "string" ""));
    ("devicePath", described "DevicePath represents the device path where the volume should be available"
       (leaf "string" ""))
  ] ["name"; "devicePath"]
    [].

Definition core_v1_AvoidPods : OpenAPIDefinition :=
  object_of "AvoidPods describes pods that should avoid this node. This is the value for a Node annotation with key scheduler.alpha.kubernetes.io/preferAvoidPods and will eventually become a field of NodeStatus." [
    ("preferAvoidPods", described "Bounded-sized list of signatures of pods that should avoid this node, sorted in timestamp order from oldest to newest. Size of the slice is unspecified."
       (array_of (ref_to (core "PreferAvoidPodsEntry"))))
  ] []
    [core "PreferAvoidPodsEntry"].

Definition core_v1_AzureDiskVolumeSource : OpenAPIDefinition :=
  object_of "AzureDisk represents an Azure Data Disk mount on the host and bind mount to the pod." [
    ("diskName", described "The Name of the data disk in the blob storage"
       (leaf "string" ""));
    ("diskURI", described "The URI the data disk in the blob storage"
       (leaf "string" ""));
    ("cachingMode", described "Host Caching mode: None, Read Only, Read Write."
       (leaf "string" ""));
    ("fsType", described ("Filesystem type to mount. Must be a filesystem type supported by the host operating system. Ex. " +:+ dq +:+ "ext4" +:+ dq +:+ ", " +:+ dq +:+ "xfs" +:+ dq +:+ ", " +:+ dq +:+ "ntfs" +:+ dq +:+ ". Implicitly inferred to be " +:+ dq +:+ "ext4" +:+ dq +:+ " if unspecified.")
       (leaf "string" ""));
    ("readOnly", described "Defaults to false (read/write). ReadOnly here will force the ReadOnly setting in VolumeMounts."
       (leaf "boolean" ""));
    ("kind", described "Expected values Shared: multiple blob disks per storage account  Dedicated: single blob disk per storage account  Managed: azure managed data disk (only in managed availability set). defaults to shared"
       (leaf "string" ""))
  ] ["diskName"; "diskURI"]
    [].

Definition core_v1_AzureFilePersistentVolumeSource : OpenAPIDefinition :=
  object_of "AzureFile represents an Azure File Service mount on the host and bind mount to the pod." [
    ("secretName", described "the name of secret that contains Azure Storage Account Name and Key"
       (leaf "string" ""));
    ("shareName", described "Share Name"
       (leaf "string" ""));
    ("readOnly", described "Defaults to false (read/write). ReadOnly here will force the ReadOnly setting in VolumeMounts."
       (leaf "boolean" ""));
    ("secretNamespace", described "the namespace of the secret that contains Azure Storage Account Name and Key default is the same as the Pod"
       (leaf "string" ""))
  ] ["secretName"; "shareName"]
    [].

Definition core_v1_AzureFileVolumeSource : OpenAPIDefinition :=
  object_of "AzureFile represents an Azure File Service mount on the host and bind mount to the pod." [
    ("secretName", described "the name of secret that contains Azure Storage Account Name and Key"
       (leaf "string" ""));
    ("shareName", described "Share Name"
       (leaf "string" ""));
    ("readOnly", described "Defaults to false (read/write). ReadOnly here will force the ReadOnly setting in VolumeMounts."
       (leaf "boolean" ""))
  ] ["secretName"; "shareName"]
    [].

Definition core_v1_Binding : OpenAPIDefinition :=
  object_of "Binding ties one object to another; for example, a pod is bound to a node by a scheduler. Deprecated in 1.7, please use the bindings subresource of pods instead." [
    ("kind", described "Kind is a string value representing the REST resource this object represents. Servers may infer this from the endpoint the client submits requests to. Cannot be updated. In CamelCase. More info: https://git.k8s.io/community/contributors/devel/api-conventions.md#types-kinds"
       (leaf "string" ""));
    ("apiVersion", described "APIVersion defines the versioned schema of this representation of an object. Servers should convert recognized schemas to the latest internal value, and may reject unrecognized values. More info: https://git.k8s.io/community/contributors/devel/api-conventions.md#resources"
       (leaf "string" ""));
    ("metadata", described "Standard object's metadata. More info: https://git.k8s.io/community/contributors/devel/api-conventions.md#metadata"
       (ref_to (meta "ObjectMeta")));
    ("target", described "The target object that you want to bind to the standard object."
       (ref_to (core "ObjectReference")))
  ] ["target"]
    [core "ObjectReference"; meta "ObjectMeta"].

Definition core_v1_CSIPersistentVolumeSource : OpenAPIDefinition :=
  object_of "Represents storage that is managed by an external CSI volume driver" [
    ("driver", described "Driver is the name of the driver to use for this volume. Required."
       (leaf "string" ""));
    ("volumeHandle", described "VolumeHandle is the unique volume name returned by the CSI volume plugin’s CreateVolume to refer to the volume on all subsequent calls. Required."
       (leaf "string" ""));
    ("readOnly", described "Optional: The value to pass to ControllerPublishVolumeRequest. Defaults to false (read/write)."
       (leaf "boolean" ""))
  ] ["driver"; "volumeHandle"]
    [].

Definition core_v1_Capabilities : OpenAPIDefinition :=
  object_of "Adds and removes POSIX capabilities from running containers." [
    ("add", described "Added capabilities"
       (array_of (leaf "string" "")));
    ("drop", described "Removed capabilities"
       (array_of (leaf "string" "")))
  ] []
    [].

Definition core_v1_CephFSPersistentVolumeSource : OpenAPIDefinition :=
  object_of "Represents a Ceph Filesystem mount that lasts the lifetime of a pod Cephfs volumes do not support ownership management or SELinux relabeling." [
    ("monitors", described "Required: Monitors is a collection of Ceph monitors More info: https://releases.k8s.io/HEAD/examples/volumes/cephfs/README.md#how-to-use-it"
       (array_of (leaf "string" "")));
    ("path", described "Optional: Used as the mounted root, rather than the full Ceph tree, default is /"
       (leaf "string" ""));
    ("user", described "Optional: User is the rados user name, default is admin More info: https://releases.k8s.io/HEAD/examples/volumes/cephfs/README.md#how-to-use-it"
       (leaf "string" ""));
    ("secretFile", described "Optional: SecretFile is the path to key ring for User, default is /etc/ceph/user.secret More info: https://releases.k8s.io/HEAD/examples/volumes/cephfs/README.md#how-to-use-it"
       (leaf "string" ""));
    ("secretRef", described "Optional: SecretRef is reference to the authentication secret for User, default is empty. More info: https://releases.k8s.io/HEAD/examples/volumes/cephfs/README.md#how-to-use-it"
       (ref_to (core "SecretReference")));
    ("readOnly", described "Optional: Defaults to false (read/write). ReadOnly here will force the ReadOnly setting in VolumeMounts. More info: https://releases.k8s.io/HEAD/examples/volumes/cephfs/README.md#how-to-use-it"
       (leaf "boolean" ""))
  ] ["monitors"]
    [core "SecretReference"].

Definition core_v1_CephFSVolumeSource : OpenAPIDefinition :=
  object_of "Represents a Ceph Filesystem mount that lasts the lifetime of a pod Cephfs volumes do not support ownership management or SELinux relabeling." [
    ("monitors", described "Required: Monitors is a collection of Ceph monitors More info: https://releases.k8s.io/HEAD/examples/volumes/cephfs/README.md#how-to-use-it"
       (array_of (leaf "string" "")));
    ("path", described "Optional: Used as the mounted root, rather than the full Ceph tree, default is /"
       (leaf "string" ""));
    ("user", described "Optional: User is the rados user name, default is admin More info: https://releases.k8s.io/HEAD/examples/volumes/cephfs/README.md#how-to-use-it"
       (leaf "string" ""));
    ("secretFile", described "Optional: SecretFile is the path to key ring for User, default is /etc/ceph/user.secret More info: https://releases.k8s.io/HEAD/examples/volumes/cephfs/README.md#how-to-use-it"
       (leaf "string" ""));
    ("secretRef", described "Optional: SecretRef is reference to the authentication secret for User, default is empty. More info: https://releases.k8s.io/HEAD/examples/volumes/cephfs/README.md#how-to-use-it"
       (ref_to (core "LocalObjectReference")));
    ("readOnly", described "Optional: Defaults to false (read/write). ReadOnly here will force the ReadOnly setting in VolumeMounts. More info: https://releases.k8s.io/HEAD/examples/volumes/cephfs/README.md#how-to-use-it"
       (leaf "boolean" ""))
  ] ["monitors"]
    [core "LocalObjectReference"].

Definition core_v1_CinderVolumeSource : OpenAPIDefinition :=
  object_of "Represents a cinder volume resource in Openstack. A Cinder volume must exist before mounting to a container. The volume must also be in the same region as the kubelet. Cinder volumes support ownership management and SELinux relabeling." [
    ("volumeID", described "volume id used to identify the volume in cinder More info: https://releases.k8s.io/HEAD/examples/mysql-cinder-pd/README.md"
       (leaf "string" ""));
    ("fsType", described ("Filesystem type to mount. Must be a filesystem type supported by the host operating system. Examples: " +:+ dq +:+ "ext4" +:+ dq +:+ ", " +:+ dq +:+ "xfs" +:+ dq +:+ ", " +:+ dq +:+ "ntfs" +:+ dq +:+ ". Implicitly inferred to be " +:+ dq +:+ "ext4" +:+ dq +:+ " if unspecified. More info: https://releases.k8s.io/HEAD/examples/mysql-cinder-pd/README.md")
       (leaf "string" ""));
    ("readOnly", described "Optional: Defaults to false (read/write). ReadOnly here will force the ReadOnly setting in VolumeMounts. More info: https://releases.k8s.io/HEAD/examples/mysql-cinder-pd/README.md"
       (leaf "boolean" ""))
  ] ["volumeID"]
    [].

Definition core_v1_ClientIPConfig : OpenAPIDefinition :=
  object_of "ClientIPConfig represents the configurations of Client IP based session affinity." [
    ("timeoutSeconds", described ("timeoutSeconds specifies the seconds of ClientIP type session sticky time. The value must be >0 && <=86400(for 1 day) if ServiceAffinity == " +:+ dq +:+ "ClientIP" +:+ dq +:+ ". Default value is 10800(for 3 hours).")
       (leaf "integer" "int32"))
  ] []
    [].

Definition core_v1_ComponentCondition : OpenAPIDefinition :=
  object_of "Information about the condition of a component." [
    ("type", described ("Type of condition for a component. Valid value: " +:+ dq +:+ "Healthy" +:+ dq)
       (leaf "string" ""));
    ("status", described ("Status of the condition for a component. Valid values for " +:+ dq +:+ "Healthy" +:+ dq +:+ ": " +:+ dq +:+ "True" +:+ dq +:+ ", " +:+ dq +:+ "False" +:+ dq +:+ ", or " +:+ dq +:+ "Unknown" +:+ dq +:+ ".")
       (leaf "string" ""));
    ("message", described "Message about the condition for a component. For example, information about a health check."
       (leaf "string" ""));
    ("error", described "Condition error code for a component. For example, a health check error code."
       (leaf "string" ""))
  ] ["type"; "status"]
    [].

Definition core_v1_ComponentStatus : OpenAPIDefinition :=
  object_of "ComponentStatus (and ComponentStatusList) holds the cluster validation info." [
    ("kind", described "Kind is a string value representing the REST resource this object represents. Servers may infer this from the endpoint the client submits requests to. Cannot be updated. In CamelCase. More info: https://git.k8s.io/community/contributors/devel/api-conventions.md#types-kinds"
       (leaf "string" ""));
    ("apiVersion", described "APIVersion defines the versioned schema of this representation of an object. Servers should convert recognized schemas to the latest internal value, and may reject unrecognized values. More info: https://git.k8s.io/community/contributors/devel/api-conventions.md#resources"
       (leaf "string" ""));
    ("metadata", described "Standard object's metadata. More info: https://git.k8s.io/community/contributors/devel/api-conventions.md#metadata"
       (ref_to (meta "ObjectMeta")));
    ("conditions", described "List of component conditions observed"
       (extended [("x-kubernetes-patch-merge-key", "type"); ("x-kubernetes-patch-strategy", "merge")] (array_of (ref_to (core "ComponentCondition")))))
  ] []
    [core "ComponentCondition"; meta "ObjectMeta"].

Definition core_v1_ComponentStatusList : OpenAPIDefinition :=
  object_of "Status of all the conditions for the component as a list of ComponentStatus objects." [
    ("kind", described "Kind is a string value representing the REST resource this object represents. Servers may infer this from the endpoint the client submits requests to. Cannot be updated. In CamelCase. More info: https://git.k8s.io/community/contributors/devel/api-conventions.md#types-kinds"
       (leaf "string" ""));
    ("apiVersion", described "APIVersion defines the versioned schema of this representation of an object. Servers should convert recognized schemas to the latest internal value, and may reject unrecognized values. More info: https://git.k8s.io/community/contributors/devel/api-conventions.md#resources"
       (leaf "string" ""));
    ("metadata", described "Standard list metadata. More info: https://git.k8s.io/community/contributors/devel/api-conventions.md#types-kinds"
       (ref_to (meta "ListMeta")));
    ("items", described "List of ComponentStatus objects."
       (array_of (ref_to (core "ComponentStatus"))))
  ] ["items"]
    [core "ComponentStatus"; meta "ListMeta"].

Definition core_v1_ConfigMap : OpenAPIDefinition :=
  object_of "ConfigMap holds configuration data for pods to consume." [
    ("kind", described "Kind is a string value representing the REST resource this object represents. Servers may infer this from the endpoint the client submits requests to. Cannot be updated. In CamelCase. More info: https://git.k8s.io/community/contributors/devel/api-conventions.md#types-kinds"
       (leaf "string" ""));
    ("apiVersion", described "APIVersion defines the versioned schema of this representation of an object. Servers should convert recognized schemas to the latest internal value, and may reject unrecognized values. More info: https://git.k8s.io/community/contributors/devel/api-conventions.md#resources"
       (leaf "string" ""));
    ("metadata", described "Standard object's metadata. More info: https://git.k8s.io/community/contributors/devel/api-conventions.md#metadata"
       (ref_to (meta "ObjectMeta")));
    ("data", described "Data contains the configuration data. Each key must consist of alphanumeric characters, '-', '_' or '.'."
       (map_of (leaf "string" "")))
  ] []
    [meta "ObjectMeta"].

Definition core_v1_ConfigMapEnvSource : OpenAPIDefinition :=
  object_of ("ConfigMapEnvSource selects a ConfigMap to populate the environment variables with." +:+ nl +:+ nl +:+ "The contents of the target ConfigMap's Data field will represent the key-value pairs as environment variables.") [
    ("name", described "Name of the referent. More info: https://kubernetes.io/docs/concepts/overview/working-with-objects/names/#names"
       (leaf "string" ""));
    ("optional", described "Specify whether the ConfigMap must be defined"
       (leaf "boolean" ""))
  ] []
    [].

Definition core_v1_ConfigMapKeySelector : OpenAPIDefinition :=
  object_of "Selects a key from a ConfigMap." [
    ("name", described "Name of the referent. More info: https://kubernetes.io/docs/concepts/overview/working-with-objects/names/#names"
       (leaf "string" ""));
    ("key", described "The key to select."
       (leaf "string" ""));
    ("optional", described "Specify whether the ConfigMap or it's key must be defined"
       (leaf "boolean" ""))
  ] ["key"]
    [].

Definition core_v1_ConfigMapList : OpenAPIDefinition :=
  object_of "ConfigMapList is a resource containing a list of ConfigMap objects." [
    ("kind", described "Kind is a string value representing the REST resource this object represents. Servers may infer this from the endpoint the client submits requests to. Cannot be updated. In CamelCase. More info: https://git.k8s.io/community/contributors/devel/api-conventions.md#types-kinds"
       (leaf "string" ""));
    ("apiVersion", described "APIVersion defines the versioned schema of this representation of an object. Servers should convert recognized schemas to the latest internal value, and may reject unrecognized values. More info: https://git.k8s.io/community/contributors/devel/api-conventions.md#resources"
       (leaf "string" ""));
    ("metadata", described "More info: https://git.k8s.io/community/contributors/devel/api-conventions.md#metadata"
       (ref_to (meta "ListMeta")));
    ("items", described "Items is the list of ConfigMaps."
       (array_of (ref_to (core "ConfigMap"))))
  ] ["items"]
    [core "ConfigMap"; meta "ListMeta"].

Definition core_v1_ConfigMapProjection : OpenAPIDefinition :=
  object_of ("Adapts a ConfigMap into a projected volume." +:+ nl +:+ nl +:+ "The contents of the target ConfigMap's Data field will be presented in a projected volume as files using the keys in the Data field as the file names, unless the items element is populated with specific mappings of keys to paths. Note that this is identical to a configmap volume source without the default mode.") [
    ("name", described "Name of the referent. More info: https://kubernetes.io/docs/concepts/overview/working-with-objects/names/#names"
       (leaf "string" ""));
    ("items", described "If unspecified, each key-value pair in the Data field of the referenced ConfigMap will be projected into the volume as a file whose name is the key and content is the value. If specified, the listed keys will be projected into the specified paths, and unlisted keys will not be present. If a key is specified which is not present in the ConfigMap, the volume setup will error unless it is marked optional. Paths must be relative and may not contain the '..' path or start with '..'."
       (array_of (ref_to (core "KeyToPath"))));
    ("optional", described "Specify whether the ConfigMap or it's keys must be defined"
       (leaf "boolean" ""))
  ] []
    [core "KeyToPath"].

Definition core_v1_ConfigMapVolumeSource : OpenAPIDefinition :=
  object_of ("Adapts a ConfigMap into a volume." +:+ nl +:+ nl +:+ "The contents of the target ConfigMap's Data field will be presented in a volume as files using the keys in the Data field as the file names, unless the items element is populated with specific mappings of keys to paths. ConfigMap volumes support ownership management and SELinux relabeling.") [
    ("name", described "Name of the referent. More info: https://kubernetes.io/docs/concepts/overview/working-with-objects/names/#names"
       (leaf "string" ""));
    ("items", described "If unspecified, each key-value pair in the Data field of the referenced ConfigMap will be projected into the volume as a file whose name is the key and content is the value. If specified, the listed keys will be projected into the specified paths, and unlisted keys will not be present. If a key is specified which is not present in the ConfigMap, the volume setup will error unless it is marked optional. Paths must be relative and may not contain the '..' path or start with '..'."
       (array_of (ref_to (core "KeyToPath"))));
    ("defaultMode", described "Optional: mode bits to use on created files by default. Must be a value between 0 and 0777. Defaults to 0644. Directories within the path are not affected by this setting. This might be in conflict with other options that affect the file mode, like fsGroup, and the result can be other mode bits set."
       (leaf "integer" "int32"));
    ("optional", described "Specify whether the ConfigMap or it's keys must be defined"
       (leaf "boolean" ""))
  ] []
    [core "KeyToPath"].

Definition core_v1_Container : OpenAPIDefinition :=
  object_of "A single application container that you want to run within a pod." [
    ("name", described "Name of the container specified as a DNS_LABEL. Each container in a pod must have a unique name (DNS_LABEL). Cannot be updated."
       (leaf "string" ""));
    ("image", described "Docker image name. More info: https://kubernetes.io/docs/concepts/containers/images This field is optional to allow higher level config management to default or override container images in workload controllers like Deployments and StatefulSets."
       (leaf "string" ""));
    ("command", described "Entrypoint array. Not executed within a shell. The docker image's ENTRYPOINT is used if this is not provided. Variable references $(VAR_NAME) are expanded using the container's environment. If a variable cannot be resolved, the reference in the input string will be unchanged. The $(VAR_NAME) syntax can be escaped with a double $$, ie: $$(VAR_NAME). Escaped references will never be expanded, regardless of whether the variable exists or not. Cannot be updated. More info: https://kubernetes.io/docs/tasks/inject-data-application/define-command-argument-container/#running-a-command-in-a-shell"
       (array_of (leaf "string" "")));
    ("args", described "Arguments to the entrypoint. The docker image's CMD is used if this is not provided. Variable references $(VAR_NAME) are expanded using the container's environment. If a variable cannot be resolved, the reference in the input string will be unchanged. The $(VAR_NAME) syntax can be escaped with a double $$, ie: $$(VAR_NAME). Escaped references will never be expanded, regardless of whether the variable exists or not. Cannot be updated. More info: https://kubernetes.io/docs/tasks/inject-data-application/define-command-argument-container/#running-a-command-in-a-shell"
       (array_of (leaf "string" "")));
    ("workingDir", described "Container's working directory. If not specified, the container runtime's default will be used, which might be configured in the container image. Cannot be updated."
       (leaf "string" ""));
    ("ports", described ("List of ports to expose from the container. Exposing a port here gives the system additional information about the network connections a container uses, but is primarily informational. Not specifying a port here DOES NOT prevent that port from being exposed. Any port which is listening on the default " +:+ dq +:+ "0.0.0.0" +:+ dq +:+ " address inside a container will be accessible from the network. Cannot be updated.")
       (extended [("x-kubernetes-patch-merge-key", "containerPort"); ("x-kubernetes-patch-strategy", "merge")] (array_of (ref_to (core "ContainerPort")))));
    ("envFrom", described "List of sources to populate environment variables in the container. The keys defined within a source must be a C_IDENTIFIER. All invalid keys will be reported as an event when the container is starting. When a key exists in multiple sources, the value associated with the last source will take precedence. Values defined by an Env with a duplicate key will take precedence. Cannot be updated."
       (array_of (ref_to (core "EnvFromSource"))));
    ("env", described "List of environment variables to set in the container. Cannot be updated."
       (extended [("x-kubernetes-patch-merge-key", "name"); ("x-kubernetes-patch-strategy", "merge")] (array_of (ref_to (core "EnvVar")))));
    ("resources", described "Compute Resources required by this container. Cannot be updated. More info: https://kubernetes.io/docs/concepts/storage/persistent-volumes#resources"
       (ref_to (core "ResourceRequirements")));
    ("volumeMounts", described "Pod volumes to mount into the container's filesystem. Cannot be updated."
       (extended [("x-kubernetes-patch-merge-key", "mountPath"); ("x-kubernetes-patch-strategy", "merge")] (array_of (ref_to (core "VolumeMount")))));
    ("volumeDevices", described "volumeDevices is the list of block devices to be used by the container. This is an alpha feature and may change in the future."
       (extended [("x-kubernetes-patch-merge-key", "devicePath"); ("x-kubernetes-patch-strategy", "merge")] (array_of (ref_to (core "VolumeDevice")))));
    ("livenessProbe", described "Periodic probe of container liveness. Container will be restarted if the probe fails. Cannot be updated. More info: https://kubernetes.io/docs/concepts/workloads/pods/pod-lifecycle#container-probes"
       (ref_to (core "Probe")));
    ("readinessProbe", described "Periodic probe of container service readiness. Container will be removed from service endpoints if the probe fails. Cannot be updated. More info: https://kubernetes.io/docs/concepts/workloads/pods/pod-lifecycle#container-probes"
       (ref_to (core "Probe")));
    ("lifecycle", described "Actions that the management system should take in response to container lifecycle events. Cannot be updated."
       (ref_to (core "Lifecycle")));
    ("terminationMessagePath", described "Optional: Path at which the file to which the container's termination message will be written is mounted into the container's filesystem. Message written is intended to be brief final status, such as an assertion failure message. Will be truncated by the node if greater than 4096 bytes. The total message length across all containers will be limited to 12kb. Defaults to /dev/termination-log. Cannot be updated."
       (leaf "string" ""));
    ("terminationMessagePolicy", described "Indicate how the termination message should be populated. File will use the contents of terminationMessagePath to populate the container status message on both success and failure. FallbackToLogsOnError will use the last chunk of container log output if the termination message file is empty and the container exited with an error. The log output is limited to 2048 bytes or 80 lines, whichever is smaller. Defaults to File. Cannot be updated."
       (leaf "string" ""));
    ("imagePullPolicy", described "Image pull policy. One of Always, Never, IfNotPresent. Defaults to Always if :latest tag is specified, or IfNotPresent otherwise. Cannot be updated. More info: https://kubernetes.io/docs/concepts/containers/images#updating-images"
       (leaf "string" ""));
    ("securityContext", described "Security options the pod should run with. More info: https://kubernetes.io/docs/concepts/policy/security-context/ More info: https://kubernetes.io/docs/tasks/configure-pod-container/security-context/"
       (ref_to (core "SecurityContext")));
    ("stdin", described "Whether this container should allocate a buffer for stdin in the container runtime. If this is not set, reads from stdin in the container will always result in EOF. Default is false."
       (leaf "boolean" ""));
    ("stdinOnce", described "Whether the container runtime should close the stdin channel after it has been opened by a single attach. When stdin is true the stdin stream will remain open across multiple attach sessions. If stdinOnce is set to true, stdin is opened on container start, is empty until the first client attaches to stdin, and then remains open and accepts data until the client disconnects, at which time stdin is closed and remains closed until the container is restarted. If this flag is false, a container processes that reads from stdin will never receive an EOF. Default is false"
       (leaf "boolean" ""));
    ("tty", described "Whether this container should allocate a TTY for itself, also requires 'stdin' to be true. Default is false."
       (leaf "boolean" ""))
  ] ["name"]
    [core "ContainerPort"; core "EnvFromSource"; core "EnvVar"; core "Lifecycle"; core "Probe";
     core "ResourceRequirements"; core "SecurityContext"; core "VolumeDevice";
     core "VolumeMount"].

Definition core_v1_ContainerImage : OpenAPIDefinition :=
  object_of "Describe a container image" [
    ("names", described ("Names by which this image is known. e.g. [" +:+ dq +:+ "gcr.io/google_containers/hyperkube:v1.0.7" +:+ dq +:+ ", " +:+ dq +:+ "dockerhub.io/google_containers/hyperkube:v1.0.7" +:+ dq +:+ "]")
       (array_of (leaf "string" "")));
    ("sizeBytes", described "The size of the image in bytes."
       (leaf "integer" "int64"))
  ] ["names"]
    [].

Definition core_v1_ContainerPort : OpenAPIDefinition :=
  object_of "ContainerPort represents a network port in a single container." [
    ("name", described "If specified, this must be an IANA_SVC_NAME and unique within the pod. Each named port in a pod must have a unique name. Name for the port that can be referred to by services."
       (leaf "string" ""));
    ("hostPort", described "Number of port to expose on the host. If specified, this must be a valid port number, 0 < x < 65536. If HostNetwork is specified, this must match ContainerPort. Most containers do not need this."
       (leaf "integer" "int32"));
    ("containerPort", described "Number of port to expose on the pod's IP address. This must be a valid port number, 0 < x < 65536."
       (leaf "integer" "int32"));
    ("protocol", described ("Protocol for port. Must be UDP or TCP. Defaults to " +:+ dq +:+ "TCP" +:+ dq +:+ ".")
       (leaf "string" ""));
    ("hostIP", described "What host IP to bind the external port to."
       (leaf "string" ""))
  ] ["containerPort"]
    [].

Definition core_v1_ContainerState : OpenAPIDefinition :=
  object_of "ContainerState holds a possible state of container. Only one of its members may be specified. If none of them is specified, the default one is ContainerStateWaiting." [
    ("waiting", described "Details about a waiting container"
       (ref_to (core "ContainerStateWaiting")));
    ("running", described "Details about a running container"
       (ref_to (core "ContainerStateRunning")));
    ("terminated", described "Details about a terminated container"
       (ref_to (core "ContainerStateTerminated")))
  ] []
    [core "ContainerStateRunning"; core "ContainerStateTerminated"; core "ContainerStateWaiting"].

Definition core_v1_ContainerStateRunning : OpenAPIDefinition :=
  object_of "ContainerStateRunning is a running state of a container." [
    ("startedAt", described "Time at which the container was last (re-)started"
       (ref_to (meta "Time")))
  ] []
    [meta "Time"].

Definition core_v1_ContainerStateTerminated : OpenAPIDefinition :=
  object_of "ContainerStateTerminated is a terminated state of a container." [
    ("exitCode", described "Exit status from the last termination of the container"
       (leaf "integer" "int32"));
    ("signal", described "Signal from the last termination of the container"
       (leaf "integer" "int32"));
    ("reason", described "(brief) reason from the last termination of the container"
       (leaf "string" ""));
    ("message", described "Message regarding the last termination of the container"
       (leaf "string" ""));
    ("startedAt", described "Time at which previous execution of the container started"
       (ref_to (meta "Time")));
    ("finishedAt", described "Time at which the container last terminated"
       (ref_to (meta "Time")));
    ("containerID", described "Container's ID in the format 'docker://<container_id>'"
       (leaf "string" ""))
  ] ["exitCode"]
    [meta "Time"].

Definition core_v1_ContainerStateWaiting : OpenAPIDefinition :=
  object_of "ContainerStateWaiting is a waiting state of a container." [
    ("reason", described "(brief) reason the container is not yet running."
       (leaf "string" ""));
    ("message", described "Message regarding why the container is not yet running."
       (leaf "string" ""))
  ] []
    [].

Definition core_v1_ContainerStatus : OpenAPIDefinition :=
  object_of "ContainerStatus contains details for the current status of this container." [
    ("name", described "This must be a DNS_LABEL. Each container in a pod must have a unique name. Cannot be updated."
       (leaf "string" ""));
    ("state", described "Details about the container's current condition."
       (ref_to (core "ContainerState")));
    ("lastState", described "Details about the container's last termination condition."
       (ref_to (core "ContainerState")));
    ("ready", described "Specifies whether the container has passed its readiness probe."
       (leaf "boolean" ""));
    ("restartCount", described "The number of times the container has been restarted, currently based on the number of dead containers that have not yet been removed. Note that this is calculated from dead containers. But those containers are subject to garbage collection. This value will get capped at 5 by GC."
       (leaf "integer" "int32"));
    ("image", described "The image the container is running. More info: https://kubernetes.io/docs/concepts/containers/images"
       (leaf "string" ""));
    ("imageID", described "ImageID of the container's image."
       (leaf "string" ""));
    ("containerID", described "Container's ID in the format 'docker://<container_id>'."
       (leaf "string" ""))
  ] ["name"; "ready"; "restartCount"; "image"; "imageID"]
    [core "ContainerState"].

Definition core_v1_DaemonEndpoint : OpenAPIDefinition :=
  object_of "DaemonEndpoint contains information about a single Daemon endpoint." [
    ("Port", described "Port number of the given endpoint."
       (leaf "integer" "int32"))
  ] ["Port"]
    [].

Definition core_v1_DownwardAPIProjection : OpenAPIDefinition :=
  object_of "Represents downward API info for projecting into a projected volume. Note that this is identical to a downwardAPI volume source without the default mode." [
    ("items", described "Items is a list of DownwardAPIVolume file"
       (array_of (ref_to (core "DownwardAPIVolumeFile"))))
  ] []
    [core "DownwardAPIVolumeFile"].

Definition core_v1_DownwardAPIVolumeFile : OpenAPIDefinition :=
  object_of "DownwardAPIVolumeFile represents information to create the file containing the pod field" [
    ("path", described "Required: Path is  the relative path name of the file to be created. Must not be absolute or contain the '..' path. Must be utf-8 encoded. The first item of the relative path must not start with '..'"
       (leaf "string" ""));
    ("fieldRef", described "Required: Selects a field of the pod: only annotations, labels, name and namespace are supported."
       (ref_to (core "ObjectFieldSelector")));
    ("resourceFieldRef", described "Selects a resource of the container: only resources limits and requests (limits.cpu, limits.memory, requests.cpu and requests.memory) are currently supported."
       (ref_to (core "ResourceFieldSelector")));
    ("mode", described "Optional: mode bits to use on this file, must be a value between 0 and 0777. If not specified, the volume defaultMode will be used. This might be in conflict with other options that affect the file mode, like fsGroup, and the result can be other mode bits set."
       (leaf "integer" "int32"))
  ] ["path"]
    [core "ObjectFieldSelector"; core "ResourceFieldSelector"].

Definition core_v1_DownwardAPIVolumeSource : OpenAPIDefinition :=
  object_of "DownwardAPIVolumeSource represents a volume containing downward API info. Downward API volumes support ownership management and SELinux relabeling." [
    ("items", described "Items is a list of downward API volume file"
       (array_of (ref_to (core "DownwardAPIVolumeFile"))));
    ("defaultMode", described "Optional: mode bits to use on created files by default. Must be a value between 0 and 0777. Defaults to 0644. Directories within the path are not affected by this setting. This might be in conflict with other options that affect the file mode, like fsGroup, and the result can be other mode bits set."
       (leaf "integer" "int32"))
  ] []
    [core "DownwardAPIVolumeFile"].

Definition core_v1_EmptyDirVolumeSource : OpenAPIDefinition :=
  object_of "Represents an empty directory for a pod. Empty directory volumes support ownership management and SELinux relabeling." [
    ("medium", described ("What type of storage medium should back this directory. The default is " +:+ dq +:+ dq +:+ " which means to use the node's default medium. Must be an empty string (default) or Memory. More info: https://kubernetes.io/docs/concepts/storage/volumes#emptydir")
       (leaf "string" ""));
    ("sizeLimit", described "Total amount of local storage required for this EmptyDir volume. The size limit is also applicable for memory medium. The maximum usage on memory medium EmptyDir would be the minimum value between the SizeLimit specified here and the sum of memory limits of all containers in a pod. The default is nil which means that the limit is undefined. More info: http://kubernetes.io/docs/user-guide/volumes#emptydir"
       (ref_to (resource "Quantity")))
  ] []
    [resource "Quantity"].

Definition core_v1_EndpointAddress : OpenAPIDefinition :=
  object_of "EndpointAddress is a tuple that describes single IP address." [
    ("ip", described "The IP of this endpoint. May not be loopback (127.0.0.0/8), link-local (169.254.0.0/16), or link-local multicast ((224.0.0.0/24). IPv6 is also accepted but not fully supported on all platforms. Also, certain kubernetes components, like kube-proxy, are not IPv6 ready."
       (leaf "string" ""));
    ("hostname", described "The Hostname of this endpoint"
       (leaf "string" ""));
    ("nodeName", described "Optional: Node hosting this endpoint. This can be used to determine endpoints local to a node."
       (leaf "string" ""));
    ("targetRef", described "Reference to object providing the endpoint."
       (ref_to (core "ObjectReference")))
  ] ["ip"]
    [core "ObjectReference"].

Definition core_v1_EndpointPort : OpenAPIDefinition :=
  object_of "EndpointPort is a tuple that describes a single port." [
    ("name", described "The name of this port (corresponds to ServicePort.Name). Must be a DNS_LABEL. Optional only if one port is defined."
       (leaf "string" ""));
    ("port", described "The port number of the endpoint."
       (leaf "integer" "int32"));
    ("protocol", described "The IP protocol for this port. Must be UDP or TCP. Default is TCP."
       (leaf "string" ""))
  ] ["port"]
    [].

Definition core_v1_EndpointSubset : OpenAPIDefinition :=
  object_of ("EndpointSubset is a group of addresses with a common set of ports. The expanded set of endpoints is the Cartesian product of Addresses x Ports. For example, given:" +:+ nl +:+ "  {" +:+ nl +:+ "    Addresses: [{" +:+ dq +:+ "ip" +:+ dq +:+ ": " +:+ dq +:+ "10.10.1.1" +:+ dq +:+ "}, {" +:+ dq +:+ "ip" +:+ dq +:+ ": " +:+ dq +:+ "10.10.2.2" +:+ dq +:+ "}]," +:+ nl +:+ "    Ports:     [{" +:+ dq +:+ "name" +:+ dq +:+ ": " +:+ dq +:+ "a" +:+ dq +:+ ", " +:+ dq +:+ "port" +:+ dq +:+ ": 8675}, {" +:+ dq +:+ "name" +:+ dq +:+ ": " +:+ dq +:+ "b" +:+ dq +:+ ", " +:+ dq +:+ "port" +:+ dq +:+ ": 309}]" +:+ nl +:+ "  }" +:+ nl +:+ "The resulting set of endpoints can be viewed as:" +:+ nl +:+ "    a: [ 10.10.1.1:8675, 10.10.2.2:8675 ]," +:+ nl +:+ "    b: [ 10.10.1.1:309, 10.10.2.2:309 ]") [
    ("addresses", described "IP addresses which offer the related ports that are marked as ready. These endpoints should be considered safe for load balancers and clients to utilize."
       (array_of (ref_to (core "EndpointAddress"))));
    ("notReadyAddresses", described "IP addresses which offer the related ports but are not currently marked as ready because they have not yet finished starting, have recently failed a readiness check, or have recently failed a liveness check."
       (array_of (ref_to (core "EndpointAddress"))));
    ("ports", described "Port numbers available on the related IP addresses."
       (array_of (ref_to (core "EndpointPort"))))
  ] []
    [core "EndpointAddress"; core "EndpointPort"].

Definition core_v1_Endpoints : OpenAPIDefinition :=
  object_of ("Endpoints is a collection of endpoints that implement the actual service. Example:" +:+ nl +:+ "  Name: " +:+ dq +:+ "mysvc" +:+ dq +:+ "," +:+ nl +:+ "  Subsets: [" +:+ nl +:+ "    {" +:+ nl +:+ "      Addresses: [{" +:+ dq +:+ "ip" +:+ dq +:+ ": " +:+ dq +:+ "10.10.1.1" +:+ dq +:+ "}, {" +:+ dq +:+ "ip" +:+ dq +:+ ": " +:+ dq +:+ "10.10.2.2" +:+ dq +:+ "}]," +:+ nl +:+ "      Ports: [{" +:+ dq +:+ "name" +:+ dq +:+ ": " +:+ dq +:+ "a" +:+ dq +:+ ", " +:+ dq +:+ "port" +:+ dq +:+ ": 8675}, {" +:+ dq +:+ "name" +:+ dq +:+ ": " +:+ dq +:+ "b" +:+ dq +:+ ", " +:+ dq +:+ "port" +:+ dq +:+ ": 309}]" +:+ nl +:+ "    }," +:+ nl +:+ "    {" +:+ nl +:+ "      Addresses: [{" +:+ dq +:+ "ip" +:+ dq +:+ ": " +:+ dq +:+ "10.10.3.3" +:+ dq +:+ "}]," +:+ nl +:+ "      Ports: [{" +:+ dq +:+ "name" +:+ dq +:+ ": " +:+ dq +:+ "a" +:+ dq +:+ ", " +:+ dq +:+ "port" +:+ dq +:+ ": 93}, {" +:+ dq +:+ "name" +:+ dq +:+ ": " +:+ dq +:+ "b" +:+ dq +:+ ", " +:+ dq +:+ "port" +:+ dq +:+ ": 76}]" +:+ nl +:+ "    }," +:+ nl +:+ " ]") [
    ("kind", described "Kind is a string value representing the REST resource this object represents. Servers may infer this from the endpoint the client submits requests to. Cannot be updated. In CamelCase. More info: https://git.k8s.io/community/contributors/devel/api-conventions.md#types-kinds"
       (leaf "string" ""));
    ("apiVersion", described "APIVersion defines the versioned schema of this representation of an object. Servers should convert recognized schemas to the latest internal value, and may reject unrecognized values. More info: https://git.k8s.io/community/contributors/devel/api-conventions.md#resources"
       (leaf "string" ""));
    ("metadata", described "Standard object's metadata. More info: https://git.k8s.io/community/contributors/devel/api-conventions.md#metadata"
       (ref_to (meta "ObjectMeta")));
    ("subsets", described "The set of all endpoints is the union of all subsets. Addresses are placed into subsets according to the IPs they share. A single address with multiple ports, some of which are ready and some of which are not (because they come from different containers) will result in the address being displayed in different subsets for the different ports. No address will appear in both Addresses and NotReadyAddresses in the same subset. Sets of addresses and ports that comprise a service."
       (array_of (ref_to (core "EndpointSubset"))))
  ] ["subsets"]
    [core "EndpointSubset"; meta "ObjectMeta"].

Definition core_v1_EndpointsList : OpenAPIDefinition :=
  object_of "EndpointsList is a list of endpoints." [
    ("kind", described "Kind is a string value representing the REST resource this object represents. Servers may infer this from the endpoint the client submits requests to. Cannot be updated. In CamelCase. More info: https://git.k8s.io/community/contributors/devel/api-conventions.md#types-kinds"
       (leaf "string" ""));
    ("apiVersion", described "APIVersion defines the versioned schema of this representation of an object. Servers should convert recognized schemas to the latest internal value, and may reject unrecognized values. More info: https://git.k8s.io/community/contributors/devel/api-conventions.md#resources"
       (leaf "string" ""));
    ("metadata", described "Standard list metadata. More info: https://git.k8s.io/community/contributors/devel/api-conventions.md#types-kinds"
       (ref_to (meta "ListMeta")));
    ("items", described "List of endpoints."
       (array_of (ref_to (core "Endpoints"))))
  ] ["items"]
    [core "Endpoints"; meta "ListMeta"].

Definition core_v1_EnvFromSource : OpenAPIDefinition :=
  object_of "EnvFromSource represents the source of a set of ConfigMaps" [
    ("prefix", described "An optional identifer to prepend to each key in the ConfigMap. Must be a C_IDENTIFIER."
       (leaf "string" ""));
    ("configMapRef", described "The ConfigMap to select from"
       (ref_to (core "ConfigMapEnvSource")));
    ("secretRef", described "The Secret to select from"
       (ref_to (core "SecretEnvSource")))
  ] []
    [core "ConfigMapEnvSource"; core "SecretEnvSource"].

Definition core_v1_EnvVar : OpenAPIDefinition :=
  object_of "EnvVar represents an environment variable present in a Container." [
    ("name", described "Name of the environment variable. Must be a C_IDENTIFIER."
       (leaf "string" ""));
    ("value", described ("Variable references $(VAR_NAME) are expanded using the previous defined environment variables in the container and any service environment variables. If a variable cannot be resolved, the reference in the input string will be unchanged. The $(VAR_NAME) syntax can be escaped with a double $$, ie: $$(VAR_NAME). Escaped references will never be expanded, regardless of whether the variable exists or not. Defaults to " +:+ dq +:+ dq +:+ ".")
       (leaf "string" ""));
    ("valueFrom", described "Source for the environment variable's value. Cannot be used if value is not empty."
       (ref_to (core "EnvVarSource")))
  ] ["name"]
    [core "EnvVarSource"].

Definition core_v1_EnvVarSource : OpenAPIDefinition :=
  object_of "EnvVarSource represents a source for the value of an EnvVar." [
    ("fieldRef", described "Selects a field of the pod: supports metadata.name, metadata.namespace, metadata.labels, metadata.annotations, spec.nodeName, spec.serviceAccountName, status.hostIP, status.podIP."
       (ref_to (core "ObjectFieldSelector")));
    ("resourceFieldRef", described "Selects a resource of the container: only resources limits and requests (limits.cpu, limits.memory, limits.ephemeral-storage, requests.cpu, requests.memory and requests.ephemeral-storage) are currently supported."
       (ref_to (core "ResourceFieldSelector")));
    ("configMapKeyRef", described "Selects a key of a ConfigMap."
       (ref_to (core "ConfigMapKeySelector")));
    ("secretKeyRef", described "Selects a key of a secret in the pod's namespace"
       (ref_to (core "SecretKeySelector")))
  ] []
    [core "ConfigMapKeySelector"; core "ObjectFieldSelector"; core "ResourceFieldSelector";
     core "SecretKeySelector"].

Definition core_v1_Event : OpenAPIDefinition :=
  object_of "Event is a report of an event somewhere in the cluster." [
    ("kind", described "Kind is a string value representing the REST resource this object represents. Servers may infer this from the endpoint the client submits requests to. Cannot be updated. In CamelCase. More info: https://git.k8s.io/community/contributors/devel/api-conventions.md#types-kinds"
       (leaf "string" ""));
    ("apiVersion", described "APIVersion defines the versioned schema of this representation of an object. Servers should convert recognized schemas to the latest internal value, and may reject unrecognized values. More info: https://git.k8s.io/community/contributors/devel/api-conventions.md#resources"
       (leaf "string" ""));
    ("metadata", described "Standard object's metadata. More info: https://git.k8s.io/community/contributors/devel/api-conventions.md#metadata"
       (ref_to (meta "ObjectMeta")));
    ("involvedObject", described "The object that this event is about."
       (ref_to (core "ObjectReference")));
    ("reason", described "This should be a short, machine understandable string that gives the reason for the transition into the object's current status."
       (leaf "string" ""));
    ("message", described "A human-readable description of the status of this operation."
       (leaf "string" ""));
    ("source", described "The component reporting this event. Should be a short machine understandable string."
       (ref_to (core "EventSource")));
    ("firstTimestamp", described "The time at which the event was first recorded. (Time of server receipt is in TypeMeta.)"
       (ref_to (meta "Time")));
    ("lastTimestamp", described "The time at which the most recent occurrence of this event was recorded."
       (ref_to (meta "Time")));
    ("count", described "The number of times this event has occurred."
       (leaf "integer" "int32"));
    ("type", described "Type of this event (Normal, Warning), new types could be added in the future"
       (leaf "string" ""));
    ("eventTime", described "Time when this Event was first observed."
       (ref_to (meta "MicroTime")));
    ("series", described "Data about the Event series this event represents or nil if it's a singleton Event."
       (ref_to (core "EventSeries")));
    ("action", described "What action was taken/failed regarding to the Regarding object."
       (leaf "string" ""));
    ("related", described "Optional secondary object for more complex actions."
       (ref_to (core "ObjectReference")));
    ("reportingComponent", described "Name of the controller that emitted this Event, e.g. `kubernetes.io/kubelet`."
       (leaf "string" ""));
    ("reportingInstance", described "ID of the controller instance, e.g. `kubelet-xyzf`."
       (leaf "string" ""))
  ] ["metadata"; "involvedObject"]
    [core "EventSeries"; core "EventSource"; core "ObjectReference"; meta "MicroTime";
     meta "ObjectMeta"; meta "Time"].

Definition core_v1_EventList : OpenAPIDefinition :=
  object_of "EventList is a list of events." [
    ("kind", described "Kind is a string value representing the REST resource this object represents. Servers may infer this from the endpoint the client submits requests to. Cannot be updated. In CamelCase. More info: https://git.k8s.io/community/contributors/devel/api-conventions.md#types-kinds"
       (leaf "string" ""));
    ("apiVersion", described "APIVersion defines the versioned schema of this representation of an object. Servers should convert recognized schemas to the latest internal value, and may reject unrecognized values. More info: https://git.k8s.io/community/contributors/devel/api-conventions.md#resources"
       (leaf "string" ""));
    ("metadata", described "Standard list metadata. More info: https://git.k8s.io/community/contributors/devel/api-conventions.md#types-kinds"
       (ref_to (meta "ListMeta")));
    ("items", described "List of events"
       (array_of (ref_to (core "Event"))))
  ] ["items"]
    [core "Event"; meta "ListMeta"].

Definition core_v1_EventSeries : OpenAPIDefinition :=
  object_of "EventSeries contain information on series of events, i.e. thing that was/is happening continously for some time." [
    ("count", described "Number of occurrences in this series up to the last heartbeat time"
       (leaf "integer" "int32"));
    ("lastObservedTime", described "Time of the last occurence observed"
       (ref_to (meta "MicroTime")));
    ("state", described "State of this Series: Ongoing or Finished"
       (leaf "string" ""))
  ] []
    [meta "MicroTime"].

Definition core_v1_EventSource : OpenAPIDefinition :=
  object_of "EventSource contains information for an event." [
    ("component", described "Component from which the event is generated."
       (leaf "string" ""));
    ("host", described "Node name on which the event is generated."
       (leaf "string" ""))
  ] []
    [].

Definition core_v1_ExecAction : OpenAPIDefinition :=
  object_of ("ExecAction describes a " +:+ dq +:+ "run in container" +:+ dq +:+ " action.") [
    ("command", described "Command is the command line to execute inside the container, the working directory for the command  is root ('/') in the container's filesystem. The command is simply exec'd, it is not run inside a shell, so traditional shell instructions ('|', etc) won't work. To use a shell, you need to explicitly call out to that shell. Exit status of 0 is treated as live/healthy and non-zero is unhealthy."
       (array_of (leaf "string" "")))
  ] []
    [].

Definition core_v1_FCVolumeSource : OpenAPIDefinition :=
  object_of "Represents a Fibre Channel volume. Fibre Channel volumes can only be mounted as read/write once. Fibre Channel volumes support ownership management and SELinux relabeling." [
    ("targetWWNs", described "Optional: FC target worldwide names (WWNs)"
       (array_of (leaf "string" "")));
    ("lun", described "Optional: FC target lun number"
       (leaf "integer" "int32"));
    ("fsType", described ("Filesystem type to mount. Must be a filesystem type supported by the host operating system. Ex. " +:+ dq +:+ "ext4" +:+ dq +:+ ", " +:+ dq +:+ "xfs" +:+ dq +:+ ", " +:+ dq +:+ "ntfs" +:+ dq +:+ ". Implicitly inferred to be " +:+ dq +:+ "ext4" +:+ dq +:+ " if unspecified.")
       (leaf "string" ""));
    ("readOnly", described "Optional: Defaults to false (read/write). ReadOnly here will force the ReadOnly setting in VolumeMounts."
       (leaf "boolean" ""));
    ("wwids", described "Optional: FC volume world wide identifiers (wwids) Either wwids or combination of targetWWNs and lun must be set, but not both simultaneously."
       (array_of (leaf "string" "")))
  ] []
    [].

Definition core_v1_FlexVolumeSource : OpenAPIDefinition :=
  object_of "FlexVolume represents a generic volume resource that is provisioned/attached using an exec based plugin." [
    ("driver", described "Driver is the name of the driver to use for this volume."
       (leaf "string" ""));
    ("fsType", described ("Filesystem type to mount. Must be a filesystem type supported by the host operating system. Ex. " +:+ dq +:+ "ext4" +:+ dq +:+ ", " +:+ dq +:+ "xfs" +:+ dq +:+ ", " +:+ dq +:+ "ntfs" +:+ dq +:+ ". The default filesystem depends on FlexVolume script.")
       (leaf "string" ""));
    ("secretRef", described "Optional: SecretRef is reference to the secret object containing sensitive information to pass to the plugin scripts. This may be empty if no secret object is specified. If the secret object contains more than one secret, all secrets are passed to the plugin scripts."
       (ref_to (core "LocalObjectReference")));
    ("readOnly", described "Optional: Defaults to false (read/write). ReadOnly here will force the ReadOnly setting in VolumeMounts."
       (leaf "boolean" ""));
    ("options", described "Optional: Extra command options if any."
       (map_of (leaf "string" "")))
  ] ["driver"]
    [core "LocalObjectReference"].

Definition core_v1_FlockerVolumeSource : OpenAPIDefinition :=
  object_of "Represents a Flocker volume mounted by the Flocker agent. One and only one of datasetName and datasetUUID should be set. Flocker volumes do not support ownership management or SELinux relabeling." [
    ("datasetName", described "Name of the dataset stored as metadata -> name on the dataset for Flocker should be considered as deprecated"
       (leaf "string" ""));
    ("datasetUUID", described "UUID of the dataset. This is unique identifier of a Flocker dataset"
       (leaf "string" ""))
  ] []
    [].

Definition core_v1_GCEPersistentDiskVolumeSource : OpenAPIDefinition :=
  object_of ("Represents a Persistent Disk resource in Google Compute Engine." +:+ nl +:+ nl +:+ "A GCE PD must exist before mounting to a container. The disk must also be in the same GCE project and zone as the kubelet. A GCE PD can only be mounted as read/write once or read-only many times. GCE PDs support ownership management and SELinux relabeling.") [
    ("pdName", described "Unique name of the PD resource in GCE. Used to identify the disk in GCE. More info: https://kubernetes.io/docs/concepts/storage/volumes#gcepersistentdisk"
       (leaf "string" ""));
    ("fsType", described ("Filesystem type of the volume that you want to mount. Tip: Ensure that the filesystem type is supported by the host operating system. Examples: " +:+ dq +:+ "ext4" +:+ dq +:+ ", " +:+ dq +:+ "xfs" +:+ dq +:+ ", " +:+ dq +:+ "ntfs" +:+ dq +:+ ". Implicitly inferred to be " +:+ dq +:+ "ext4" +:+ dq +:+ " if unspecified. More info: https://kubernetes.io/docs/concepts/storage/volumes#gcepersistentdisk")
       (leaf "string" ""));
    ("partition", described ("The partition in the volume that you want to mount. If omitted, the default is to mount by volume name. Examples: For volume /dev/sda1, you specify the partition as " +:+ dq +:+ "1" +:+ dq +:+ ". Similarly, the volume partition for /dev/sda is " +:+ dq +:+ "0" +:+ dq +:+ " (or you can leave the property empty). More info: https://kubernetes.io/docs/concepts/storage/volumes#gcepersistentdisk")
       (leaf "integer" "int32"));
    ("readOnly", described "ReadOnly here will force the ReadOnly setting in VolumeMounts. Defaults to false. More info: https://kubernetes.io/docs/concepts/storage/volumes#gcepersistentdisk"
       (leaf "boolean" ""))
  ] ["pdName"]
    [].

Definition core_v1_GitRepoVolumeSource : OpenAPIDefinition :=
  object_of "Represents a volume that is populated with the contents of a git repository. Git repo volumes do not support ownership management. Git repo volumes support SELinux relabeling." [
    ("repository", described "Repository URL"
       (leaf "string" ""));
    ("revision", described "Commit hash for the specified revision."
       (leaf "string" ""));
    ("directory", described "Target directory name. Must not contain or start with '..'.  If '.' is supplied, the volume directory will be the git repository.  Otherwise, if specified, the volume will contain the git repository in the subdirectory with the given name."
       (leaf "string" ""))
  ] ["repository"]
    [].

Definition core_v1_GlusterfsVolumeSource : OpenAPIDefinition :=
  object_of "Represents a Glusterfs mount that lasts the lifetime of a pod. Glusterfs volumes do not support ownership management or SELinux relabeling." [
    ("endpoints", described "EndpointsName is the endpoint name that details Glusterfs topology. More info: https://releases.k8s.io/HEAD/examples/volumes/glusterfs/README.md#create-a-pod"
       (leaf "string" ""));
    ("path", described "Path is the Glusterfs volume path. More info: https://releases.k8s.io/HEAD/examples/volumes/glusterfs/README.md#create-a-pod"
       (leaf "string" ""));
    ("readOnly", described "ReadOnly here will force the Glusterfs volume to be mounted with read-only permissions. Defaults to false. More info: https://releases.k8s.io/HEAD/examples/volumes/glusterfs/README.md#create-a-pod"
       (leaf "boolean" ""))
  ] ["endpoints"; "path"]
    [].

Definition core_v1_HTTPGetAction : OpenAPIDefinition :=
  object_of "HTTPGetAction describes an action based on HTTP Get requests." [
    ("path", described "Path to access on the HTTP server."
       (leaf "string" ""));
    ("port", described "Name or number of the port to access on the container. Number must be in the range 1 to 65535. Name must be an IANA_SVC_NAME."
       (ref_to (intstr "IntOrString")));
    ("host", described ("Host name to connect to, defaults to the pod IP. You probably want to set " +:+ dq +:+ "Host" +:+ dq +:+ " in httpHeaders instead.")
       (leaf "string" ""));
    ("scheme", described "Scheme to use for connecting to the host. Defaults to HTTP."
       (leaf "string" ""));
    ("httpHeaders", described "Custom headers to set in the request. HTTP allows repeated headers."
       (array_of (ref_to (core "HTTPHeader"))))
  ] ["port"]
    [core "HTTPHeader"; intstr "IntOrString"].

Definition core_v1_HTTPHeader : OpenAPIDefinition :=
  object_of "HTTPHeader describes a custom header to be used in HTTP probes" [
    ("name", described "The header field name"
       (leaf "string" ""));
    ("value", described "The header field value"
       (leaf "string" ""))
  ] ["name"; "value"]
    [].

Definition core_v1_Handler : OpenAPIDefinition :=
  object_of "Handler defines a specific action that should be taken" [
    ("exec", described "One and only one of the following should be specified. Exec specifies the action to take."
       (ref_to (core "ExecAction")));
    ("httpGet", described "HTTPGet specifies the http request to perform."
       (ref_to (core "HTTPGetAction")));
    ("tcpSocket", described "TCPSocket specifies an action involving a TCP port. TCP hooks not yet supported"
       (ref_to (core "TCPSocketAction")))
  ] []
    [core "ExecAction"; core "HTTPGetAction"; core "TCPSocketAction"].

Definition core_v1_HostAlias : OpenAPIDefinition :=
  object_of "HostAlias holds the mapping between IP and hostnames that will be injected as an entry in the pod's hosts file." [
    ("ip", described "IP address of the host file entry."
       (leaf "string" ""));
    ("hostnames", described "Hostnames for the above IP address."
       (array_of (leaf "string" "")))
  ] []
    [].

Definition core_v1_HostPathVolumeSource : OpenAPIDefinition :=
  object_of "Represents a host path mapped into a pod. Host path volumes do not support ownership management or SELinux relabeling." [
    ("path", described "Path of the directory on the host. If the path is a symlink, it will follow the link to the real path. More info: https://kubernetes.io/docs/concepts/storage/volumes#hostpath"
       (leaf "string" ""));
    ("type", described ("Type for HostPath Volume Defaults to " +:+ dq +:+ dq +:+ " More info: https://kubernetes.io/docs/concepts/storage/volumes#hostpath")
       (leaf "string" ""))
  ] ["path"]
    [].

Definition core_v1_ISCSIPersistentVolumeSource : OpenAPIDefinition :=
  object_of "ISCSIPersistentVolumeSource represents an ISCSI disk. ISCSI volumes can only be mounted as read/write once. ISCSI volumes support ownership management and SELinux relabeling." [
    ("targetPortal", described "iSCSI Target Portal. The Portal is either an IP or ip_addr:port if the port is other than default (typically TCP ports 860 and 3260)."
       (leaf "string" ""));
    ("iqn", described "Target iSCSI Qualified Name."
       (leaf "string" ""));
    ("lun", described "iSCSI Target Lun number."
       (leaf "integer" "int32"));
    ("iscsiInterface", described "iSCSI Interface Name that uses an iSCSI transport. Defaults to 'default' (tcp)."
       (leaf "string" ""));
    ("fsType", described ("Filesystem type of the volume that you want to mount. Tip: Ensure that the filesystem type is supported by the host operating system. Examples: " +:+ dq +:+ "ext4" +:+ dq +:+ ", " +:+ dq +:+ "xfs" +:+ dq +:+ ", " +:+ dq +:+ "ntfs" +:+ dq +:+ ". Implicitly inferred to be " +:+ dq +:+ "ext4" +:+ dq +:+ " if unspecified. More info: https://kubernetes.io/docs/concepts/storage/volumes#iscsi")
       (leaf "string" ""));
    ("readOnly", described "ReadOnly here will force the ReadOnly setting in VolumeMounts. Defaults to false."
       (leaf "boolean" ""));
    ("portals", described "iSCSI Target Portal List. The Portal is either an IP or ip_addr:port if the port is other than default (typically TCP ports 860 and 3260)."
       (array_of (leaf "string" "")));
    ("chapAuthDiscovery", described "whether support iSCSI Discovery CHAP authentication"
       (leaf "boolean" ""));
    ("chapAuthSession", described "whether support iSCSI Session CHAP authentication"
       (leaf "boolean" ""));
    ("secretRef", described "CHAP Secret for iSCSI target and initiator authentication"
       (ref_to (core "SecretReference")));
    ("initiatorName", described "Custom iSCSI Initiator Name. If initiatorName is specified with iscsiInterface simultaneously, new iSCSI interface <target portal>:<volume name> will be created for the connection."
       (leaf "string" ""))
  ] ["targetPortal"; "iqn"; "lun"]
    [core "SecretReference"].

Definition core_v1_ISCSIVolumeSource : OpenAPIDefinition :=
  object_of "Represents an ISCSI disk. ISCSI volumes can only be mounted as read/write once. ISCSI volumes support ownership management and SELinux relabeling." [
    ("targetPortal", described "iSCSI Target Portal. The Portal is either an IP or ip_addr:port if the port is other than default (typically TCP ports 860 and 3260)."
       (leaf "string" ""));
    ("iqn", described "Target iSCSI Qualified Name."
       (leaf "string" ""));
    ("lun", described "iSCSI Target Lun number."
       (leaf "integer" "int32"));
    ("iscsiInterface", described "iSCSI Interface Name that uses an iSCSI transport. Defaults to 'default' (tcp)."
       (leaf "string" ""));
    ("fsType", described ("Filesystem type of the volume that you want to mount. Tip: Ensure that the filesystem type is supported by the host operating system. Examples: " +:+ dq +:+ "ext4" +:+ dq +:+ ", " +:+ dq +:+ "xfs" +:+ dq +:+ ", " +:+ dq +:+ "ntfs" +:+ dq +:+ ". Implicitly inferred to be " +:+ dq +:+ "ext4" +:+ dq +:+ " if unspecified. More info: https://kubernetes.io/docs/concepts/storage/volumes#iscsi")
       (leaf "string" ""));
    ("readOnly", described "ReadOnly here will force the ReadOnly setting in VolumeMounts. Defaults to false."
       (leaf "boolean" ""));
    ("portals", described "iSCSI Target Portal List. The portal is either an IP or ip_addr:port if the port is other than default (typically TCP ports 860 and 3260)."
       (array_of (leaf "string" "")));
    ("chapAuthDiscovery", described "whether support iSCSI Discovery CHAP authentication"
       (leaf "boolean" ""));
    ("chapAuthSession", described "whether support iSCSI Session CHAP authentication"
       (leaf "boolean" ""));
    ("secretRef", described "CHAP Secret for iSCSI target and initiator authentication"
       (ref_to (core "LocalObjectReference")));
    ("initiatorName", described "Custom iSCSI Initiator Name. If initiatorName is specified with iscsiInterface simultaneously, new iSCSI interface <target portal>:<volume name> will be created for the connection."
       (leaf "string" ""))
  ] ["targetPortal"; "iqn"; "lun"]
    [core "LocalObjectReference"].

Definition core_v1_KeyToPath : OpenAPIDefinition :=
  object_of "Maps a string key to a path within a volume." [
    ("key", described "The key to project."
       (leaf "string" ""));
    ("path", described "The relative path of the file to map the key to. May not be an absolute path. May not contain the path element '..'. May not start with the string '..'."
       (leaf "string" ""));
    ("mode", described "Optional: mode bits to use on this file, must be a value between 0 and 0777. If not specified, the volume defaultMode will be used. This might be in conflict with other options that affect the file mode, like fsGroup, and the result can be other mode bits set."
       (leaf "integer" "int32"))
  ] ["key"; "path"]
    [].

Definition core_v1_Lifecycle : OpenAPIDefinition :=
  object_of "Lifecycle describes actions that the management system should take in response to container lifecycle events. For the PostStart and PreStop lifecycle handlers, management of the container blocks until the action is complete, unless the container process fails, in which case the handler is aborted." [
    ("postStart", described "PostStart is called immediately after a container is created. If the handler fails, the container is terminated and restarted according to its restart policy. Other management of the container blocks until the hook completes. More info: https://kubernetes.io/docs/concepts/containers/container-lifecycle-hooks/#container-hooks"
       (ref_to (core "Handler")));
    ("preStop", described "PreStop is called immediately before a container is terminated. The container is terminated after the handler completes. The reason for termination is passed to the handler. Regardless of the outcome of the handler, the container is eventually terminated. Other management of the container blocks until the hook completes. More info: https://kubernetes.io/docs/concepts/containers/container-lifecycle-hooks/#container-hooks"
       (ref_to (core "Handler")))
  ] []
    [core "Handler"].

Definition core_v1_LimitRange : OpenAPIDefinition :=
  object_of "LimitRange sets resource usage limits for each kind of resource in a Namespace." [
    ("kind", described "Kind is a string value representing the REST resource this object represents. Servers may infer this from the endpoint the client submits requests to. Cannot be updated. In CamelCase. More info: https://git.k8s.io/community/contributors/devel/api-conventions.md#types-kinds"
       (leaf "string" ""));
    ("apiVersion", described "APIVersion defines the versioned schema of this representation of an object. Servers should convert recognized schemas to the latest internal value, and may reject unrecognized values. More info: https://git.k8s.io/community/contributors/devel/api-conventions.md#resources"
       (leaf "string" ""));
    ("metadata", described "Standard object's metadata. More info: https://git.k8s.io/community/contributors/devel/api-conventions.md#metadata"
       (ref_to (meta "ObjectMeta")));
    ("spec", described "Spec defines the limits enforced. More info: https://git.k8s.io/community/contributors/devel/api-conventions.md#spec-and-status"
       (ref_to (core "LimitRangeSpec")))
  ] []
    [core "LimitRangeSpec"; meta "ObjectMeta"].

Definition core_v1_LimitRangeItem : OpenAPIDefinition :=
  object_of "LimitRangeItem defines a min/max usage limit for any resource that matches on kind." [
    ("type", described "Type of resource that this limit applies to."
       (leaf "string" ""));
    ("max", described "Max usage constraints on this kind by resource name."
       (map_of (ref_to (resource "Quantity"))));
    ("min", described "Min usage constraints on this kind by resource name."
       (map_of (ref_to (resource "Quantity"))));
    ("default", described "Default resource requirement limit value by resource name if resource limit is omitted."
       (map_of (ref_to (resource "Quantity"))));
    ("defaultRequest", described "DefaultRequest is the default resource requirement request value by resource name if resource request is omitted."
       (map_of (ref_to (resource "Quantity"))));
    ("maxLimitRequestRatio", described "MaxLimitRequestRatio if specified, the named resource must have a request and limit that are both non-zero where limit divided by request is less than or equal to the enumerated value; this represents the max burst for the named resource."
       (map_of (ref_to (resource "Quantity"))))
  ] []
    [resource "Quantity"].

Definition core_v1_LimitRangeList : OpenAPIDefinition :=
  object_of "LimitRangeList is a list of LimitRange items." [
    ("kind", described "Kind is a string value representing the REST resource this object represents. Servers may infer this from the endpoint the client submits requests to. Cannot be updated. In CamelCase. More info: https://git.k8s.io/community/contributors/devel/api-conventions.md#types-kinds"
       (leaf "string" ""));
    ("apiVersion", described "APIVersion defines the versioned schema of this representation of an object. Servers should convert recognized schemas to the latest internal value, and may reject unrecognized values. More info: https://git.k8s.io/community/contributors/devel/api-conventions.md#resources"
       (leaf "string" ""));
    ("metadata", described "Standard list metadata. More info: https://git.k8s.io/community/contributors/devel/api-conventions.md#types-kinds"
       (ref_to (meta "ListMeta")));
    ("items", described "Items is a list of LimitRange objects. More info: https://kubernetes.io/docs/concepts/configuration/manage-compute-resources-container/"
       (array_of (ref_to (core "LimitRange"))))
  ] ["items"]
    [core "LimitRange"; meta "ListMeta"].

Definition core_v1_LimitRangeSpec : OpenAPIDefinition :=
  object_of "LimitRangeSpec defines a min/max usage limit for resources that match on kind." [
    ("limits", described "Limits is the list of LimitRangeItem objects that are enforced."
       (array_of (ref_to (core "LimitRangeItem"))))
  ] ["limits"]
    [core "LimitRangeItem"].

Definition core_v1_List : OpenAPIDefinition :=
  object_of "List holds a list of objects, which may not be known by the server." [
    ("kind", described "Kind is a string value representing the REST resource this object represents. Servers may infer this from the endpoint the client submits requests to. Cannot be updated. In CamelCase. More info: https://git.k8s.io/community/contributors/devel/api-conventions.md#types-kinds"
       (leaf "string" ""));
    ("apiVersion", described "APIVersion defines the versioned schema of this representation of an object. Servers should convert recognized schemas to the latest internal value, and may reject unrecognized values. More info: https://git.k8s.io/community/contributors/devel/api-conventions.md#resources"
       (leaf "string" ""));
    ("metadata", described "Standard list metadata. More info: https://git.k8s.io/community/contributors/devel/api-conventions.md#types-kinds"
       (ref_to (meta "ListMeta")));
    ("items", described "List of objects"
       (array_of (ref_to (runtime_pkg "RawExtension"))))
  ] ["items"]
    [meta "ListMeta"; runtime_pkg "RawExtension"].

Definition core_v1_LoadBalancerIngress : OpenAPIDefinition :=
  object_of "LoadBalancerIngress represents the status of a load-balancer ingress point: traffic intended for the service should be sent to an ingress point." [
    ("ip", described "IP is set for load-balancer ingress points that are IP based (typically GCE or OpenStack load-balancers)"
       (leaf "string" ""));
    ("hostname", described "Hostname is set for load-balancer ingress points that are DNS based (typically AWS load-balancers)"
       (leaf "string" ""))
  ] []
    [].

Definition core_v1_LoadBalancerStatus : OpenAPIDefinition :=
  object_of "LoadBalancerStatus represents the status of a load-balancer." [
    ("ingress", described "Ingress is a list containing ingress points for the load-balancer. Traffic intended for the service should be sent to these ingress points."
       (array_of (ref_to (core "LoadBalancerIngress"))))
  ] []
    [core "LoadBalancerIngress"].

Definition core_v1_LocalObjectReference : OpenAPIDefinition :=
  object_of "LocalObjectReference contains enough information to let you locate the referenced object inside the same namespace." [
    ("name", described "Name of the referent. More info: https://kubernetes.io/docs/concepts/overview/working-with-objects/names/#names"
       (leaf "string" ""))
  ] []
    [].

Definition core_v1_LocalVolumeSource : OpenAPIDefinition :=
  object_of "Local represents directly-attached storage with node affinity" [
    ("path", described "The full path to the volume on the node For alpha, this path must be a directory Once block as a source is supported, then this path can point to a block device"
       (leaf "string" ""))
  ] ["path"]
    [].

Definition core_v1_NFSVolumeSource : OpenAPIDefinition :=
  object_of "Represents an NFS mount that lasts the lifetime of a pod. NFS volumes do not support ownership management or SELinux relabeling." [
    ("server", described "Server is the hostname or IP address of the NFS server. More info: https://kubernetes.io/docs/concepts/storage/volumes#nfs"
       (leaf "string" ""));
    ("path", described "Path that is exported by the NFS server. More info: https://kubernetes.io/docs/concepts/storage/volumes#nfs"
       (leaf "string" ""));
    ("readOnly", described "ReadOnly here will force the NFS export to be mounted with read-only permissions. Defaults to false. More info: https://kubernetes.io/docs/concepts/storage/volumes#nfs"
       (leaf "boolean" ""))
  ] ["server"; "path"]
    [].

Definition core_v1_Namespace : OpenAPIDefinition :=
  object_of "Namespace provides a scope for Names. Use of multiple namespaces is optional." [
    ("kind", described "Kind is a string value representing the REST resource this object represents. Servers may infer this from the endpoint the client submits requests to. Cannot be updated. In CamelCase. More info: https://git.k8s.io/community/contributors/devel/api-conventions.md#types-kinds"
       (leaf "string" ""));
    ("apiVersion", described "APIVersion defines the versioned schema of this representation of an object. Servers should convert recognized schemas to the latest internal value, and may reject unrecognized values. More info: https://git.k8s.io/community/contributors/devel/api-conventions.md#resources"
       (leaf "string" ""));
    ("metadata", described "Standard object's metadata. More info: https://git.k8s.io/community/contributors/devel/api-conventions.md#metadata"
       (ref_to (meta "ObjectMeta")));
    ("spec", described "Spec defines the behavior of the Namespace. More info: https://git.k8s.io/community/contributors/devel/api-conventions.md#spec-and-status"
       (ref_to (core "NamespaceSpec")));
    ("status", described "Status describes the current status of a Namespace. More info: https://git.k8s.io/community/contributors/devel/api-conventions.md#spec-and-status"
       (ref_to (core "NamespaceStatus")))
  ] []
    [core "NamespaceSpec"; core "NamespaceStatus"; meta "ObjectMeta"].

Definition core_v1_NamespaceList : OpenAPIDefinition :=
  object_of "NamespaceList is a list of Namespaces." [
    ("kind", described "Kind is a string value representing the REST resource this object represents. Servers may infer this from the endpoint the client submits requests to. Cannot be updated. In CamelCase. More info: https://git.k8s.io/community/contributors/devel/api-conventions.md#types-kinds"
       (leaf "string" ""));
    ("apiVersion", described "APIVersion defines the versioned schema of this representation of an object. Servers should convert recognized schemas to the latest internal value, and may reject unrecognized values. More info: https://git.k8s.io/community/contributors/devel/api-conventions.md#resources"
       (leaf "string" ""));
    ("metadata", described "Standard list metadata. More info: https://git.k8s.io/community/contributors/devel/api-conventions.md#types-kinds"
       (ref_to (meta "ListMeta")));
    ("items", described "Items is the list of Namespace objects in the list. More info: https://kubernetes.io/docs/concepts/overview/working-with-objects/namespaces/"
       (array_of (ref_to (core "Namespace"))))
  ] ["items"]
    [core "Namespace"; meta "ListMeta"].

Definition core_v1_NamespaceSpec : OpenAPIDefinition :=
  object_of "NamespaceSpec describes the attributes on a Namespace." [
    ("finalizers", described "Finalizers is an opaque list of values that must be empty to permanently remove object from storage. More info: https://kubernetes.io/docs/tasks/administer-cluster/namespaces/"
       (array_of (leaf "string" "")))
  ] []
    [].

Definition core_v1_NamespaceStatus : OpenAPIDefinition :=
  object_of "NamespaceStatus is information about the current status of a Namespace." [
    ("phase", described "Phase is the current lifecycle phase of the namespace. More info: https://kubernetes.io/docs/tasks/administer-cluster/namespaces/"
       (leaf "string" ""))
  ] []
    [].

Definition core_v1_Node : OpenAPIDefinition :=
  object_of "Node is a worker node in Kubernetes. Each node will have a unique identifier in the cache (i.e. in etcd)." [
    ("kind", described "Kind is a string value representing the REST resource this object represents. Servers may infer this from the endpoint the client submits requests to. Cannot be updated. In CamelCase. More info: https://git.k8s.io/community/contributors/devel/api-conventions.md#types-kinds"
       (leaf "string" ""));
    ("apiVersion", described "APIVersion defines the versioned schema of this representation of an object. Servers should convert recognized schemas to the latest internal value, and may reject unrecognized values. More info: https://git.k8s.io/community/contributors/devel/api-conventions.md#resources"
       (leaf "string" ""));
    ("metadata", described "Standard object's metadata. More info: https://git.k8s.io/community/contributors/devel/api-conventions.md#metadata"
       (ref_to (meta "ObjectMeta")));
    ("spec", described "Spec defines the behavior of a node. https://git.k8s.io/community/contributors/devel/api-conventions.md#spec-and-status"
       (ref_to (core "NodeSpec")));
    ("status", described "Most recently observed status of the node. Populated by the system. Read-only. More info: https://git.k8s.io/community/contributors/devel/api-conventions.md#spec-and-status"
       (ref_to (core "NodeStatus")))
  ] []
    [core "NodeSpec"; core "NodeStatus"; meta "ObjectMeta"].

Definition core_v1_NodeAddress : OpenAPIDefinition :=
  object_of "NodeAddress contains information for the node's address." [
    ("type", described "Node address type, one of Hostname, ExternalIP or InternalIP."
       (leaf "string" ""));
    ("address", described "The node address."
       (leaf "string" ""))
  ] ["type"; "address"]
    [].

Definition core_v1_NodeAffinity : OpenAPIDefinition :=
  object_of "Node affinity is a group of node affinity scheduling rules." [
    ("requiredDuringSchedulingIgnoredDuringExecution", described "If the affinity requirements specified by this field are not met at scheduling time, the pod will not be scheduled onto the node. If the affinity requirements specified by this field cease to be met at some point during pod execution (e.g. due to an update), the system may or may not try to eventually evict the pod from its node."
       (ref_to (core "NodeSelector")));
    ("preferredDuringSchedulingIgnoredDuringExecution", described ("The scheduler will prefer to schedule pods to nodes that satisfy the affinity expressions specified by this field, but it may choose a node that violates one or more of the expressions. The node that is most preferred is the one with the greatest sum of weights, i.e. for each node that meets all of the scheduling requirements (resource request, requiredDuringScheduling affinity expressions, etc.), compute a sum by iterating through the elements of this field and adding " +:+ dq +:+ "weight" +:+ dq +:+ " to the sum if the node matches the corresponding matchExpressions; the node(s) with the highest sum are the most preferred.")
       (array_of (ref_to (core "PreferredSchedulingTerm"))))
  ] []
    [core "NodeSelector"; core "PreferredSchedulingTerm"].

Definition core_v1_NodeCondition : OpenAPIDefinition :=
  object_of "NodeCondition contains condition information for a node." [
    ("type", described "Type of node condition."
       (leaf "string" ""));
    ("status", described "Status of the condition, one of True, False, Unknown."
       (leaf "string" ""));
    ("lastHeartbeatTime", described "Last time we got an update on a given condition."
       (ref_to (meta "Time")));
    ("lastTransitionTime", described "Last time the condition transit from one status to another."
       (ref_to (meta "Time")));
    ("reason", described "(brief) reason for the condition's last transition."
       (leaf "string" ""));
    ("message", described "Human readable message indicating details about last transition."
       (leaf "string" ""))
  ] ["type"; "status"]
    [meta "Time"].

Definition core_v1_NodeConfigSource : OpenAPIDefinition :=
  object_of "NodeConfigSource specifies a source of node configuration. Exactly one subfield (excluding metadata) must be non-nil." [
    ("kind", described "Kind is a string value representing the REST resource this object represents. Servers may infer this from the endpoint the client submits requests to. Cannot be updated. In CamelCase. More info: https://git.k8s.io/community/contributors/devel/api-conventions.md#types-kinds"
       (leaf "string" ""));
    ("apiVersion", described "APIVersion defines the versioned schema of this representation of an object. Servers should convert recognized schemas to the latest internal value, and may reject unrecognized values. More info: https://git.k8s.io/community/contributors/devel/api-conventions.md#resources"
       (leaf "string" ""));
    ("configMapRef", ref_to (core "ObjectReference"))
  ] []
    [core "ObjectReference"].

Definition core_v1_NodeDaemonEndpoints : OpenAPIDefinition :=
  object_of "NodeDaemonEndpoints lists ports opened by daemons running on the Node." [
    ("kubeletEndpoint", described "Endpoint on which Kubelet is listening."
       (ref_to (core "DaemonEndpoint")))
  ] []
    [core "DaemonEndpoint"].

Definition core_v1_NodeList : OpenAPIDefinition :=
  object_of "NodeList is the whole list of all Nodes which have been registered with master." [
    ("kind", described "Kind is a string value representing the REST resource this object represents. Servers may infer this from the endpoint the client submits requests to. Cannot be updated. In CamelCase. More info: https://git.k8s.io/community/contributors/devel/api-conventions.md#types-kinds"
       (leaf "string" ""));
    ("apiVersion", described "APIVersion defines the versioned schema of this representation of an object. Servers should convert recognized schemas to the latest internal value, and may reject unrecognized values. More info: https://git.k8s.io/community/contributors/devel/api-conventions.md#resources"
       (leaf "string" ""));
    ("metadata", described "Standard list metadata. More info: https://git.k8s.io/community/contributors/devel/api-conventions.md#types-kinds"
       (ref_to (meta "ListMeta")));
    ("items", described "List of nodes"
       (array_of (ref_to (core "Node"))))
  ] ["items"]
    [core "Node"; meta "ListMeta"].

Definition core_v1_NodeProxyOptions : OpenAPIDefinition :=
  object_of "NodeProxyOptions is the query options to a Node's proxy call." [
    ("kind", described "Kind is a string value representing the REST resource this object represents. Servers may infer this from the endpoint the client submits requests to. Cannot be updated. In CamelCase. More info: https://git.k8s.io/community/contributors/devel/api-conventions.md#types-kinds"
       (leaf "string" ""));
    ("apiVersion", described "APIVersion defines the versioned schema of this representation of an object. Servers should convert recognized schemas to the latest internal value, and may reject unrecognized values. More info: https://git.k8s.io/community/contributors/devel/api-conventions.md#resources"
       (leaf "string" ""));
    ("path", described "Path is the URL path to use for the current proxy request to node."
       (leaf "string" ""))
  ] []
    [].

Definition core_v1_NodeResources : OpenAPIDefinition :=
  object_of "NodeResources is an object for conveying resource information about a node. see http://releases.k8s.io/HEAD/docs/design/resources.md for more details." [
    ("Capacity", described "Capacity represents the available resources of a node"
       (map_of (ref_to (resource "Quantity"))))
  ] ["Capacity"]
    [resource "Quantity"].

Definition core_v1_NodeSelector : OpenAPIDefinition :=
  object_of "A node selector represents the union of the results of one or more label queries over a set of nodes; that is, it represents the OR of the selectors represented by the node selector terms." [
    ("nodeSelectorTerms", described "Required. A list of node selector terms. The terms are ORed."
       (array_of (ref_to (core "NodeSelectorTerm"))))
  ] ["nodeSelectorTerms"]
    [core "NodeSelectorTerm"].

Definition core_v1_NodeSelectorRequirement : OpenAPIDefinition :=
  object_of "A node selector requirement is a selector that contains values, a key, and an operator that relates the key and values." [
    ("key", described "The label key that the selector applies to."
       (leaf "string" ""));
    ("operator", described "Represents a key's relationship to a set of values. Valid operators are In, NotIn, Exists, DoesNotExist. Gt, and Lt."
       (leaf "string" ""));
    ("values", described "An array of string values. If the operator is In or NotIn, the values array must be non-empty. If the operator is Exists or DoesNotExist, the values array must be empty. If the operator is Gt or Lt, the values array must have a single element, which will be interpreted as an integer. This array is replaced during a strategic merge patch."
       (array_of (leaf "string" "")))
  ] ["key"; "operator"]
    [].

Definition core_v1_NodeSelectorTerm : OpenAPIDefinition :=
  object_of "A null or empty node selector term matches no objects." [
    ("matchExpressions", described "Required. A list of node selector requirements. The requirements are ANDed."
       (array_of (ref_to (core "NodeSelectorRequirement"))))
  ] ["matchExpressions"]
    [core "NodeSelectorRequirement"].

Definition core_v1_NodeSpec : OpenAPIDefinition :=
  object_of "NodeSpec describes the attributes that a node is created with." [
    ("podCIDR", described "PodCIDR represents the pod IP range assigned to the node."
       (leaf "string" ""));
    ("externalID", described "External ID of the node assigned by some machine database (e.g. a cloud provider). Deprecated."
       (leaf "string" ""));
    ("providerID", described "ID of the node assigned by the cloud provider in the format: <ProviderName>://<ProviderSpecificNodeID>"
       (leaf "string" ""));
    ("unschedulable", described "Unschedulable controls node schedulability of new pods. By default, node is schedulable. More info: https://kubernetes.io/docs/concepts/nodes/node/#manual-node-administration"
       (leaf "boolean" ""));
    ("taints", described "If specified, the node's taints."
       (array_of (ref_to (core "Taint"))));
    ("configSource", described "If specified, the source to get node configuration from The DynamicKubeletConfig feature gate must be enabled for the Kubelet to use this field"
       (ref_to (core "NodeConfigSource")))
  ] []
    [core "NodeConfigSource"; core "Taint"].
