(* ===== verification/OpenAPICoreB.v ===== *)
(** * OpenAPI definitions: core/v1 of Kubernetes, the second half (NodeStatus to WeightedPodAffinityTerm)

    The entries of the map in pkg/apis/ava/v1alpha1/openapi_generated.go, one definition each. *)
From S2P Require Import Prelude OpenAPI.

Definition core_v1_NodeStatus : OpenAPIDefinition :=
  object_of "NodeStatus is information about the current status of a node." [
    ("capacity", described "Capacity represents the total resources of a node. More info: https://kubernetes.io/docs/concepts/storage/persistent-volumes#capacity"
       (map_of (ref_to (resource "Quantity"))));
    ("allocatable", described "Allocatable represents the resources of a node that are available for scheduling. Defaults to Capacity."
       (map_of (ref_to (resource "Quantity"))));
    ("phase", described "NodePhase is the recently observed lifecycle phase of the node. More info: https://kubernetes.io/docs/concepts/nodes/node/#phase The field is never populated, and now is deprecated."
       (leaf "string" ""));
    ("conditions", described "Conditions is an array of current observed node conditions. More info: https://kubernetes.io/docs/concepts/nodes/node/#condition"
       (extended [("x-kubernetes-patch-merge-key", "type"); ("x-kubernetes-patch-strategy", "merge")] (array_of (ref_to (core "NodeCondition")))));
    ("addresses", described "List of addresses reachable to the node. Queried from cloud provider, if available. More info: https://kubernetes.io/docs/concepts/nodes/node/#addresses"
       (extended [("x-kubernetes-patch-merge-key", "type"); ("x-kubernetes-patch-strategy", "merge")] (array_of (ref_to (core "NodeAddress")))));
    ("daemonEndpoints", described "Endpoints of daemons running on the Node."
       (ref_to (core "NodeDaemonEndpoints")));
    ("nodeInfo", described "Set of ids/uuids to uniquely identify the node. More info: https://kubernetes.io/docs/concepts/nodes/node/#info"
       (ref_to (core "NodeSystemInfo")));
    ("images", described "List of container images on this node"
       (array_of (ref_to (core "ContainerImage"))));
    ("volumesInUse", described "List of attachable volumes in use (mounted) by the node."
       (array_of (leaf "string" "")));
    ("volumesAttached", described "List of volumes that are attached to the node."
       (array_of (ref_to (core "AttachedVolume"))))
  ] []
    [core "AttachedVolume"; core "ContainerImage"; core "NodeAddress"; core "NodeCondition";
     core "NodeDaemonEndpoints"; core "NodeSystemInfo"; resource "Quantity"].

Definition core_v1_NodeSystemInfo : OpenAPIDefinition :=
  object_of "NodeSystemInfo is a set of ids/uuids to uniquely identify the node." [
    ("machineID", described "MachineID reported by the node. For unique machine identification in the cluster this field is preferred. Learn more from man(5) machine-id: http://man7.org/linux/man-pages/man5/machine-id.5.html"
       (leaf "string" ""));
    ("systemUUID", described "SystemUUID reported by the node. For unique machine identification MachineID is preferred. This field is specific to Red Hat hosts https://access.redhat.com/documentation/en-US/Red_Hat_Subscription_Management/1/html/RHSM/getting-system-uuid.html"
       (leaf "string" ""));
    ("bootID", described "Boot ID reported by the node."
       (leaf "string" ""));
    ("kernelVersion", described "Kernel Version reported by the node from 'uname -r' (e.g. 3.16.0-0.bpo.4-amd64)."
       (leaf "string" ""));
    ("osImage", described "OS Image reported by the node from /etc/os-release (e.g. Debian GNU/Linux 7 (wheezy))."
       (leaf "string" ""));
    ("containerRuntimeVersion", described "ContainerRuntime Version reported by the node through runtime remote API (e.g. docker://1.5.0)."
       (leaf "string" ""));
    ("kubeletVersion", described "Kubelet Version reported by the node."
       (leaf "string" ""));
    ("kubeProxyVersion", described "KubeProxy Version reported by the node."
       (leaf "string" ""));
    ("operatingSystem", described "The Operating System reported by the node"
       (leaf "string" ""));
    ("architecture", described "The Architecture reported by the node"
       (leaf "string" ""))
  ] ["machineID"; "systemUUID"; "bootID"; "kernelVersion"; "osImage"; "containerRuntimeVersion";
    "kubeletVersion"; "kubeProxyVersion"; "operatingSystem"; "architecture"]
    [].

Definition core_v1_ObjectFieldSelector : OpenAPIDefinition :=
  object_of "ObjectFieldSelector selects an APIVersioned field of an object." [
    ("apiVersion", described ("Version of the schema the FieldPath is written in terms of, defaults to " +:+ dq +:+ "v1" +:+ dq +:+ ".")
       (leaf "string" ""));
    ("fieldPath", described "Path of the field to select in the specified API version."
       (leaf "string" ""))
  ] ["fieldPath"]
    [].

Definition core_v1_ObjectReference : OpenAPIDefinition :=
  object_of "ObjectReference contains enough information to let you inspect or modify the referred object." [
    ("kind", described "Kind of the referent. More info: https://git.k8s.io/community/contributors/devel/api-conventions.md#types-kinds"
       (leaf "string" ""));
    ("namespace", described "Namespace of the referent. More info: https://kubernetes.io/docs/concepts/overview/working-with-objects/namespaces/"
       (leaf "string" ""));
    ("name", described "Name of the referent. More info: https://kubernetes.io/docs/concepts/overview/working-with-objects/names/#names"
       (leaf "string" ""));
    ("uid", described "UID of the referent. More info: https://kubernetes.io/docs/concepts/overview/working-with-objects/names/#uids"
       (leaf "string" ""));
    ("apiVersion", described "API version of the referent."
       (leaf "string" ""));
    ("resourceVersion", described "Specific resourceVersion to which this reference is made, if any. More info: https://git.k8s.io/community/contributors/devel/api-conventions.md#concurrency-control-and-consistency"
       (leaf "string" ""));
    ("fieldPath", described ("If referring to a piece of an object instead of an entire object, this string should contain a valid JSON/Go field access statement, such as desiredState.manifest.containers[2]. For example, if the object reference is to a container within a pod, this would take on a value like: " +:+ dq +:+ "spec.containers{name}" +:+ dq +:+ " (where " +:+ dq +:+ "name" +:+ dq +:+ " refers to the name of the container that triggered the event) or if no container name is specified " +:+ dq +:+ "spec.containers[2]" +:+ dq +:+ " (container with index 2 in this pod). This syntax is chosen only to have some well-defined way of referencing a part of an object.")
       (leaf "string" ""))
  ] []
    [].

Definition core_v1_PersistentVolume : OpenAPIDefinition :=
  object_of "PersistentVolume (PV) is a storage resource provisioned by an administrator. It is analogous to a node. More info: https://kubernetes.io/docs/concepts/storage/persistent-volumes" [
    ("kind", described "Kind is a string value representing the REST resource this object represents. Servers may infer this from the endpoint the client submits requests to. Cannot be updated. In CamelCase. More info: https://git.k8s.io/community/contributors/devel/api-conventions.md#types-kinds"
       (leaf "string" ""));
    ("apiVersion", described "APIVersion defines the versioned schema of this representation of an object. Servers should convert recognized schemas to the latest internal value, and may reject unrecognized values. More info: https://git.k8s.io/community/contributors/devel/api-conventions.md#resources"
       (leaf "string" ""));
    ("metadata", described "Standard object's metadata. More info: https://git.k8s.io/community/contributors/devel/api-conventions.md#metadata"
       (ref_to (meta "ObjectMeta")));
    ("spec", described "Spec defines a specification of a persistent volume owned by the cluster. Provisioned by an administrator. More info: https://kubernetes.io/docs/concepts/storage/persistent-volumes#persistent-volumes"
       (ref_to (core "PersistentVolumeSpec")));
    ("status", described "Status represents the current information/status for the persistent volume. Populated by the system. Read-only. More info: https://kubernetes.io/docs/concepts/storage/persistent-volumes#persistent-volumes"
       (ref_to (core "PersistentVolumeStatus")))
  ] []
    [core "PersistentVolumeSpec"; core "PersistentVolumeStatus"; meta "ObjectMeta"].

Definition core_v1_PersistentVolumeClaim : OpenAPIDefinition :=
  object_of "PersistentVolumeClaim is a user's request for and claim to a persistent volume" [
    ("kind", described "Kind is a string value representing the REST resource this object represents. Servers may infer this from the endpoint the client submits requests to. Cannot be updated. In CamelCase. More info: https://git.k8s.io/community/contributors/devel/api-conventions.md#types-kinds"
       (leaf "string" ""));
    ("apiVersion", described "APIVersion defines the versioned schema of this representation of an object. Servers should convert recognized schemas to the latest internal value, and may reject unrecognized values. More info: https://git.k8s.io/community/contributors/devel/api-conventions.md#resources"
       (leaf "string" ""));
    ("metadata", described "Standard object's metadata. More info: https://git.k8s.io/community/contributors/devel/api-conventions.md#metadata"
       (ref_to (meta "ObjectMeta")));
    ("spec", described "Spec defines the desired characteristics of a volume requested by a pod author. More info: https://kubernetes.io/docs/concepts/storage/persistent-volumes#persistentvolumeclaims"
       (ref_to (core "PersistentVolumeClaimSpec")));
    ("status", described "Status represents the current information/status of a persistent volume claim. Read-only. More info: https://kubernetes.io/docs/concepts/storage/persistent-volumes#persistentvolumeclaims"
       (ref_to (core "PersistentVolumeClaimStatus")))
  ] []
    [core "PersistentVolumeClaimSpec"; core "PersistentVolumeClaimStatus"; meta "ObjectMeta"].

Definition core_v1_PersistentVolumeClaimCondition : OpenAPIDefinition :=
  object_of "PersistentVolumeClaimCondition contails details about state of pvc" [
    ("type", leaf "string" "");
    ("status", leaf "string" "");
    ("lastProbeTime", described "Last time we probed the condition."
       (ref_to (meta "Time")));
    ("lastTransitionTime", described "Last time the condition transitioned from one status to another."
       (ref_to (meta "Time")));
    ("reason", described ("Unique, this should be a short, machine understandable string that gives the reason for condition's last transition. If it reports " +:+ dq +:+ "ResizeStarted" +:+ dq +:+ " that means the underlying persistent volume is being resized.")
       (leaf "string" ""));
    ("message", described "Human-readable message indicating details about last transition."
       (leaf "string" ""))
  ] ["type"; "status"]
    [meta "Time"].

Definition core_v1_PersistentVolumeClaimList : OpenAPIDefinition :=
  object_of "PersistentVolumeClaimList is a list of PersistentVolumeClaim items." [
    ("kind", described "Kind is a string value representing the REST resource this object represents. Servers may infer this from the endpoint the client submits requests to. Cannot be updated. In CamelCase. More info: https://git.k8s.io/community/contributors/devel/api-conventions.md#types-kinds"
       (leaf "string" ""));
    ("apiVersion", described "APIVersion defines the versioned schema of this representation of an object. Servers should convert recognized schemas to the latest internal value, and may reject unrecognized values. More info: https://git.k8s.io/community/contributors/devel/api-conventions.md#resources"
       (leaf "string" ""));
    ("metadata", described "Standard list metadata. More info: https://git.k8s.io/community/contributors/devel/api-conventions.md#types-kinds"
       (ref_to (meta "ListMeta")));
    ("items", described "A list of persistent volume claims. More info: https://kubernetes.io/docs/concepts/storage/persistent-volumes#persistentvolumeclaims"
       (array_of (ref_to (core "PersistentVolumeClaim"))))
  ] ["items"]
    [core "PersistentVolumeClaim"; meta "ListMeta"].

Definition core_v1_PersistentVolumeClaimSpec : OpenAPIDefinition :=
  object_of "PersistentVolumeClaimSpec describes the common attributes of storage devices and allows a Source for provider-specific attributes" [
    ("accessModes", described "AccessModes contains the desired access modes the volume should have. More info: https://kubernetes.io/docs/concepts/storage/persistent-volumes#access-modes-1"
       (array_of (leaf "string" "")));
    ("selector", described "A label query over volumes to consider for binding."
       (ref_to (meta "LabelSelector")));
    ("resources", described "Resources represents the minimum resources the volume should have. More info: https://kubernetes.io/docs/concepts/storage/persistent-volumes#resources"
       (ref_to (core "ResourceRequirements")));
    ("volumeName", described "VolumeName is the binding reference to the PersistentVolume backing this claim."
       (leaf "string" ""));
    ("storageClassName", described "Name of the StorageClass required by the claim. More info: https://kubernetes.io/docs/concepts/storage/persistent-volumes#class-1"
       (leaf "string" ""));
    ("volumeMode", described "volumeMode defines what type of volume is required by the claim. Value of Filesystem is implied when not included in claim spec. This is an alpha feature and may change in the future."
       (leaf "string" ""))
  ] []
    [core "ResourceRequirements"; meta "LabelSelector"].

Definition core_v1_PersistentVolumeClaimStatus : OpenAPIDefinition :=
  object_of "PersistentVolumeClaimStatus is the current status of a persistent volume claim." [
    ("phase", described "Phase represents the current phase of PersistentVolumeClaim."
       (leaf "string" ""));
    ("accessModes", described "AccessModes contains the actual access modes the volume backing the PVC has. More info: https://kubernetes.io/docs/concepts/storage/persistent-volumes#access-modes-1"
       (array_of (leaf "string" "")));
    ("capacity", described "Represents the actual resources of the underlying volume."
       (map_of (ref_to (resource "Quantity"))));
    ("conditions", described "Current Condition of persistent volume claim. If underlying persistent volume is being resized then the Condition will be set to 'ResizeStarted'."
       (extended [("x-kubernetes-patch-merge-key", "type"); ("x-kubernetes-patch-strategy", "merge")] (array_of (ref_to (core "PersistentVolumeClaimCondition")))))
  ] []
    [core "PersistentVolumeClaimCondition"; resource "Quantity"].

Definition core_v1_PersistentVolumeClaimVolumeSource : OpenAPIDefinition :=
  object_of "PersistentVolumeClaimVolumeSource references the user's PVC in the same namespace. This volume finds the bound PV and mounts that volume for the pod. A PersistentVolumeClaimVolumeSource is, essentially, a wrapper around another type of volume that is owned by someone else (the system)." [
    ("claimName", described "ClaimName is the name of a PersistentVolumeClaim in the same namespace as the pod using this volume. More info: https://kubernetes.io/docs/concepts/storage/persistent-volumes#persistentvolumeclaims"
       (leaf "string" ""));
    ("readOnly", described "Will force the ReadOnly setting in VolumeMounts. Default false."
       (leaf "boolean" ""))
  ] ["claimName"]
    [].

Definition core_v1_PersistentVolumeList : OpenAPIDefinition :=
  object_of "PersistentVolumeList is a list of PersistentVolume items." [
    ("kind", described "Kind is a string value representing the REST resource this object represents. Servers may infer this from the endpoint the client submits requests to. Cannot be updated. In CamelCase. More info: https://git.k8s.io/community/contributors/devel/api-conventions.md#types-kinds"
       (leaf "string" ""));
    ("apiVersion", described "APIVersion defines the versioned schema of this representation of an object. Servers should convert recognized schemas to the latest internal value, and may reject unrecognized values. More info: https://git.k8s.io/community/contributors/devel/api-conventions.md#resources"
       (leaf "string" ""));
    ("metadata", described "Standard list metadata. More info: https://git.k8s.io/community/contributors/devel/api-conventions.md#types-kinds"
       (ref_to (meta "ListMeta")));
    ("items", described "List of persistent volumes. More info: https://kubernetes.io/docs/concepts/storage/persistent-volumes"
       (array_of (ref_to (core "PersistentVolume"))))
  ] ["items"]
    [core "PersistentVolume"; meta "ListMeta"].

Definition core_v1_PersistentVolumeSource : OpenAPIDefinition :=
  object_of "PersistentVolumeSource is similar to VolumeSource but meant for the administrator who creates PVs. Exactly one of its members must be set." [
    ("gcePersistentDisk", described "GCEPersistentDisk represents a GCE Disk resource that is attached to a kubelet's host machine and then exposed to the pod. Provisioned by an admin. More info: https://kubernetes.io/docs/concepts/storage/volumes#gcepersistentdisk"
       (ref_to (core "GCEPersistentDiskVolumeSource")));
    ("awsElasticBlockStore", described "AWSElasticBlockStore represents an AWS Disk resource that is attached to a kubelet's host machine and then exposed to the pod. More info: https://kubernetes.io/docs/concepts/storage/volumes#awselasticblockstore"
       (ref_to (core "AWSElasticBlockStoreVolumeSource")));
    ("hostPath", described "HostPath represents a directory on the host. Provisioned by a developer or tester. This is useful for single-node development and testing only! On-host storage is not supported in any way and WILL NOT WORK in a multi-node cluster. More info: https://kubernetes.io/docs/concepts/storage/volumes#hostpath"
       (ref_to (core "HostPathVolumeSource")));
    ("glusterfs", described "Glusterfs represents a Glusterfs volume that is attached to a host and exposed to the pod. Provisioned by an admin. More info: https://releases.k8s.io/HEAD/examples/volumes/glusterfs/README.md"
       (ref_to (core "GlusterfsVolumeSource")));
    ("nfs", described "NFS represents an NFS mount on the host. Provisioned by an admin. More info: https://kubernetes.io/docs/concepts/storage/volumes#nfs"
       (ref_to (core "NFSVolumeSource")));
    ("rbd", described "RBD represents a Rados Block Device mount on the host that shares a pod's lifetime. More info: https://releases.k8s.io/HEAD/examples/volumes/rbd/README.md"
       (ref_to (core "RBDPersistentVolumeSource")));
    ("iscsi", described "ISCSI represents an ISCSI Disk resource that is attached to a kubelet's host machine and then exposed to the pod. Provisioned by an admin."
       (ref_to (core "ISCSIPersistentVolumeSource")));
    ("cinder", described "Cinder represents a cinder volume attached and mounted on kubelets host machine More info: https://releases.k8s.io/HEAD/examples/mysql-cinder-pd/README.md"
       (ref_to (core "CinderVolumeSource")));
    ("cephfs", described "CephFS represents a Ceph FS mount on the host that shares a pod's lifetime"
       (ref_to (core "CephFSPersistentVolumeSource")));
    ("fc", described "FC represents a Fibre Channel resource that is attached to a kubelet's host machine and then exposed to the pod."
       (ref_to (core "FCVolumeSource")));
    ("flocker", described "Flocker represents a Flocker volume attached to a kubelet's host machine and exposed to the pod for its usage. This depends on the Flocker control service being running"
       (ref_to (core "FlockerVolumeSource")));
    ("flexVolume", described "FlexVolume represents a generic volume resource that is provisioned/attached using an exec based plugin."
       (ref_to (core "FlexVolumeSource")));
    ("azureFile", described "AzureFile represents an Azure File Service mount on the host and bind mount to the pod."
       (ref_to (core "AzureFilePersistentVolumeSource")));
    ("vsphereVolume", described "VsphereVolume represents a vSphere volume attached and mounted on kubelets host machine"
       (ref_to (core "VsphereVirtualDiskVolumeSource")));
    ("quobyte", described "Quobyte represents a Quobyte mount on the host that shares a pod's lifetime"
       (ref_to (core "QuobyteVolumeSource")));
    ("azureDisk", described "AzureDisk represents an Azure Data Disk mount on the host and bind mount to the pod."
       (ref_to (core "AzureDiskVolumeSource")));
    ("photonPersistentDisk", described "PhotonPersistentDisk represents a PhotonController persistent disk attached and mounted on kubelets host machine"
       (ref_to (core "PhotonPersistentDiskVolumeSource")));
    ("portworxVolume", described "PortworxVolume represents a portworx volume attached and mounted on kubelets host machine"
       (ref_to (core "PortworxVolumeSource")));
    ("scaleIO", described "ScaleIO represents a ScaleIO persistent volume attached and mounted on Kubernetes nodes."
       (ref_to (core "ScaleIOPersistentVolumeSource")));
    ("local", described "Local represents directly-attached storage with node affinity"
       (ref_to (core "LocalVolumeSource")));
    ("storageos", described "StorageOS represents a StorageOS volume that is attached to the kubelet's host machine and mounted into the pod More info: https://releases.k8s.io/HEAD/examples/volumes/storageos/README.md"
       (ref_to (core "StorageOSPersistentVolumeSource")));
    ("csi", described "CSI represents storage that handled by an external CSI driver"
       (ref_to (core "CSIPersistentVolumeSource")))
  ] []
    [core "AWSElasticBlockStoreVolumeSource"; core "AzureDiskVolumeSource";
     core "AzureFilePersistentVolumeSource"; core "CSIPersistentVolumeSource";
     core "CephFSPersistentVolumeSource"; core "CinderVolumeSource"; core "FCVolumeSource";
     core "FlexVolumeSource"; core "FlockerVolumeSource"; core "GCEPersistentDiskVolumeSource";
     core "GlusterfsVolumeSource"; core "HostPathVolumeSource";
     core "ISCSIPersistentVolumeSource"; core "LocalVolumeSource"; core "NFSVolumeSource";
     core "PhotonPersistentDiskVolumeSource"; core "PortworxVolumeSource";
     core "QuobyteVolumeSource"; core "RBDPersistentVolumeSource";
     core "ScaleIOPersistentVolumeSource"; core "StorageOSPersistentVolumeSource";
     core "VsphereVirtualDiskVolumeSource"].

Definition core_v1_PersistentVolumeSpec : OpenAPIDefinition :=
  object_of "PersistentVolumeSpec is the specification of a persistent volume." [
    ("capacity", described "A description of the persistent volume's resources and capacity. More info: https://kubernetes.io/docs/concepts/storage/persistent-volumes#capacity"
       (map_of (ref_to (resource "Quantity"))));
    ("gcePersistentDisk", described "GCEPersistentDisk represents a GCE Disk resource that is attached to a kubelet's host machine and then exposed to the pod. Provisioned by an admin. More info: https://kubernetes.io/docs/concepts/storage/volumes#gcepersistentdisk"
       (ref_to (core "GCEPersistentDiskVolumeSource")));
    ("awsElasticBlockStore", described "AWSElasticBlockStore represents an AWS Disk resource that is attached to a kubelet's host machine and then exposed to the pod. More info: https://kubernetes.io/docs/concepts/storage/volumes#awselasticblockstore"
       (ref_to (core "AWSElasticBlockStoreVolumeSource")));
    ("hostPath", described "HostPath represents a directory on the host. Provisioned by a developer or tester. This is useful for single-node development and testing only! On-host storage is not supported in any way and WILL NOT WORK in a multi-node cluster. More info: https://kubernetes.io/docs/concepts/storage/volumes#hostpath"
       (ref_to (core "HostPathVolumeSource")));
    ("glusterfs", described "Glusterfs represents a Glusterfs volume that is attached to a host and exposed to the pod. Provisioned by an admin. More info: https://releases.k8s.io/HEAD/examples/volumes/glusterfs/README.md"
       (ref_to (core "GlusterfsVolumeSource")));
    ("nfs", described "NFS represents an NFS mount on the host. Provisioned by an admin. More info: https://kubernetes.io/docs/concepts/storage/volumes#nfs"
       (ref_to (core "NFSVolumeSource")));
    ("rbd", described "RBD represents a Rados Block Device mount on the host that shares a pod's lifetime. More info: https://releases.k8s.io/HEAD/examples/volumes/rbd/README.md"
       (ref_to (core "RBDPersistentVolumeSource")));
    ("iscsi", described "ISCSI represents an ISCSI Disk resource that is attached to a kubelet's host machine and then exposed to the pod. Provisioned by an admin."
       (ref_to (core "ISCSIPersistentVolumeSource")));
    ("cinder", described "Cinder represents a cinder volume attached and mounted on kubelets host machine More info: https://releases.k8s.io/HEAD/examples/mysql-cinder-pd/README.md"
       (ref_to (core "CinderVolumeSource")));
    ("cephfs", described "CephFS represents a Ceph FS mount on the host that shares a pod's lifetime"
       (ref_to (core "CephFSPersistentVolumeSource")));
    ("fc", described "FC represents a Fibre Channel resource that is attached to a kubelet's host machine and then exposed to the pod."
       (ref_to (core "FCVolumeSource")));
    ("flocker", described "Flocker represents a Flocker volume attached to a kubelet's host machine and exposed to the pod for its usage. This depends on the Flocker control service being running"
       (ref_to (core "FlockerVolumeSource")));
    ("flexVolume", described "FlexVolume represents a generic volume resource that is provisioned/attached using an exec based plugin."
       (ref_to (core "FlexVolumeSource")));
    ("azureFile", described "AzureFile represents an Azure File Service mount on the host and bind mount to the pod."
       (ref_to (core "AzureFilePersistentVolumeSource")));
    ("vsphereVolume", described "VsphereVolume represents a vSphere volume attached and mounted on kubelets host machine"
       (ref_to (core "VsphereVirtualDiskVolumeSource")));
    ("quobyte", described "Quobyte represents a Quobyte mount on the host that shares a pod's lifetime"
       (ref_to (core "QuobyteVolumeSource")));
    ("azureDisk", described "AzureDisk represents an Azure Data Disk mount on the host and bind mount to the pod."
       (ref_to (core "AzureDiskVolumeSource")));
    ("photonPersistentDisk", described "PhotonPersistentDisk represents a PhotonController persistent disk attached and mounted on kubelets host machine"
       (ref_to (core "PhotonPersistentDiskVolumeSource")));
    ("portworxVolume", described "PortworxVolume represents a portworx volume attached and mounted on kubelets host machine"
       (ref_to (core "PortworxVolumeSource")));
    ("scaleIO", described "ScaleIO represents a ScaleIO persistent volume attached and mounted on Kubernetes nodes."
       (ref_to (core "ScaleIOPersistentVolumeSource")));
    ("local", described "Local represents directly-attached storage with node affinity"
       (ref_to (core "LocalVolumeSource")));
    ("storageos", described "StorageOS represents a StorageOS volume that is attached to the kubelet's host machine and mounted into the pod More info: https://releases.k8s.io/HEAD/examples/volumes/storageos/README.md"
       (ref_to (core "StorageOSPersistentVolumeSource")));
    ("csi", described "CSI represents storage that handled by an external CSI driver"
       (ref_to (core "CSIPersistentVolumeSource")));
    ("accessModes", described "AccessModes contains all ways the volume can be mounted. More info: https://kubernetes.io/docs/concepts/storage/persistent-volumes#access-modes"
       (array_of (leaf "string" "")));
    ("claimRef", described "ClaimRef is part of a bi-directional binding between PersistentVolume and PersistentVolumeClaim. Expected to be non-nil when bound. claim.VolumeName is the authoritative bind between PV and PVC. More info: https://kubernetes.io/docs/concepts/storage/persistent-volumes#binding"
       (ref_to (core "ObjectReference")));
    ("persistentVolumeReclaimPolicy", described "What happens to a persistent volume when released from its claim. Valid options are Retain (default) and Recycle. Recycling must be supported by the volume plugin underlying this persistent volume. More info: https://kubernetes.io/docs/concepts/storage/persistent-volumes#reclaiming"
       (leaf "string" ""));
    ("storageClassName", described "Name of StorageClass to which this persistent volume belongs. Empty value means that this volume does not belong to any StorageClass."
       (leaf "string" ""));
    ("mountOptions", described ("A list of mount options, e.g. [" +:+ dq +:+ "ro" +:+ dq +:+ ", " +:+ dq +:+ "soft" +:+ dq +:+ "]. Not validated - mount will simply fail if one is invalid. More info: https://kubernetes.io/docs/concepts/storage/persistent-volumes/#mount-options")
       (array_of (leaf "string" "")));
    ("volumeMode", described "volumeMode defines if a volume is intended to be used with a formatted filesystem or to remain in raw block state. Value of Filesystem is implied when not included in spec. This is an alpha feature and may change in the future."
       (leaf "string" ""))
  ] []
    [core "AWSElasticBlockStoreVolumeSource"; core "AzureDiskVolumeSource";
     core "AzureFilePersistentVolumeSource"; core "CSIPersistentVolumeSource";
     core "CephFSPersistentVolumeSource"; core "CinderVolumeSource"; core "FCVolumeSource";
     core "FlexVolumeSource"; core "FlockerVolumeSource"; core "GCEPersistentDiskVolumeSource";
     core "GlusterfsVolumeSource"; core "HostPathVolumeSource";
     core "ISCSIPersistentVolumeSource"; core "LocalVolumeSource"; core "NFSVolumeSource";
     core "ObjectReference"; core "PhotonPersistentDiskVolumeSource";
     core "PortworxVolumeSource"; core "QuobyteVolumeSource"; core "RBDPersistentVolumeSource";
     core "ScaleIOPersistentVolumeSource"; core "StorageOSPersistentVolumeSource";
     core "VsphereVirtualDiskVolumeSource"; resource "Quantity"].

Definition core_v1_PersistentVolumeStatus : OpenAPIDefinition :=
  object_of "PersistentVolumeStatus is the current status of a persistent volume." [
    ("phase", described "Phase indicates if a volume is available, bound to a claim, or released by a claim. More info: https://kubernetes.io/docs/concepts/storage/persistent-volumes#phase"
       (leaf "string" ""));
    ("message", described "A human-readable message indicating details about why the volume is in this state."
       (leaf "string" ""));
    ("reason", described "Reason is a brief CamelCase string that describes any failure and is meant for machine parsing and tidy display in the CLI."
       (leaf "string" ""))
  ] []
    [].

Definition core_v1_PhotonPersistentDiskVolumeSource : OpenAPIDefinition :=
  object_of "Represents a Photon Controller persistent disk resource." [
    ("pdID", described "ID that identifies Photon Controller persistent disk"
       (leaf "string" ""));
    ("fsType", described ("Filesystem type to mount. Must be a filesystem type supported by the host operating system. Ex. " +:+ dq +:+ "ext4" +:+ dq +:+ ", " +:+ dq +:+ "xfs" +:+ dq +:+ ", " +:+ dq +:+ "ntfs" +:+ dq +:+ ". Implicitly inferred to be " +:+ dq +:+ "ext4" +:+ dq +:+ " if unspecified.")
       (leaf "string" ""))
  ] ["pdID"]
    [].

Definition core_v1_Pod : OpenAPIDefinition :=
  object_of "Pod is a collection of containers that can run on a host. This resource is created by clients and scheduled onto hosts." [
    ("kind", described "Kind is a string value representing the REST resource this object represents. Servers may infer this from the endpoint the client submits requests to. Cannot be updated. In CamelCase. More info: https://git.k8s.io/community/contributors/devel/api-conventions.md#types-kinds"
       (leaf "string" ""));
    ("apiVersion", described "APIVersion defines the versioned schema of this representation of an object. Servers should convert recognized schemas to the latest internal value, and may reject unrecognized values. More info: https://git.k8s.io/community/contributors/devel/api-conventions.md#resources"
       (leaf "string" ""));
    ("metadata", described "Standard object's metadata. More info: https://git.k8s.io/community/contributors/devel/api-conventions.md#metadata"
       (ref_to (meta "ObjectMeta")));
    ("spec", described "Specification of the desired behavior of the pod. More info: https://git.k8s.io/community/contributors/devel/api-conventions.md#spec-and-status"
       (ref_to (core "PodSpec")));
    ("status", described "Most recently observed status of the pod. This data may not be up to date. Populated by the system. Read-only. More info: https://git.k8s.io/community/contributors/devel/api-conventions.md#spec-and-status"
       (ref_to (core "PodStatus")))
  ] []
    [core "PodSpec"; core "PodStatus"; meta "ObjectMeta"].

Definition core_v1_PodAffinity : OpenAPIDefinition :=
  object_of "Pod affinity is a group of inter pod affinity scheduling rules." [
    ("requiredDuringSchedulingIgnoredDuringExecution", described "If the affinity requirements specified by this field are not met at scheduling time, the pod will not be scheduled onto the node. If the affinity requirements specified by this field cease to be met at some point during pod execution (e.g. due to a pod label update), the system may or may not try to eventually evict the pod from its node. When there are multiple elements, the lists of nodes corresponding to each podAffinityTerm are intersected, i.e. all terms must be satisfied."
       (array_of (ref_to (core "PodAffinityTerm"))));
    ("preferredDuringSchedulingIgnoredDuringExecution", described ("The scheduler will prefer to schedule pods to nodes that satisfy the affinity expressions specified by this field, but it may choose a node that violates one or more of the expressions. The node that is most preferred is the one with the greatest sum of weights, i.e. for each node that meets all of the scheduling requirements (resource request, requiredDuringScheduling affinity expressions, etc.), compute a sum by iterating through the elements of this field and adding " +:+ dq +:+ "weight" +:+ dq +:+ " to the sum if the node has pods which matches the corresponding podAffinityTerm; the node(s) with the highest sum are the most preferred.")
       (array_of (ref_to (core "WeightedPodAffinityTerm"))))
  ] []
    [core "PodAffinityTerm"; core "WeightedPodAffinityTerm"].

Definition core_v1_PodAffinityTerm : OpenAPIDefinition :=
  object_of "Defines a set of pods (namely those matching the labelSelector relative to the given namespace(s)) that this pod should be co-located (affinity) or not co-located (anti-affinity) with, where co-located is defined as running on a node whose value of the label with key <topologyKey> matches that of any node on which a pod of the set of pods is running" [
    ("labelSelector", described "A label query over a set of resources, in this case pods."
       (ref_to (meta "LabelSelector")));
    ("namespaces", described ("namespaces specifies which namespaces the labelSelector applies to (matches against); null or empty list means " +:+ dq +:+ "this pod's namespace" +:+ dq)
       (array_of (leaf "string" "")));
    ("topologyKey", described "This pod should be co-located (affinity) or not co-located (anti-affinity) with the pods matching the labelSelector in the specified namespaces, where co-located is defined as running on a node whose value of the label with key topologyKey matches that of any node on which any of the selected pods is running. Empty topologyKey is not allowed."
       (leaf "string" ""))
  ] ["topologyKey"]
    [meta "LabelSelector"].

Definition core_v1_PodAntiAffinity : OpenAPIDefinition :=
  object_of "Pod anti affinity is a group of inter pod anti affinity scheduling rules." [
    ("requiredDuringSchedulingIgnoredDuringExecution", described "If the anti-affinity requirements specified by this field are not met at scheduling time, the pod will not be scheduled onto the node. If the anti-affinity requirements specified by this field cease to be met at some point during pod execution (e.g. due to a pod label update), the system may or may not try to eventually evict the pod from its node. When there are multiple elements, the lists of nodes corresponding to each podAffinityTerm are intersected, i.e. all terms must be satisfied."
       (array_of (ref_to (core "PodAffinityTerm"))));
    ("preferredDuringSchedulingIgnoredDuringExecution", described ("The scheduler will prefer to schedule pods to nodes that satisfy the anti-affinity expressions specified by this field, but it may choose a node that violates one or more of the expressions. The node that is most preferred is the one with the greatest sum of weights, i.e. for each node that meets all of the scheduling requirements (resource request, requiredDuringScheduling anti-affinity expressions, etc.), compute a sum by iterating through the elements of this field and adding " +:+ dq +:+ "weight" +:+ dq +:+ " to the sum if the node has pods which matches the corresponding podAffinityTerm; the node(s) with the highest sum are the most preferred.")
       (array_of (ref_to (core "WeightedPodAffinityTerm"))))
  ] []
    [core "PodAffinityTerm"; core "WeightedPodAffinityTerm"].

Definition core_v1_PodAttachOptions : OpenAPIDefinition :=
  object_of "PodAttachOptions is the query options to a Pod's remote attach call." [
    ("kind", described "Kind is a string value representing the REST resource this object represents. Servers may infer this from the endpoint the client submits requests to. Cannot be updated. In CamelCase. More info: https://git.k8s.io/community/contributors/devel/api-conventions.md#types-kinds"
       (leaf "string" ""));
    ("apiVersion", described "APIVersion defines the versioned schema of this representation of an object. Servers should convert recognized schemas to the latest internal value, and may reject unrecognized values. More info: https://git.k8s.io/community/contributors/devel/api-conventions.md#resources"
       (leaf "string" ""));
    ("stdin", described "Stdin if true, redirects the standard input stream of the pod for this call. Defaults to false."
       (leaf "boolean" ""));
    ("stdout", described "Stdout if true indicates that stdout is to be redirected for the attach call. Defaults to true."
       (leaf "boolean" ""));
    ("stderr", described "Stderr if true indicates that stderr is to be redirected for the attach call. Defaults to true."
       (leaf "boolean" ""));
    ("tty", described "TTY if true indicates that a tty will be allocated for the attach call. This is passed through the container runtime so the tty is allocated on the worker node by the container runtime. Defaults to false."
       (leaf "boolean" ""));
    ("container", described "The container in which to execute the command. Defaults to only container if there is only one container in the pod."
       (leaf "string" ""))
  ] []
    [].

Definition core_v1_PodCondition : OpenAPIDefinition :=
  object_of "PodCondition contains details for the current condition of this pod." [
    ("type", described "Type is the type of the condition. Currently only Ready. More info: https://kubernetes.io/docs/concepts/workloads/pods/pod-lifecycle#pod-conditions"
       (leaf "string" ""));
    ("status", described "Status is the status of the condition. Can be True, False, Unknown. More info: https://kubernetes.io/docs/concepts/workloads/pods/pod-lifecycle#pod-conditions"
       (leaf "string" ""));
    ("lastProbeTime", described "Last time we probed the condition."
       (ref_to (meta "Time")));
    ("lastTransitionTime", described "Last time the condition transitioned from one status to another."
       (ref_to (meta "Time")));
    ("reason", described "Unique, one-word, CamelCase reason for the condition's last transition."
       (leaf "string" ""));
    ("message", described "Human-readable message indicating details about last transition."
       (leaf "string" ""))
  ] ["type"; "status"]
    [meta "Time"].

Definition core_v1_PodDNSConfig : OpenAPIDefinition :=
  object_of "PodDNSConfig defines the DNS parameters of a pod in addition to those generated from DNSPolicy." [
    ("nameservers", described "A list of DNS name server IP addresses. This will be appended to the base nameservers generated from DNSPolicy. Duplicated nameservers will be removed."
       (array_of (leaf "string" "")));
    ("searches", described "A list of DNS search domains for host-name lookup. This will be appended to the base search paths generated from DNSPolicy. Duplicated search paths will be removed."
       (array_of (leaf "string" "")));
    ("options", described "A list of DNS resolver options. This will be merged with the base options generated from DNSPolicy. Duplicated entries will be removed. Resolution options given in Options will override those that appear in the base DNSPolicy."
       (array_of (ref_to (core "PodDNSConfigOption"))))
  ] []
    [core "PodDNSConfigOption"].

Definition core_v1_PodDNSConfigOption : OpenAPIDefinition :=
  object_of "PodDNSConfigOption defines DNS resolver options of a pod." [
    ("name", described "Required."
       (leaf "string" ""));
    ("value", leaf "string" "")
  ] []
    [].

Definition core_v1_PodExecOptions : OpenAPIDefinition :=
  object_of "PodExecOptions is the query options to a Pod's remote exec call." [
    ("kind", described "Kind is a string value representing the REST resource this object represents. Servers may infer this from the endpoint the client submits requests to. Cannot be updated. In CamelCase. More info: https://git.k8s.io/community/contributors/devel/api-conventions.md#types-kinds"
       (leaf "string" ""));
    ("apiVersion", described "APIVersion defines the versioned schema of this representation of an object. Servers should convert recognized schemas to the latest internal value, and may reject unrecognized values. More info: https://git.k8s.io/community/contributors/devel/api-conventions.md#resources"
       (leaf "string" ""));
    ("stdin", described "Redirect the standard input stream of the pod for this call. Defaults to false."
       (leaf "boolean" ""));
    ("stdout", described "Redirect the standard output stream of the pod for this call. Defaults to true."
       (leaf "boolean" ""));
    ("stderr", described "Redirect the standard error stream of the pod for this call. Defaults to true."
       (leaf "boolean" ""));
    ("tty", described "TTY if true indicates that a tty will be allocated for the exec call. Defaults to false."
       (leaf "boolean" ""));
    ("container", described "Container in which to execute the command. Defaults to only container if there is only one container in the pod."
       (leaf "string" ""));
    ("command", described "Command is the remote command to execute. argv array. Not executed within a shell."
       (array_of (leaf "string" "")))
  ] ["command"]
    [].

Definition core_v1_PodList : OpenAPIDefinition :=
  object_of "PodList is a list of Pods." [
    ("kind", described "Kind is a string value representing the REST resource this object represents. Servers may infer this from the endpoint the client submits requests to. Cannot be updated. In CamelCase. More info: https://git.k8s.io/community/contributors/devel/api-conventions.md#types-kinds"
       (leaf "string" ""));
    ("apiVersion", described "APIVersion defines the versioned schema of this representation of an object. Servers should convert recognized schemas to the latest internal value, and may reject unrecognized values. More info: https://git.k8s.io/community/contributors/devel/api-conventions.md#resources"
       (leaf "string" ""));
    ("metadata", described "Standard list metadata. More info: https://git.k8s.io/community/contributors/devel/api-conventions.md#types-kinds"
       (ref_to (meta "ListMeta")));
    ("items", described "List of pods. More info: https://git.k8s.io/community/contributors/devel/api-conventions.md"
       (array_of (ref_to (core "Pod"))))
  ] ["items"]
    [core "Pod"; meta "ListMeta"].

Definition core_v1_PodLogOptions : OpenAPIDefinition :=
  object_of "PodLogOptions is the query options for a Pod's logs REST call." [
    ("kind", described "Kind is a string value representing the REST resource this object represents. Servers may infer this from the endpoint the client submits requests to. Cannot be updated. In CamelCase. More info: https://git.k8s.io/community/contributors/devel/api-conventions.md#types-kinds"
       (leaf "string" ""));
    ("apiVersion", described "APIVersion defines the versioned schema of this representation of an object. Servers should convert recognized schemas to the latest internal value, and may reject unrecognized values. More info: https://git.k8s.io/community/contributors/devel/api-conventions.md#resources"
       (leaf "string" ""));
    ("container", described "The container for which to stream logs. Defaults to only container if there is one container in the pod."
       (leaf "string" ""));
    ("follow", described "Follow the log stream of the pod. Defaults to false."
       (leaf "boolean" ""));
    ("previous", described "Return previous terminated container logs. Defaults to false."
       (leaf "boolean" ""));
    ("sinceSeconds", described "A relative time in seconds before the current time from which to show logs. If this value precedes the time a pod was started, only logs since the pod start will be returned. If this value is in the future, no logs will be returned. Only one of sinceSeconds or sinceTime may be specified."
       (leaf "integer" "int64"));
    ("sinceTime", described "An RFC3339 timestamp from which to show logs. If this value precedes the time a pod was started, only logs since the pod start will be returned. If this value is in the future, no logs will be returned. Only one of sinceSeconds or sinceTime may be specified."
       (ref_to (meta "Time")));
    ("timestamps", described "If true, add an RFC3339 or RFC3339Nano timestamp at the beginning of every line of log output. Defaults to false."
       (leaf "boolean" ""));
    ("tailLines", described "If set, the number of lines from the end of the logs to show. If not specified, logs are shown from the creation of the container or sinceSeconds or sinceTime"
       (leaf "integer" "int64"));
    ("limitBytes", described "If set, the number of bytes to read from the server before terminating the log output. This may not display a complete final line of logging, and may return slightly more or slightly less than the specified limit."
       (leaf "integer" "int64"))
  ] []
    [meta "Time"].

Definition core_v1_PodPortForwardOptions : OpenAPIDefinition :=
  object_of "PodPortForwardOptions is the query options to a Pod's port forward call when using WebSockets. The `port` query parameter must specify the port or ports (comma separated) to forward over. Port forwarding over SPDY does not use these options. It requires the port to be passed in the `port` header as part of request." [
    ("kind", described "Kind is a string value representing the REST resource this object represents. Servers may infer this from the endpoint the client submits requests to. Cannot be updated. In CamelCase. More info: https://git.k8s.io/community/contributors/devel/api-conventions.md#types-kinds"
       (leaf "string" ""));
    ("apiVersion", described "APIVersion defines the versioned schema of this representation of an object. Servers should convert recognized schemas to the latest internal value, and may reject unrecognized values. More info: https://git.k8s.io/community/contributors/devel/api-conventions.md#resources"
       (leaf "string" ""));
    ("ports", described "List of ports to forward Required when using WebSockets"
       (array_of (leaf "integer" "int32")))
  ] []
    [].

Definition core_v1_PodProxyOptions : OpenAPIDefinition :=
  object_of "PodProxyOptions is the query options to a Pod's proxy call." [
    ("kind", described "Kind is a string value representing the REST resource this object represents. Servers may infer this from the endpoint the client submits requests to. Cannot be updated. In CamelCase. More info: https://git.k8s.io/community/contributors/devel/api-conventions.md#types-kinds"
       (leaf "string" ""));
    ("apiVersion", described "APIVersion defines the versioned schema of this representation of an object. Servers should convert recognized schemas to the latest internal value, and may reject unrecognized values. More info: https://git.k8s.io/community/contributors/devel/api-conventions.md#resources"
       (leaf "string" ""));
    ("path", described "Path is the URL path to use for the current proxy request to pod."
       (leaf "string" ""))
  ] []
    [].

Definition core_v1_PodSecurityContext : OpenAPIDefinition :=
  object_of "PodSecurityContext holds pod-level security attributes and common container settings. Some fields are also present in container.securityContext.  Field values of container.securityContext take precedence over field values of PodSecurityContext." [
    ("seLinuxOptions", described "The SELinux context to be applied to all containers. If unspecified, the container runtime will allocate a random SELinux context for each container.  May also be set in SecurityContext.  If set in both SecurityContext and PodSecurityContext, the value specified in SecurityContext takes precedence for that container."
       (ref_to (core "SELinuxOptions")));
    ("runAsUser", described "The UID to run the entrypoint of the container process. Defaults to user specified in image metadata if unspecified. May also be set in SecurityContext.  If set in both SecurityContext and PodSecurityContext, the value specified in SecurityContext takes precedence for that container."
       (leaf "integer" "int64"));
    ("runAsNonRoot", described "Indicates that the container must run as a non-root user. If true, the Kubelet will validate the image at runtime to ensure that it does not run as UID 0 (root) and fail to start the container if it does. If unset or false, no such validation will be performed. May also be set in SecurityContext.  If set in both SecurityContext and PodSecurityContext, the value specified in SecurityContext takes precedence."
       (leaf "boolean" ""));
    ("supplementalGroups", described "A list of groups applied to the first process run in each container, in addition to the container's primary GID.  If unspecified, no groups will be added to any container."
       (array_of (leaf "integer" "int64")));
    ("fsGroup", described ("A special supplemental group that applies to all containers in a pod. Some volume types allow the Kubelet to change the ownership of that volume to be owned by the pod:" +:+ nl +:+ nl +:+ "1. The owning GID will be the FSGroup 2. The setgid bit is set (new files created in the volume will be owned by FSGroup) 3. The permission bits are OR'd with rw-rw----" +:+ nl +:+ nl +:+ "If unset, the Kubelet will not modify the ownership and permissions of any volume.")
       (leaf "integer" "int64"))
  ] []
    [core "SELinuxOptions"].

Definition core_v1_PodSignature : OpenAPIDefinition :=
  object_of "Describes the class of pods that should avoid this node. Exactly one field should be set." [
    ("podController", described "Reference to controller whose pods should avoid this node."
       (ref_to (meta "OwnerReference")))
  ] []
    [meta "OwnerReference"].

Definition core_v1_PodSpec : OpenAPIDefinition :=
  object_of "PodSpec is a description of a pod." [
    ("volumes", described "List of volumes that can be mounted by containers belonging to the pod. More info: https://kubernetes.io/docs/concepts/storage/volumes"
       (extended [("x-kubernetes-patch-merge-key", "name"); ("x-kubernetes-patch-strategy", "merge,retainKeys")] (array_of (ref_to (core "Volume")))));
    ("initContainers", described "List of initialization containers belonging to the pod. Init containers are executed in order prior to containers being started. If any init container fails, the pod is considered to have failed and is handled according to its restartPolicy. The name for an init container or normal container must be unique among all containers. Init containers may not have Lifecycle actions, Readiness probes, or Liveness probes. The resourceRequirements of an init container are taken into account during scheduling by finding the highest request/limit for each resource type, and then using the max of of that value or the sum of the normal containers. Limits are applied to init containers in a similar fashion. Init containers cannot currently be added or removed. Cannot be updated. More info: https://kubernetes.io/docs/concepts/workloads/pods/init-containers/"
       (extended [("x-kubernetes-patch-merge-key", "name"); ("x-kubernetes-patch-strategy", "merge")] (array_of (ref_to (core "Container")))));
    ("containers", described "List of containers belonging to the pod. Containers cannot currently be added or removed. There must be at least one container in a Pod. Cannot be updated."
       (extended [("x-kubernetes-patch-merge-key", "name"); ("x-kubernetes-patch-strategy", "merge")] (array_of (ref_to (core "Container")))));
    ("restartPolicy", described "Restart policy for all containers within the pod. One of Always, OnFailure, Never. Default to Always. More info: https://kubernetes.io/docs/concepts/workloads/pods/pod-lifecycle/#restart-policy"
       (leaf "string" ""));
    ("terminationGracePeriodSeconds", described "Optional duration in seconds the pod needs to terminate gracefully. May be decreased in delete request. Value must be non-negative integer. The value zero indicates delete immediately. If this value is nil, the default grace period will be used instead. The grace period is the duration in seconds after the processes running in the pod are sent a termination signal and the time when the processes are forcibly halted with a kill signal. Set this value longer than the expected cleanup time for your process. Defaults to 30 seconds."
       (leaf "integer" "int64"));
    ("activeDeadlineSeconds", described "Optional duration in seconds the pod may be active on the node relative to StartTime before the system will actively try to mark it failed and kill associated containers. Value must be a positive integer."
       (leaf "integer" "int64"));
    ("dnsPolicy", described ("Set DNS policy for the pod. Defaults to " +:+ dq +:+ "ClusterFirst" +:+ dq +:+ ". Valid values are 'ClusterFirstWithHostNet', 'ClusterFirst', 'Default' or 'None'. DNS parameters given in DNSConfig will be merged with the policy selected with DNSPolicy. To have DNS options set along with hostNetwork, you have to specify DNS policy explicitly to 'ClusterFirstWithHostNet'. Note that 'None' policy is an alpha feature introduced in v1.9 and CustomPodDNS feature gate must be enabled to use it.")
       (leaf "string" ""));
    ("nodeSelector", described "NodeSelector is a selector which must be true for the pod to fit on a node. Selector which must match a node's labels for the pod to be scheduled on that node. More info: https://kubernetes.io/docs/concepts/configuration/assign-pod-node/"
       (map_of (leaf "string" "")));
    ("serviceAccountName", described "ServiceAccountName is the name of the ServiceAccount to use to run this pod. More info: https://kubernetes.io/docs/tasks/configure-pod-container/configure-service-account/"
       (leaf "string" ""));
    ("serviceAccount", described "DeprecatedServiceAccount is a depreciated alias for ServiceAccountName. Deprecated: Use serviceAccountName instead."
       (leaf "string" ""));
    ("automountServiceAccountToken", described "AutomountServiceAccountToken indicates whether a service account token should be automatically mounted."
       (leaf "boolean" ""));
    ("nodeName", described "NodeName is a request to schedule this pod onto a specific node. If it is non-empty, the scheduler simply schedules this pod onto that node, assuming that it fits resource requirements."
       (leaf "string" ""));
    ("hostNetwork", described "Host networking requested for this pod. Use the host's network namespace. If this option is set, the ports that will be used must be specified. Default to false."
       (leaf "boolean" ""));
    ("hostPID", described "Use the host's pid namespace. Optional: Default to false."
       (leaf "boolean" ""));
    ("hostIPC", described "Use the host's ipc namespace. Optional: Default to false."
       (leaf "boolean" ""));
    ("securityContext", described "SecurityContext holds pod-level security attributes and common container settings. Optional: Defaults to empty.  See type description for default values of each field."
       (ref_to (core "PodSecurityContext")));
    ("imagePullSecrets", described "ImagePullSecrets is an optional list of references to secrets in the same namespace to use for pulling any of the images used by this PodSpec. If specified, these secrets will be passed to individual puller implementations for them to use. For example, in the case of docker, only DockerConfig type secrets are honored. More info: https://kubernetes.io/docs/concepts/containers/images#specifying-imagepullsecrets-on-a-pod"
       (extended [("x-kubernetes-patch-merge-key", "name"); ("x-kubernetes-patch-strategy", "merge")] (array_of (ref_to (core "LocalObjectReference")))));
    ("hostname", described "Specifies the hostname of the Pod If not specified, the pod's hostname will be set to a system-defined value."
       (leaf "string" ""));
    ("subdomain", described ("If specified, the fully qualified Pod hostname will be " +:+ dq +:+ "<hostname>.<subdomain>.<pod namespace>.svc.<cluster domain>" +:+ dq +:+ ". If not specified, the pod will not have a domainname at all.")
       (leaf "string" ""));
    ("affinity", described "If specified, the pod's scheduling constraints"
       (ref_to (core "Affinity")));
    ("schedulerName", described "If specified, the pod will be dispatched by specified scheduler. If not specified, the pod will be dispatched by default scheduler."
       (leaf "string" ""));
    ("tolerations", described "If specified, the pod's tolerations."
       (array_of (ref_to (core "Toleration"))));
    ("hostAliases", described "HostAliases is an optional list of hosts and IPs that will be injected into the pod's hosts file if specified. This is only valid for non-hostNetwork pods."
       (extended [("x-kubernetes-patch-merge-key", "ip"); ("x-kubernetes-patch-strategy", "merge")] (array_of (ref_to (core "HostAlias")))));
    ("priorityClassName", described ("If specified, indicates the pod's priority. " +:+ dq +:+ "SYSTEM" +:+ dq +:+ " is a special keyword which indicates the highest priority. Any other name must be defined by creating a PriorityClass object with that name. If not specified, the pod priority will be default or zero if there is no default.")
       (leaf "string" ""));
    ("priority", described "The priority value. Various system components use this field to find the priority of the pod. When Priority Admission Controller is enabled, it prevents users from setting this field. The admission controller populates this field from PriorityClassName. The higher the value, the higher the priority."
       (leaf "integer" "int32"));
    ("dnsConfig", described "Specifies the DNS parameters of a pod. Parameters specified here will be merged to the generated DNS configuration based on DNSPolicy. This is an alpha feature introduced in v1.9 and CustomPodDNS feature gate must be enabled to use it."
       (ref_to (core "PodDNSConfig")))
  ] ["containers"]
    [core "Affinity"; core "Container"; core "HostAlias"; core "LocalObjectReference";
     core "PodDNSConfig"; core "PodSecurityContext"; core "Toleration"; core "Volume"].

Definition core_v1_PodStatus : OpenAPIDefinition :=
  object_of "PodStatus represents information about the status of a pod. Status may trail the actual state of a system." [
    ("phase", described "Current condition of the pod. More info: https://kubernetes.io/docs/concepts/workloads/pods/pod-lifecycle#pod-phase"
       (leaf "string" ""));
    ("conditions", described "Current service state of pod. More info: https://kubernetes.io/docs/concepts/workloads/pods/pod-lifecycle#pod-conditions"
       (extended [("x-kubernetes-patch-merge-key", "type"); ("x-kubernetes-patch-strategy", "merge")] (array_of (ref_to (core "PodCondition")))));
    ("message", described "A human readable message indicating details about why the pod is in this condition."
       (leaf "string" ""));
    ("reason", described "A brief CamelCase message indicating details about why the pod is in this state. e.g. 'Evicted'"
       (leaf "string" ""));
    ("hostIP", described "IP address of the host to which the pod is assigned. Empty if not yet scheduled."
       (leaf "string" ""));
    ("podIP", described "IP address allocated to the pod. Routable at least within the cluster. Empty if not yet allocated."
       (leaf "string" ""));
    ("startTime", described "RFC 3339 date and time at which the object was acknowledged by the Kubelet. This is before the Kubelet pulled the container image(s) for the pod."
       (ref_to (meta "Time")));
    ("initContainerStatuses", described "The list has one entry per init container in the manifest. The most recent successful init container will have ready = true, the most recently started container will have startTime set. More info: https://kubernetes.io/docs/concepts/workloads/pods/pod-lifecycle#pod-and-container-status"
       (array_of (ref_to (core "ContainerStatus"))));
    ("containerStatuses", described "The list has one entry per container in the manifest. Each entry is currently the output of `docker inspect`. More info: https://kubernetes.io/docs/concepts/workloads/pods/pod-lifecycle#pod-and-container-status"
       (array_of (ref_to (core "ContainerStatus"))));
    ("qosClass", described "The Quality of Service (QOS) classification assigned to the pod based on resource requirements See PodQOSClass type for available QOS classes More info: https://github.com/kubernetes/kubernetes/blob/master/docs/design/resource-qos.md"
       (leaf "string" ""))
  ] []
    [core "ContainerStatus"; core "PodCondition"; meta "Time"].

Definition core_v1_PodStatusResult : OpenAPIDefinition :=
  object_of "PodStatusResult is a wrapper for PodStatus returned by kubelet that can be encode/decoded" [
    ("kind", described "Kind is a string value representing the REST resource this object represents. Servers may infer this from the endpoint the client submits requests to. Cannot be updated. In CamelCase. More info: https://git.k8s.io/community/contributors/devel/api-conventions.md#types-kinds"
       (leaf "string" ""));
    ("apiVersion", described "APIVersion defines the versioned schema of this representation of an object. Servers should convert recognized schemas to the latest internal value, and may reject unrecognized values. More info: https://git.k8s.io/community/contributors/devel/api-conventions.md#resources"
       (leaf "string" ""));
    ("metadata", described "Standard object's metadata. More info: https://git.k8s.io/community/contributors/devel/api-conventions.md#metadata"
       (ref_to (meta "ObjectMeta")));
    ("status", described "Most recently observed status of the pod. This data may not be up to date. Populated by the system. Read-only. More info: https://git.k8s.io/community/contributors/devel/api-conventions.md#spec-and-status"
       (ref_to (core "PodStatus")))
  ] []
    [core "PodStatus"; meta "ObjectMeta"].

Definition core_v1_PodTemplate : OpenAPIDefinition :=
  object_of "PodTemplate describes a template for creating copies of a predefined pod." [
    ("kind", described "Kind is a string value representing the REST resource this object represents. Servers may infer this from the endpoint the client submits requests to. Cannot be updated. In CamelCase. More info: https://git.k8s.io/community/contributors/devel/api-conventions.md#types-kinds"
       (leaf "string" ""));
    ("apiVersion", described "APIVersion defines the versioned schema of this representation of an object. Servers should convert recognized schemas to the latest internal value, and may reject unrecognized values. More info: https://git.k8s.io/community/contributors/devel/api-conventions.md#resources"
       (leaf "string" ""));
    ("metadata", described "Standard object's metadata. More info: https://git.k8s.io/community/contributors/devel/api-conventions.md#metadata"
       (ref_to (meta "ObjectMeta")));
    ("template", described "Template defines the pods that will be created from this pod template. https://git.k8s.io/community/contributors/devel/api-conventions.md#spec-and-status"
       (ref_to (core "PodTemplateSpec")))
  ] []
    [core "PodTemplateSpec"; meta "ObjectMeta"].

Definition core_v1_PodTemplateList : OpenAPIDefinition :=
  object_of "PodTemplateList is a list of PodTemplates." [
    ("kind", described "Kind is a string value representing the REST resource this object represents. Servers may infer this from the endpoint the client submits requests to. Cannot be updated. In CamelCase. More info: https://git.k8s.io/community/contributors/devel/api-conventions.md#types-kinds"
       (leaf "string" ""));
    ("apiVersion", described "APIVersion defines the versioned schema of this representation of an object. Servers should convert recognized schemas to the latest internal value, and may reject unrecognized values. More info: https://git.k8s.io/community/contributors/devel/api-conventions.md#resources"
       (leaf "string" ""));
    ("metadata", described "Standard list metadata. More info: https://git.k8s.io/community/contributors/devel/api-conventions.md#types-kinds"
       (ref_to (meta "ListMeta")));
    ("items", described "List of pod templates"
       (array_of (ref_to (core "PodTemplate"))))
  ] ["items"]
    [core "PodTemplate"; meta "ListMeta"].

Definition core_v1_PodTemplateSpec : OpenAPIDefinition :=
  object_of "PodTemplateSpec describes the data a pod should have when created from a template" [
    ("metadata", described "Standard object's metadata. More info: https://git.k8s.io/community/contributors/devel/api-conventions.md#metadata"
       (ref_to (meta "ObjectMeta")));
    ("spec", described "Specification of the desired behavior of the pod. More info: https://git.k8s.io/community/contributors/devel/api-conventions.md#spec-and-status"
       (ref_to (core "PodSpec")))
  ] []
    [core "PodSpec"; meta "ObjectMeta"].

Definition core_v1_PortworxVolumeSource : OpenAPIDefinition :=
  object_of "PortworxVolumeSource represents a Portworx volume resource." [
    ("volumeID", described "VolumeID uniquely identifies a Portworx volume"
       (leaf "string" ""));
    ("fsType", described ("FSType represents the filesystem type to mount Must be a filesystem type supported by the host operating system. Ex. " +:+ dq +:+ "ext4" +:+ dq +:+ ", " +:+ dq +:+ "xfs" +:+ dq +:+ ". Implicitly inferred to be " +:+ dq +:+ "ext4" +:+ dq +:+ " if unspecified.")
       (leaf "string" ""));
    ("readOnly", described "Defaults to false (read/write). ReadOnly here will force the ReadOnly setting in VolumeMounts."
       (leaf "boolean" ""))
  ] ["volumeID"]
    [].

Definition core_v1_PreferAvoidPodsEntry : OpenAPIDefinition :=
  object_of "Describes a class of pods that should avoid this node." [
    ("podSignature", described "The class of pods."
       (ref_to (core "PodSignature")));
    ("evictionTime", described "Time at which this entry was added to the list."
       (ref_to (meta "Time")));
    ("reason", described "(brief) reason why this entry was added to the list."
       (leaf "string" ""));
    ("message", described "Human readable message indicating why this entry was added to the list."
       (leaf "string" ""))
  ] ["podSignature"]
    [core "PodSignature"; meta "Time"].

Definition core_v1_PreferredSchedulingTerm : OpenAPIDefinition :=
  object_of "An empty preferred scheduling term matches all objects with implicit weight 0 (i.e. it's a no-op). A null preferred scheduling term matches no objects (i.e. is also a no-op)." [
    ("weight", described "Weight associated with matching the corresponding nodeSelectorTerm, in the range 1-100."
       (leaf "integer" "int32"));
    ("preference", described "A node selector term, associated with the corresponding weight."
       (ref_to (core "NodeSelectorTerm")))
  ] ["weight"; "preference"]
    [core "NodeSelectorTerm"].

Definition core_v1_Probe : OpenAPIDefinition :=
  object_of "Probe describes a health check to be performed against a container to determine whether it is alive or ready to receive traffic." [
    ("exec", described "One and only one of the following should be specified. Exec specifies the action to take."
       (ref_to (core "ExecAction")));
    ("httpGet", described "HTTPGet specifies the http request to perform."
       (ref_to (core "HTTPGetAction")));
    ("tcpSocket", described "TCPSocket specifies an action involving a TCP port. TCP hooks not yet supported"
       (ref_to (core "TCPSocketAction")));
    ("initialDelaySeconds", described "Number of seconds after the container has started before liveness probes are initiated. More info: https://kubernetes.io/docs/concepts/workloads/pods/pod-lifecycle#container-probes"
       (leaf "integer" "int32"));
    ("timeoutSeconds", described "Number of seconds after which the probe times out. Defaults to 1 second. Minimum value is 1. More info: https://kubernetes.io/docs/concepts/workloads/pods/pod-lifecycle#container-probes"
       (leaf "integer" "int32"));
    ("periodSeconds", described "How often (in seconds) to perform the probe. Default to 10 seconds. Minimum value is 1."
       (leaf "integer" "int32"));
    ("successThreshold", described "Minimum consecutive successes for the probe to be considered successful after having failed. Defaults to 1. Must be 1 for liveness. Minimum value is 1."
       (leaf "integer" "int32"));
    ("failureThreshold", described "Minimum consecutive failures for the probe to be considered failed after having succeeded. Defaults to 3. Minimum value is 1."
       (leaf "integer" "int32"))
  ] []
    [core "ExecAction"; core "HTTPGetAction"; core "TCPSocketAction"].

Definition core_v1_ProjectedVolumeSource : OpenAPIDefinition :=
  object_of "Represents a projected volume source" [
    ("sources", described "list of volume projections"
       (array_of (ref_to (core "VolumeProjection"))));
    ("defaultMode", described "Mode bits to use on created files by default. Must be a value between 0 and 0777. Directories within the path are not affected by this setting. This might be in conflict with other options that affect the file mode, like fsGroup, and the result can be other mode bits set."
       (leaf "integer" "int32"))
  ] ["sources"]
    [core "VolumeProjection"].

Definition core_v1_QuobyteVolumeSource : OpenAPIDefinition :=
  object_of "Represents a Quobyte mount that lasts the lifetime of a pod. Quobyte volumes do not support ownership management or SELinux relabeling." [
    ("registry", described "Registry represents a single or multiple Quobyte Registry services specified as a string as host:port pair (multiple entries are separated with commas) which acts as the central registry for volumes"
       (leaf "string" ""));
    ("volume", described "Volume is a string that references an already created Quobyte volume by name."
       (leaf "string" ""));
    ("readOnly", described "ReadOnly here will force the Quobyte volume to be mounted with read-only permissions. Defaults to false."
       (leaf "boolean" ""));
    ("user", described "User to map volume access to Defaults to serivceaccount user"
       (leaf "string" ""));
    ("group", described "Group to map volume access to Default is no group"
       (leaf "string" ""))
  ] ["registry"; "volume"]
    [].

Definition core_v1_RBDPersistentVolumeSource : OpenAPIDefinition :=
  object_of "Represents a Rados Block Device mount that lasts the lifetime of a pod. RBD volumes support ownership management and SELinux relabeling." [
    ("monitors", described "A collection of Ceph monitors. More info: https://releases.k8s.io/HEAD/examples/volumes/rbd/README.md#how-to-use-it"
       (array_of (leaf "string" "")));
    ("image", described "The rados image name. More info: https://releases.k8s.io/HEAD/examples/volumes/rbd/README.md#how-to-use-it"
       (leaf "string" ""));
    ("fsType", described ("Filesystem type of the volume that you want to mount. Tip: Ensure that the filesystem type is supported by the host operating system. Examples: " +:+ dq +:+ "ext4" +:+ dq +:+ ", " +:+ dq +:+ "xfs" +:+ dq +:+ ", " +:+ dq +:+ "ntfs" +:+ dq +:+ ". Implicitly inferred to be " +:+ dq +:+ "ext4" +:+ dq +:+ " if unspecified. More info: https://kubernetes.io/docs/concepts/storage/volumes#rbd")
       (leaf "string" ""));
    ("pool", described "The rados pool name. Default is rbd. More info: https://releases.k8s.io/HEAD/examples/volumes/rbd/README.md#how-to-use-it"
       (leaf "string" ""));
    ("user", described "The rados user name. Default is admin. More info: https://releases.k8s.io/HEAD/examples/volumes/rbd/README.md#how-to-use-it"
       (leaf "string" ""));
    ("keyring", described "Keyring is the path to key ring for RBDUser. Default is /etc/ceph/keyring. More info: https://releases.k8s.io/HEAD/examples/volumes/rbd/README.md#how-to-use-it"
       (leaf "string" ""));
    ("secretRef", described "SecretRef is name of the authentication secret for RBDUser. If provided overrides keyring. Default is nil. More info: https://releases.k8s.io/HEAD/examples/volumes/rbd/README.md#how-to-use-it"
       (ref_to (core "SecretReference")));
    ("readOnly", described "ReadOnly here will force the ReadOnly setting in VolumeMounts. Defaults to false. More info: https://releases.k8s.io/HEAD/examples/volumes/rbd/README.md#how-to-use-it"
       (leaf "boolean" ""))
  ] ["monitors"; "image"]
    [core "SecretReference"].

Definition core_v1_RBDVolumeSource : OpenAPIDefinition :=
  object_of "Represents a Rados Block Device mount that lasts the lifetime of a pod. RBD volumes support ownership management and SELinux relabeling." [
    ("monitors", described "A collection of Ceph monitors. More info: https://releases.k8s.io/HEAD/examples/volumes/rbd/README.md#how-to-use-it"
       (array_of (leaf "string" "")));
    ("image", described "The rados image name. More info: https://releases.k8s.io/HEAD/examples/volumes/rbd/README.md#how-to-use-it"
       (leaf "string" ""));
    ("fsType", described ("Filesystem type of the volume that you want to mount. Tip: Ensure that the filesystem type is supported by the host operating system. Examples: " +:+ dq +:+ "ext4" +:+ dq +:+ ", " +:+ dq +:+ "xfs" +:+ dq +:+ ", " +:+ dq +:+ "ntfs" +:+ dq +:+ ". Implicitly inferred to be " +:+ dq +:+ "ext4" +:+ dq +:+ " if unspecified. More info: https://kubernetes.io/docs/concepts/storage/volumes#rbd")
       (leaf "string" ""));
    ("pool", described "The rados pool name. Default is rbd. More info: https://releases.k8s.io/HEAD/examples/volumes/rbd/README.md#how-to-use-it"
       (leaf "string" ""));
    ("user", described "The rados user name. Default is admin. More info: https://releases.k8s.io/HEAD/examples/volumes/rbd/README.md#how-to-use-it"
       (leaf "string" ""));
    ("keyring", described "Keyring is the path to key ring for RBDUser. Default is /etc/ceph/keyring. More info: https://releases.k8s.io/HEAD/examples/volumes/rbd/README.md#how-to-use-it"
       (leaf "string" ""));
    ("secretRef", described "SecretRef is name of the authentication secret for RBDUser. If provided overrides keyring. Default is nil. More info: https://releases.k8s.io/HEAD/examples/volumes/rbd/README.md#how-to-use-it"
       (ref_to (core "LocalObjectReference")));
    ("readOnly", described "ReadOnly here will force the ReadOnly setting in VolumeMounts. Defaults to false. More info: https://releases.k8s.io/HEAD/examples/volumes/rbd/README.md#how-to-use-it"
       (leaf "boolean" ""))
  ] ["monitors"; "image"]
    [core "LocalObjectReference"].

Definition core_v1_RangeAllocation : OpenAPIDefinition :=
  object_of "RangeAllocation is not a public type." [
    ("kind", described "Kind is a string value representing the REST resource this object represents. Servers may infer this from the endpoint the client submits requests to. Cannot be updated. In CamelCase. More info: https://git.k8s.io/community/contributors/devel/api-conventions.md#types-kinds"
       (leaf "string" ""));
    ("apiVersion", described "APIVersion defines the versioned schema of this representation of an object. Servers should convert recognized schemas to the latest internal value, and may reject unrecognized values. More info: https://git.k8s.io/community/contributors/devel/api-conventions.md#resources"
       (leaf "string" ""));
    ("metadata", described "Standard object's metadata. More info: https://git.k8s.io/community/contributors/devel/api-conventions.md#metadata"
       (ref_to (meta "ObjectMeta")));
    ("range", described "Range is string that identifies the range represented by 'data'."
       (leaf "string" ""));
    ("data", described "Data is a bit array containing all allocated addresses in the previous segment."
       (leaf "string" "byte"))
  ] ["range"; "data"]
    [meta "ObjectMeta"].

Definition core_v1_ReplicationController : OpenAPIDefinition :=
  object_of "ReplicationController represents the configuration of a replication controller." [
    ("kind", described "Kind is a string value representing the REST resource this object represents. Servers may infer this from the endpoint the client submits requests to. Cannot be updated. In CamelCase. More info: https://git.k8s.io/community/contributors/devel/api-conventions.md#types-kinds"
       (leaf "string" ""));
    ("apiVersion", described "APIVersion defines the versioned schema of this representation of an object. Servers should convert recognized schemas to the latest internal value, and may reject unrecognized values. More info: https://git.k8s.io/community/contributors/devel/api-conventions.md#resources"
       (leaf "string" ""));
    ("metadata", described "If the Labels of a ReplicationController are empty, they are defaulted to be the same as the Pod(s) that the replication controller manages. Standard object's metadata. More info: https://git.k8s.io/community/contributors/devel/api-conventions.md#metadata"
       (ref_to (meta "ObjectMeta")));
    ("spec", described "Spec defines the specification of the desired behavior of the replication controller. More info: https://git.k8s.io/community/contributors/devel/api-conventions.md#spec-and-status"
       (ref_to (core "ReplicationControllerSpec")));
    ("status", described "Status is the most recently observed status of the replication controller. This data may be out of date by some window of time. Populated by the system. Read-only. More info: https://git.k8s.io/community/contributors/devel/api-conventions.md#spec-and-status"
       (ref_to (core "ReplicationControllerStatus")))
  ] []
    [core "ReplicationControllerSpec"; core "ReplicationControllerStatus"; meta "ObjectMeta"].

Definition core_v1_ReplicationControllerCondition : OpenAPIDefinition :=
  object_of "ReplicationControllerCondition describes the state of a replication controller at a certain point." [
    ("type", described "Type of replication controller condition."
       (leaf "string" ""));
    ("status", described "Status of the condition, one of True, False, Unknown."
       (leaf "string" ""));
    ("lastTransitionTime", described "The last time the condition transitioned from one status to another."
       (ref_to (meta "Time")));
    ("reason", described "The reason for the condition's last transition."
       (leaf "string" ""));
    ("message", described "A human readable message indicating details about the transition."
       (leaf "string" ""))
  ] ["type"; "status"]
    [meta "Time"].

Definition core_v1_ReplicationControllerList : OpenAPIDefinition :=
  object_of "ReplicationControllerList is a collection of replication controllers." [
    ("kind", described "Kind is a string value representing the REST resource this object represents. Servers may infer this from the endpoint the client submits requests to. Cannot be updated. In CamelCase. More info: https://git.k8s.io/community/contributors/devel/api-conventions.md#types-kinds"
       (leaf "string" ""));
    ("apiVersion", described "APIVersion defines the versioned schema of this representation of an object. Servers should convert recognized schemas to the latest internal value, and may reject unrecognized values. More info: https://git.k8s.io/community/contributors/devel/api-conventions.md#resources"
       (leaf "string" ""));
    ("metadata", described "Standard list metadata. More info: https://git.k8s.io/community/contributors/devel/api-conventions.md#types-kinds"
       (ref_to (meta "ListMeta")));
    ("items", described "List of replication controllers. More info: https://kubernetes.io/docs/concepts/workloads/controllers/replicationcontroller"
       (array_of (ref_to (core "ReplicationController"))))
  ] ["items"]
    [core "ReplicationController"; meta "ListMeta"].

Definition core_v1_ReplicationControllerSpec : OpenAPIDefinition :=
  object_of "ReplicationControllerSpec is the specification of a replication controller." [
    ("replicas", described "Replicas is the number of desired replicas. This is a pointer to distinguish between explicit zero and unspecified. Defaults to 1. More info: https://kubernetes.io/docs/concepts/workloads/controllers/replicationcontroller#what-is-a-replicationcontroller"
       (leaf "integer" "int32"));
    ("minReadySeconds", described "Minimum number of seconds for which a newly created pod should be ready without any of its container crashing, for it to be considered available. Defaults to 0 (pod will be considered available as soon as it is ready)"
       (leaf "integer" "int32"));
    ("selector", described "Selector is a label query over pods that should match the Replicas count. If Selector is empty, it is defaulted to the labels present on the Pod template. Label keys and values that must match in order to be controlled by this replication controller, if empty defaulted to labels on Pod template. More info: https://kubernetes.io/docs/concepts/overview/working-with-objects/labels/#label-selectors"
       (map_of (leaf "string" "")));
    ("template", described "Template is the object that describes the pod that will be created if insufficient replicas are detected. This takes precedence over a TemplateRef. More info: https://kubernetes.io/docs/concepts/workloads/controllers/replicationcontroller#pod-template"
       (ref_to (core "PodTemplateSpec")))
  ] []
    [core "PodTemplateSpec"].

Definition core_v1_ReplicationControllerStatus : OpenAPIDefinition :=
  object_of "ReplicationControllerStatus represents the current status of a replication controller." [
    ("replicas", described "Replicas is the most recently oberved number of replicas. More info: https://kubernetes.io/docs/concepts/workloads/controllers/replicationcontroller#what-is-a-replicationcontroller"
       (leaf "integer" "int32"));
    ("fullyLabeledReplicas", described "The number of pods that have labels matching the labels of the pod template of the replication controller."
       (leaf "integer" "int32"));
    ("readyReplicas", described "The number of ready replicas for this replication controller."
       (leaf "integer" "int32"));
    ("availableReplicas", described "The number of available replicas (ready for at least minReadySeconds) for this replication controller."
       (leaf "integer" "int32"));
    ("observedGeneration", described "ObservedGeneration reflects the generation of the most recently observed replication controller."
       (leaf "integer" "int64"));
    ("conditions", described "Represents the latest available observations of a replication controller's current state."
       (extended [("x-kubernetes-patch-merge-key", "type"); ("x-kubernetes-patch-strategy", "merge")] (array_of (ref_to (core "ReplicationControllerCondition")))))
  ] ["replicas"]
    [core "ReplicationControllerCondition"].

Definition core_v1_ResourceFieldSelector : OpenAPIDefinition :=
  object_of "ResourceFieldSelector represents container resources (cpu, memory) and their output format" [
    ("containerName", described "Container name: required for volumes, optional for env vars"
       (leaf "string" ""));
    ("resource", described "Required: resource to select"
       (leaf "string" ""));
    ("divisor", described ("Specifies the output format of the exposed resources, defaults to " +:+ dq +:+ "1" +:+ dq)
       (ref_to (resource "Quantity")))
  ] ["resource"]
    [resource "Quantity"].

Definition core_v1_ResourceQuota : OpenAPIDefinition :=
  object_of "ResourceQuota sets aggregate quota restrictions enforced per namespace" [
    ("kind", described "Kind is a string value representing the REST resource this object represents. Servers may infer this from the endpoint the client submits requests to. Cannot be updated. In CamelCase. More info: https://git.k8s.io/community/contributors/devel/api-conventions.md#types-kinds"
       (leaf "string" ""));
    ("apiVersion", described "APIVersion defines the versioned schema of this representation of an object. Servers should convert recognized schemas to the latest internal value, and may reject unrecognized values. More info: https://git.k8s.io/community/contributors/devel/api-conventions.md#resources"
       (leaf "string" ""));
    ("metadata", described "Standard object's metadata. More info: https://git.k8s.io/community/contributors/devel/api-conventions.md#metadata"
       (ref_to (meta "ObjectMeta")));
    ("spec", described "Spec defines the desired quota. https://git.k8s.io/community/contributors/devel/api-conventions.md#spec-and-status"
       (ref_to (core "ResourceQuotaSpec")));
    ("status", described "Status defines the actual enforced quota and its current usage. https://git.k8s.io/community/contributors/devel/api-conventions.md#spec-and-status"
       (ref_to (core "ResourceQuotaStatus")))
  ] []
    [core "ResourceQuotaSpec"; core "ResourceQuotaStatus"; meta "ObjectMeta"].

Definition core_v1_ResourceQuotaList : OpenAPIDefinition :=
  object_of "ResourceQuotaList is a list of ResourceQuota items." [
    ("kind", described "Kind is a string value representing the REST resource this object represents. Servers may infer this from the endpoint the client submits requests to. Cannot be updated. In CamelCase. More info: https://git.k8s.io/community/contributors/devel/api-conventions.md#types-kinds"
       (leaf "string" ""));
    ("apiVersion", described "APIVersion defines the versioned schema of this representation of an object. Servers should convert recognized schemas to the latest internal value, and may reject unrecognized values. More info: https://git.k8s.io/community/contributors/devel/api-conventions.md#resources"
       (leaf "string" ""));
    ("metadata", described "Standard list metadata. More info: https://git.k8s.io/community/contributors/devel/api-conventions.md#types-kinds"
       (ref_to (meta "ListMeta")));
    ("items", described "Items is a list of ResourceQuota objects. More info: https://kubernetes.io/docs/concepts/policy/resource-quotas/"
       (array_of (ref_to (core "ResourceQuota"))))
  ] ["items"]
    [core "ResourceQuota"; meta "ListMeta"].

Definition core_v1_ResourceQuotaSpec : OpenAPIDefinition :=
  object_of "ResourceQuotaSpec defines the desired hard limits to enforce for Quota." [
    ("hard", described "Hard is the set of desired hard limits for each named resource. More info: https://kubernetes.io/docs/concepts/policy/resource-quotas/"
       (map_of (ref_to (resource "Quantity"))));
    ("scopes", described "A collection of filters that must match each object tracked by a quota. If not specified, the quota matches all objects."
       (array_of (leaf "string" "")))
  ] []
    [resource "Quantity"].

Definition core_v1_ResourceQuotaStatus : OpenAPIDefinition :=
  object_of "ResourceQuotaStatus defines the enforced hard limits and observed use." [
    ("hard", described "Hard is the set of enforced hard limits for each named resource. More info: https://kubernetes.io/docs/concepts/policy/resource-quotas/"
       (map_of (ref_to (resource "Quantity"))));
    ("used", described "Used is the current observed total usage of the resource in the namespace."
       (map_of (ref_to (resource "Quantity"))))
  ] []
    [resource "Quantity"].

Definition core_v1_ResourceRequirements : OpenAPIDefinition :=
  object_of "ResourceRequirements describes the compute resource requirements." [
    ("limits", described "Limits describes the maximum amount of compute resources allowed. More info: https://kubernetes.io/docs/concepts/configuration/manage-compute-resources-container/"
       (map_of (ref_to (resource "Quantity"))));
    ("requests", described "Requests describes the minimum amount of compute resources required. If Requests is omitted for a container, it defaults to Limits if that is explicitly specified, otherwise to an implementation-defined value. More info: https://kubernetes.io/docs/concepts/configuration/manage-compute-resources-container/"
       (map_of (ref_to (resource "Quantity"))))
  ] []
    [resource "Quantity"].

Definition core_v1_SELinuxOptions : OpenAPIDefinition :=
  object_of "SELinuxOptions are the labels to be applied to the container" [
    ("user", described "User is a SELinux user label that applies to the container."
       (leaf "string" ""));
    ("role", described "Role is a SELinux role label that applies to the container."
       (leaf "string" ""));
    ("type", described "Type is a SELinux type label that applies to the container."
       (leaf "string" ""));
    ("level", described "Level is SELinux level label that applies to the container."
       (leaf "string" ""))
  ] []
    [].

Definition core_v1_ScaleIOPersistentVolumeSource : OpenAPIDefinition :=
  object_of "ScaleIOPersistentVolumeSource represents a persistent ScaleIO volume" [
    ("gateway", described "The host address of the ScaleIO API Gateway."
       (leaf "string" ""));
    ("system", described "The name of the storage system as configured in ScaleIO."
       (leaf "string" ""));
    ("secretRef", described "SecretRef references to the secret for ScaleIO user and other sensitive information. If this is not provided, Login operation will fail."
       (ref_to (core "SecretReference")));
    ("sslEnabled", described "Flag to enable/disable SSL communication with Gateway, default false"
       (leaf "boolean" ""));
    ("protectionDomain", described "The name of the ScaleIO Protection Domain for the configured storage."
       (leaf "string" ""));
    ("storagePool", described "The ScaleIO Storage Pool associated with the protection domain."
       (leaf "string" ""));
    ("storageMode", described "Indicates whether the storage for a volume should be ThickProvisioned or ThinProvisioned."
       (leaf "string" ""));
    ("volumeName", described "The name of a volume already created in the ScaleIO system that is associated with this volume source."
       (leaf "string" ""));
    ("fsType", described ("Filesystem type to mount. Must be a filesystem type supported by the host operating system. Ex. " +:+ dq +:+ "ext4" +:+ dq +:+ ", " +:+ dq +:+ "xfs" +:+ dq +:+ ", " +:+ dq +:+ "ntfs" +:+ dq +:+ ". Implicitly inferred to be " +:+ dq +:+ "ext4" +:+ dq +:+ " if unspecified.")
       (leaf "string" ""));
    ("readOnly", described "Defaults to false (read/write). ReadOnly here will force the ReadOnly setting in VolumeMounts."
       (leaf "boolean" ""))
  ] ["gateway"; "system"; "secretRef"]
    [core "SecretReference"].

Definition core_v1_ScaleIOVolumeSource : OpenAPIDefinition :=
  object_of "ScaleIOVolumeSource represents a persistent ScaleIO volume" [
    ("gateway", described "The host address of the ScaleIO API Gateway."
       (leaf "string" ""));
    ("system", described "The name of the storage system as configured in ScaleIO."
       (leaf "string" ""));
    ("secretRef", described "SecretRef references to the secret for ScaleIO user and other sensitive information. If this is not provided, Login operation will fail."
       (ref_to (core "LocalObjectReference")));
    ("sslEnabled", described "Flag to enable/disable SSL communication with Gateway, default false"
       (leaf "boolean" ""));
    ("protectionDomain", described "The name of the ScaleIO Protection Domain for the configured storage."
       (leaf "string" ""));
    ("storagePool", described "The ScaleIO Storage Pool associated with the protection domain."
       (leaf "string" ""));
    ("storageMode", described "Indicates whether the storage for a volume should be ThickProvisioned or ThinProvisioned."
       (leaf "string" ""));
    ("volumeName", described "The name of a volume already created in the ScaleIO system that is associated with this volume source."
       (leaf "string" ""));
    ("fsType", described ("Filesystem type to mount. Must be a filesystem type supported by the host operating system. Ex. " +:+ dq +:+ "ext4" +:+ dq +:+ ", " +:+ dq +:+ "xfs" +:+ dq +:+ ", " +:+ dq +:+ "ntfs" +:+ dq +:+ ". Implicitly inferred to be " +:+ dq +:+ "ext4" +:+ dq +:+ " if unspecified.")
       (leaf "string" ""));
    ("readOnly", described "Defaults to false (read/write). ReadOnly here will force the ReadOnly setting in VolumeMounts."
       (leaf "boolean" ""))
  ] ["gateway"; "system"; "secretRef"]
    [core "LocalObjectReference"].

Definition core_v1_Secret : OpenAPIDefinition :=
  object_of "Secret holds secret data of a certain type. The total bytes of the values in the Data field must be less than MaxSecretSize bytes." [
    ("kind", described "Kind is a string value representing the REST resource this object represents. Servers may infer this from the endpoint the client submits requests to. Cannot be updated. In CamelCase. More info: https://git.k8s.io/community/contributors/devel/api-conventions.md#types-kinds"
       (leaf "string" ""));
    ("apiVersion", described "APIVersion defines the versioned schema of this representation of an object. Servers should convert recognized schemas to the latest internal value, and may reject unrecognized values. More info: https://git.k8s.io/community/contributors/devel/api-conventions.md#resources"
       (leaf "string" ""));
    ("metadata", described "Standard object's metadata. More info: https://git.k8s.io/community/contributors/devel/api-conventions.md#metadata"
       (ref_to (meta "ObjectMeta")));
    ("data", described "Data contains the secret data. Each key must consist of alphanumeric characters, '-', '_' or '.'. The serialized form of the secret data is a base64 encoded string, representing the arbitrary (possibly non-string) data value here. Described in https://tools.ietf.org/html/rfc4648#section-4"
       (map_of (leaf "string" "byte")));
    ("stringData", described "stringData allows specifying non-binary secret data in string form. It is provided as a write-only convenience method. All keys and values are merged into the data field on write, overwriting any existing values. It is never output when reading from the API."
       (map_of (leaf "string" "")));
    ("type", described "Used to facilitate programmatic handling of secret data."
       (leaf "string" ""))
  ] []
    [meta "ObjectMeta"].

Definition core_v1_SecretEnvSource : OpenAPIDefinition :=
  object_of ("SecretEnvSource selects a Secret to populate the environment variables with." +:+ nl +:+ nl +:+ "The contents of the target Secret's Data field will represent the key-value pairs as environment variables.") [
    ("name", described "Name of the referent. More info: https://kubernetes.io/docs/concepts/overview/working-with-objects/names/#names"
       (leaf "string" ""));
    ("optional", described "Specify whether the Secret must be defined"
       (leaf "boolean" ""))
  ] []
    [].

Definition core_v1_SecretKeySelector : OpenAPIDefinition :=
  object_of "SecretKeySelector selects a key of a Secret." [
    ("name", described "Name of the referent. More info: https://kubernetes.io/docs/concepts/overview/working-with-objects/names/#names"
       (leaf "string" ""));
    ("key", described "The key of the secret to select from.  Must be a valid secret key."
       (leaf "string" ""));
    ("optional", described "Specify whether the Secret or it's key must be defined"
       (leaf "boolean" ""))
  ] ["key"]
    [].

Definition core_v1_SecretList : OpenAPIDefinition :=
  object_of "SecretList is a list of Secret." [
    ("kind", described "Kind is a string value representing the REST resource this object represents. Servers may infer this from the endpoint the client submits requests to. Cannot be updated. In CamelCase. More info: https://git.k8s.io/community/contributors/devel/api-conventions.md#types-kinds"
       (leaf "string" ""));
    ("apiVersion", described "APIVersion defines the versioned schema of this representation of an object. Servers should convert recognized schemas to the latest internal value, and may reject unrecognized values. More info: https://git.k8s.io/community/contributors/devel/api-conventions.md#resources"
       (leaf "string" ""));
    ("metadata", described "Standard list metadata. More info: https://git.k8s.io/community/contributors/devel/api-conventions.md#types-kinds"
       (ref_to (meta "ListMeta")));
    ("items", described "Items is a list of secret objects. More info: https://kubernetes.io/docs/concepts/configuration/secret"
       (array_of (ref_to (core "Secret"))))
  ] ["items"]
    [core "Secret"; meta "ListMeta"].

Definition core_v1_SecretProjection : OpenAPIDefinition :=
  object_of ("Adapts a secret into a projected volume." +:+ nl +:+ nl +:+ "The contents of the target Secret's Data field will be presented in a projected volume as files using the keys in the Data field as the file names. Note that this is identical to a secret volume source without the default mode.") [
    ("name", described "Name of the referent. More info: https://kubernetes.io/docs/concepts/overview/working-with-objects/names/#names"
       (leaf "string" ""));
    ("items", described "If unspecified, each key-value pair in the Data field of the referenced Secret will be projected into the volume as a file whose name is the key and content is the value. If specified, the listed keys will be projected into the specified paths, and unlisted keys will not be present. If a key is specified which is not present in the Secret, the volume setup will error unless it is marked optional. Paths must be relative and may not contain the '..' path or start with '..'."
       (array_of (ref_to (core "KeyToPath"))));
    ("optional", described "Specify whether the Secret or its key must be defined"
       (leaf "boolean" ""))
  ] []
    [core "KeyToPath"].

Definition core_v1_SecretReference : OpenAPIDefinition :=
  object_of "SecretReference represents a Secret Reference. It has enough information to retrieve secret in any namespace" [
    ("name", described "Name is unique within a namespace to reference a secret resource."
       (leaf "string" ""));
    ("namespace", described "Namespace defines the space within which the secret name must be unique."
       (leaf "string" ""))
  ] []
    [].

Definition core_v1_SecretVolumeSource : OpenAPIDefinition :=
  object_of ("Adapts a Secret into a volume." +:+ nl +:+ nl +:+ "The contents of the target Secret's Data field will be presented in a volume as files using the keys in the Data field as the file names. Secret volumes support ownership management and SELinux relabeling.") [
    ("secretName", described "Name of the secret in the pod's namespace to use. More info: https://kubernetes.io/docs/concepts/storage/volumes#secret"
       (leaf "string" ""));
    ("items", described "If unspecified, each key-value pair in the Data field of the referenced Secret will be projected into the volume as a file whose name is the key and content is the value. If specified, the listed keys will be projected into the specified paths, and unlisted keys will not be present. If a key is specified which is not present in the Secret, the volume setup will error unless it is marked optional. Paths must be relative and may not contain the '..' path or start with '..'."
       (array_of (ref_to (core "KeyToPath"))));
    ("defaultMode", described "Optional: mode bits to use on created files by default. Must be a value between 0 and 0777. Defaults to 0644. Directories within the path are not affected by this setting. This might be in conflict with other options that affect the file mode, like fsGroup, and the result can be other mode bits set."
       (leaf "integer" "int32"));
    ("optional", described "Specify whether the Secret or it's keys must be defined"
       (leaf "boolean" ""))
  ] []
    [core "KeyToPath"].

Definition core_v1_SecurityContext : OpenAPIDefinition :=
  object_of "SecurityContext holds security configuration that will be applied to a container. Some fields are present in both SecurityContext and PodSecurityContext.  When both are set, the values in SecurityContext take precedence." [
    ("capabilities", described "The capabilities to add/drop when running containers. Defaults to the default set of capabilities granted by the container runtime."
       (ref_to (core "Capabilities")));
    ("privileged", described "Run container in privileged mode. Processes in privileged containers are essentially equivalent to root on the host. Defaults to false."
       (leaf "boolean" ""));
    ("seLinuxOptions", described "The SELinux context to be applied to the container. If unspecified, the container runtime will allocate a random SELinux context for each container.  May also be set in PodSecurityContext.  If set in both SecurityContext and PodSecurityContext, the value specified in SecurityContext takes precedence."
       (ref_to (core "SELinuxOptions")));
    ("runAsUser", described "The UID to run the entrypoint of the container process. Defaults to user specified in image metadata if unspecified. May also be set in PodSecurityContext.  If set in both SecurityContext and PodSecurityContext, the value specified in SecurityContext takes precedence."
       (leaf "integer" "int64"));
    ("runAsNonRoot", described "Indicates that the container must run as a non-root user. If true, the Kubelet will validate the image at runtime to ensure that it does not run as UID 0 (root) and fail to start the container if it does. If unset or false, no such validation will be performed. May also be set in PodSecurityContext.  If set in both SecurityContext and PodSecurityContext, the value specified in SecurityContext takes precedence."
       (leaf "boolean" ""));
    ("readOnlyRootFilesystem", described "Whether this container has a read-only root filesystem. Default is false."
       (leaf "boolean" ""));
    ("allowPrivilegeEscalation", described "AllowPrivilegeEscalation controls whether a process can gain more privileges than its parent process. This bool directly controls if the no_new_privs flag will be set on the container process. AllowPrivilegeEscalation is true always when the container is: 1) run as Privileged 2) has CAP_SYS_ADMIN"
       (leaf "boolean" ""))
  ] []
    [core "Capabilities"; core "SELinuxOptions"].

Definition core_v1_SerializedReference : OpenAPIDefinition :=
  object_of "SerializedReference is a reference to serialized object." [
    ("kind", described "Kind is a string value representing the REST resource this object represents. Servers may infer this from the endpoint the client submits requests to. Cannot be updated. In CamelCase. More info: https://git.k8s.io/community/contributors/devel/api-conventions.md#types-kinds"
       (leaf "string" ""));
    ("apiVersion", described "APIVersion defines the versioned schema of this representation of an object. Servers should convert recognized schemas to the latest internal value, and may reject unrecognized values. More info: https://git.k8s.io/community/contributors/devel/api-conventions.md#resources"
       (leaf "string" ""));
    ("reference", described "The reference to an object in the system."
       (ref_to (core "ObjectReference")))
  ] []
    [core "ObjectReference"].

Definition core_v1_Service : OpenAPIDefinition :=
  object_of "Service is a named abstraction of software service (for example, mysql) consisting of local port (for example 3306) that the proxy listens on, and the selector that determines which pods will answer requests sent through the proxy." [
    ("kind", described "Kind is a string value representing the REST resource this object represents. Servers may infer this from the endpoint the client submits requests to. Cannot be updated. In CamelCase. More info: https://git.k8s.io/community/contributors/devel/api-conventions.md#types-kinds"
       (leaf "string" ""));
    ("apiVersion", described "APIVersion defines the versioned schema of this representation of an object. Servers should convert recognized schemas to the latest internal value, and may reject unrecognized values. More info: https://git.k8s.io/community/contributors/devel/api-conventions.md#resources"
       (leaf "string" ""));
    ("metadata", described "Standard object's metadata. More info: https://git.k8s.io/community/contributors/devel/api-conventions.md#metadata"
       (ref_to (meta "ObjectMeta")));
    ("spec", described "Spec defines the behavior of a service. https://git.k8s.io/community/contributors/devel/api-conventions.md#spec-and-status"
       (ref_to (core "ServiceSpec")));
    ("status", described "Most recently observed status of the service. Populated by the system. Read-only. More info: https://git.k8s.io/community/contributors/devel/api-conventions.md#spec-and-status"
       (ref_to (core "ServiceStatus")))
  ] []
    [core "ServiceSpec"; core "ServiceStatus"; meta "ObjectMeta"].

Definition core_v1_ServiceAccount : OpenAPIDefinition :=
  object_of "ServiceAccount binds together: * a name, understood by users, and perhaps by peripheral systems, for an identity * a principal that can be authenticated and authorized * a set of secrets" [
    ("kind", described "Kind is a string value representing the REST resource this object represents. Servers may infer this from the endpoint the client submits requests to. Cannot be updated. In CamelCase. More info: https://git.k8s.io/community/contributors/devel/api-conventions.md#types-kinds"
       (leaf "string" ""));
    ("apiVersion", described "APIVersion defines the versioned schema of this representation of an object. Servers should convert recognized schemas to the latest internal value, and may reject unrecognized values. More info: https://git.k8s.io/community/contributors/devel/api-conventions.md#resources"
       (leaf "string" ""));
    ("metadata", described "Standard object's metadata. More info: https://git.k8s.io/community/contributors/devel/api-conventions.md#metadata"
       (ref_to (meta "ObjectMeta")));
    ("secrets", described "Secrets is the list of secrets allowed to be used by pods running using this ServiceAccount. More info: https://kubernetes.io/docs/concepts/configuration/secret"
       (extended [("x-kubernetes-patch-merge-key", "name"); ("x-kubernetes-patch-strategy", "merge")] (array_of (ref_to (core "ObjectReference")))));
    ("imagePullSecrets", described "ImagePullSecrets is a list of references to secrets in the same namespace to use for pulling any images in pods that reference this ServiceAccount. ImagePullSecrets are distinct from Secrets because Secrets can be mounted in the pod, but ImagePullSecrets are only accessed by the kubelet. More info: https://kubernetes.io/docs/concepts/containers/images/#specifying-imagepullsecrets-on-a-pod"
       (array_of (ref_to (core "LocalObjectReference"))));
    ("automountServiceAccountToken", described "AutomountServiceAccountToken indicates whether pods running as this service account should have an API token automatically mounted. Can be overridden at the pod level."
       (leaf "boolean" ""))
  ] []
    [core "LocalObjectReference"; core "ObjectReference"; meta "ObjectMeta"].

Definition core_v1_ServiceAccountList : OpenAPIDefinition :=
  object_of "ServiceAccountList is a list of ServiceAccount objects" [
    ("kind", described "Kind is a string value representing the REST resource this object represents. Servers may infer this from the endpoint the client submits requests to. Cannot be updated. In CamelCase. More info: https://git.k8s.io/community/contributors/devel/api-conventions.md#types-kinds"
       (leaf "string" ""));
    ("apiVersion", described "APIVersion defines the versioned schema of this representation of an object. Servers should convert recognized schemas to the latest internal value, and may reject unrecognized values. More info: https://git.k8s.io/community/contributors/devel/api-conventions.md#resources"
       (leaf "string" ""));
    ("metadata", described "Standard list metadata. More info: https://git.k8s.io/community/contributors/devel/api-conventions.md#types-kinds"
       (ref_to (meta "ListMeta")));
    ("items", described "List of ServiceAccounts. More info: https://kubernetes.io/docs/tasks/configure-pod-container/configure-service-account/"
       (array_of (ref_to (core "ServiceAccount"))))
  ] ["items"]
    [core "ServiceAccount"; meta "ListMeta"].

Definition core_v1_ServiceList : OpenAPIDefinition :=
  object_of "ServiceList holds a list of services." [
    ("kind", described "Kind is a string value representing the REST resource this object represents. Servers may infer this from the endpoint the client submits requests to. Cannot be updated. In CamelCase. More info: https://git.k8s.io/community/contributors/devel/api-conventions.md#types-kinds"
       (leaf "string" ""));
    ("apiVersion", described "APIVersion defines the versioned schema of this representation of an object. Servers should convert recognized schemas to the latest internal value, and may reject unrecognized values. More info: https://git.k8s.io/community/contributors/devel/api-conventions.md#resources"
       (leaf "string" ""));
    ("metadata", described "Standard list metadata. More info: https://git.k8s.io/community/contributors/devel/api-conventions.md#types-kinds"
       (ref_to (meta "ListMeta")));
    ("items", described "List of services"
       (array_of (ref_to (core "Service"))))
  ] ["items"]
    [core "Service"; meta "ListMeta"].

Definition core_v1_ServicePort : OpenAPIDefinition :=
  object_of "ServicePort contains information on service's port." [
    ("name", described "The name of this port within the service. This must be a DNS_LABEL. All ports within a ServiceSpec must have unique names. This maps to the 'Name' field in EndpointPort objects. Optional if only one ServicePort is defined on this service."
       (leaf "string" ""));
    ("protocol", described ("The IP protocol for this port. Supports " +:+ dq +:+ "TCP" +:+ dq +:+ " and " +:+ dq +:+ "UDP" +:+ dq +:+ ". Default is TCP.")
       (leaf "string" ""));
    ("port", described "The port that will be exposed by this service."
       (leaf "integer" "int32"));
    ("targetPort", described "Number or name of the port to access on the pods targeted by the service. Number must be in the range 1 to 65535. Name must be an IANA_SVC_NAME. If this is a string, it will be looked up as a named port in the target Pod's container ports. If this is not specified, the value of the 'port' field is used (an identity map). This field is ignored for services with clusterIP=None, and should be omitted or set equal to the 'port' field. More info: https://kubernetes.io/docs/concepts/services-networking/service/#defining-a-service"
       (ref_to (intstr "IntOrString")));
    ("nodePort", described "The port on each node on which this service is exposed when type=NodePort or LoadBalancer. Usually assigned by the system. If specified, it will be allocated to the service if unused or else creation of the service will fail. Default is to auto-allocate a port if the ServiceType of this Service requires one. More info: https://kubernetes.io/docs/concepts/services-networking/service/#type-nodeport"
       (leaf "integer" "int32"))
  ] ["port"]
    [intstr "IntOrString"].

Definition core_v1_ServiceProxyOptions : OpenAPIDefinition :=
  object_of "ServiceProxyOptions is the query options to a Service's proxy call." [
    ("kind", described "Kind is a string value representing the REST resource this object represents. Servers may infer this from the endpoint the client submits requests to. Cannot be updated. In CamelCase. More info: https://git.k8s.io/community/contributors/devel/api-conventions.md#types-kinds"
       (leaf "string" ""));
    ("apiVersion", described "APIVersion defines the versioned schema of this representation of an object. Servers should convert recognized schemas to the latest internal value, and may reject unrecognized values. More info: https://git.k8s.io/community/contributors/devel/api-conventions.md#resources"
       (leaf "string" ""));
    ("path", described "Path is the part of URLs that include service endpoints, suffixes, and parameters to use for the current proxy request to service. For example, the whole request URL is http://localhost/api/v1/namespaces/kube-system/services/elasticsearch-logging/_search?q=user:kimchy. Path is _search?q=user:kimchy."
       (leaf "string" ""))
  ] []
    [].

Definition core_v1_ServiceSpec : OpenAPIDefinition :=
  object_of "ServiceSpec describes the attributes that a user creates on a service." [
    ("ports", described "The list of ports that are exposed by this service. More info: https://kubernetes.io/docs/concepts/services-networking/service/#virtual-ips-and-service-proxies"
       (extended [("x-kubernetes-patch-merge-key", "port"); ("x-kubernetes-patch-strategy", "merge")] (array_of (ref_to (core "ServicePort")))));
    ("selector", described "Route service traffic to pods with label keys and values matching this selector. If empty or not present, the service is assumed to have an external process managing its endpoints, which Kubernetes will not modify. Only applies to types ClusterIP, NodePort, and LoadBalancer. Ignored if type is ExternalName. More info: https://kubernetes.io/docs/concepts/services-networking/service/"
       (map_of (leaf "string" "")));
    ("clusterIP", described ("clusterIP is the IP address of the service and is usually assigned randomly by the master. If an address is specified manually and is not in use by others, it will be allocated to the service; otherwise, creation of the service will fail. This field can not be changed through updates. Valid values are " +:+ dq +:+ "None" +:+ dq +:+ ", empty string (" +:+ dq +:+ dq +:+ "), or a valid IP address. " +:+ dq +:+ "None" +:+ dq +:+ " can be specified for headless services when proxying is not required. Only applies to types ClusterIP, NodePort, and LoadBalancer. Ignored if type is ExternalName. More info: https://kubernetes.io/docs/concepts/services-networking/service/#virtual-ips-and-service-proxies")
       (leaf "string" ""));
    ("type", described ("type determines how the Service is exposed. Defaults to ClusterIP. Valid options are ExternalName, ClusterIP, NodePort, and LoadBalancer. " +:+ dq +:+ "ExternalName" +:+ dq +:+ " maps to the specified externalName. " +:+ dq +:+ "ClusterIP" +:+ dq +:+ " allocates a cluster-internal IP address for load-balancing to endpoints. Endpoints are determined by the selector or if that is not specified, by manual construction of an Endpoints object. If clusterIP is " +:+ dq +:+ "None" +:+ dq +:+ ", no virtual IP is allocated and the endpoints are published as a set of endpoints rather than a stable IP. " +:+ dq +:+ "NodePort" +:+ dq +:+ " builds on ClusterIP and allocates a port on every node which routes to the clusterIP. " +:+ dq +:+ "LoadBalancer" +:+ dq +:+ " builds on NodePort and creates an external load-balancer (if supported in the current cloud) which routes to the clusterIP. More info: https://kubernetes.io/docs/concepts/services-networking/service/#publishing-services---service-types")
       (leaf "string" ""));
    ("externalIPs", described "externalIPs is a list of IP addresses for which nodes in the cluster will also accept traffic for this service.  These IPs are not managed by Kubernetes.  The user is responsible for ensuring that traffic arrives at a node with this IP.  A common example is external load-balancers that are not part of the Kubernetes system."
       (array_of (leaf "string" "")));
    ("sessionAffinity", described ("Supports " +:+ dq +:+ "ClientIP" +:+ dq +:+ " and " +:+ dq +:+ "None" +:+ dq +:+ ". Used to maintain session affinity. Enable client IP based session affinity. Must be ClientIP or None. Defaults to None. More info: https://kubernetes.io/docs/concepts/services-networking/service/#virtual-ips-and-service-proxies")
       (leaf "string" ""));
    ("loadBalancerIP", described "Only applies to Service Type: LoadBalancer LoadBalancer will get created with the IP specified in this field. This feature depends on whether the underlying cloud-provider supports specifying the loadBalancerIP when a load balancer is created. This field will be ignored if the cloud-provider does not support the feature."
       (leaf "string" ""));
    ("loadBalancerSourceRanges", described ("If specified and supported by the platform, this will restrict traffic through the cloud-provider load-balancer will be restricted to the specified client IPs. This field will be ignored if the cloud-provider does not support the feature." +:+ dq +:+ " More info: https://kubernetes.io/docs/tasks/access-application-cluster/configure-cloud-provider-firewall/")
       (array_of (leaf "string" "")));
    ("externalName", described "externalName is the external reference that kubedns or equivalent will return as a CNAME record for this service. No proxying will be involved. Must be a valid RFC-1123 hostname (https://tools.ietf.org/html/rfc1123) and requires Type to be ExternalName."
       (leaf "string" ""));
    ("externalTrafficPolicy", described ("externalTrafficPolicy denotes if this Service desires to route external traffic to node-local or cluster-wide endpoints. " +:+ dq +:+ "Local" +:+ dq +:+ " preserves the client source IP and avoids a second hop for LoadBalancer and Nodeport type services, but risks potentially imbalanced traffic spreading. " +:+ dq +:+ "Cluster" +:+ dq +:+ " obscures the client source IP and may cause a second hop to another node, but should have good overall load-spreading.")
       (leaf "string" ""));
    ("healthCheckNodePort", described "healthCheckNodePort specifies the healthcheck nodePort for the service. If not specified, HealthCheckNodePort is created by the service api backend with the allocated nodePort. Will use user-specified nodePort value if specified by the client. Only effects when Type is set to LoadBalancer and ExternalTrafficPolicy is set to Local."
       (leaf "integer" "int32"));
    ("publishNotReadyAddresses", described "publishNotReadyAddresses, when set to true, indicates that DNS implementations must publish the notReadyAddresses of subsets for the Endpoints associated with the Service. The default value is false. The primary use case for setting this field is to use a StatefulSet's Headless Service to propagate SRV records for its Pods without respect to their readiness for purpose of peer discovery. This field will replace the service.alpha.kubernetes.io/tolerate-unready-endpoints when that annotation is deprecated and all clients have been converted to use this field."
       (leaf "boolean" ""));
    ("sessionAffinityConfig", described "sessionAffinityConfig contains the configurations of session affinity."
       (ref_to (core "SessionAffinityConfig")))
  ] []
    [core "ServicePort"; core "SessionAffinityConfig"].

Definition core_v1_ServiceStatus : OpenAPIDefinition :=
  object_of "ServiceStatus represents the current status of a service." [
    ("loadBalancer", described "LoadBalancer contains the current status of the load-balancer, if one is present."
       (ref_to (core "LoadBalancerStatus")))
  ] []
    [core "LoadBalancerStatus"].

Definition core_v1_SessionAffinityConfig : OpenAPIDefinition :=
  object_of "SessionAffinityConfig represents the configurations of session affinity." [
    ("clientIP", described "clientIP contains the configurations of Client IP based session affinity."
       (ref_to (core "ClientIPConfig")))
  ] []
    [core "ClientIPConfig"].

Definition core_v1_StorageOSPersistentVolumeSource : OpenAPIDefinition :=
  object_of "Represents a StorageOS persistent volume resource." [
    ("volumeName", described "VolumeName is the human-readable name of the StorageOS volume.  Volume names are only unique within a namespace."
       (leaf "string" ""));
    ("volumeNamespace", described ("VolumeNamespace specifies the scope of the volume within StorageOS.  If no namespace is specified then the Pod's namespace will be used.  This allows the Kubernetes name scoping to be mirrored within StorageOS for tighter integration. Set VolumeName to any name to override the default behaviour. Set to " +:+ dq +:+ "default" +:+ dq +:+ " if you are not using namespaces within StorageOS. Namespaces that do not pre-exist within StorageOS will be created.")
       (leaf "string" ""));
    ("fsType", described ("Filesystem type to mount. Must be a filesystem type supported by the host operating system. Ex. " +:+ dq +:+ "ext4" +:+ dq +:+ ", " +:+ dq +:+ "xfs" +:+ dq +:+ ", " +:+ dq +:+ "ntfs" +:+ dq +:+ ". Implicitly inferred to be " +:+ dq +:+ "ext4" +:+ dq +:+ " if unspecified.")
       (leaf "string" ""));
    ("readOnly", described "Defaults to false (read/write). ReadOnly here will force the ReadOnly setting in VolumeMounts."
       (leaf "boolean" ""));
    ("secretRef", described "SecretRef specifies the secret to use for obtaining the StorageOS API credentials.  If not specified, default values will be attempted."
       (ref_to (core "ObjectReference")))
  ] []
    [core "ObjectReference"].

Definition core_v1_StorageOSVolumeSource : OpenAPIDefinition :=
  object_of "Represents a StorageOS persistent volume resource." [
    ("volumeName", described "VolumeName is the human-readable name of the StorageOS volume.  Volume names are only unique within a namespace."
       (leaf "string" ""));
    ("volumeNamespace", described ("VolumeNamespace specifies the scope of the volume within StorageOS.  If no namespace is specified then the Pod's namespace will be used.  This allows the Kubernetes name scoping to be mirrored within StorageOS for tighter integration. Set VolumeName to any name to override the default behaviour. Set to " +:+ dq +:+ "default" +:+ dq +:+ " if you are not using namespaces within StorageOS. Namespaces that do not pre-exist within StorageOS will be created.")
       (leaf "string" ""));
    ("fsType", described ("Filesystem type to mount. Must be a filesystem type supported by the host operating system. Ex. " +:+ dq +:+ "ext4" +:+ dq +:+ ", " +:+ dq +:+ "xfs" +:+ dq +:+ ", " +:+ dq +:+ "ntfs" +:+ dq +:+ ". Implicitly inferred to be " +:+ dq +:+ "ext4" +:+ dq +:+ " if unspecified.")
       (leaf "string" ""));
    ("readOnly", described "Defaults to false (read/write). ReadOnly here will force the ReadOnly setting in VolumeMounts."
       (leaf "boolean" ""));
    ("secretRef", described "SecretRef specifies the secret to use for obtaining the StorageOS API credentials.  If not specified, default values will be attempted."
       (ref_to (core "LocalObjectReference")))
  ] []
    [core "LocalObjectReference"].

Definition core_v1_Sysctl : OpenAPIDefinition :=
  object_of "Sysctl defines a kernel parameter to be set" [
    ("Name", described "Name of a property to set"
       (leaf "string" ""));
    ("Value", described "Value of a property to set"
       (leaf "string" ""))
  ] ["Name"; "Value"]
    [].

Definition core_v1_TCPSocketAction : OpenAPIDefinition :=
  object_of "TCPSocketAction describes an action based on opening a socket" [
    ("port", described "Number or name of the port to access on the container. Number must be in the range 1 to 65535. Name must be an IANA_SVC_NAME."
       (ref_to (intstr "IntOrString")));
    ("host", described "Optional: Host name to connect to, defaults to the pod IP."
       (leaf "string" ""))
  ] ["port"]
    [intstr "IntOrString"].

Definition core_v1_Taint : OpenAPIDefinition :=
  object_of ("The node this Taint is attached to has the " +:+ dq +:+ "effect" +:+ dq +:+ " on any pod that does not tolerate the Taint.") [
    ("key", described "Required. The taint key to be applied to a node."
       (leaf "string" ""));
    ("value", described "Required. The taint value corresponding to the taint key."
       (leaf "string" ""));
    ("effect", described "Required. The effect of the taint on pods that do not tolerate the taint. Valid effects are NoSchedule, PreferNoSchedule and NoExecute."
       (leaf "string" ""));
    ("timeAdded", described "TimeAdded represents the time at which the taint was added. It is only written for NoExecute taints."
       (ref_to (meta "Time")))
  ] ["key"; "effect"]
    [meta "Time"].

Definition core_v1_Toleration : OpenAPIDefinition :=
  object_of "The pod this Toleration is attached to tolerates any taint that matches the triple <key,value,effect> using the matching operator <operator>." [
    ("key", described "Key is the taint key that the toleration applies to. Empty means match all taint keys. If the key is empty, operator must be Exists; this combination means to match all values and all keys."
       (leaf "string" ""));
    ("operator", described "Operator represents a key's relationship to the value. Valid operators are Exists and Equal. Defaults to Equal. Exists is equivalent to wildcard for value, so that a pod can tolerate all taints of a particular category."
       (leaf "string" ""));
    ("value", described "Value is the taint value the toleration matches to. If the operator is Exists, the value should be empty, otherwise just a regular string."
       (leaf "string" ""));
    ("effect", described "Effect indicates the taint effect to match. Empty means match all taint effects. When specified, allowed values are NoSchedule, PreferNoSchedule and NoExecute."
       (leaf "string" ""));
    ("tolerationSeconds", described "TolerationSeconds represents the period of time the toleration (which must be of effect NoExecute, otherwise this field is ignored) tolerates the taint. By default, it is not set, which means tolerate the taint forever (do not evict). Zero and negative values will be treated as 0 (evict immediately) by the system."
       (leaf "integer" "int64"))
  ] []
    [].

Definition core_v1_Volume : OpenAPIDefinition :=
  object_of "Volume represents a named volume in a pod that may be accessed by any container in the pod." [
    ("name", described "Volume's name. Must be a DNS_LABEL and unique within the pod. More info: https://kubernetes.io/docs/concepts/overview/working-with-objects/names/#names"
       (leaf "string" ""));
    ("hostPath", described "HostPath represents a pre-existing file or directory on the host machine that is directly exposed to the container. This is generally used for system agents or other privileged things that are allowed to see the host machine. Most containers will NOT need this. More info: https://kubernetes.io/docs/concepts/storage/volumes#hostpath"
       (ref_to (core "HostPathVolumeSource")));
    ("emptyDir", described "EmptyDir represents a temporary directory that shares a pod's lifetime. More info: https://kubernetes.io/docs/concepts/storage/volumes#emptydir"
       (ref_to (core "EmptyDirVolumeSource")));
    ("gcePersistentDisk", described "GCEPersistentDisk represents a GCE Disk resource that is attached to a kubelet's host machine and then exposed to the pod. More info: https://kubernetes.io/docs/concepts/storage/volumes#gcepersistentdisk"
       (ref_to (core "GCEPersistentDiskVolumeSource")));
    ("awsElasticBlockStore", described "AWSElasticBlockStore represents an AWS Disk resource that is attached to a kubelet's host machine and then exposed to the pod. More info: https://kubernetes.io/docs/concepts/storage/volumes#awselasticblockstore"
       (ref_to (core "AWSElasticBlockStoreVolumeSource")));
    ("gitRepo", described "GitRepo represents a git repository at a particular revision."
       (ref_to (core "GitRepoVolumeSource")));
    ("secret", described "Secret represents a secret that should populate this volume. More info: https://kubernetes.io/docs/concepts/storage/volumes#secret"
       (ref_to (core "SecretVolumeSource")));
    ("nfs", described "NFS represents an NFS mount on the host that shares a pod's lifetime More info: https://kubernetes.io/docs/concepts/storage/volumes#nfs"
       (ref_to (core "NFSVolumeSource")));
    ("iscsi", described "ISCSI represents an ISCSI Disk resource that is attached to a kubelet's host machine and then exposed to the pod. More info: https://releases.k8s.io/HEAD/examples/volumes/iscsi/README.md"
       (ref_to (core "ISCSIVolumeSource")));
    ("glusterfs", described "Glusterfs represents a Glusterfs mount on the host that shares a pod's lifetime. More info: https://releases.k8s.io/HEAD/examples/volumes/glusterfs/README.md"
       (ref_to (core "GlusterfsVolumeSource")));
    ("persistentVolumeClaim", described "PersistentVolumeClaimVolumeSource represents a reference to a PersistentVolumeClaim in the same namespace. More info: https://kubernetes.io/docs/concepts/storage/persistent-volumes#persistentvolumeclaims"
       (ref_to (core "PersistentVolumeClaimVolumeSource")));
    ("rbd", described "RBD represents a Rados Block Device mount on the host that shares a pod's lifetime. More info: https://releases.k8s.io/HEAD/examples/volumes/rbd/README.md"
       (ref_to (core "RBDVolumeSource")));
    ("flexVolume", described "FlexVolume represents a generic volume resource that is provisioned/attached using an exec based plugin."
       (ref_to (core "FlexVolumeSource")));
    ("cinder", described "Cinder represents a cinder volume attached and mounted on kubelets host machine More info: https://releases.k8s.io/HEAD/examples/mysql-cinder-pd/README.md"
       (ref_to (core "CinderVolumeSource")));
    ("cephfs", described "CephFS represents a Ceph FS mount on the host that shares a pod's lifetime"
       (ref_to (core "CephFSVolumeSource")));
    ("flocker", described "Flocker represents a Flocker volume attached to a kubelet's host machine. This depends on the Flocker control service being running"
       (ref_to (core "FlockerVolumeSource")));
    ("downwardAPI", described "DownwardAPI represents downward API about the pod that should populate this volume"
       (ref_to (core "DownwardAPIVolumeSource")));
    ("fc", described "FC represents a Fibre Channel resource that is attached to a kubelet's host machine and then exposed to the pod."
       (ref_to (core "FCVolumeSource")));
    ("azureFile", described "AzureFile represents an Azure File Service mount on the host and bind mount to the pod."
       (ref_to (core "AzureFileVolumeSource")));
    ("configMap", described "ConfigMap represents a configMap that should populate this volume"
       (ref_to (core "ConfigMapVolumeSource")));
    ("vsphereVolume", described "VsphereVolume represents a vSphere volume attached and mounted on kubelets host machine"
       (ref_to (core "VsphereVirtualDiskVolumeSource")));
    ("quobyte", described "Quobyte represents a Quobyte mount on the host that shares a pod's lifetime"
       (ref_to (core "QuobyteVolumeSource")));
    ("azureDisk", described "AzureDisk represents an Azure Data Disk mount on the host and bind mount to the pod."
       (ref_to (core "AzureDiskVolumeSource")));
    ("photonPersistentDisk", described "PhotonPersistentDisk represents a PhotonController persistent disk attached and mounted on kubelets host machine"
       (ref_to (core "PhotonPersistentDiskVolumeSource")));
    ("projected", described "Items for all in one resources secrets, configmaps, and downward API"
       (ref_to (core "ProjectedVolumeSource")));
    ("portworxVolume", described "PortworxVolume represents a portworx volume attached and mounted on kubelets host machine"
       (ref_to (core "PortworxVolumeSource")));
    ("scaleIO", described "ScaleIO represents a ScaleIO persistent volume attached and mounted on Kubernetes nodes."
       (ref_to (core "ScaleIOVolumeSource")));
    ("storageos", described "StorageOS represents a StorageOS volume attached and mounted on Kubernetes nodes."
       (ref_to (core "StorageOSVolumeSource")))
  ] ["name"]
    [core "AWSElasticBlockStoreVolumeSource"; core "AzureDiskVolumeSource";
     core "AzureFileVolumeSource"; core "CephFSVolumeSource"; core "CinderVolumeSource";
     core "ConfigMapVolumeSource"; core "DownwardAPIVolumeSource"; core "EmptyDirVolumeSource";
     core "FCVolumeSource"; core "FlexVolumeSource"; core "FlockerVolumeSource";
     core "GCEPersistentDiskVolumeSource"; core "GitRepoVolumeSource";
     core "GlusterfsVolumeSource"; core "HostPathVolumeSource"; core "ISCSIVolumeSource";
     core "NFSVolumeSource"; core "PersistentVolumeClaimVolumeSource";
     core "PhotonPersistentDiskVolumeSource"; core "PortworxVolumeSource";
     core "ProjectedVolumeSource"; core "QuobyteVolumeSource"; core "RBDVolumeSource";
     core "ScaleIOVolumeSource"; core "SecretVolumeSource"; core "StorageOSVolumeSource";
     core "VsphereVirtualDiskVolumeSource"].

Definition core_v1_VolumeDevice : OpenAPIDefinition :=
  object_of "volumeDevice describes a mapping of a raw block device within a container." [
    ("name", described "name must match the name of a persistentVolumeClaim in the pod"
       (leaf "string" ""));
    ("devicePath", described "devicePath is the path inside of the container that the device will be mapped to."
       (leaf "string" ""))
  ] ["name"; "devicePath"]
    [].

Definition core_v1_VolumeMount : OpenAPIDefinition :=
  object_of "VolumeMount describes a mounting of a Volume within a container." [
    ("name", described "This must match the Name of a Volume."
       (leaf "string" ""));
    ("readOnly", described "Mounted read-only if true, read-write otherwise (false or unspecified). Defaults to false."
       (leaf "boolean" ""));
    ("mountPath", described "Path within the container at which the volume should be mounted.  Must not contain ':'."
       (leaf "string" ""));
    ("subPath", described ("Path within the volume from which the container's volume should be mounted. Defaults to " +:+ dq +:+ dq +:+ " (volume's root).")
       (leaf "string" ""));
    ("mountPropagation", described "mountPropagation determines how mounts are propagated from the host to container and the other way around. When not set, MountPropagationHostToContainer is used. This field is alpha in 1.8 and can be reworked or removed in a future release."
       (leaf "string" ""))
  ] ["name"; "mountPath"]
    [].

Definition core_v1_VolumeProjection : OpenAPIDefinition :=
  object_of "Projection that may be projected along with other supported volume types" [
    ("secret", described "information about the secret data to project"
       (ref_to (core "SecretProjection")));
    ("downwardAPI", described "information about the downwardAPI data to project"
       (ref_to (core "DownwardAPIProjection")));
    ("configMap", described "information about the configMap data to project"
       (ref_to (core "ConfigMapProjection")))
  ] []
    [core "ConfigMapProjection"; core "DownwardAPIProjection"; core "SecretProjection"].

Definition core_v1_VolumeSource : OpenAPIDefinition :=
  object_of "Represents the source of a volume to mount. Only one of its members may be specified." [
    ("hostPath", described "HostPath represents a pre-existing file or directory on the host machine that is directly exposed to the container. This is generally used for system agents or other privileged things that are allowed to see the host machine. Most containers will NOT need this. More info: https://kubernetes.io/docs/concepts/storage/volumes#hostpath"
       (ref_to (core "HostPathVolumeSource")));
    ("emptyDir", described "EmptyDir represents a temporary directory that shares a pod's lifetime. More info: https://kubernetes.io/docs/concepts/storage/volumes#emptydir"
       (ref_to (core "EmptyDirVolumeSource")));
    ("gcePersistentDisk", described "GCEPersistentDisk represents a GCE Disk resource that is attached to a kubelet's host machine and then exposed to the pod. More info: https://kubernetes.io/docs/concepts/storage/volumes#gcepersistentdisk"
       (ref_to (core "GCEPersistentDiskVolumeSource")));
    ("awsElasticBlockStore", described "AWSElasticBlockStore represents an AWS Disk resource that is attached to a kubelet's host machine and then exposed to the pod. More info: https://kubernetes.io/docs/concepts/storage/volumes#awselasticblockstore"
       (ref_to (core "AWSElasticBlockStoreVolumeSource")));
    ("gitRepo", described "GitRepo represents a git repository at a particular revision."
       (ref_to (core "GitRepoVolumeSource")));
    ("secret", described "Secret represents a secret that should populate this volume. More info: https://kubernetes.io/docs/concepts/storage/volumes#secret"
       (ref_to (core "SecretVolumeSource")));
    ("nfs", described "NFS represents an NFS mount on the host that shares a pod's lifetime More info: https://kubernetes.io/docs/concepts/storage/volumes#nfs"
       (ref_to (core "NFSVolumeSource")));
    ("iscsi", described "ISCSI represents an ISCSI Disk resource that is attached to a kubelet's host machine and then exposed to the pod. More info: https://releases.k8s.io/HEAD/examples/volumes/iscsi/README.md"
       (ref_to (core "ISCSIVolumeSource")));
    ("glusterfs", described "Glusterfs represents a Glusterfs mount on the host that shares a pod's lifetime. More info: https://releases.k8s.io/HEAD/examples/volumes/glusterfs/README.md"
       (ref_to (core "GlusterfsVolumeSource")));
    ("persistentVolumeClaim", described "PersistentVolumeClaimVolumeSource represents a reference to a PersistentVolumeClaim in the same namespace. More info: https://kubernetes.io/docs/concepts/storage/persistent-volumes#persistentvolumeclaims"
       (ref_to (core "PersistentVolumeClaimVolumeSource")));
    ("rbd", described "RBD represents a Rados Block Device mount on the host that shares a pod's lifetime. More info: https://releases.k8s.io/HEAD/examples/volumes/rbd/README.md"
       (ref_to (core "RBDVolumeSource")));
    ("flexVolume", described "FlexVolume represents a generic volume resource that is provisioned/attached using an exec based plugin."
       (ref_to (core "FlexVolumeSource")));
    ("cinder", described "Cinder represents a cinder volume attached and mounted on kubelets host machine More info: https://releases.k8s.io/HEAD/examples/mysql-cinder-pd/README.md"
       (ref_to (core "CinderVolumeSource")));
    ("cephfs", described "CephFS represents a Ceph FS mount on the host that shares a pod's lifetime"
       (ref_to (core "CephFSVolumeSource")));
    ("flocker", described "Flocker represents a Flocker volume attached to a kubelet's host machine. This depends on the Flocker control service being running"
       (ref_to (core "FlockerVolumeSource")));
    ("downwardAPI", described "DownwardAPI represents downward API about the pod that should populate this volume"
       (ref_to (core "DownwardAPIVolumeSource")));
    ("fc", described "FC represents a Fibre Channel resource that is attached to a kubelet's host machine and then exposed to the pod."
       (ref_to (core "FCVolumeSource")));
    ("azureFile", described "AzureFile represents an Azure File Service mount on the host and bind mount to the pod."
       (ref_to (core "AzureFileVolumeSource")));
    ("configMap", described "ConfigMap represents a configMap that should populate this volume"
       (ref_to (core "ConfigMapVolumeSource")));
    ("vsphereVolume", described "VsphereVolume represents a vSphere volume attached and mounted on kubelets host machine"
       (ref_to (core "VsphereVirtualDiskVolumeSource")));
    ("quobyte", described "Quobyte represents a Quobyte mount on the host that shares a pod's lifetime"
       (ref_to (core "QuobyteVolumeSource")));
    ("azureDisk", described "AzureDisk represents an Azure Data Disk mount on the host and bind mount to the pod."
       (ref_to (core "AzureDiskVolumeSource")));
    ("photonPersistentDisk", described "PhotonPersistentDisk represents a PhotonController persistent disk attached and mounted on kubelets host machine"
       (ref_to (core "PhotonPersistentDiskVolumeSource")));
    ("projected", described "Items for all in one resources secrets, configmaps, and downward API"
       (ref_to (core "ProjectedVolumeSource")));
    ("portworxVolume", described "PortworxVolume represents a portworx volume attached and mounted on kubelets host machine"
       (ref_to (core "PortworxVolumeSource")));
    ("scaleIO", described "ScaleIO represents a ScaleIO persistent volume attached and mounted on Kubernetes nodes."
       (ref_to (core "ScaleIOVolumeSource")));
    ("storageos", described "StorageOS represents a StorageOS volume attached and mounted on Kubernetes nodes."
       (ref_to (core "StorageOSVolumeSource")))
  ] []
    [core "AWSElasticBlockStoreVolumeSource"; core "AzureDiskVolumeSource";
     core "AzureFileVolumeSource"; core "CephFSVolumeSource"; core "CinderVolumeSource";
     core "ConfigMapVolumeSource"; core "DownwardAPIVolumeSource"; core "EmptyDirVolumeSource";
     core "FCVolumeSource"; core "FlexVolumeSource"; core "FlockerVolumeSource";
     core "GCEPersistentDiskVolumeSource"; core "GitRepoVolumeSource";
     core "GlusterfsVolumeSource"; core "HostPathVolumeSource"; core "ISCSIVolumeSource";
     core "NFSVolumeSource"; core "PersistentVolumeClaimVolumeSource";
     core "PhotonPersistentDiskVolumeSource"; core "PortworxVolumeSource";
     core "ProjectedVolumeSource"; core "QuobyteVolumeSource"; core "RBDVolumeSource";
     core "ScaleIOVolumeSource"; core "SecretVolumeSource"; core "StorageOSVolumeSource";
     core "VsphereVirtualDiskVolumeSource"].

Definition core_v1_VsphereVirtualDiskVolumeSource : OpenAPIDefinition :=
  object_of "Represents a vSphere volume resource." [
    ("volumePath", described "Path that identifies vSphere volume vmdk"
       (leaf "string" ""));
    ("fsType", described ("Filesystem type to mount. Must be a filesystem type supported by the host operating system. Ex. " +:+ dq +:+ "ext4" +:+ dq +:+ ", " +:+ dq +:+ "xfs" +:+ dq +:+ ", " +:+ dq +:+ "ntfs" +:+ dq +:+ ". Implicitly inferred to be " +:+ dq +:+ "ext4" +:+ dq +:+ " if unspecified.")
       (leaf "string" ""));
    ("storagePolicyName", described "Storage Policy Based Management (SPBM) profile name."
       (leaf "string" ""));
    ("storagePolicyID", described "Storage Policy Based Management (SPBM) profile ID associated with the StoragePolicyName."
       (leaf "string" ""))
  ] ["volumePath"]
    [].

Definition core_v1_WeightedPodAffinityTerm : OpenAPIDefinition :=
  object_of "The weights of all of the matched WeightedPodAffinityTerm fields are added per-node to find the most preferred node(s)" [
    ("weight", described "weight associated with matching the corresponding podAffinityTerm, in the range 1-100."
       (leaf "integer" "int32"));
    ("podAffinityTerm", described "Required. A pod affinity term, associated with the corresponding weight."
       (ref_to (core "PodAffinityTerm")))
  ] ["weight"; "podAffinityTerm"]
    [core "PodAffinityTerm"].
