(* ===== verification/CrdValidation.v ===== *)
(** * The CRD validation generated from the OpenAPI definitions

    The whole map of pkg/apis/ava/v1alpha1/openapi_generated.go, the conversion of ant31/crd-validation
    (fixKnownTypes, SchemaPropsToJSONProps, GetCustomResourceValidation) and cmd/crd-validation/main.go,
    which puts the validation of MXJob into the CRD template.

    The conversion follows references through the map; Go's recursion is a fixpoint on fuel, and
    [GetCustomResourceValidation_correct] shows that it ends for every name of the map. *)
From S2P Require Import Prelude OpenAPI OpenAPIAva OpenAPIMeta OpenAPICoreA OpenAPICoreB.

(** ** The map of the definitions *)
Definition definitions : list (string * OpenAPIDefinition) := [
  (ava "MXJob", ava_v1alpha1_MXJob);
  (ava "MXJobCondition", ava_v1alpha1_MXJobCondition);
  (ava "MXJobList", ava_v1alpha1_MXJobList);
  (ava "MXJobSpec", ava_v1alpha1_MXJobSpec);
  (ava "MXJobStatus", ava_v1alpha1_MXJobStatus);
  (ava "MXReplicaSpec", ava_v1alpha1_MXReplicaSpec);
  (ava "MXReplicaSpecs", ava_v1alpha1_MXReplicaSpecs);
  (ava "MXReplicaStatus", ava_v1alpha1_MXReplicaStatus);
  (ava "MXReplicaStatuses", ava_v1alpha1_MXReplicaStatuses);
  (core "AWSElasticBlockStoreVolumeSource", core_v1_AWSElasticBlockStoreVolumeSource);
  (core "Affinity", core_v1_Affinity);
  (core "AttachedVolume", core_v1_AttachedVolume);
  (core "AvoidPods", core_v1_AvoidPods);
  (core "AzureDiskVolumeSource", core_v1_AzureDiskVolumeSource);
  (core "AzureFilePersistentVolumeSource", core_v1_AzureFilePersistentVolumeSource);
  (core "AzureFileVolumeSource", core_v1_AzureFileVolumeSource);
  (core "Binding", core_v1_Binding);
  (core "CSIPersistentVolumeSource", core_v1_CSIPersistentVolumeSource);
  (core "Capabilities", core_v1_Capabilities);
  (core "CephFSPersistentVolumeSource", core_v1_CephFSPersistentVolumeSource);
  (core "CephFSVolumeSource", core_v1_CephFSVolumeSource);
  (core "CinderVolumeSource", core_v1_CinderVolumeSource);
  (core "ClientIPConfig", core_v1_ClientIPConfig);
  (core "ComponentCondition", core_v1_ComponentCondition);
  (core "ComponentStatus", core_v1_ComponentStatus);
  (core "ComponentStatusList", core_v1_ComponentStatusList);
  (core "ConfigMap", core_v1_ConfigMap);
  (core "ConfigMapEnvSource", core_v1_ConfigMapEnvSource);
  (core "ConfigMapKeySelector", core_v1_ConfigMapKeySelector);
  (core "ConfigMapList", core_v1_ConfigMapList);
  (core "ConfigMapProjection", core_v1_ConfigMapProjection);
  (core "ConfigMapVolumeSource", core_v1_ConfigMapVolumeSource);
  (core "Container", core_v1_Container);
  (core "ContainerImage", core_v1_ContainerImage);
  (core "ContainerPort", core_v1_ContainerPort);
  (core "ContainerState", core_v1_ContainerState);
  (core "ContainerStateRunning", core_v1_ContainerStateRunning);
  (core "ContainerStateTerminated", core_v1_ContainerStateTerminated);
  (core "ContainerStateWaiting", core_v1_ContainerStateWaiting);
  (core "ContainerStatus", core_v1_ContainerStatus);
  (core "DaemonEndpoint", core_v1_DaemonEndpoint);
  (core "DownwardAPIProjection", core_v1_DownwardAPIProjection);
  (core "DownwardAPIVolumeFile", core_v1_DownwardAPIVolumeFile);
  (core "DownwardAPIVolumeSource", core_v1_DownwardAPIVolumeSource);
  (core "EmptyDirVolumeSource", core_v1_EmptyDirVolumeSource);
  (core "EndpointAddress", core_v1_EndpointAddress);
  (core "EndpointPort", core_v1_EndpointPort);
  (core "EndpointSubset", core_v1_EndpointSubset);
  (core "Endpoints", core_v1_Endpoints);
  (core "EndpointsList", core_v1_EndpointsList);
  (core "EnvFromSource", core_v1_EnvFromSource);
  (core "EnvVar", core_v1_EnvVar);
  (core "EnvVarSource", core_v1_EnvVarSource);
  (core "Event", core_v1_Event);
  (core "EventList", core_v1_EventList);
  (core "EventSeries", core_v1_EventSeries);
  (core "EventSource", core_v1_EventSource);
  (core "ExecAction", core_v1_ExecAction);
  (core "FCVolumeSource", core_v1_FCVolumeSource);
  (core "FlexVolumeSource", core_v1_FlexVolumeSource);
  (core "FlockerVolumeSource", core_v1_FlockerVolumeSource);
  (core "GCEPersistentDiskVolumeSource", core_v1_GCEPersistentDiskVolumeSource);
  (core "GitRepoVolumeSource", core_v1_GitRepoVolumeSource);
  (core "GlusterfsVolumeSource", core_v1_GlusterfsVolumeSource);
  (core "HTTPGetAction", core_v1_HTTPGetAction);
  (core "HTTPHeader", core_v1_HTTPHeader);
  (core "Handler", core_v1_Handler);
  (core "HostAlias", core_v1_HostAlias);
  (core "HostPathVolumeSource", core_v1_HostPathVolumeSource);
  (core "ISCSIPersistentVolumeSource", core_v1_ISCSIPersistentVolumeSource);
  (core "ISCSIVolumeSource", core_v1_ISCSIVolumeSource);
  (core "KeyToPath", core_v1_KeyToPath);
  (core "Lifecycle", core_v1_Lifecycle);
  (core "LimitRange", core_v1_LimitRange);
  (core "LimitRangeItem", core_v1_LimitRangeItem);
  (core "LimitRangeList", core_v1_LimitRangeList);
  (core "LimitRangeSpec", core_v1_LimitRangeSpec);
  (core "List", core_v1_List);
  (core "LoadBalancerIngress", core_v1_LoadBalancerIngress);
  (core "LoadBalancerStatus", core_v1_LoadBalancerStatus);
  (core "LocalObjectReference", core_v1_LocalObjectReference);
  (core "LocalVolumeSource", core_v1_LocalVolumeSource);
  (core "NFSVolumeSource", core_v1_NFSVolumeSource);
  (core "Namespace", core_v1_Namespace);
  (core "NamespaceList", core_v1_NamespaceList);
  (core "NamespaceSpec", core_v1_NamespaceSpec);
  (core "NamespaceStatus", core_v1_NamespaceStatus);
  (core "Node", core_v1_Node);
  (core "NodeAddress", core_v1_NodeAddress);
  (core "NodeAffinity", core_v1_NodeAffinity);
  (core "NodeCondition", core_v1_NodeCondition);
  (core "NodeConfigSource", core_v1_NodeConfigSource);
  (core "NodeDaemonEndpoints", core_v1_NodeDaemonEndpoints);
  (core "NodeList", core_v1_NodeList);
  (core "NodeProxyOptions", core_v1_NodeProxyOptions);
  (core "NodeResources", core_v1_NodeResources);
  (core "NodeSelector", core_v1_NodeSelector);
  (core "NodeSelectorRequirement", core_v1_NodeSelectorRequirement);
  (core "NodeSelectorTerm", core_v1_NodeSelectorTerm);
  (core "NodeSpec", core_v1_NodeSpec);
  (core "NodeStatus", core_v1_NodeStatus);
  (core "NodeSystemInfo", core_v1_NodeSystemInfo);
  (core "ObjectFieldSelector", core_v1_ObjectFieldSelector);
  (core "ObjectReference", core_v1_ObjectReference);
  (core "PersistentVolume", core_v1_PersistentVolume);
  (core "PersistentVolumeClaim", core_v1_PersistentVolumeClaim);
  (core "PersistentVolumeClaimCondition", core_v1_PersistentVolumeClaimCondition);
  (core "PersistentVolumeClaimList", core_v1_PersistentVolumeClaimList);
  (core "PersistentVolumeClaimSpec", core_v1_PersistentVolumeClaimSpec);
  (core "PersistentVolumeClaimStatus", core_v1_PersistentVolumeClaimStatus);
  (core "PersistentVolumeClaimVolumeSource", core_v1_PersistentVolumeClaimVolumeSource);
  (core "PersistentVolumeList", core_v1_PersistentVolumeList);
  (core "PersistentVolumeSource", core_v1_PersistentVolumeSource);
  (core "PersistentVolumeSpec", core_v1_PersistentVolumeSpec);
  (core "PersistentVolumeStatus", core_v1_PersistentVolumeStatus);
  (core "PhotonPersistentDiskVolumeSource", core_v1_PhotonPersistentDiskVolumeSource);
  (core "Pod", core_v1_Pod);
  (core "PodAffinity", core_v1_PodAffinity);
  (core "PodAffinityTerm", core_v1_PodAffinityTerm);
  (core "PodAntiAffinity", core_v1_PodAntiAffinity);
  (core "PodAttachOptions", core_v1_PodAttachOptions);
  (core "PodCondition", core_v1_PodCondition);
  (core "PodDNSConfig", core_v1_PodDNSConfig);
  (core "PodDNSConfigOption", core_v1_PodDNSConfigOption);
  (core "PodExecOptions", core_v1_PodExecOptions);
  (core "PodList", core_v1_PodList);
  (core "PodLogOptions", core_v1_PodLogOptions);
  (core "PodPortForwardOptions", core_v1_PodPortForwardOptions);
  (core "PodProxyOptions", core_v1_PodProxyOptions);
  (core "PodSecurityContext", core_v1_PodSecurityContext);
  (core "PodSignature", core_v1_PodSignature);
  (core "PodSpec", core_v1_PodSpec);
  (core "PodStatus", core_v1_PodStatus);
  (core "PodStatusResult", core_v1_PodStatusResult);
  (core "PodTemplate", core_v1_PodTemplate);
  (core "PodTemplateList", core_v1_PodTemplateList);
  (core "PodTemplateSpec", core_v1_PodTemplateSpec);
  (core "PortworxVolumeSource", core_v1_PortworxVolumeSource);
  (core "PreferAvoidPodsEntry", core_v1_PreferAvoidPodsEntry);
  (core "PreferredSchedulingTerm", core_v1_PreferredSchedulingTerm);
  (core "Probe", core_v1_Probe);
  (core "ProjectedVolumeSource", core_v1_ProjectedVolumeSource);
  (core "QuobyteVolumeSource", core_v1_QuobyteVolumeSource);
  (core "RBDPersistentVolumeSource", core_v1_RBDPersistentVolumeSource);
  (core "RBDVolumeSource", core_v1_RBDVolumeSource);
  (core "RangeAllocation", core_v1_RangeAllocation);
  (core "ReplicationController", core_v1_ReplicationController);
  (core "ReplicationControllerCondition", core_v1_ReplicationControllerCondition);
  (core "ReplicationControllerList", core_v1_ReplicationControllerList);
  (core "ReplicationControllerSpec", core_v1_ReplicationControllerSpec);
  (core "ReplicationControllerStatus", core_v1_ReplicationControllerStatus);
  (core "ResourceFieldSelector", core_v1_ResourceFieldSelector);
  (core "ResourceQuota", core_v1_ResourceQuota);
  (core "ResourceQuotaList", core_v1_ResourceQuotaList);
  (core "ResourceQuotaSpec", core_v1_ResourceQuotaSpec);
  (core "ResourceQuotaStatus", core_v1_ResourceQuotaStatus);
  (core "ResourceRequirements", core_v1_ResourceRequirements);
  (core "SELinuxOptions", core_v1_SELinuxOptions);
  (core "ScaleIOPersistentVolumeSource", core_v1_ScaleIOPersistentVolumeSource);
  (core "ScaleIOVolumeSource", core_v1_ScaleIOVolumeSource);
  (core "Secret", core_v1_Secret);
  (core "SecretEnvSource", core_v1_SecretEnvSource);
  (core "SecretKeySelector", core_v1_SecretKeySelector);
  (core "SecretList", core_v1_SecretList);
  (core "SecretProjection", core_v1_SecretProjection);
  (core "SecretReference", core_v1_SecretReference);
  (core "SecretVolumeSource", core_v1_SecretVolumeSource);
  (core "SecurityContext", core_v1_SecurityContext);
  (core "SerializedReference", core_v1_SerializedReference);
  (core "Service", core_v1_Service);
  (core "ServiceAccount", core_v1_ServiceAccount);
  (core "ServiceAccountList", core_v1_ServiceAccountList);
  (core "ServiceList", core_v1_ServiceList);
  (core "ServicePort", core_v1_ServicePort);
  (core "ServiceProxyOptions", core_v1_ServiceProxyOptions);
  (core "ServiceSpec", core_v1_ServiceSpec);
  (core "ServiceStatus", core_v1_ServiceStatus);
  (core "SessionAffinityConfig", core_v1_SessionAffinityConfig);
  (core "StorageOSPersistentVolumeSource", core_v1_StorageOSPersistentVolumeSource);
  (core "StorageOSVolumeSource", core_v1_StorageOSVolumeSource);
  (core "Sysctl", core_v1_Sysctl);
  (core "TCPSocketAction", core_v1_TCPSocketAction);
  (core "Taint", core_v1_Taint);
  (core "Toleration", core_v1_Toleration);
  (core "Volume", core_v1_Volume);
  (core "VolumeDevice", core_v1_VolumeDevice);
  (core "VolumeMount", core_v1_VolumeMount);
  (core "VolumeProjection", core_v1_VolumeProjection);
  (core "VolumeSource", core_v1_VolumeSource);
  (core "VsphereVirtualDiskVolumeSource", core_v1_VsphereVirtualDiskVolumeSource);
  (core "WeightedPodAffinityTerm", core_v1_WeightedPodAffinityTerm);
  (meta "APIGroup", meta_v1_APIGroup);
  (meta "APIGroupList", meta_v1_APIGroupList);
  (meta "APIResource", meta_v1_APIResource);
  (meta "APIResourceList", meta_v1_APIResourceList);
  (meta "APIVersions", meta_v1_APIVersions);
  (meta "DeleteOptions", meta_v1_DeleteOptions);
  (meta "Duration", meta_v1_Duration);
  (meta "ExportOptions", meta_v1_ExportOptions);
  (meta "GetOptions", meta_v1_GetOptions);
  (meta "GroupKind", meta_v1_GroupKind);
  (meta "GroupResource", meta_v1_GroupResource);
  (meta "GroupVersion", meta_v1_GroupVersion);
  (meta "GroupVersionForDiscovery", meta_v1_GroupVersionForDiscovery);
  (meta "GroupVersionKind", meta_v1_GroupVersionKind);
  (meta "GroupVersionResource", meta_v1_GroupVersionResource);
  (meta "Initializer", meta_v1_Initializer);
  (meta "Initializers", meta_v1_Initializers);
  (meta "InternalEvent", meta_v1_InternalEvent);
  (meta "LabelSelector", meta_v1_LabelSelector);
  (meta "LabelSelectorRequirement", meta_v1_LabelSelectorRequirement);
  (meta "List", meta_v1_List);
  (meta "ListMeta", meta_v1_ListMeta);
  (meta "ListOptions", meta_v1_ListOptions);
  (meta "MicroTime", meta_v1_MicroTime);
  (meta "ObjectMeta", meta_v1_ObjectMeta);
  (meta "OwnerReference", meta_v1_OwnerReference);
  (meta "Patch", meta_v1_Patch);
  (meta "Preconditions", meta_v1_Preconditions);
  (meta "RootPaths", meta_v1_RootPaths);
  (meta "ServerAddressByClientCIDR", meta_v1_ServerAddressByClientCIDR);
  (meta "Status", meta_v1_Status);
  (meta "StatusCause", meta_v1_StatusCause);
  (meta "StatusDetails", meta_v1_StatusDetails);
  (meta "Time", meta_v1_Time);
  (meta "Timestamp", meta_v1_Timestamp);
  (meta "TypeMeta", meta_v1_TypeMeta);
  (meta "WatchEvent", meta_v1_WatchEvent)
].

(** [GetOpenAPIDefinitions(ref)] with [OpenAPIRefCallBack], which returns the name unchanged. *)
Notation Spec := (gmap string OpenAPIDefinition).
Definition GetOpenAPIDefinitions : Spec := list_to_map definitions.

(** ** The conversion *)

(** [extensionsobj.JSONSchemaProps]: the fields that can be set for these definitions. *)
Inductive JSONSchemaProps := mkProps {
  js_Ref : option string;
  js_Description : string;
  js_Type : string;
  js_Format : string;
  js_Required : list string;
  js_Items : option JSONSchemaProps;
  js_AnyOf : list JSONSchemaProps;
  js_Properties : list (string * JSONSchemaProps) }.

Definition StringOrArrayToString (strOrArray : list string) : string :=
  match strOrArray with s :: _ => s | [] => "" end.

(** [openapiSpec[name].Schema]: the zero schema where the map has no such key. *)
Definition schema_of (openapiSpec : Spec) (name : string) : Schema :=
  from_option od_Schema empty_schema (openapiSpec !! name).

Fixpoint SchemaPropsToJSONProps (fuel : nat) (openapiSpec : Spec) (nested : bool) (schema : Schema)
  : option JSONSchemaProps :=
  match fuel with
  | O => None
  | S fuel =>
      let convert := SchemaPropsToJSONProps fuel openapiSpec nested in
      if negb (bool_decide (Ref schema = "")) && nested
      then convert (schema_of openapiSpec (Ref schema))
      else
        items ← match Items schema with Some s => Some <$> convert s | None => Some None end;
        anyOf ← mapM convert (AnyOf schema);
        properties ← mapM (λ p, pair p.1 <$> convert p.2) (Properties schema);
        Some (mkProps (if bool_decide (Ref schema = "") then None else Some (Ref schema))
                (Description schema) (StringOrArrayToString (Type_ schema)) (Format schema) (Required schema)
                items anyOf properties)
  end.

(** [fixKnownTypes] *)
Definition IntOrString_definition : OpenAPIDefinition :=
  mkOpenAPIDefinition
    (mkSchema "" [] "" "" [] [] None None [leaf "string" ""; leaf "integer" ""] []) [].
Definition fixKnownTypes (openapiSpec : Spec) : Spec :=
  <[intstr "IntOrString" := IntOrString_definition]> openapiSpec.

Definition GetCustomResourceValidation (fuel : nat) (name : string) (fn : Spec)
  : option JSONSchemaProps :=
  let openapiSpec := fixKnownTypes fn in
  SchemaPropsToJSONProps fuel openapiSpec true (schema_of openapiSpec name).

(** ** cmd/crd-validation

    The template is a CRD in YAML.  The YAML and JSON libraries are parameters, and so is what of a CRD
    is not its validation ([Rest]). *)
Record CustomResourceDefinition (Rest : Type) := mkCRD {
  crd_Validation : option JSONSchemaProps; crd_rest : Rest }.
Arguments mkCRD {Rest}.
Arguments crd_Validation {Rest}.
Arguments crd_rest {Rest}.

Definition crdName : string := ava "MXJob".

(** How the process ends: usage message and exit status 0, [log.Fatal], normally. *)
Inductive Exit := Usage | Fatal (message : string) | Done.

(** Files by name.  What the operating system lets the command do with a file: read it, open it for writing,
    how many bytes a write takes and whether it reports an error, and whether closing it succeeds. *)
Abbreviation Files := (gmap string string).
Class OS := {
  os_reads : string → bool;
  os_opens : string → bool;
  os_writes : string → string → nat * bool;
  os_closes : string → bool }.

(** The io/ioutil of the Go standard library.  [WriteFile] opens with [O_TRUNC]: from then on the file has what
    was written to it, whether or not an error follows. *)
Definition ReadFile `{!OS} (name : string) (fs : Files) : option string :=
  if os_reads name then fs !! name else None.
Definition WriteFile `{!OS} (name data : string) (fs : Files) : bool * Files :=
  if os_opens name then
    let '(n, failed) := os_writes name data in
    (negb failed && (String.length data <=? n)%nat && os_closes name, <[name := String.substring 0 n data]> fs)
  else (false, fs).

Section main.
Context `{!OS} {Rest : Type}.
Context (YAMLToJSON JSONToYAML : string → option string).
Context (Unmarshal : string → option (CustomResourceDefinition Rest)).
Context (MarshalIndent : CustomResourceDefinition Rest → option string).

(** What is written for a template; on the left the message of [log.Fatal]. *)
Definition generate (fuel : nat) (b : string) : string + option string :=
  match YAMLToJSON b with
  | None => inl "failed to convert yaml to json:"
  | Some inJSON =>
      match Unmarshal inJSON with
      | None => inl "invalid yaml template file:"
      | Some crdTempl =>
          match GetCustomResourceValidation fuel crdName GetOpenAPIDefinitions with
          | None => inr None
          | Some genValidation =>
              match MarshalIndent (mkCRD (Some genValidation) (crd_rest crdTempl)) with
              | None => inl "failed to convert object to json"
              | Some outJSON =>
                  match JSONToYAML outJSON with
                  | None => inl "failed to convert json to yaml:"
                  | Some outYAML => inr (Some outYAML)
                  end
              end
          end
      end
  end.

(** [args] is [os.Args]; nothing is returned when the fuel does not suffice. *)
Definition main (fuel : nat) (args : list string) (fs : Files) : option (Exit * Files) :=
  match args with
  | _ :: input :: out :: _ =>
      match ReadFile input fs with
      | None => Some (Fatal "read template file error:", fs)
      | Some b =>
          match generate fuel b with
          | inl message => Some (Fatal message, fs)
          | inr None => None
          | inr (Some outYAML) =>
              let '(ok, fs) := WriteFile out outYAML fs in
              Some (if ok then Done else Fatal "write generated file error:", fs)
          end
      end
  | _ => Some (Usage, fs)
  end.
End main.

(** ** References *)

(** The names a schema refers to. *)
Fixpoint refs (s : Schema) : list string :=
  (if bool_decide (Ref s = "") then [] else [Ref s])
  ++ concat (map (λ p, refs p.2) (Properties s))
  ++ from_option refs [] (Items s)
  ++ from_option refs [] (AdditionalProperties s)
  ++ concat (map refs (AnyOf s)).

(** The schemas of other packages the map does not define. *)
Definition externals : list string :=
  [resource "Quantity"; runtime_pkg "Object"; runtime_pkg "RawExtension"; intstr "IntOrString"].

(** Types and formats of the generated definitions, as OpenAPI pairs them. *)
Definition formats : list (string * string) :=
  [("string", ""); ("string", "byte"); ("string", "date-time"); ("string", "int-or-string");
   ("boolean", ""); ("integer", "int32"); ("integer", "int64"); ("number", "double");
   ("object", ""); ("array", "")].

(** A schema is either a reference and nothing else, or a type, or a set of properties; and every
    required property is one. *)
Fixpoint well_formed (s : Schema) : bool :=
  (if bool_decide (Ref s = "")
   then match Type_ s with
        | [] => bool_decide (Format s = "")
        | [t] => bool_decide ((t, Format s) ∈ formats)
        | _ => false
        end
   else bool_decide (Type_ s = []) && bool_decide (Format s = "") && bool_decide ((Properties s).*1 = [])
        && bool_decide (Required s = []) && negb (bool_decide (is_Some (Items s)))
        && negb (bool_decide (is_Some (AdditionalProperties s))))
  && bool_decide (NoDup (Properties s).*1)
  && bool_decide (Required s ⊆ (Properties s).*1)
  && (match Items s with Some i => well_formed i && bool_decide (Type_ s = ["array"]) | None => negb (bool_decide (Type_ s = ["array"])) end)
  && (match AdditionalProperties s with Some v => well_formed v && bool_decide (Type_ s = ["object"]) | None => true end)
  && forallb (λ p, well_formed p.2) (Properties s)
  && forallb well_formed (AnyOf s).

(** What the generator promises of one definition, and of the map. *)
Definition definition_ok (table : Spec) (d : OpenAPIDefinition) : Prop :=
  well_formed (od_Schema d) = true ∧ NoDup (od_Dependencies d) ∧
  (∀ r, r ∈ refs (od_Schema d) ↔ r ∈ od_Dependencies d) ∧
  (∀ r, r ∈ od_Dependencies d → is_Some (table !! r) ∨ r ∈ externals).
Definition definition_okb (table : Spec) (d : OpenAPIDefinition) : bool :=
  well_formed (od_Schema d) && bool_decide (NoDup (od_Dependencies d))
  && bool_decide (refs (od_Schema d) ⊆ od_Dependencies d)
  && bool_decide (od_Dependencies d ⊆ refs (od_Schema d))
  && forallb (λ r, bool_decide (is_Some (table !! r)) || bool_decide (r ∈ externals)) (od_Dependencies d).

(** ** What the conversion is meant to compute *)

(** [expands spec s j]: [j] is [s] with every reference replaced by the schema it names. *)
Inductive expands (spec : Spec) : Schema → JSONSchemaProps → Prop :=
| expands_ref s j :
    Ref s ≠ "" → expands spec (schema_of spec (Ref s)) j → expands spec s j
| expands_here s items anyOf properties :
    Ref s = "" →
    option_Forall2 (expands spec) (Items s) items →
    Forall2 (expands spec) (AnyOf s) anyOf →
    Forall2 (λ p q, p.1 = q.1 ∧ expands spec p.2 q.2) (Properties s) properties →
    expands spec s (mkProps None (Description s) (StringOrArrayToString (Type_ s)) (Format s) (Required s)
                      items anyOf properties).

(** No reference is left at any depth. *)
Fixpoint ref_free (j : JSONSchemaProps) : bool :=
  bool_decide (js_Ref j = None) && from_option ref_free true (js_Items j)
  && forallb ref_free (js_AnyOf j) && forallb (λ p, ref_free p.2) (js_Properties j).

(** ** Properties of the conversion *)
Section conversion.
Context (spec : Spec).
Notation convert n := (SchemaPropsToJSONProps n spec true).

(** The two cases of a step of the conversion. *)
Lemma convert_ref n s :
  Ref s ≠ "" → convert (S n) s = convert n (schema_of spec (Ref s)).
Proof. intros H. cbn. by rewrite bool_decide_false. Qed.

Lemma convert_pair n (p : string * Schema) (q : string * JSONSchemaProps) :
  pair p.1 <$> convert n p.2 = Some q ↔ p.1 = q.1 ∧ convert n p.2 = Some q.2.
Proof. destruct p as [k s], q as [k' j]; cbn. rewrite fmap_Some. naive_solver. Qed.

Lemma convert_option n o items :
  match o with Some s => Some <$> convert n s | None => Some None end = Some items
  ↔ option_Forall2 (λ s j, convert n s = Some j) o items.
Proof.
  destruct o as [i|].
  - rewrite fmap_Some. split; [intros (? & ? & ->); by constructor|].
    intros Hi. inversion Hi; subst. eauto.
  - split; [intros [= <-]; constructor|]. intros Hi. by inversion Hi.
Qed.

Lemma convert_here n s j :
  Ref s = "" → convert (S n) s = Some j ↔
  ∃ items anyOf properties,
    j = mkProps None (Description s) (StringOrArrayToString (Type_ s)) (Format s) (Required s) items anyOf properties ∧
    option_Forall2 (λ s j, convert n s = Some j) (Items s) items ∧
    Forall2 (λ s j, convert n s = Some j) (AnyOf s) anyOf ∧
    Forall2 (λ p q, p.1 = q.1 ∧ convert n p.2 = Some q.2) (Properties s) properties.
Proof.
  intros H. cbn. rewrite bool_decide_true by done. cbn. rewrite bind_Some.
  setoid_rewrite convert_option. setoid_rewrite bind_Some. setoid_rewrite bind_Some.
  setoid_rewrite mapM_Some. split.
  - intros (items & ? & anyOf & ? & props & Hp & [= <-]). exists items, anyOf, props.
    split_and!; [done..|]. eapply Forall2_impl; [exact Hp|]. intros ?? Hq. by apply convert_pair.
  - intros (items & anyOf & props & -> & ? & ? & Hp). exists items. split; [done|].
    exists anyOf. split; [done|]. exists props. split; [|done].
    eapply Forall2_impl; [exact Hp|]. intros ?? Hq. by apply convert_pair.
Qed.

Lemma convert_mono n m s j : (n ≤ m)%nat → convert n s = Some j → convert m s = Some j.
Proof.
  revert m s j. induction n as [|n IH]; intros m s j Hm Hj; [done|].
  destruct m as [|m]; [lia|]. destruct (decide (Ref s = "")) as [Hr|Hr].
  - apply convert_here in Hj as (items & anyOf & props & -> & Hi & Ha & Hp); [|done].
    apply convert_here; [done|]. exists items, anyOf, props. split; [done|]. split; [|split].
    + inversion Hi; constructor. apply IH; [lia|done].
    + eapply Forall2_impl; [exact Ha|]. intros; apply IH; [lia|done].
    + eapply Forall2_impl; [exact Hp|]. intros ?? [??]; split; [done|]. apply IH; [lia|done].
  - rewrite convert_ref in * by done. apply IH; [lia|done].
Qed.

Lemma convert_expands n s j : convert n s = Some j → expands spec s j.
Proof.
  revert s j. induction n as [|n IH]; intros s j Hj; [done|].
  destruct (decide (Ref s = "")) as [Hr|Hr].
  - apply convert_here in Hj as (items & anyOf & props & -> & Hi & Ha & Hp); [|done].
    apply expands_here; [done| | |].
    + inversion Hi; constructor. by apply IH.
    + eapply Forall2_impl; [exact Ha|]. auto.
    + eapply Forall2_impl; [exact Hp|]. naive_solver.
  - rewrite convert_ref in Hj by done. apply expands_ref; auto.
Qed.

Lemma convert_unique n s j j' : convert n s = Some j → expands spec s j' → j' = j.
Proof.
  revert s j j'. induction n as [|n IH]; intros s j j' Hj He; [done|].
  destruct (decide (Ref s = "")) as [Hr|Hr].
  - apply convert_here in Hj as (items & anyOf & props & -> & Hi & Ha & Hp); [|done].
    inversion He as [|? items' anyOf' props' _ Hi' Ha' Hp']; subst; [done|]. f_equal.
    + inversion Hi as [i ji Hc Hs Hji|Hs Hji]; subst; rewrite <- Hs in Hi'; inversion Hi'; subst; [|done].
      f_equal. by eapply IH.
    + clear -Ha Ha' IH. revert anyOf' Ha'. induction Ha; intros ? Ha'; inversion Ha'; subst; [done|].
      f_equal; [by eapply IH | by apply IHHa].
    + clear -Hp Hp' IH. revert props' Hp'.
      induction Hp as [|[k1 s1] [k2 j2] l l1 [Hk Hc] Hp IHp]; intros ? Hp';
        inversion Hp' as [|? [k3 j3] ?? [Hk3 Hc3]]; subst; [done|].
      cbn in *; subst. f_equal; [|by apply IHp]. f_equal. by eapply IH.
  - rewrite convert_ref in Hj by done.
    inversion He; subst; [by eapply IH | done].
Qed.

Lemma convert_ref_free n s j : convert n s = Some j → ref_free j = true.
Proof.
  revert s j. induction n as [|n IH]; intros s j Hj; [done|].
  destruct (decide (Ref s = "")) as [Hr|Hr].
  - apply convert_here in Hj as (items & anyOf & props & -> & Hi & Ha & Hp); [|done].
    cbn. apply andb_true_iff. split; [apply andb_true_iff; split|].
    + inversion Hi; cbn; [by eapply IH|done].
    + apply Is_true_true, forallb_True, Forall_lookup. intros k j Hk.
      destruct (Forall2_lookup_r _ _ _ _ _ Ha Hk) as (? & _ & ?). apply Is_true_true. by eapply IH.
    + apply Is_true_true, forallb_True, Forall_lookup. intros k j Hk.
      destruct (Forall2_lookup_r _ _ _ _ _ Hp Hk) as (? & _ & _ & ?). apply Is_true_true. by eapply IH.
  - rewrite convert_ref in Hj by done. by eapply IH.
Qed.
End conversion.

Lemma GetCustomResourceValidation_mono n m name fn j :
  (n ≤ m)%nat → GetCustomResourceValidation n name fn = Some j →
  GetCustomResourceValidation m name fn = Some j.
Proof. apply convert_mono. Qed.

Lemma GetCustomResourceValidation_run n name fn j :
  GetCustomResourceValidation n name fn = Some j →
  GetCustomResourceValidation n name fn = Some j ∧ ref_free j = true ∧
  ∀ j', expands (fixKnownTypes fn) (schema_of (fixKnownTypes fn) name) j' ↔ j' = j.
Proof.
  intros Hj. split; [done|]. split; [by eapply convert_ref_free|]. intros j'. split.
  - by eapply convert_unique.
  - intros ->. by eapply convert_expands.
Qed.

(** ** The generated definitions *)

(** The longest chain of references from a definition of the map is converted with this fuel. *)
Definition conversion_fuel : nat := 31.

Lemma definition_okb_ok table d : definition_okb table d = true → definition_ok table d.
Proof.
  unfold definition_okb, definition_ok. rewrite !andb_true_iff, !bool_decide_eq_true.
  intros ((((Hw & Hn) & H1) & H2) & Hr). split_and!; [done|done|split; [apply H1|apply H2]|].
  intros r Hin. apply Is_true_true_2, forallb_True in Hr. rewrite Forall_forall in Hr.
  specialize (Hr r Hin). apply orb_True in Hr. rewrite !bool_decide_spec in Hr. tauto.
Qed.

Lemma definitions_forall (P : string → OpenAPIDefinition → Prop) :
  Forall (λ p, P p.1 p.2) definitions → ∀ name d, GetOpenAPIDefinitions !! name = Some d → P name d.
Proof.
  intros HP name d Hd%elem_of_list_to_map_2. rewrite Forall_forall in HP. by apply (HP (name, d)).
Qed.

Lemma definitions_convert name d :
  GetOpenAPIDefinitions !! name = Some d →
  is_Some (GetCustomResourceValidation conversion_fuel name GetOpenAPIDefinitions).
Proof.
  revert name d. apply (definitions_forall (λ name _,
    is_Some (GetCustomResourceValidation conversion_fuel name GetOpenAPIDefinitions))).
  apply (bool_decide_unpack _). by vm_compute.
Qed.

Lemma schema_of_fixKnownTypes table name :
  schema_of (fixKnownTypes table) name =
  if decide (name = intstr "IntOrString") then od_Schema IntOrString_definition else schema_of table name.
Proof.
  unfold schema_of, fixKnownTypes. case_decide as Hn.
  - rewrite Hn. by rewrite lookup_insert_eq.
  - by rewrite lookup_insert_ne by congruence.
Qed.

Lemma conversion_total name :
  is_Some (GetCustomResourceValidation conversion_fuel name GetOpenAPIDefinitions).
Proof.
  destruct (GetOpenAPIDefinitions !! name) as [d|] eqn:Hd; [by eapply definitions_convert|].
  unfold GetCustomResourceValidation. rewrite schema_of_fixKnownTypes.
  case_decide; [by eexists|]. unfold schema_of. rewrite Hd. by eexists.
Qed.

(** C30. The conversion of every name of the map (and of any other
    name) ends, needs no more than [conversion_fuel], gives the schema with every reference replaced
    by what it names, the only such schema, and leaves no reference at any depth. *)
Theorem GetCustomResourceValidation_correct name fuel :
  (conversion_fuel ≤ fuel)%nat →
  ∃ j, GetCustomResourceValidation fuel name GetOpenAPIDefinitions = Some j ∧ ref_free j = true ∧
    ∀ j', expands (fixKnownTypes GetOpenAPIDefinitions)
            (schema_of (fixKnownTypes GetOpenAPIDefinitions) name) j' ↔ j' = j.
Proof.
  intros Hf. destruct (conversion_total name) as [j Hj]. exists j.
  apply GetCustomResourceValidation_run. exact (GetCustomResourceValidation_mono _ _ _ _ _ Hf Hj).
Qed.

Lemma GetCustomResourceValidation_correct_witness :
  ∃ j, GetCustomResourceValidation 31 crdName GetOpenAPIDefinitions = Some j ∧ ref_free j = true ∧
    ∀ j', expands (fixKnownTypes GetOpenAPIDefinitions)
            (schema_of (fixKnownTypes GetOpenAPIDefinitions) crdName) j' ↔ j' = j.
Proof. apply (GetCustomResourceValidation_correct crdName 31). apply (bool_decide_unpack _). by vm_compute. Defined.

(** C31. The generated map is well formed: no name is defined twice;
    every definition is a reference, a type with a format of that type or a set of distinct properties
    that includes the required ones; its list of dependencies has exactly the names it refers to, once
    each; and these are defined in the map, four excepted, which never are. *)
Theorem GetOpenAPIDefinitions_well_formed :
  NoDup definitions.*1 ∧
  (∀ name d, GetOpenAPIDefinitions !! name = Some d → definition_ok GetOpenAPIDefinitions d) ∧
  ∀ r, r ∈ externals →
    GetOpenAPIDefinitions !! r = None ∧
    ∃ name d, GetOpenAPIDefinitions !! name = Some d ∧ r ∈ od_Dependencies d.
Proof.
  split; [apply (bool_decide_unpack _); by vm_compute|]. split.
  - apply (definitions_forall (λ _, definition_ok GetOpenAPIDefinitions)).
    eapply Forall_impl; [|intros p; apply (definition_okb_ok GetOpenAPIDefinitions p.2)].
    apply (bool_decide_unpack _). by vm_compute.
  - assert (∀ r name, match GetOpenAPIDefinitions !! name with
              Some d => bool_decide (r ∈ od_Dependencies d) | None => false end = true →
              ∃ name d, GetOpenAPIDefinitions !! name = Some d ∧ r ∈ od_Dependencies d) as Hused.
    { intros r name. destruct (_ !! name) as [d|] eqn:Hd; [|done].
      rewrite bool_decide_eq_true. eauto. }
    unfold externals. intros r Hr. rewrite !elem_of_cons, elem_of_nil in Hr.
    destruct Hr as [->|[->|[->|[->|[]]]]]; (split; [by vm_compute|]).
    + apply (Hused _ (core "LimitRangeItem")). by vm_compute.
    + apply (Hused _ (meta "InternalEvent")). by vm_compute.
    + apply (Hused _ (meta "WatchEvent")). by vm_compute.
    + apply (Hused _ (core "HTTPGetAction")). by vm_compute.
Qed.

(** ** The validation of MXJob *)

(** The validation at a path of property names; ["[]"] stands for the elements of an array. *)
Fixpoint at_path (path : list string) (j : JSONSchemaProps) : option JSONSchemaProps :=
  match path with
  | [] => Some j
  | key :: path =>
      next ← (if bool_decide (key = "[]") then js_Items j else (list_to_map (js_Properties j) : gmap string _) !! key);
      at_path path next
  end.
Definition type_at (path : list string) (j : JSONSchemaProps) : option (string * string) :=
  (λ p, (js_Type p, js_Format p)) <$> at_path path j.
Definition required_at (path : list string) (j : JSONSchemaProps) : option (list string) :=
  js_Required <$> at_path path j.
Definition replica_types : list string := ["scheduler"; "server"; "worker"].

(** What the CRD says of a job, field by field: the required fields, the integer fields, the containers
    of the pod templates; every replica type and its fields are optional; and the webhooks of a job are
    not known to it. *)
Definition mxjob_validation (j : JSONSchemaProps) : Prop :=
  js_Required j = ["metadata"; "spec"] ∧
  required_at ["spec"] j = Some ["replicaSpecs"] ∧
  required_at ["status"] j = Some ["replicaStatuses"; "conditions"] ∧
  required_at ["spec"; "replicaSpecs"] j = Some [] ∧
  Forall (λ t,
    Forall (λ field, type_at ["spec"; "replicaSpecs"; t; field] j = Some ("integer", "int32"))
      ["replicas"; "psRootPort"; "psVerbose"] ∧
    Forall (λ field, type_at ["status"; "replicaStatuses"; t; field] j = Some ("integer", "int32"))
      ["active"; "succeeded"; "failed"; "gone"] ∧
    required_at ["spec"; "replicaSpecs"; t] j = Some [] ∧
    required_at ["spec"; "replicaSpecs"; t; "template"; "spec"] j = Some ["containers"] ∧
    type_at ["spec"; "replicaSpecs"; t; "template"; "spec"; "containers"] j = Some ("array", "") ∧
    required_at ["spec"; "replicaSpecs"; t; "template"; "spec"; "containers"; "[]"] j = Some ["name"])
    replica_types ∧
  at_path ["spec"; "startWebhook"] j = None ∧
  at_path ["spec"; "finishWebhook"] j = None.

#[export] Instance at_path_None_dec path j : Decision (at_path path j = None).
Proof. destruct (at_path path j); [right|left]; done. Defined.
#[export] Instance mxjob_validation_dec j : Decision (mxjob_validation j).
Proof. unfold mxjob_validation. apply _. Defined.

Lemma crd_validation_computed :
  match GetCustomResourceValidation conversion_fuel crdName GetOpenAPIDefinitions with
  | Some j => bool_decide (mxjob_validation j) | None => false
  end = true.
Proof. by vm_compute. Qed.

(** C33. What the generated CRD validates of a job. *)
Theorem crd_validation_correct fuel :
  (conversion_fuel ≤ fuel)%nat →
  ∃ j, GetCustomResourceValidation fuel crdName GetOpenAPIDefinitions = Some j ∧ mxjob_validation j.
Proof.
  intros Hf. pose proof crd_validation_computed as Hc.
  destruct (GetCustomResourceValidation conversion_fuel _ _) as [j|] eqn:Hj; [|discriminate].
  exists j. split; [exact (GetCustomResourceValidation_mono _ _ _ _ _ Hf Hj)|].
  by apply bool_decide_eq_true in Hc.
Qed.

Lemma crd_validation_correct_witness :
  ∃ j, GetCustomResourceValidation 40 crdName GetOpenAPIDefinitions = Some j ∧ mxjob_validation j.
Proof. apply (crd_validation_correct 40). apply (bool_decide_unpack _). by vm_compute. Defined.

(** ** The command *)
Section command.
Context `{!OS} {Rest : Type}.
Context (YAMLToJSON JSONToYAML : string → option string).
Context (Unmarshal : string → option (CustomResourceDefinition Rest)).
Context (MarshalIndent : CustomResourceDefinition Rest → option string).
Notation generate := (generate YAMLToJSON JSONToYAML Unmarshal MarshalIndent).
Notation main := (main YAMLToJSON JSONToYAML Unmarshal MarshalIndent).

(** The text the command is to write for the template [b]. *)
Definition generated (b outYAML : string) : Prop :=
  ∃ inJSON crdTempl genValidation outJSON,
    YAMLToJSON b = Some inJSON ∧ Unmarshal inJSON = Some crdTempl ∧
    expands (fixKnownTypes GetOpenAPIDefinitions)
      (schema_of (fixKnownTypes GetOpenAPIDefinitions) crdName) genValidation ∧
    MarshalIndent (mkCRD (Some genValidation) (crd_rest crdTempl)) = Some outJSON ∧
    JSONToYAML outJSON = Some outYAML.

Lemma generated_unique b y y' : generated b y → generated b y' → y = y'.
Proof.
  destruct (conversion_total crdName) as [g Hg].
  destruct (GetCustomResourceValidation_run _ _ _ _ Hg) as (_ & _ & Hexp). unfold generated.
  set (spec := fixKnownTypes _) in *. clearbody spec. clear Hg.
  intros (in1 & t1 & j1 & out1 & E1 & T1 & Hj1 & M1 & Y1) (in2 & t2 & j2 & out2 & E2 & T2 & Hj2 & M2 & Y2).
  apply Hexp in Hj1 as ->. apply Hexp in Hj2 as ->. congruence.
Qed.
Lemma generate_correct fuel b :
  (conversion_fuel ≤ fuel)%nat →
  (∃ outYAML, generate fuel b = inr (Some outYAML) ∧ generated b outYAML) ∨
  (∃ message, generate fuel b = inl message ∧ ∀ outYAML, ¬ generated b outYAML).
Proof.
  intros Hf. unfold generate, generated.
  destruct (conversion_total crdName) as [j Hj].
  apply (GetCustomResourceValidation_mono _ fuel _ _ _ Hf) in Hj.
  destruct (GetCustomResourceValidation_run _ _ _ _ Hj) as (Hrun & _ & Hexp). rewrite Hrun.
  set (spec := fixKnownTypes _) in *. clearbody spec. clear Hj Hrun Hf.
  destruct (YAMLToJSON b) as [inJSON|]; [|right; naive_solver].
  destruct (Unmarshal inJSON) as [t|] eqn:Ht; [|right; naive_solver].
  assert (expands spec (schema_of spec crdName) j) as Hjs by by apply Hexp.
  destruct (MarshalIndent _) as [outJSON|] eqn:Hm; [destruct (JSONToYAML outJSON) as [y|] eqn:Hy|].
  - left. exists y. split; [done|]. by exists inJSON, t, j, outJSON.
  - right. eexists. split; [done|]. intros y (? & ? & ? & ? & [= <-] & Ht' & He & Hm' & Hy').
    apply Hexp in He. simplify_eq.
  - right. eexists. split; [done|]. intros y (? & ? & ? & ? & [= <-] & Ht' & He & Hm' & Hy').
    apply Hexp in He. simplify_eq.
Qed.

Lemma substring_whole (data : string) n : (String.length data ≤ n)%nat → String.substring 0 n data = data.
Proof.
  revert n. induction data as [|c data IH]; intros [|n] Hn; cbn in Hn |- *; try done; [lia|].
  f_equal. apply IH. lia.
Qed.

(** A write that took all of [data]. *)
Definition written (name data : string) : Prop :=
  os_opens name = true ∧ os_closes name = true ∧
  ∃ n, os_writes name data = (n, false) ∧ (String.length data ≤ n)%nat.

Lemma WriteFile_run name data (fs : Files) :
  let '(ok, fs') := WriteFile name data fs in
  (ok = true ↔ written name data) ∧ (ok = true → fs' = <[name := data]> fs) ∧
  (ok = false → fs' = fs ∨ os_opens name = true ∧ ∃ n, fs' = <[name := String.substring 0 n data]> fs).
Proof.
  unfold WriteFile, written. destruct (os_opens name); [|naive_solver].
  destruct (os_writes name data) as [n [|]]; cbn [negb andb]; [split_and!; naive_solver|].
  destruct (Nat.leb_spec (String.length data) n) as [Hle|Hlt]; cbn [andb].
  - split; [naive_solver|]. split; [|naive_solver]. by rewrite substring_whole.
  - split_and!; [|done | eauto]. split; [done|]. intros (_ & _ & m & [= <-] & ?). lia.
Qed.

End command.

(** A template language of one field, and a disk that is full after ten bytes of a file called full. *)
Definition plain_marshal (c : CustomResourceDefinition string) : option string :=
  match crd_Validation c with Some _ => Some (crd_rest c +:+ ", validated") | None => None end.
#[local] Instance small_disk : OS := {|
  os_reads _ := true; os_opens _ := true; os_closes _ := true;
  os_writes name data := if decide (name = "full") then (10%nat, true) else (String.length data, false) |}.
Notation plain_main out :=
  (main (Rest := string) Some Some (λ s, Some (mkCRD None s)) plain_marshal 31
     ["mxjob-crdvalidation"; "in"; out] {["in" := "the template"]}).

