(* ===== verification/OpenAPITypes.v ===== *)
(** * The API types and their generated OpenAPI definitions

    The struct declarations of pkg/apis/ava/v1alpha1/types.go as data (field, type, tag), the schema
    the Kubernetes API conventions give such a struct, and the comparison of this specification with
    the generated file, which was not generated from these types. *)
From S2P Require Import Prelude OpenAPI OpenAPIAva CrdValidation.
From stdpp Require Import sorting.
From Stdlib Require Import Ascii.

(** ** Struct declarations *)
Inductive GoType :=
| GoString
| GoInt32
| GoStruct (name : string)      (* a struct type, by its OpenAPI name *)
| GoPointer (t : GoType)
| GoSlice (t : GoType).

(** One field; [Embedded] is an anonymous field with [json:",inline"]. *)
Inductive GoField :=
| Field (name : string) (type : GoType) (json : string)
| Embedded (fields : list GoField).

(** [metav1.TypeMeta] *)
Definition TypeMeta_struct : list GoField :=
  [Field "Kind" GoString "kind,omitempty"; Field "APIVersion" GoString "apiVersion,omitempty"].

Definition MXJobList_struct : list GoField :=
  [Embedded TypeMeta_struct;
   Field "ListMeta" (GoStruct (meta "ListMeta")) "metadata";
   Field "Items" (GoSlice (GoStruct (ava "MXJob"))) "items"].
Definition MXJob_struct : list GoField :=
  [Embedded TypeMeta_struct;
   Field "ObjectMeta" (GoStruct (meta "ObjectMeta")) "metadata";
   Field "Spec" (GoStruct (ava "MXJobSpec")) "spec";
   Field "Status" (GoStruct (ava "MXJobStatus")) "status,omitempty"].
Definition MXJobSpec_struct : list GoField :=
  [Field "MXReplicaSpecs" (GoStruct (ava "MXReplicaSpecs")) "replicaSpecs";
   Field "StartWebhook" (GoPointer (GoStruct (ava "Webhook"))) "startWebhook,omitempty";
   Field "FinishWebhook" (GoPointer (GoStruct (ava "Webhook"))) "finishWebhook,omitempty"].
Definition MXReplicaSpecs_struct : list GoField :=
  [Field "Scheduler" (GoPointer (GoStruct (ava "MXReplicaSpec"))) "scheduler,omitempty";
   Field "Server" (GoPointer (GoStruct (ava "MXReplicaSpec"))) "server,omitempty";
   Field "Worker" (GoPointer (GoStruct (ava "MXReplicaSpec"))) "worker,omitempty"].
Definition MXJobStatus_struct : list GoField :=
  [Field "ReplicaStatuses" (GoStruct (ava "MXReplicaStatuses")) "replicaStatuses";
   Field "StartTime" (GoPointer (GoStruct (meta "Time"))) "startTime,omitempty";
   Field "CompletionTime" (GoPointer (GoStruct (meta "Time"))) "completionTime,omitempty";
   Field "Conditions" (GoSlice (GoStruct (ava "MXJobCondition"))) "conditions"].
Definition MXReplicaStatuses_struct : list GoField :=
  [Field "Scheduler" (GoPointer (GoStruct (ava "MXReplicaStatus"))) "scheduler,omitempty";
   Field "Server" (GoPointer (GoStruct (ava "MXReplicaStatus"))) "server,omitempty";
   Field "Worker" (GoPointer (GoStruct (ava "MXReplicaStatus"))) "worker,omitempty"].
Definition MXReplicaSpec_struct : list GoField :=
  [Field "Replicas" (GoPointer GoInt32) "replicas,omitempty";
   Field "Template" (GoPointer (GoStruct (core "PodTemplateSpec"))) "template,omitempty";
   Field "PsRootPort" (GoPointer GoInt32) "psRootPort,omitempty";
   Field "PsVerbose" (GoPointer GoInt32) "psVerbose,omitempty"].
Definition MXReplicaStatus_struct : list GoField :=
  [Field "Active" GoInt32 "active,omitempty"; Field "Succeeded" GoInt32 "succeeded,omitempty";
   Field "Failed" GoInt32 "failed,omitempty"; Field "Gone" GoInt32 "gone,omitempty"].
(** [MXJobConditionType], [v1.ConditionStatus] and [MXJobReason] are string types. *)
Definition MXJobCondition_struct : list GoField :=
  [Field "Type" GoString "type"; Field "Status" GoString "status";
   Field "Reason" GoString "reason,omitempty"; Field "Message" GoString "message,omitempty";
   Field "LastUpdateTime" (GoStruct (meta "Time")) "lastUpdateTime,omitempty";
   Field "LastTransitionTime" (GoStruct (meta "Time")) "lastTransitionTime,omitempty"].

(** The structs reachable from [MXJobList], with their names. *)
Definition api_structs : list (string * list GoField) :=
  [("MXJob", MXJob_struct); ("MXJobCondition", MXJobCondition_struct);
   ("MXJobList", MXJobList_struct); ("MXJobSpec", MXJobSpec_struct);
   ("MXJobStatus", MXJobStatus_struct); ("MXReplicaSpec", MXReplicaSpec_struct);
   ("MXReplicaSpecs", MXReplicaSpecs_struct); ("MXReplicaStatus", MXReplicaStatus_struct);
   ("MXReplicaStatuses", MXReplicaStatuses_struct)].

(** ** The schema of a struct (specification) *)

(** A [json] tag: the name up to the first comma, and whether [omitempty] is among the options. *)
Fixpoint tag_name (tag : string) : string :=
  match tag with
  | "" => ""
  | String c rest => if Ascii.eqb c "," then "" else String c (tag_name rest)
  end.
Fixpoint tag_options (tag : string) : string :=
  match tag with
  | "" => ""
  | String c rest => if Ascii.eqb c "," then rest else tag_options rest
  end.
Definition omitempty (tag : string) : bool := bool_decide (tag_options tag = "omitempty").

(** Pointers are transparent; an embedded struct contributes its fields. *)
Fixpoint type_schema (t : GoType) : Schema :=
  match t with
  | GoString => leaf "string" ""
  | GoInt32 => leaf "integer" "int32"
  | GoStruct name => ref_to name
  | GoPointer t => type_schema t
  | GoSlice t => array_of (type_schema t)
  end.
Fixpoint properties_of (f : GoField) : list (string * Schema) :=
  match f with
  | Field _ t tag => [(tag_name tag, type_schema t)]
  | Embedded fields => concat (map properties_of fields)
  end.
Fixpoint required_of (f : GoField) : list string :=
  match f with
  | Field _ _ tag => if omitempty tag then [] else [tag_name tag]
  | Embedded fields => concat (map required_of fields)
  end.
#[export] Instance string_leb_dec : RelDecision (λ a b, String.leb a b = true).
Proof. intros a b. apply _. Defined.
Definition struct_definition (fields : list GoField) : OpenAPIDefinition :=
  let properties := concat (map properties_of fields) in
  object_of "" properties (concat (map required_of fields))
    (merge_sort (λ a b, String.leb a b = true) (remove_dups (concat (map (λ p, refs p.2) properties)))).

(** Descriptions come from the comments of the fields; they are not compared. *)
Fixpoint undocumented (s : Schema) : Schema :=
  mkSchema "" (Type_ s) (Format s) (Ref s) (map (λ p, (p.1, undocumented p.2)) (Properties s))
    (Required s) (undocumented <$> Items s) (undocumented <$> AdditionalProperties s)
    (map undocumented (AnyOf s)) (Extensions s).
Definition shape (d : OpenAPIDefinition) : OpenAPIDefinition :=
  mkOpenAPIDefinition (undocumented (od_Schema d)) (od_Dependencies d).

(** The webhooks of the specification, which the types got later than the generated file. *)
Definition is_webhook (f : GoField) : bool :=
  match f with
  | Field name _ _ => bool_decide (name ∈ ["StartWebhook"; "FinishWebhook"])
  | Embedded _ => false
  end.

Lemma prefix_app p s : String.prefix p (p +:+ s) = true.
Proof. 
  induction p as [|c p IH]; [by destruct s|]. change (String c p +:+ s) with (String c (p +:+ s)).
  cbn. by destruct (Ascii.ascii_dec c c).
Qed.

#[export] Instance ava_inj : Inj (=) (=) ava.
Proof. intros x y. apply (inj (String.append _)). Qed.

Lemma ava_definitions name d :
  GetOpenAPIDefinitions !! ava name = Some d → name ∈ api_structs.*1.
Proof.
  remember (ava name) as n eqn:Hn. revert n d name Hn.
  cut (∀ n d, GetOpenAPIDefinitions !! n = Some d → String.prefix (ava "") n = true →
         n ∈ ava <$> api_structs.*1).
  { intros Hcut n d name -> Hd%Hcut; [|apply (prefix_app (ava ""))].
    by apply (list_elem_of_fmap_inj_2 ava) in Hd. }
  apply (definitions_forall (λ n _, String.prefix (ava "") n = true → n ∈ ava <$> api_structs.*1)).
  apply (bool_decide_unpack _). by vm_compute.
Qed.

(** C32. But for the descriptions, every generated definition of the operator's types is the schema
    its struct declaration has by the conventions, and there is no other definition of the package; except that
    the one of [MXJobSpec] is that of the struct without its two webhooks, and the type of these
    webhooks has no definition. *)
Theorem openapi_of_types :
  (∀ name fields, (name, fields) ∈ api_structs → name ≠ "MXJobSpec" →
     shape <$> GetOpenAPIDefinitions !! ava name = Some (struct_definition fields)) ∧
  (∀ name, is_Some (GetOpenAPIDefinitions !! ava name) ↔ name ∈ api_structs.*1) ∧
  shape <$> GetOpenAPIDefinitions !! ava "MXJobSpec" =
    Some (struct_definition (filter (λ f, is_webhook f = false) MXJobSpec_struct)) ∧
  shape <$> GetOpenAPIDefinitions !! ava "MXJobSpec" ≠ Some (struct_definition MXJobSpec_struct) ∧
  GetOpenAPIDefinitions !! ava "Webhook" = None.
Proof.
  split_and!; [| |by vm_compute|by vm_compute|by vm_compute].
  - intros name fields Hin Hne. unfold api_structs in Hin. rewrite !elem_of_cons, elem_of_nil in Hin.
    destruct_or! Hin; simplify_eq; by vm_compute.
  - intros name. split.
    + intros [d Hd]. by eapply ava_definitions.
    + revert name. apply Forall_forall. apply (bool_decide_unpack _). by vm_compute.
Qed.
