(* ===== verification/Memory.v ===== *)
(** * A memory with pointers, and what a deep copy is

    The rest of the development treats Go structs as values.  Here pointers are locations of a heap, so
    that sharing can be spoken of: [mem h p t s] says that in the heap [h] the Go value [p] stands for
    the value [t] and that everything it reaches through pointers is in [s].  A deep copy ([copies])
    gives a Go value for the same [t] that reaches only locations it allocated itself, and changes
    nothing that was there.  The pattern of deepcopy-gen for pointers and slices is shown to be one
    for every element type. *)
From S2P Require Import Prelude.

Definition loc := positive.
(** [*T]; [None] is nil. *)
Definition Ptr (T : Type) : Type := option loc.
(** [[]T]: the array behind it; slices that start or end inside their array do not occur. *)
Definition Slice (T : Type) : Type := option loc.

Section memory.
Context {Cell : Type}.
Notation Heap := (gmap loc Cell).

(** The types a location can hold, with the zero value of [new(T)]. *)
Class Stored (T : Type) := {
  to_cell : T → Cell;
  of_cell : Cell → option T;
  zero : T;
  of_to_cell v : of_cell (to_cell v) = Some v }.

(** ** Operations *)
Definition load {T} `{Stored T} (l : loc) : M Heap T :=
  λ h, match h !! l ≫= of_cell with Some v => Ret v h | None => Panicked h end.
Definition store {T} `{Stored T} (l : loc) (v : T) : M Heap () :=
  modify (<[l := to_cell v]>).
Definition alloc {T} `{Stored T} (v : T) : M Heap loc :=
  λ h, let l := fresh (dom h) in Ret l (<[l := to_cell v]> h).

(** [if in.F != nil { in, out := &in.F, &out.F; if *in == nil { *out = nil } else { *out = new(T);
    ( *in).DeepCopyInto( *out) } }], and the same with [**out = **in], where [f] is [mret]. *)
Definition copy_pointer {T} `{Stored T} (f : T → M Heap T) (p : Ptr T) : M Heap (Ptr T) :=
  match p with
  | None => mret None
  | Some l =>
      out ← alloc zero;
      v ← load l;
      v' ← f v;
      store out v';;
      mret (Some out)
  end.

(** [for i := range *in { ( *in)[i].DeepCopyInto(&( *out)[i]) }] from index [i] on. *)
Fixpoint copy_elements {T} `{Stored (list T)} (f : T → M Heap T) (out : loc) (i : nat) (l : list T)
  : M Heap () :=
  match l with
  | [] => mret tt
  | v :: l =>
      v' ← f v;
      elements ← load out;
      store out (<[i := v']> elements);;
      copy_elements f out (S i) l
  end.
(** [if in.F != nil { in, out := &in.F, &out.F; *out = make([]T, len( *in)); for ... }] *)
Definition copy_slice {T} `{Stored (list T)} (empty : T) (f : T → M Heap T) (p : Slice T) : M Heap (Slice T) :=
  match p with
  | None => mret None
  | Some l =>
      elements ← load l;
      out ← alloc (replicate (length elements) empty);
      copy_elements f out 0 elements;;
      mret (Some out)
  end.

(** ** Go values and what they stand for *)
Class Mem (P T : Type) := mem : Heap → P → T → gset loc → Prop.

(** What a value stands for depends on the locations it reaches only. *)
Class MemLocal (P T : Type) `{Mem P T} : Prop :=
  mem_local h h' p t s s' :
    mem h p t s → s ⊆ s' → (∀ l, l ∈ s → h !! l = h' !! l) → mem h' p t s'.

(** Values without pointers. *)
#[local] Instance mem_base T : Mem T T := λ _ v t _, v = t.
#[local] Instance mem_base_local T : MemLocal T T.
Proof. intros h h' p t s s' Hm _ _. exact Hm. Qed.

#[local] Instance mem_pointer {P T} `{Mem P T} `{Stored P} : Mem (Ptr P) (option T) := λ h p t s,
  match p, t with
  | None, None => True
  | Some l, Some t => l ∈ s ∧ ∃ v, h !! l = Some (to_cell v) ∧ mem h v t s
  | _, _ => False
  end.
#[local] Instance mem_pointer_local {P T} `{MemLocal P T} `{Stored P} : MemLocal (Ptr P) (option T).
Proof.
  intros h h' p t s s' Hm Hs Hh. destruct p as [l|], t as [t|]; try done.
  destruct Hm as (Hl & v & Hv & Hm). split; [by apply Hs|]. exists v.
  split; [by rewrite <- Hh|]. by eapply mem_local.
Qed.

(** A nil slice and an empty one stand for the empty list. *)
#[local] Instance mem_slice {P T} `{Mem P T} `{Stored (list P)} : Mem (Slice P) (list T) := λ h p l s,
  match p with
  | None => l = []
  | Some a => a ∈ s ∧ ∃ vs, h !! a = Some (to_cell vs) ∧ Forall2 (λ v t, mem h v t s) vs l
  end.
#[local] Instance mem_slice_local {P T} `{MemLocal P T} `{Stored (list P)} : MemLocal (Slice P) (list T).
Proof.
  intros h h' p t s s' Hm Hs Hh. destruct p as [a|]; [|done].
  destruct Hm as (Ha & vs & Hv & Hm). split; [by apply Hs|]. exists vs. split; [by rewrite <- Hh|].
  eapply Forall2_impl; [exact Hm|]. intros v x Hx. by apply (mem_local h h' v x s s').
Qed.

(** ** Deep copies *)
Definition new_locations (h h' : Heap) : gset loc := dom h' ∖ dom h.

(** Run in [h], [m] adds locations to the heap and gives a value for [t] made of these alone. *)
Definition makes {P T} `{Mem P T} (h0 h : Heap) (m : M Heap P) (t : T) : Prop :=
  ∃ p' h', m h = Ret p' h' ∧ h ⊆ h' ∧ mem h' p' t (new_locations h0 h').
Class copies {P T} `{Mem P T} (f : P → M Heap P) : Prop :=
  run_copy h p t s : mem h p t s → s ⊆ dom h → makes h h (f p) t.

Lemma new_locations_mono (h0 h1 h h' : Heap) :
  h0 ⊆ h1 → h ⊆ h' → new_locations h1 h ⊆ new_locations h0 h'.
Proof.
  unfold new_locations. intros ?%subseteq_dom ?%subseteq_dom. set_solver.
Qed.

Lemma grow_agrees (h h' : Heap) (s : gset loc) l :
  h ⊆ h' → s ⊆ dom h → l ∈ s → h !! l = h' !! l.
Proof.
  intros Hh Hs [c Hc]%Hs%elem_of_dom. rewrite Hc. symmetry. by eapply lookup_weaken.
Qed.

(** A value is still there in a larger heap. *)
Lemma mem_grow {P T} `{MemLocal P T} (h h' : Heap) p t s s' :
  mem h p t s → h ⊆ h' → s ⊆ dom h → s ⊆ s' → mem h' p t s'.
Proof. intros. eapply mem_local; [done|done|]. intros. by eapply grow_agrees. Qed.

(** So is a copy, while more is copied. *)
Lemma copy_grow {P T} `{MemLocal P T} (h0 h1 h2 h3 : Heap) p t :
  mem h2 p t (new_locations h1 h2) → h0 ⊆ h1 → h2 ⊆ h3 → mem h3 p t (new_locations h0 h3).
Proof.
  intros Hm H1 H2. eapply mem_grow; [done|done|unfold new_locations; set_solver|].
  by apply new_locations_mono.
Qed.

(** The next field of a struct is copied, in the heap [h] the fields before it left. *)
Lemma copies_next {P T} `{MemLocal P T} (f : P → M Heap P) (h0 h : Heap) p t s :
  copies f → mem h0 p t s → s ⊆ dom h0 → h0 ⊆ h → makes h0 h (f p) t.
Proof.
  intros Hf Hm Hs Hh. destruct (Hf h p t s) as (p' & h' & Hrun & Hh' & Hm').
  - by eapply mem_grow.
  - apply subseteq_dom in Hh. set_solver.
  - exists p', h'. split; [done|]. split; [done|]. by eapply copy_grow.
Qed.

(** Assignment copies what has no pointers. *)
Lemma copies_base {T} : copies (P := T) (T := T) mret.
Proof. intros h p t s Hm _. by exists p, h. Qed.
Lemma run_load {T} `{Stored T} l v h : h !! l = Some (to_cell v) → load l h = Ret v h.
Proof. intros Hl. unfold load. rewrite Hl. cbn. by rewrite of_to_cell. Qed.

(** A write to a location is not seen where it is not reached. *)
Lemma mem_store {P T} `{MemLocal P T} (h h' : Heap) out c p t s s' :
  mem h p t s → h ⊆ h' → s ⊆ dom h → out ∉ s → s ⊆ s' → mem (<[out := c]> h') p t s'.
Proof.
  intros Hm Hh Hs Hout Hss. apply (mem_local h _ p t s s'); [done|done|]. intros l Hl.
  rewrite lookup_insert_ne by set_solver. by eapply grow_agrees.
Qed.

Lemma store_grows (h h' : Heap) out c : h ⊆ h' → out ∉ dom h → h ⊆ <[out := c]> h'.
Proof.
  intros Hh Hout. apply map_subseteq_spec. intros l x Hl.
  rewrite lookup_insert_ne; [by eapply lookup_weaken|]. intros ->. apply Hout. by apply elem_of_dom_2 in Hl.
Qed.

Lemma copies_pointer {P T} `{MemLocal P T} `{Stored P} (f : P → M Heap P) :
  copies f → copies (P := Ptr P) (T := option T) (copy_pointer f).
Proof.
  intros Hf h p t s Hm Hs. destruct p as [l|], t as [t|]; try done; [|by exists None, h].
  destruct Hm as (Hl & v & Hv & Hm). set (out := fresh (dom h)).
  assert (out ∉ dom h) as Hout by apply is_fresh.
  set (h1 := <[out := to_cell zero]> h). assert (h ⊆ h1) as H01 by by apply store_grows.
  destruct (Hf h1 v t s) as (v' & h2 & Hrun & H12 & Hm').
  { by eapply mem_grow. } { apply subseteq_dom in H01. set_solver. }
  assert (out ∈ dom h1) as Hin by (unfold h1; set_solver).
  exists (Some out), (<[out := to_cell v']> h2). unfold copy_pointer. split; [|split].
  - rewrite (bind_run (alloc zero) _ h out h1) by done. rewrite (bind_run _ _ _ v h1).
    + by rewrite (bind_run _ _ _ v' h2).
    + apply run_load. by eapply lookup_weaken.
  - apply store_grows; [by etrans|done].
  - split; [unfold new_locations; set_solver|]. exists v'. split; [apply lookup_insert_eq|].
    eapply mem_store; [exact Hm'|done|unfold new_locations; set_solver..|].
    unfold new_locations, h1. set_solver.
Qed.

Section slices.
Context {P T : Type} `{MemLocal P T} `{Stored (list P)}.
Context (f : P → M Heap P) (Hf : copies f) (empty : P).

(** The state of the loop: [ds] are copied, [rest] is to be copied. *)
Definition copying (h0 h : Heap) (out : loc) (s : gset loc) (ds : list T) (copied rest : list P) (ts : list T)
  : Prop :=
  h0 ⊆ h ∧ out ∉ dom h0 ∧ s ⊆ dom h0 ∧
  h !! out = Some (to_cell (copied ++ replicate (length rest) empty)) ∧
  Forall2 (λ v t, mem h v t (new_locations h0 h ∖ {[out]})) copied ds ∧
  Forall2 (λ v t, mem h v t s) rest ts.

Lemma copying_step h0 h out s ds copied v rest t ts :
  copying h0 h out s ds copied (v :: rest) (t :: ts) →
  ∃ v' h', f v h = Ret v' h' ∧
    load out h' = Ret (copied ++ replicate (length (v :: rest)) empty) h' ∧
    copying h0 (<[out := to_cell (<[length copied := v']> (copied ++ replicate (length (v :: rest)) empty))]> h')
      out s (ds ++ [t]) (copied ++ [v']) rest ts.
Proof.
  intros (Hh0 & Hout & Hs & Hcell & Hc & Hr). inversion Hr as [|???? Hv Hr']; subst.
  assert (out ∈ dom h) as Hin by by eapply elem_of_dom_2.
  assert (s ⊆ dom h) as Hsh by (apply subseteq_dom in Hh0; set_solver).
  destruct (Hf h v t s Hv Hsh) as (v' & h' & Hrun & Hh & Hm').
  pose proof (subseteq_dom _ _ Hh) as Hdom. pose proof (subseteq_dom _ _ Hh0) as Hdom0.
  exists v', h'. split; [done|]. split; [apply run_load; by eapply lookup_weaken|].
  split_and!; [by apply store_grows; [etrans|]|done|done| | |].
  - rewrite lookup_insert_eq. do 2 f_equal. cbn [length replicate].
    rewrite insert_app_r_alt by lia. by rewrite Nat.sub_diag, <- app_assoc.
  - apply Forall2_app; [|constructor; [|constructor]].
    + eapply Forall2_impl; [exact Hc|]. cbn. intros x y Hxy. unfold new_locations in *.
      eapply mem_store; [exact Hxy|done|set_solver..].
    + unfold new_locations in *. eapply mem_store; [exact Hm'|done|set_solver..].
  - eapply Forall2_impl; [exact Hr'|]. cbn. intros x y Hxy.
    eapply mem_store; [exact Hxy|done|set_solver..].
Qed.

Lemma copy_elements_copies h0 out s rest : ∀ h ds copied ts,
  copying h0 h out s ds copied rest ts →
  ∃ h' vs, copy_elements f out (length copied) rest h = Ret tt h' ∧
    copying h0 h' out s (ds ++ ts) vs [] [].
Proof.
  induction rest as [|v rest IH]; intros h ds copied ts Hc.
  - exists h, copied. split; [done|]. pose proof Hc as (_ & _ & _ & _ & _ & Hr).
    inversion Hr; subst. by rewrite app_nil_r.
  - destruct ts as [|t ts]; [by destruct Hc as (_ & _ & _ & _ & _ & Hr); inversion Hr|].
    destruct (copying_step _ _ _ _ _ _ _ _ _ _ Hc) as (v' & h' & Hrun & Hload & Hc').
    destruct (IH _ _ _ _ Hc') as (h'' & vs & Hrest & Hc'').
    exists h'', vs. rewrite <- app_assoc in Hc''. split; [|done]. cbn [copy_elements].
    rewrite (bind_run _ _ _ _ _ Hrun), (bind_run _ _ _ _ _ Hload).
    rewrite length_app, Nat.add_1_r in Hrest. exact Hrest.
Qed.

Lemma copies_slice : copies (P := Slice P) (T := list T) (copy_slice empty f).
Proof.
  intros h p ts s Hm Hs. destruct p as [a|]; [|by exists None, h].
  destruct Hm as (Ha & vs & Hv & Hm). set (out := fresh (dom h)).
  assert (out ∉ dom h) as Hout by apply is_fresh.
  set (h1 := <[out := to_cell (replicate (length vs) empty)]> h).
  assert (copying h h1 out s [] [] vs ts) as Hc.
  { split_and!; [by apply store_grows|done|done|apply lookup_insert_eq|constructor|].
    eapply Forall2_impl; [exact Hm|]. cbn. intros v t Hvt.
    eapply mem_store; [exact Hvt|done|set_solver..]. }
  destruct (copy_elements_copies _ _ _ _ _ _ _ _ Hc) as (h' & ws & Hrun & Hd & _ & _ & Hcell & Hws & _).
  exists (Some out), h'. split; [|split; [done|]].
  - unfold copy_slice. rewrite (bind_run _ _ _ vs h) by by apply run_load.
    rewrite (bind_run (alloc _) _ h out h1) by done. by rewrite (bind_run _ _ _ _ _ Hrun).
  - rewrite app_nil_r in Hcell. assert (out ∈ dom h') by by eapply elem_of_dom_2.
    split; [unfold new_locations; set_solver|]. exists ws. split; [done|].
    eapply Forall2_impl; [exact Hws|]. cbn. intros v t Hvt.
    eapply mem_local; [exact Hvt|set_solver|done].
Qed.
End slices.

(** ** What a deep copy is good for *)

(** The original stays, the copy shares nothing with it, and either survives any later change of the
    locations of the other. *)
Lemma makes_independent {P T} `{MemLocal P T} (h : Heap) (m : M Heap P) p t s :
  mem h p t s → s ⊆ dom h → makes h h m t →
  ∃ p' h' s', m h = Ret p' h' ∧ h ⊆ h' ∧ s' ## dom h ∧
    (∀ h'', (∀ l, l ∉ s → h'' !! l = h' !! l) → mem h'' p' t s') ∧
    (∀ h'', (∀ l, l ∉ s' → h'' !! l = h' !! l) → mem h'' p t s).
Proof.
  intros Hm Hs (p' & h' & Hrun & Hh & Hm').
  exists p', h', (new_locations h h'). unfold new_locations in *.
  split_and!; [done|done|set_solver| |]; intros h'' Hh''.
  - eapply mem_local; [exact Hm'|done|]. intros l Hl. symmetry. apply Hh''. set_solver.
  - eapply mem_local; [exact Hm|done|]. intros l Hl. rewrite Hh'' by set_solver. by eapply grow_agrees.
Qed.
End memory.

#[export] Existing Instances mem_base mem_base_local mem_pointer mem_pointer_local mem_slice mem_slice_local.

#[export] Existing Instances copies_base copies_pointer copies_slice.

(** Runs the copy of the next field in a proof of [makes h0 h0 (...) t]. *)
Ltac copy_field :=
  lazymatch goal with
  | Hm : mem ?h0 ?p ?t ?s, Hs : ?s ⊆ dom ?h0, Hh : ?h0 ⊆ ?h |- context [(?f ?p ≫= _) ?h] =>
      let p' := fresh "p'" in let h' := fresh "h'" in let Hrun := fresh "Hrun" in
      let Hgrow := fresh "Hgrow" in let Hm' := fresh "Hm'" in
      destruct (copies_next f h0 h p t s) as (p' & h' & Hrun & Hgrow & Hm');
      [solve [apply _]|exact Hm|exact Hs|exact Hh|];
      rewrite (bind_run _ _ _ _ _ Hrun); clear Hrun Hm;
      repeat match goal with
      | Hc : mem h ?q ?u (new_locations h0 h) |- _ =>
          apply (copy_grow h0 h0 h h' q u) in Hc; [|done|exact Hgrow]
      end;
      assert (h0 ⊆ h') by (by etrans)
  end.
(** All fields are copied: the copy of the struct. *)
Ltac copy_done :=
  eexists _, _; split; [reflexivity|]; split; [done|];
  refine (conj _ _); repeat first [assumption | refine (conj _ _)].
Ltac copy_struct :=
  lazymatch goal with
  | Hm : mem ?h ?p ?t ?s |- makes ?h ?h _ _ =>
      assert (h ⊆ h) by done; unfold makes; repeat copy_field; copy_done
  end.
