(* ===== verification/DeepCopy.v ===== *)
(** * zz_generated.deepcopy.go: the deep copies of the API types

    One record per struct as it is in memory, with pointers and slices ([Memory]), the generated
    functions, and what a value in memory stands for ([Types]).  [x.DeepCopyInto(&y)] is a function that
    returns what it leaves in [y].  A function starts with [*out = *in], which copies every field, and
    then replaces those with pointers; here the result is put together from the fields at the end.

    The deep copies of [ObjectMeta], [PodTemplateSpec] and [metav1.Status] belong to Kubernetes.  They
    and the representation of these structs in memory are parameters, and that they are deep copies is
    a hypothesis; [DeepCopyObject_correct_witness] gives an instance. *)
From S2P Require Import Prelude Types Memory.

(** [metav1.ListMeta] and the list type, which the rest of the development does not need. *)
Record ListMeta := mkListMeta { lm_SelfLink : string; lm_ResourceVersion : string; lm_Continue : string }.
Record MXJobList := mkMXJobList {
  list_TypeMeta : TypeMeta; list_Meta : ListMeta; list_Items : list MXJob }.
(** A notification with its [TypeMeta]. *)
Record TypedNotification := mkTypedNotification {
  tn_TypeMeta : TypeMeta; tn_Notification : Notification }.

Section deep_copy.
(** The Kubernetes structs in memory, with their zero values; [X] is what else they reach. *)
Context {OM PT MS X : Type} (zero_OM : OM) (zero_PT : PT) (zero_MS : MS).

(** ** The structs in memory

    [MXReplicaStatus], [MXJobCondition], [TypeMeta] and [GroupVersionKind] hold no pointers ([Time] has
    them only to immutable data) and are as in [Types]. *)
Record mServiceReference := mk_mServiceReference {
  msref_Namespace : string; msref_Name : string; msref_Path : Ptr string }.
(** [CABundle] is a slice of bytes; its array is kept as one string. *)
Record mWebhookClientConfig := mk_mWebhookClientConfig {
  mcc_URL : Ptr string; mcc_Service : Ptr mServiceReference; mcc_CABundle : Ptr string }.
Record mWebhook := mk_mWebhook { mwh_Name : string; mwh_ClientConfig : mWebhookClientConfig }.
Record mMXReplicaSpec := mk_mMXReplicaSpec {
  mspec_Replicas : Ptr Z; mspec_Template : Ptr PT; mspec_PsRootPort : Ptr Z; mspec_PsVerbose : Ptr Z }.
Record mMXReplicaSpecs := mk_mMXReplicaSpecs {
  mspecs_Scheduler : Ptr mMXReplicaSpec;
  mspecs_Server : Ptr mMXReplicaSpec;
  mspecs_Worker : Ptr mMXReplicaSpec }.
Record mMXJobSpec := mk_mMXJobSpec {
  mjobspec_MXReplicaSpecs : mMXReplicaSpecs;
  mjobspec_StartWebhook : Ptr mWebhook;
  mjobspec_FinishWebhook : Ptr mWebhook }.
Record mMXReplicaStatuses := mk_mMXReplicaStatuses {
  mrss_Scheduler : Ptr MXReplicaStatus;
  mrss_Server : Ptr MXReplicaStatus;
  mrss_Worker : Ptr MXReplicaStatus }.
Record mMXJobStatus := mk_mMXJobStatus {
  mst_ReplicaStatuses : mMXReplicaStatuses;
  mst_StartTime : Ptr Time;
  mst_CompletionTime : Ptr Time;
  mst_Conditions : Slice MXJobCondition }.
Record mMXJob := mk_mMXJob {
  mjob_TypeMeta : TypeMeta; mjob_Meta : OM; mjob_Spec : mMXJobSpec; mjob_Status : mMXJobStatus }.
Record mMXJobList := mk_mMXJobList {
  mlist_TypeMeta : TypeMeta; mlist_Meta : ListMeta; mlist_Items : Slice mMXJob }.
Record mNotificationRequest := mk_mNotificationRequest {
  mnreq_UID : string; mnreq_Kind : GroupVersionKind; mnreq_Name : string; mnreq_Namespace : string;
  mnreq_Status : mMXJobStatus; mnreq_DeletionTimestamp : Ptr Time }.
Record mNotificationResponse := mk_mNotificationResponse {
  mnresp_UID : string; mnresp_Result : Ptr MS }.
Record mNotification := mk_mNotification {
  mnotif_TypeMeta : TypeMeta;
  mnotif_Request : Ptr mNotificationRequest;
  mnotif_Response : Ptr mNotificationResponse }.

(** What a location can hold: a value some pointer points to, or the array of a slice. *)
Inductive Cell :=
| CNumber (z : Z)          (* int32 and Time *)
| CString (s : string)     (* string, and the array of a slice of bytes *)
| CServiceReference (r : mServiceReference)
| CWebhook (w : mWebhook)
| CReplicaSpec (r : mMXReplicaSpec)
| CReplicaSpecs (r : mMXReplicaSpecs)
| CJobSpec (s : mMXJobSpec)
| CReplicaStatus (r : MXReplicaStatus)
| CReplicaStatuses (r : mMXReplicaStatuses)
| CCondition (c : MXJobCondition)
| CConditions (l : list MXJobCondition)
| CStatus (s : mMXJobStatus)
| CJob (j : mMXJob)
| CJobs (l : list mMXJob)
| CJobList (l : mMXJobList)
| CTemplate (t : PT)
| CMetaStatus (s : MS)
| CRequest (r : mNotificationRequest)
| CResponse (r : mNotificationResponse)
| CNotification (n : mNotification)
| COther (x : X).
Notation Heap := (gmap loc Cell).

(** Zero values. *)
Definition zero_condition : MXJobCondition := mkMXJobCondition "" "" "" "" 0 0.
Definition zero_status : mMXJobStatus :=
  mk_mMXJobStatus (mk_mMXReplicaStatuses None None None) None None None.
Definition zero_job : mMXJob :=
  mk_mMXJob (mkTypeMeta "" "") zero_OM (mk_mMXJobSpec (mk_mMXReplicaSpecs None None None) None None) zero_status.

#[local] Instance stored_number : Stored (Cell := Cell) Z :=
  {| to_cell := CNumber; of_cell c := match c with CNumber v => Some v | _ => None end;
     zero := 0; of_to_cell v := eq_refl |}.
#[local] Instance stored_string : Stored (Cell := Cell) string :=
  {| to_cell := CString; of_cell c := match c with CString v => Some v | _ => None end;
     zero := ""; of_to_cell v := eq_refl |}.
#[local] Instance stored_ServiceReference : Stored (Cell := Cell) mServiceReference :=
  {| to_cell := CServiceReference; of_cell c := match c with CServiceReference v => Some v | _ => None end;
     zero := mk_mServiceReference "" "" None; of_to_cell v := eq_refl |}.
#[local] Instance stored_Webhook : Stored (Cell := Cell) mWebhook :=
  {| to_cell := CWebhook; of_cell c := match c with CWebhook v => Some v | _ => None end;
     zero := mk_mWebhook "" (mk_mWebhookClientConfig None None None); of_to_cell v := eq_refl |}.
#[local] Instance stored_MXReplicaSpec : Stored (Cell := Cell) mMXReplicaSpec :=
  {| to_cell := CReplicaSpec; of_cell c := match c with CReplicaSpec v => Some v | _ => None end;
     zero := mk_mMXReplicaSpec None None None None; of_to_cell v := eq_refl |}.
#[local] Instance stored_MXReplicaSpecs : Stored (Cell := Cell) mMXReplicaSpecs :=
  {| to_cell := CReplicaSpecs; of_cell c := match c with CReplicaSpecs v => Some v | _ => None end;
     zero := mk_mMXReplicaSpecs None None None; of_to_cell v := eq_refl |}.
#[local] Instance stored_MXJobSpec : Stored (Cell := Cell) mMXJobSpec :=
  {| to_cell := CJobSpec; of_cell c := match c with CJobSpec v => Some v | _ => None end;
     zero := mk_mMXJobSpec (mk_mMXReplicaSpecs None None None) None None; of_to_cell v := eq_refl |}.
#[local] Instance stored_MXReplicaStatus : Stored (Cell := Cell) MXReplicaStatus :=
  {| to_cell := CReplicaStatus; of_cell c := match c with CReplicaStatus v => Some v | _ => None end;
     zero := mkMXReplicaStatus 0 0 0 0; of_to_cell v := eq_refl |}.
#[local] Instance stored_MXReplicaStatuses : Stored (Cell := Cell) mMXReplicaStatuses :=
  {| to_cell := CReplicaStatuses; of_cell c := match c with CReplicaStatuses v => Some v | _ => None end;
     zero := mk_mMXReplicaStatuses None None None; of_to_cell v := eq_refl |}.
#[local] Instance stored_MXJobCondition : Stored (Cell := Cell) MXJobCondition :=
  {| to_cell := CCondition; of_cell c := match c with CCondition v => Some v | _ => None end;
     zero := zero_condition; of_to_cell v := eq_refl |}.
#[local] Instance stored_conditions : Stored (Cell := Cell) (list MXJobCondition) :=
  {| to_cell := CConditions; of_cell c := match c with CConditions v => Some v | _ => None end;
     zero := []; of_to_cell v := eq_refl |}.
#[local] Instance stored_MXJobStatus : Stored (Cell := Cell) mMXJobStatus :=
  {| to_cell := CStatus; of_cell c := match c with CStatus v => Some v | _ => None end;
     zero := zero_status; of_to_cell v := eq_refl |}.
#[local] Instance stored_MXJob : Stored (Cell := Cell) mMXJob :=
  {| to_cell := CJob; of_cell c := match c with CJob v => Some v | _ => None end;
     zero := zero_job; of_to_cell v := eq_refl |}.
#[local] Instance stored_jobs : Stored (Cell := Cell) (list mMXJob) :=
  {| to_cell := CJobs; of_cell c := match c with CJobs v => Some v | _ => None end;
     zero := []; of_to_cell v := eq_refl |}.
#[local] Instance stored_MXJobList : Stored (Cell := Cell) mMXJobList :=
  {| to_cell := CJobList; of_cell c := match c with CJobList v => Some v | _ => None end;
     zero := mk_mMXJobList (mkTypeMeta "" "") (mkListMeta "" "" "") None; of_to_cell v := eq_refl |}.
#[local] Instance stored_PodTemplateSpec : Stored (Cell := Cell) PT :=
  {| to_cell := CTemplate; of_cell c := match c with CTemplate v => Some v | _ => None end;
     zero := zero_PT; of_to_cell v := eq_refl |}.
#[local] Instance stored_MetaStatus : Stored (Cell := Cell) MS :=
  {| to_cell := CMetaStatus; of_cell c := match c with CMetaStatus v => Some v | _ => None end;
     zero := zero_MS; of_to_cell v := eq_refl |}.
#[local] Instance stored_NotificationRequest : Stored (Cell := Cell) mNotificationRequest :=
  {| to_cell := CRequest; of_cell c := match c with CRequest v => Some v | _ => None end;
     zero := mk_mNotificationRequest "" (mkGVK "" "" "") "" "" zero_status None; of_to_cell v := eq_refl |}.
#[local] Instance stored_NotificationResponse : Stored (Cell := Cell) mNotificationResponse :=
  {| to_cell := CResponse; of_cell c := match c with CResponse v => Some v | _ => None end;
     zero := mk_mNotificationResponse "" None; of_to_cell v := eq_refl |}.
#[local] Instance stored_Notification : Stored (Cell := Cell) mNotification :=
  {| to_cell := CNotification; of_cell c := match c with CNotification v => Some v | _ => None end;
     zero := mk_mNotification (mkTypeMeta "" "") None None; of_to_cell v := eq_refl |}.

(** ** The generated functions *)
Context (ObjectMeta_DeepCopyInto : OM → M Heap OM).
Context (PodTemplateSpec_DeepCopyInto : PT → M Heap PT).
Context (MetaStatus_DeepCopyInto : MS → M Heap MS).

(** [func (in *T) DeepCopy() *T { if in == nil { return nil }; out := new(T); in.DeepCopyInto(out);
    return out }] *)
Definition deep_copy {T} `{Stored Cell T} (DeepCopyInto : T → M Heap T) (in_ : Ptr T) : M Heap (Ptr T) :=
  match in_ with
  | None => mret None
  | Some l =>
      out ← alloc zero;
      v ← load l;
      v' ← DeepCopyInto v;
      store out v';;
      mret (Some out)
  end.

Definition Time_DeepCopyInto (in_ : Time) : M Heap Time := mret in_.
Definition ServiceReference_DeepCopyInto (in_ : mServiceReference) : M Heap mServiceReference :=
  path ← copy_pointer mret (msref_Path in_);
  mret (mk_mServiceReference (msref_Namespace in_) (msref_Name in_) path).
Definition WebhookClientConfig_DeepCopyInto (in_ : mWebhookClientConfig) : M Heap mWebhookClientConfig :=
  url ← copy_pointer mret (mcc_URL in_);
  service ← copy_pointer ServiceReference_DeepCopyInto (mcc_Service in_);
  caBundle ← copy_pointer mret (mcc_CABundle in_);
  mret (mk_mWebhookClientConfig url service caBundle).

Definition Webhook_DeepCopyInto (in_ : mWebhook) : M Heap mWebhook :=
  clientConfig ← WebhookClientConfig_DeepCopyInto (mwh_ClientConfig in_);
  mret (mk_mWebhook (mwh_Name in_) clientConfig).
Definition Webhook_DeepCopy : Ptr mWebhook → M Heap (Ptr mWebhook) := deep_copy Webhook_DeepCopyInto.

Definition MXReplicaSpec_DeepCopyInto (in_ : mMXReplicaSpec) : M Heap mMXReplicaSpec :=
  replicas ← copy_pointer mret (mspec_Replicas in_);
  template ← copy_pointer PodTemplateSpec_DeepCopyInto (mspec_Template in_);
  psRootPort ← copy_pointer mret (mspec_PsRootPort in_);
  psVerbose ← copy_pointer mret (mspec_PsVerbose in_);
  mret (mk_mMXReplicaSpec replicas template psRootPort psVerbose).
Definition MXReplicaSpec_DeepCopy : Ptr mMXReplicaSpec → M Heap (Ptr mMXReplicaSpec) :=
  deep_copy MXReplicaSpec_DeepCopyInto.

Definition MXReplicaSpecs_DeepCopyInto (in_ : mMXReplicaSpecs) : M Heap mMXReplicaSpecs :=
  scheduler ← copy_pointer MXReplicaSpec_DeepCopyInto (mspecs_Scheduler in_);
  server ← copy_pointer MXReplicaSpec_DeepCopyInto (mspecs_Server in_);
  worker ← copy_pointer MXReplicaSpec_DeepCopyInto (mspecs_Worker in_);
  mret (mk_mMXReplicaSpecs scheduler server worker).
Definition MXReplicaSpecs_DeepCopy : Ptr mMXReplicaSpecs → M Heap (Ptr mMXReplicaSpecs) :=
  deep_copy MXReplicaSpecs_DeepCopyInto.

Definition MXJobSpec_DeepCopyInto (in_ : mMXJobSpec) : M Heap mMXJobSpec :=
  specs ← MXReplicaSpecs_DeepCopyInto (mjobspec_MXReplicaSpecs in_);
  startWebhook ← copy_pointer Webhook_DeepCopyInto (mjobspec_StartWebhook in_);
  finishWebhook ← copy_pointer Webhook_DeepCopyInto (mjobspec_FinishWebhook in_);
  mret (mk_mMXJobSpec specs startWebhook finishWebhook).
Definition MXJobSpec_DeepCopy : Ptr mMXJobSpec → M Heap (Ptr mMXJobSpec) := deep_copy MXJobSpec_DeepCopyInto.

Definition MXReplicaStatus_DeepCopyInto (in_ : MXReplicaStatus) : M Heap MXReplicaStatus := mret in_.
Definition MXReplicaStatus_DeepCopy : Ptr MXReplicaStatus → M Heap (Ptr MXReplicaStatus) :=
  deep_copy MXReplicaStatus_DeepCopyInto.

Definition MXReplicaStatuses_DeepCopyInto (in_ : mMXReplicaStatuses) : M Heap mMXReplicaStatuses :=
  scheduler ← copy_pointer mret (mrss_Scheduler in_);
  server ← copy_pointer mret (mrss_Server in_);
  worker ← copy_pointer mret (mrss_Worker in_);
  mret (mk_mMXReplicaStatuses scheduler server worker).
Definition MXReplicaStatuses_DeepCopy : Ptr mMXReplicaStatuses → M Heap (Ptr mMXReplicaStatuses) :=
  deep_copy MXReplicaStatuses_DeepCopyInto.

Definition MXJobCondition_DeepCopyInto (in_ : MXJobCondition) : M Heap MXJobCondition :=
  lastUpdateTime ← Time_DeepCopyInto (cond_LastUpdateTime in_);
  lastTransitionTime ← Time_DeepCopyInto (cond_LastTransitionTime in_);
  mret (mkMXJobCondition (cond_Type in_) (cond_Status in_) (cond_Reason in_) (cond_Message in_)
          lastUpdateTime lastTransitionTime).
Definition MXJobCondition_DeepCopy : Ptr MXJobCondition → M Heap (Ptr MXJobCondition) :=
  deep_copy MXJobCondition_DeepCopyInto.

Definition MXJobStatus_DeepCopyInto (in_ : mMXJobStatus) : M Heap mMXJobStatus :=
  replicaStatuses ← MXReplicaStatuses_DeepCopyInto (mst_ReplicaStatuses in_);
  startTime ← copy_pointer Time_DeepCopyInto (mst_StartTime in_);
  completionTime ← copy_pointer Time_DeepCopyInto (mst_CompletionTime in_);
  conditions ← copy_slice zero_condition MXJobCondition_DeepCopyInto (mst_Conditions in_);
  mret (mk_mMXJobStatus replicaStatuses startTime completionTime conditions).
Definition MXJobStatus_DeepCopy : Ptr mMXJobStatus → M Heap (Ptr mMXJobStatus) :=
  deep_copy MXJobStatus_DeepCopyInto.

Definition MXJob_DeepCopyInto (in_ : mMXJob) : M Heap mMXJob :=
  objectMeta ← ObjectMeta_DeepCopyInto (mjob_Meta in_);
  spec ← MXJobSpec_DeepCopyInto (mjob_Spec in_);
  status ← MXJobStatus_DeepCopyInto (mjob_Status in_);
  mret (mk_mMXJob (mjob_TypeMeta in_) objectMeta spec status).
Definition MXJob_DeepCopy : Ptr mMXJob → M Heap (Ptr mMXJob) := deep_copy MXJob_DeepCopyInto.

Definition MXJobList_DeepCopyInto (in_ : mMXJobList) : M Heap mMXJobList :=
  items ← copy_slice zero_job MXJob_DeepCopyInto (mlist_Items in_);
  mret (mk_mMXJobList (mlist_TypeMeta in_) (mlist_Meta in_) items).
Definition MXJobList_DeepCopy : Ptr mMXJobList → M Heap (Ptr mMXJobList) := deep_copy MXJobList_DeepCopyInto.

Definition NotificationRequest_DeepCopyInto (in_ : mNotificationRequest) : M Heap mNotificationRequest :=
  status ← MXJobStatus_DeepCopyInto (mnreq_Status in_);
  deletionTimestamp ← copy_pointer Time_DeepCopyInto (mnreq_DeletionTimestamp in_);
  mret (mk_mNotificationRequest (mnreq_UID in_) (mnreq_Kind in_) (mnreq_Name in_) (mnreq_Namespace in_)
          status deletionTimestamp).
Definition NotificationRequest_DeepCopy : Ptr mNotificationRequest → M Heap (Ptr mNotificationRequest) :=
  deep_copy NotificationRequest_DeepCopyInto.

Definition NotificationResponse_DeepCopyInto (in_ : mNotificationResponse) : M Heap mNotificationResponse :=
  result ← copy_pointer MetaStatus_DeepCopyInto (mnresp_Result in_);
  mret (mk_mNotificationResponse (mnresp_UID in_) result).
Definition NotificationResponse_DeepCopy : Ptr mNotificationResponse → M Heap (Ptr mNotificationResponse) :=
  deep_copy NotificationResponse_DeepCopyInto.

Definition Notification_DeepCopyInto (in_ : mNotification) : M Heap mNotification :=
  request ← copy_pointer NotificationRequest_DeepCopyInto (mnotif_Request in_);
  response ← copy_pointer NotificationResponse_DeepCopyInto (mnotif_Response in_);
  mret (mk_mNotification (mnotif_TypeMeta in_) request response).
Definition Notification_DeepCopy : Ptr mNotification → M Heap (Ptr mNotification) :=
  deep_copy Notification_DeepCopyInto.

(** [runtime.Object]: the registered types; [None] is the nil interface, which is not a nil pointer
    in the interface. *)
Inductive Object :=
| OMXJob (p : Ptr mMXJob)
| OMXJobList (p : Ptr mMXJobList)
| ONotification (p : Ptr mNotification).
Definition not_nil {T} (into : Ptr T → Object) (c : Ptr T) : option Object :=
  match c with Some l => Some (into (Some l)) | None => None end.
Definition MXJob_DeepCopyObject (in_ : Ptr mMXJob) : M Heap (option Object) :=
  c ← MXJob_DeepCopy in_; mret (not_nil OMXJob c).
Definition MXJobList_DeepCopyObject (in_ : Ptr mMXJobList) : M Heap (option Object) :=
  c ← MXJobList_DeepCopy in_; mret (not_nil OMXJobList c).
Definition Notification_DeepCopyObject (in_ : Ptr mNotification) : M Heap (option Object) :=
  c ← Notification_DeepCopy in_; mret (not_nil ONotification c).
(** The method call on an interface value. *)
Definition DeepCopyObject (o : Object) : M Heap (option Object) :=
  match o with
  | OMXJob p => MXJob_DeepCopyObject p
  | OMXJobList p => MXJobList_DeepCopyObject p
  | ONotification p => Notification_DeepCopyObject p
  end.

(** ** What the values in memory stand for *)
Context {om_mem : Mem (Cell := Cell) OM ObjectMeta} {om_local : MemLocal (Cell := Cell) OM ObjectMeta}.
Context {pt_mem : Mem (Cell := Cell) PT PodTemplateSpec} {pt_local : MemLocal (Cell := Cell) PT PodTemplateSpec}.
Context {ms_mem : Mem (Cell := Cell) MS MetaStatus} {ms_local : MemLocal (Cell := Cell) MS MetaStatus}.

#[local] Instance mem_ServiceReference : Mem (Cell := Cell) mServiceReference ServiceReference := λ h p t s,
  msref_Namespace p = sref_Namespace t ∧ msref_Name p = sref_Name t ∧ mem h (msref_Path p) (sref_Path t) s.
#[local] Instance mem_WebhookClientConfig : Mem (Cell := Cell) mWebhookClientConfig WebhookClientConfig :=
  λ h p t s, mem h (mcc_URL p) (cc_URL t) s ∧ mem h (mcc_Service p) (cc_Service t) s ∧
             mem h (mcc_CABundle p) (cc_CABundle t) s.
#[local] Instance mem_Webhook : Mem (Cell := Cell) mWebhook Webhook := λ h p t s,
  mwh_Name p = wh_Name t ∧ mem h (mwh_ClientConfig p) (wh_ClientConfig t) s.
#[local] Instance mem_MXReplicaSpec : Mem (Cell := Cell) mMXReplicaSpec MXReplicaSpec := λ h p t s,
  mem h (mspec_Replicas p) (spec_Replicas t) s ∧ mem h (mspec_Template p) (spec_Template t) s ∧
  mem h (mspec_PsRootPort p) (spec_PsRootPort t) s ∧ mem h (mspec_PsVerbose p) (spec_PsVerbose t) s.
#[local] Instance mem_MXReplicaSpecs : Mem (Cell := Cell) mMXReplicaSpecs MXReplicaSpecs := λ h p t s,
  mem h (mspecs_Scheduler p) (specs_Scheduler t) s ∧ mem h (mspecs_Server p) (specs_Server t) s ∧
  mem h (mspecs_Worker p) (specs_Worker t) s.
#[local] Instance mem_MXJobSpec : Mem (Cell := Cell) mMXJobSpec MXJobSpec := λ h p t s,
  mem h (mjobspec_MXReplicaSpecs p) (jobspec_MXReplicaSpecs t) s ∧
  mem h (mjobspec_StartWebhook p) (jobspec_StartWebhook t) s ∧
  mem h (mjobspec_FinishWebhook p) (jobspec_FinishWebhook t) s.
#[local] Instance mem_MXReplicaStatuses : Mem (Cell := Cell) mMXReplicaStatuses MXReplicaStatuses := λ h p t s,
  mem h (mrss_Scheduler p) (rss_Scheduler t) s ∧ mem h (mrss_Server p) (rss_Server t) s ∧
  mem h (mrss_Worker p) (rss_Worker t) s.
#[local] Instance mem_MXJobStatus : Mem (Cell := Cell) mMXJobStatus MXJobStatus := λ h p t s,
  mem h (mst_ReplicaStatuses p) (st_ReplicaStatuses t) s ∧ mem h (mst_StartTime p) (st_StartTime t) s ∧
  mem h (mst_CompletionTime p) (st_CompletionTime t) s ∧ mem h (mst_Conditions p) (st_Conditions t) s.
#[local] Instance mem_MXJob : Mem (Cell := Cell) mMXJob MXJob := λ h p t s,
  mjob_TypeMeta p = job_TypeMeta t ∧ mem h (mjob_Meta p) (job_Meta t) s ∧
  mem h (mjob_Spec p) (job_Spec t) s ∧ mem h (mjob_Status p) (job_Status t) s.
#[local] Instance mem_MXJobList : Mem (Cell := Cell) mMXJobList MXJobList := λ h p t s,
  mlist_TypeMeta p = list_TypeMeta t ∧ mlist_Meta p = list_Meta t ∧ mem h (mlist_Items p) (list_Items t) s.
#[local] Instance mem_NotificationRequest : Mem (Cell := Cell) mNotificationRequest NotificationRequest :=
  λ h p t s,
    mnreq_UID p = nreq_UID t ∧ mnreq_Kind p = nreq_Kind t ∧ mnreq_Name p = nreq_Name t ∧
    mnreq_Namespace p = nreq_Namespace t ∧ mem h (mnreq_Status p) (nreq_Status t) s ∧
    mem h (mnreq_DeletionTimestamp p) (nreq_DeletionTimestamp t) s.
#[local] Instance mem_NotificationResponse : Mem (Cell := Cell) mNotificationResponse NotificationResponse :=
  λ h p t s, mnresp_UID p = nresp_UID t ∧ mem h (mnresp_Result p) (nresp_Result t) s.
#[local] Instance mem_Notification : Mem (Cell := Cell) mNotification TypedNotification := λ h p t s,
  mnotif_TypeMeta p = tn_TypeMeta t ∧ mem h (mnotif_Request p) (notif_Request (tn_Notification t)) s ∧
  mem h (mnotif_Response p) (notif_Response (tn_Notification t)) s.

(** A struct depends on what its fields reach. *)
Ltac local_struct :=
  intros h h' p t s s' Hm Hs Hh;
  repeat (let Hf := fresh "Hf" in destruct Hm as [Hf Hm]);
  refine (conj _ _); repeat first [assumption | by eapply mem_local | refine (conj _ _)].
#[local] Instance local_ServiceReference : MemLocal (Cell := Cell) mServiceReference ServiceReference.
Proof. local_struct. Qed.
#[local] Instance local_WebhookClientConfig : MemLocal (Cell := Cell) mWebhookClientConfig WebhookClientConfig.
Proof. local_struct. Qed.
#[local] Instance local_Webhook : MemLocal (Cell := Cell) mWebhook Webhook.
Proof. local_struct. Qed.
#[local] Instance local_MXReplicaSpec : MemLocal (Cell := Cell) mMXReplicaSpec MXReplicaSpec.
Proof. local_struct. Qed.
#[local] Instance local_MXReplicaSpecs : MemLocal (Cell := Cell) mMXReplicaSpecs MXReplicaSpecs.
Proof. local_struct. Qed.
#[local] Instance local_MXJobSpec : MemLocal (Cell := Cell) mMXJobSpec MXJobSpec.
Proof. local_struct. Qed.
#[local] Instance local_MXReplicaStatuses : MemLocal (Cell := Cell) mMXReplicaStatuses MXReplicaStatuses.
Proof. local_struct. Qed.
#[local] Instance local_MXJobStatus : MemLocal (Cell := Cell) mMXJobStatus MXJobStatus.
Proof. local_struct. Qed.
#[local] Instance local_MXJob : MemLocal (Cell := Cell) mMXJob MXJob.
Proof. local_struct. Qed.
#[local] Instance local_MXJobList : MemLocal (Cell := Cell) mMXJobList MXJobList.
Proof. local_struct. Qed.
#[local] Instance local_NotificationRequest : MemLocal (Cell := Cell) mNotificationRequest NotificationRequest.
Proof. local_struct. Qed.
#[local] Instance local_NotificationResponse : MemLocal (Cell := Cell) mNotificationResponse NotificationResponse.
Proof. local_struct. Qed.
#[local] Instance local_Notification : MemLocal (Cell := Cell) mNotification TypedNotification.
Proof. local_struct. Qed.

(** ** The generated functions are deep copies *)
Context {copies_ObjectMeta : copies ObjectMeta_DeepCopyInto}.
Context {copies_PodTemplateSpec : copies PodTemplateSpec_DeepCopyInto}.
Context {copies_MetaStatus : copies MetaStatus_DeepCopyInto}.

#[local] Instance copies_Time : copies (P := Time) Time_DeepCopyInto.
Proof. exact copies_base. Qed.
#[local] Instance copies_ServiceReference : copies (T := ServiceReference) ServiceReference_DeepCopyInto.
Proof. intros h p t s (Hns & Hname & Hpath) Hs. unfold ServiceReference_DeepCopyInto. copy_struct. Qed.
#[local] Instance copies_WebhookClientConfig : copies (T := WebhookClientConfig) WebhookClientConfig_DeepCopyInto.
Proof. intros h p t s (Hurl & Hservice & Hca) Hs. unfold WebhookClientConfig_DeepCopyInto. copy_struct. Qed.
#[local] Instance copies_Webhook : copies (T := Webhook) Webhook_DeepCopyInto.
Proof. intros h p t s (Hname & Hconfig) Hs. unfold Webhook_DeepCopyInto. copy_struct. Qed.
#[local] Instance copies_MXReplicaSpec : copies (T := MXReplicaSpec) MXReplicaSpec_DeepCopyInto.
Proof. intros h p t s (Hreplicas & Htemplate & Hport & Hverbose) Hs. unfold MXReplicaSpec_DeepCopyInto. copy_struct. Qed.
#[local] Instance copies_MXReplicaSpecs : copies (T := MXReplicaSpecs) MXReplicaSpecs_DeepCopyInto.
Proof. intros h p t s (Hscheduler & Hserver & Hworker) Hs. unfold MXReplicaSpecs_DeepCopyInto. copy_struct. Qed.
#[local] Instance copies_MXJobSpec : copies (T := MXJobSpec) MXJobSpec_DeepCopyInto.
Proof. intros h p t s (Hspecs & Hstart & Hfinish) Hs. unfold MXJobSpec_DeepCopyInto. copy_struct. Qed.
#[local] Instance copies_MXReplicaStatus : copies (T := MXReplicaStatus) MXReplicaStatus_DeepCopyInto.
Proof. exact copies_base. Qed.
#[local] Instance copies_MXReplicaStatuses : copies (T := MXReplicaStatuses) MXReplicaStatuses_DeepCopyInto.
Proof. intros h p t s (Hscheduler & Hserver & Hworker) Hs. unfold MXReplicaStatuses_DeepCopyInto. copy_struct. Qed.
#[local] Instance copies_MXJobCondition : copies (T := MXJobCondition) MXJobCondition_DeepCopyInto.
Proof. intros h p t s Hm _. exists p, h. split; [by destruct p|done]. Qed.
#[local] Instance copies_MXJobStatus : copies (T := MXJobStatus) MXJobStatus_DeepCopyInto.
Proof. intros h p t s (Hstatuses & Hstart & Hcompletion & Hconditions) Hs. unfold MXJobStatus_DeepCopyInto. copy_struct. Qed.
#[local] Instance copies_MXJob : copies (T := MXJob) MXJob_DeepCopyInto.
Proof. intros h p t s (Htype & Hmeta & Hspec & Hstatus) Hs. unfold MXJob_DeepCopyInto. copy_struct. Qed.
#[local] Instance copies_MXJobList : copies (T := MXJobList) MXJobList_DeepCopyInto.
Proof. intros h p t s (Htype & Hmeta & Hitems) Hs. unfold MXJobList_DeepCopyInto. copy_struct. Qed.
#[local] Instance copies_NotificationRequest : copies (T := NotificationRequest) NotificationRequest_DeepCopyInto.
Proof. intros h p t s (Huid & Hkind & Hname & Hnamespace & Hstatus & Hdeletion) Hs. unfold NotificationRequest_DeepCopyInto. copy_struct. Qed.
#[local] Instance copies_NotificationResponse : copies (T := NotificationResponse) NotificationResponse_DeepCopyInto.
Proof. intros h p t s (Huid & Hresult) Hs. unfold NotificationResponse_DeepCopyInto. copy_struct. Qed.
#[local] Instance copies_Notification : copies (T := TypedNotification) Notification_DeepCopyInto.
Proof. intros h p t s (Htype & Hrequest & Hresponse) Hs. unfold Notification_DeepCopyInto. copy_struct. Qed.

#[local] Instance copies_deep_copy {P T} `{MemLocal Cell P T} `{Stored Cell P} (f : P → M Heap P) :
  copies f → copies (P := Ptr P) (T := option T) (deep_copy f).
Proof. exact (copies_pointer f). Qed.

(** C36. Every [DeepCopy] of the package is a deep copy: for a pointer to a value it
    returns a pointer to an equal value, nil for nil, never panics, changes no location that was
    allocated, and the copy reaches only locations the call allocated. *)
Theorem DeepCopy_copies :
  copies (T := option MXJob) MXJob_DeepCopy ∧
  copies (T := option MXJobList) MXJobList_DeepCopy ∧
  copies (T := option MXJobSpec) MXJobSpec_DeepCopy ∧
  copies (T := option MXJobStatus) MXJobStatus_DeepCopy ∧
  copies (T := option MXJobCondition) MXJobCondition_DeepCopy ∧
  copies (T := option MXReplicaSpec) MXReplicaSpec_DeepCopy ∧
  copies (T := option MXReplicaSpecs) MXReplicaSpecs_DeepCopy ∧
  copies (T := option MXReplicaStatus) MXReplicaStatus_DeepCopy ∧
  copies (T := option MXReplicaStatuses) MXReplicaStatuses_DeepCopy ∧
  copies (T := option Webhook) Webhook_DeepCopy ∧
  copies (T := option TypedNotification) Notification_DeepCopy ∧
  copies (T := option NotificationRequest) NotificationRequest_DeepCopy ∧
  copies (T := option NotificationResponse) NotificationResponse_DeepCopy.
Proof. split_and!; exact (copies_deep_copy _ _). Qed.

(** What an object of the API stands for. *)
Inductive ObjectValue :=
| VMXJob (j : MXJob)
| VMXJobList (l : MXJobList)
| VNotification (n : TypedNotification).
#[local] Instance mem_Object : Mem (Cell := Cell) Object ObjectValue := λ h o v s,
  match o, v with
  | OMXJob p, VMXJob j => mem h p (Some j) s
  | OMXJobList p, VMXJobList l => mem h p (Some l) s
  | ONotification p, VNotification n => mem h p (Some n) s
  | _, _ => False
  end.
#[local] Instance local_Object : MemLocal (Cell := Cell) Object ObjectValue.
Proof.
  intros h h' [p|p|p] [v|v|v] s s' Hm Hs Hh; try done;
    exact (mem_local h h' p (Some v) s s' Hm Hs Hh).
Qed.

Lemma object_copy {P T} `{MemLocal Cell P T} `{Stored Cell P} (into : Ptr P → Object) (value : T → ObjectValue)
    (f : P → M Heap P) (Hf : copies f) h p t s :
  (∀ h' q u s', mem h' q (Some u) s' → mem h' (into q) (value u) s') →
  mem h p (Some t) s → s ⊆ dom h →
  makes h h (c ← deep_copy f p; mret (default (OMXJob None) (not_nil into c))) (value t) ∧
  ∃ c h', (c ← deep_copy f p; mret (not_nil into c)) h = Ret (Some c) h' ∧
          (c ← deep_copy f p; mret (default (OMXJob None) (not_nil into c))) h = Ret c h'.
Proof.
  intros Hinto Hm Hs. destruct (copies_deep_copy f Hf h p (Some t) s Hm Hs) as (c & h' & Hrun & Hh & Hc).
  destruct c as [l|]; [|done]. unfold makes. rewrite !(bind_run _ _ _ _ _ Hrun). cbn. split; [|by eauto].
  exists (into (Some l)), h'. split_and!; [done|done|]. by apply Hinto.
Qed.

(** C35. [DeepCopyObject] of a job, a list of jobs or a notification returns an
    object that stands for the same value in memory the call allocated.  The original stands for its value
    still; and whatever is written later through one of the two, the other does not change. *)
Theorem DeepCopyObject_correct h o v s :
  mem h o v s → s ⊆ dom h →
  ∃ c h' s', DeepCopyObject o h = Ret (Some c) h' ∧ h ⊆ h' ∧ s' ## dom h ∧
    (∀ h'', (∀ l, l ∉ s → h'' !! l = h' !! l) → mem h'' c v s') ∧
    (∀ h'', (∀ l, l ∉ s' → h'' !! l = h' !! l) → mem h'' o v s).
Proof.
  intros Hm Hs. assert (∃ m, makes h h m v ∧
    ∃ c h', DeepCopyObject o h = Ret (Some c) h' ∧ m h = Ret c h') as (m & Hmakes & c & h' & Hrun & Hrun').
  { destruct o as [p|p|p], v as [t|t|t]; try done; eexists.
    - refine (object_copy OMXJob VMXJob MXJob_DeepCopyInto _ h p t s (λ _ _ _ _ Hq, Hq) Hm Hs).
    - refine (object_copy OMXJobList VMXJobList MXJobList_DeepCopyInto _ h p t s (λ _ _ _ _ Hq, Hq) Hm Hs).
    - refine (object_copy ONotification VNotification Notification_DeepCopyInto _ h p t s (λ _ _ _ _ Hq, Hq) Hm Hs). }
  destruct (makes_independent h m o v s Hm Hs Hmakes) as (c' & h1 & s' & Hrun1 & H1).
  rewrite Hrun' in Hrun1. injection Hrun1 as <- <-. by exists c, h', s'.
Qed.

(** A nil pointer in the interface gives the nil interface. *)
Lemma DeepCopyObject_nil h :
  DeepCopyObject (OMXJob None) h = Ret None h ∧ DeepCopyObject (OMXJobList None) h = Ret None h ∧
  DeepCopyObject (ONotification None) h = Ret None h.
Proof. done. Qed.
End deep_copy.

(** ** An instance

    The Kubernetes structs without pointers in memory, and a running job with two replica types. *)
Notation plain := (Cell (OM := ObjectMeta) (PT := PodTemplateSpec) (MS := MetaStatus) (X := unit)).

Definition example_status : MXReplicaStatus := mkMXReplicaStatus 1 0 0 0.
Definition example_condition : MXJobCondition := mkMXJobCondition MXJobCreated ConditionTrue "" "" 5 5.
Definition example_job : MXJob :=
  mkMXJob (mkTypeMeta "MXJob" "v1") empty_meta
    (mkMXJobSpec (mkMXReplicaSpecs None None (Some (mkMXReplicaSpec (Some 2) None None None))) None None)
    (mkMXJobStatus (mkMXReplicaStatuses None (Some example_status) (Some example_status)) (Some 5) None
       [example_condition]).
(** The two statuses are one location: the copy has two. *)
Definition example_heap : gmap loc plain :=
  {[1%positive := CJob (mk_mMXJob (mkTypeMeta "MXJob" "v1") empty_meta
        (mk_mMXJobSpec (mk_mMXReplicaSpecs None None (Some 2%positive)) None None)
        (mk_mMXJobStatus (mk_mMXReplicaStatuses None (Some 4%positive) (Some 4%positive)) (Some 5%positive) None
           (Some 6%positive)));
    2%positive := CReplicaSpec (mk_mMXReplicaSpec (Some 3%positive) None None None);
    3%positive := CNumber 2; 4%positive := CReplicaStatus example_status;
    5%positive := CNumber 5; 6%positive := CConditions [example_condition]]}.

Definition zero_template : PodTemplateSpec := mkPodTemplateSpec empty_meta (mkPodSpec [] "" "").
Definition zero_result : MetaStatus := mkMetaStatus "" "" "" 0.

Lemma example_mem :
  @mem plain _ _ (mem_Object empty_meta zero_template zero_result (om_mem := mem_base _) (pt_mem := mem_base _)
           (ms_mem := mem_base _)) example_heap (OMXJob (Some 1%positive)) (VMXJob example_job) (dom example_heap).
Proof.
  assert (∀ l, bool_decide (l ∈ [1; 2; 3; 4; 5; 6]%positive) = true → l ∈ dom example_heap) as Hdom.
  { intros l Hl%bool_decide_eq_true. revert l Hl. apply Forall_forall.
    apply (bool_decide_unpack _). by vm_compute. }
  repeat first
    [ done
    | by apply Hdom
    | eexists; split; [lazy; reflexivity|]
    | refine (conj _ _)
    | constructor ].
Qed.

Lemma DeepCopyObject_correct_witness :
  ∃ (c : Object) h' s',
    DeepCopyObject empty_meta zero_template zero_result mret mret mret (OMXJob (Some 1%positive)) example_heap
      = Ret (Some c) h' ∧ example_heap ⊆ h' ∧ s' ## dom example_heap.
Proof.
  destruct (DeepCopyObject_correct (X := unit) empty_meta zero_template zero_result mret mret mret
              (om_mem := mem_base _) (pt_mem := mem_base _) (ms_mem := mem_base _)
              example_heap (OMXJob (Some 1%positive)) (VMXJob example_job) (dom example_heap) example_mem
              (reflexivity _)) as (c & h' & s' & Hrun & Hh & Hs & _).
  exists c, h', s'. exact (conj Hrun (conj Hh Hs)).
Defined.

Lemma DeepCopy_copies_witness :
  @copies plain (Ptr mMXJob) (option MXJob)
    (@mem_pointer _ _ _ (mem_MXJob zero_template (om_mem := mem_base _) (pt_mem := mem_base _))
       (stored_MXJob empty_meta))
    (MXJob_DeepCopy empty_meta zero_template mret mret).
Proof.
  apply (DeepCopy_copies (X := unit) empty_meta zero_template zero_result mret mret mret
           (om_mem := mem_base _) (pt_mem := mem_base _) (ms_mem := mem_base _)).
Defined.
