(* ===== verification/Goroutines.v ===== *)
(** * The goroutines of terminateMXJob, step by step

    [Handler.terminateMXJob] runs the goroutines it waits for one after the other.  Here they are
    interleaved: every request, channel operation, lock operation, read and write of a counter is a step
    of one of them, and any goroutine that is not blocked may move.  [terminate_any_schedule] shows that
    every schedule ends as [terminateMXJob_correct] says, without a deadlock, a panic or a lost update. *)
From S2P Require Import Prelude Threads Types Runtime Api RefCluster Naming Replicas Conditions.
From S2P Require Import JobStatus Controls Handler Footprint Reconcile.

(** ** Goroutines

    A constructor is a point of the function literal in handler.go; [Gone++] and [Active--] read, then
    write. *)
Inductive Thread :=
| Deleting (p : Pod)                          (* h.podControl.DeletePod *)
| Reporting (p : Pod) (result : option error) (* its event *)
| Sending (p : Pod) (err : error)             (* errCh <- err *)
| Locking (p : Pod)                           (* statusLock.Lock() *)
| ReadGone (p : Pod)
| WriteGone (p : Pod) (v : Z)
| ReadActive (p : Pod)
| WriteActive (p : Pod) (v : Z)
| Unlocking (p : Pod)                         (* statusLock.Unlock() *)
| Finished (p : Pod).                         (* wait.Done() *)

Definition thread_pod (t : Thread) : Pod :=
  match t with
  | Deleting p | Reporting p _ | Sending p _ | Locking p | ReadGone p | WriteGone p _
  | ReadActive p | WriteActive p _ | Unlocking p | Finished p => p
  end.

Section goroutines.
Context {W : Type} `{!Cluster W}.

(** What the goroutines share. *)
Record Shared := mkShared {
  sh_state : St W; sh_job : MXJob; sh_errCh : list error; sh_lock : bool }.

Definition on_state {A} (m : M (St W) A) : M Shared A := λ sh,
  match m (sh_state sh) with
  | Ret a s => Ret a (mkShared s (sh_job sh) (sh_errCh sh) (sh_lock sh))
  | Panicked s => Panicked (mkShared s (sh_job sh) (sh_errCh sh) (sh_lock sh))
  end.
Definition set_lock (b : bool) : M Shared () :=
  modify (λ sh, mkShared (sh_state sh) (sh_job sh) (sh_errCh sh) b).
Definition push (e : error) : M Shared () :=
  modify (λ sh, mkShared (sh_state sh) (sh_job sh) (sh_errCh sh ++ [e]) (sh_lock sh)).
(** [mxjob.Status.ReplicaStatuses.<T>], dereferenced. *)
Definition read_status (rt : MXReplicaType) : M Shared MXReplicaStatus := λ sh,
  deref (getMXReplicaStatus (sh_job sh) rt) sh.
Definition write_status (rt : MXReplicaType) (f : MXReplicaStatus → MXReplicaStatus) : M Shared () :=
  rs ← read_status rt;
  modify (λ sh, mkShared (sh_state sh) (updateMXReplicaStatuses (sh_job sh) rt (f rs)) (sh_errCh sh) (sh_lock sh)).

Definition set_Gone (v : Z) (rs : MXReplicaStatus) : MXReplicaStatus :=
  mkMXReplicaStatus (rs_Active rs) (rs_Succeeded rs) (rs_Failed rs) v.
Definition set_Active (v : Z) (rs : MXReplicaStatus) : MXReplicaStatus :=
  mkMXReplicaStatus v (rs_Succeeded rs) (rs_Failed rs) (rs_Gone rs).

Definition thread_step (t : Thread) : M Shared Thread :=
  match t with
  | Deleting p =>
      err ← on_state (Pods_Delete (meta_Namespace (pod_Meta p)) (meta_Name (pod_Meta p)));
      mret (Reporting p err)
  | Reporting p (Some err) =>
      on_state (Eventf EventTypeWarning FailedDeletePodReason);;
      mret (Sending p (Errorf "unable to delete pods: " (Some err)))
  | Reporting p None =>
      on_state (Eventf EventTypeNormal SuccessfulDeletePodReason);;
      mret (Locking p)
  | Sending p err => push err;; mret (Locking p)
  | Locking p => set_lock true;; mret (ReadGone p)
  | ReadGone p =>
      if decide (is_replica_type (type_of p)) then
        rs ← read_status (type_of p);
        mret (WriteGone p (rs_Gone rs))
      else mret (Unlocking p)
  | WriteGone p v => write_status (type_of p) (set_Gone (int32 (v + 1)));; mret (ReadActive p)
  | ReadActive p => rs ← read_status (type_of p); mret (WriteActive p (rs_Active rs))
  | WriteActive p v => write_status (type_of p) (set_Active (int32 (v - 1)));; mret (Unlocking p)
  | Unlocking p => set_lock false;; mret (Finished p)
  | Finished p => mret (Finished p)
  end.

(** A goroutine can move unless it has ended, waits for the lock, or for room in the channel, whose
    capacity is [num]. *)
Definition enabled (num : nat) (t : Thread) (sh : Shared) : bool :=
  match t with
  | Locking _ => negb (sh_lock sh)
  | Sending _ _ => bool_decide (length (sh_errCh sh) < num)%nat
  | Finished _ => false
  | _ => true
  end.

(** [terminateMXJob] has started its goroutines. *)
Definition launched (mxjob : MXJob) (pods : list Pod) (s : St W) : Pool Shared Thread :=
  Running (mkShared s mxjob [] false) (Deleting <$> FilterActivePods pods).

(** ** The invariant *)

(** Between [Lock] and [Unlock]. *)
Definition critical (t : Thread) : bool :=
  match t with
  | ReadGone _ | WriteGone _ _ | ReadActive _ | WriteActive _ _ | Unlocking _ => true
  | _ => false
  end.
(** The counters have been changed; the deletion has been sent; the channel has been used or will not be. *)
Definition noted (t : Thread) : bool := match t with Unlocking _ | Finished _ => true | _ => false end.
Definition sent (t : Thread) : bool := match t with Deleting _ => false | _ => true end.
Definition reported_error (t : Thread) : bool :=
  match t with Deleting _ | Reporting _ _ | Sending _ _ => false | _ => true end.
Definition pods_where (f : Thread → bool) (ts : list Thread) : list Pod := thread_pod <$> filter f ts.

Section invariant.
Context (j0 : MXJob) (s0 : St W) (act : list Pod).
Notation r := (st_ReplicaStatuses (job_Status j0)).

(** The statuses [cr] while the goroutine [t] is in its critical section and [dead] are noted. *)
Definition in_section (t : Thread) (dead : list Pod) (cr : MXReplicaStatuses) : Prop :=
  match t with
  | ReadGone p | Unlocking p => cr = kill dead r
  | WriteGone p v =>
      is_replica_type (type_of p) ∧ cr = kill dead r ∧
      ∃ rs, status_of (kill dead r) (type_of p) = Some rs ∧ v = rs_Gone rs
  | ReadActive p =>
      is_replica_type (type_of p) ∧
      ∃ rs, status_of (kill dead r) (type_of p) = Some rs ∧
        cr = set_replica_status (type_of p) (Some (set_Gone (rs_Gone rs + 1) rs)) (kill dead r)
  | WriteActive p v =>
      is_replica_type (type_of p) ∧
      ∃ rs, status_of (kill dead r) (type_of p) = Some rs ∧ v = rs_Active rs ∧
        cr = set_replica_status (type_of p) (Some (set_Gone (rs_Gone rs + 1) rs)) (kill dead r)
  | _ => False
  end.
(** The lock and what it protects. *)
Definition lock_inv (sh : Shared) (ts : list Thread) : Prop :=
  ∃ cr, sh_job sh = with_statuses cr j0 ∧
    if sh_lock sh
    then ∃ t, filter critical ts = [t] ∧ in_section t (pods_where noted ts) cr
    else filter critical ts = [] ∧ cr = kill (pods_where noted ts) r.
Definition trace_inv (sh : Shared) (ts : list Thread) : Prop :=
  ∃ l, trace (sh_state sh) = trace s0 ++ l ∧ deletions l ≡ₚ pod_key <$> pods_where sent ts ∧
    Forall pod_deletion l ∧ pending (sh_state sh) = pending s0.
Definition channel_inv (sh : Shared) (ts : list Thread) : Prop :=
  (length (sh_errCh sh) ≤ length (filter reported_error ts))%nat.
Definition pool_inv (sh : Shared) (ts : list Thread) : Prop :=
  thread_pod <$> ts = act ∧ lock_inv sh ts ∧ trace_inv sh ts ∧ channel_inv sh ts.

(** *** One goroutine among the others *)
Lemma filter_mid (f : Thread → bool) l1 t l2 :
  filter f (l1 ++ t :: l2) = filter f l1 ++ (if f t then [t] else []) ++ filter f l2.
Proof. rewrite filter_app, filter_cons. destruct (f t); by case_decide. Qed.

Lemma pods_mid f l1 t l2 :
  pods_where f (l1 ++ t :: l2) ≡ₚ pods_where f (l1 ++ l2) ++ (if f t then [thread_pod t] else []).
Proof.
  unfold pods_where. rewrite filter_mid, !filter_app, !fmap_app.
  destruct (f t); cbn; solve_Permutation.
Qed.

Lemma pods_same f l1 t t' l2 :
  f t = f t' → thread_pod t = thread_pod t' →
  pods_where f (l1 ++ t :: l2) = pods_where f (l1 ++ t' :: l2).
Proof.
  intros Hf Hp. unfold pods_where. rewrite !filter_mid, !fmap_app, Hf. destruct (f t'); cbn; by rewrite ?Hp.
Qed.

(** The pods still to be noted besides that of [t]. *)
Lemma pods_partition l1 t l2 :
  noted t = false →
  thread_pod <$> (l1 ++ t :: l2) ≡ₚ
  pods_where noted (l1 ++ t :: l2) ++ thread_pod t :: pods_where (negb ∘ noted) (l1 ++ l2).
Proof.
  intros Ht. rewrite (pods_mid noted), Ht, app_nil_r.
  assert (∀ l, thread_pod <$> l ≡ₚ pods_where noted l ++ pods_where (negb ∘ noted) l) as Hl.
  { induction l as [|x l IH]; [done|]. unfold pods_where in *. rewrite !filter_cons. cbn.
    destruct (noted x); cbn; rewrite IH; solve_Permutation. }
  rewrite fmap_app. cbn. rewrite <- !Permutation_middle, <- fmap_app. by rewrite <- Hl.
Qed.

(** The counters of a pod that is not noted exist and have room. *)
Lemma room_next (dead rest : list Pod) p :
  room (dead ++ p :: rest) r → is_replica_type (type_of p) →
  ∃ rs, status_of (kill dead r) (type_of p) = Some rs ∧
    in_int32 (rs_Gone rs + 1) ∧ in_int32 (rs_Active rs - 1).
Proof.
  intros Hroom Hrt. pose proof (room_type _ _ _ Hroom Hrt) as Hrange. unfold room_for in Hrange.
  assert (zlen (pods_of_type (type_of p) (dead ++ p :: rest)) =
          zlen (pods_of_type (type_of p) dead) + 1 + zlen (pods_of_type (type_of p) rest)) as Hlen.
  { change (p :: rest) with ([p] ++ rest). rewrite app_assoc. unfold pods_of_type at 1.
    rewrite filter_app. fold (pods_of_type (type_of p) (dead ++ [p])).
    rewrite pods_of_type_snoc, pod_of_type_of, bool_decide_true, !zlen_app by done. done. }
  pose proof (zlen_nonneg (pods_of_type (type_of p) dead)).
  pose proof (zlen_nonneg (pods_of_type (type_of p) rest)).
  rewrite status_of_kill. destruct (status_of r (type_of p)) as [rs|]; [|lia].
  eexists. split; [done|]. unfold in_int32. cbn. lia.
Qed.

Lemma status_of_set rt rs k : is_replica_type rt → status_of (set_replica_status rt (Some rs) k) rt = Some rs.
Proof. intros [->|[->| ->]]; done. Qed.
Lemma set_status_twice rt x y k :
  set_replica_status rt x (set_replica_status rt y k) = set_replica_status rt x k.
Proof. unfold set_replica_status. by repeat case_decide. Qed.

Lemma run_read_status sh cr rt rs :
  sh_job sh = with_statuses cr j0 → status_of cr rt = Some rs → read_status rt sh = Ret rs sh.
Proof. intros Hj Hrs. unfold read_status. rewrite getMXReplicaStatus_of, Hj.
  change (deref (status_of cr rt) sh = Ret rs sh). by rewrite Hrs.
Qed.

Lemma run_write_status sh cr rt rs f :
  sh_job sh = with_statuses cr j0 → status_of cr rt = Some rs →
  write_status rt f sh =
    Ret tt (mkShared (sh_state sh) (with_statuses (set_replica_status rt (Some (f rs)) cr) j0)
              (sh_errCh sh) (sh_lock sh)).
Proof.
  intros Hj Hrs. unfold write_status. rewrite (bind_run _ _ _ _ _ (run_read_status _ _ _ _ Hj Hrs)).
  unfold modify. by rewrite Hj.
Qed.

(** *** The critical section *)
Lemma point_locked sh l1 t l2 :
  lock_inv sh (l1 ++ t :: l2) → critical t = true →
  sh_lock sh = true ∧ filter critical l1 = [] ∧ filter critical l2 = [] ∧
  ∃ cr, sh_job sh = with_statuses cr j0 ∧ in_section t (pods_where noted (l1 ++ t :: l2)) cr.
Proof.
  intros (cr & Hj & Hl) Ht. rewrite filter_mid, Ht in Hl. destruct (sh_lock sh).
  - destruct Hl as (t' & Hf & Hin).
    destruct (filter critical l1) as [|x l]; cbn in Hf; [|by destruct l].
    injection Hf as -> Hf. split_and!; try done. by exists cr.
  - destruct Hl as [Hf _]. by destruct (filter critical l1).
Qed.

Lemma lock_keep sh l1 t l2 cr :
  filter critical l1 = [] → filter critical l2 = [] → critical t = true →
  sh_lock sh = true → sh_job sh = with_statuses cr j0 →
  in_section t (pods_where noted (l1 ++ t :: l2)) cr → lock_inv sh (l1 ++ t :: l2).
Proof.
  intros H1 H2 Ht Hl Hj Hin. exists cr. split; [done|]. rewrite Hl. exists t.
  by rewrite filter_mid, Ht, H1, H2.
Qed.

(** What a step of the critical section does: it succeeds and keeps the invariant of the lock. *)
Definition section_moves sh l1 t l2 : Prop :=
  ∃ t' sh', thread_step t sh = Ret t' sh' ∧ thread_pod t' = thread_pod t ∧
    sh_state sh' = sh_state sh ∧ sh_errCh sh' = sh_errCh sh ∧ sent t' = true ∧ reported_error t' = true ∧
    lock_inv sh' (l1 ++ t' :: l2).

Lemma ReadGone_moves sh l1 p l2 :
  room (thread_pod <$> (l1 ++ ReadGone p :: l2)) r → lock_inv sh (l1 ++ ReadGone p :: l2) →
  section_moves sh l1 (ReadGone p) l2.
Proof.
  intros Hroom Hinv. destruct (point_locked _ _ _ _ Hinv eq_refl) as (Hl & H1 & H2 & cr & Hj & Hcr).
  apply (room_perm _ _ _ (pods_partition l1 (ReadGone p) l2 eq_refl)) in Hroom. cbn in Hcr.
  unfold section_moves. cbn [thread_step]. case_decide as Hrt.
  - destruct (room_next _ _ _ Hroom Hrt) as (rs & Hrs & _).
    exists (WriteGone p (rs_Gone rs)), sh. split.
    { assert (status_of cr (type_of p) = Some rs) as Hcs by (by rewrite Hcr).
      by rewrite (bind_run _ _ _ _ _ (run_read_status sh cr (type_of p) rs Hj Hcs)). }
    split_and!; try done. apply (lock_keep _ _ _ _ cr); try done. cbn.
    rewrite (pods_same noted l1 (WriteGone p _) (ReadGone p)) by done. split_and!; [done|done|]. by exists rs.
  - exists (Unlocking p), sh. split_and!; try done. apply (lock_keep _ _ _ _ cr); try done. cbn.
    rewrite Hcr, <- (kill_skip r _ p Hrt). apply kill_perm. rewrite !(pods_mid noted). cbn. by rewrite app_nil_r.
Qed.

Lemma WriteGone_moves sh l1 p v l2 :
  room (thread_pod <$> (l1 ++ WriteGone p v :: l2)) r → lock_inv sh (l1 ++ WriteGone p v :: l2) →
  section_moves sh l1 (WriteGone p v) l2.
Proof.
  intros Hroom Hinv. destruct (point_locked _ _ _ _ Hinv eq_refl) as (Hl & H1 & H2 & cr & Hj & Hrt & Hcr & rs & Hrs & ->).
  apply (room_perm _ _ _ (pods_partition l1 (WriteGone p _) l2 eq_refl)) in Hroom.
  destruct (room_next _ _ _ Hroom Hrt) as (rs' & Hrs' & Hg & _).
  cbn [thread_pod] in *. simplify_eq.
  unfold section_moves. cbn [thread_step]. eexists (ReadActive p), _. split.
  { by rewrite (bind_run _ _ _ _ _ (run_write_status sh _ _ rs _ Hj Hrs)). }
  split_and!; try done. eapply lock_keep; try done. cbn. split; [done|]. exists rs.
  rewrite int32_small by done. by rewrite (pods_same noted _ (ReadActive p) (WriteGone p (rs_Gone rs))).
Qed.

Lemma ReadActive_moves sh l1 p l2 :
  lock_inv sh (l1 ++ ReadActive p :: l2) → section_moves sh l1 (ReadActive p) l2.
Proof.
  intros Hinv. destruct (point_locked _ _ _ _ Hinv eq_refl) as (Hl & H1 & H2 & cr & Hj & Hrt & rs & Hrs & Hcr).
  unfold section_moves. cbn [thread_step]. exists (WriteActive p (rs_Active rs)), sh. split.
  { by rewrite (bind_run _ _ _ _ _ (run_read_status sh cr (type_of p) (set_Gone (rs_Gone rs + 1) rs) Hj
      ltac:(by rewrite Hcr, status_of_set))). }
  split_and!; try done. apply (lock_keep _ _ _ _ cr); try done. split; [done|]. exists rs.
  by rewrite (pods_same noted _ _ (ReadActive p)).
Qed.

Lemma WriteActive_moves sh l1 p v l2 :
  room (thread_pod <$> (l1 ++ WriteActive p v :: l2)) r → lock_inv sh (l1 ++ WriteActive p v :: l2) →
  section_moves sh l1 (WriteActive p v) l2.
Proof.
  intros Hroom Hinv.
  destruct (point_locked _ _ _ _ Hinv eq_refl) as (Hl & H1 & H2 & cr & Hj & Hrt & rs & Hrs & -> & Hcr).
  apply (room_perm _ _ _ (pods_partition l1 (WriteActive p _) l2 eq_refl)) in Hroom.
  destruct (room_next _ _ _ Hroom Hrt) as (rs' & Hrs' & _ & Ha).
  cbn [thread_pod] in *. simplify_eq.
  unfold section_moves. cbn [thread_step]. eexists (Unlocking p), _. split.
  { by rewrite (bind_run _ _ _ _ _ (run_write_status sh _ (type_of p) (set_Gone (rs_Gone rs + 1) rs) _ Hj
      ltac:(by rewrite status_of_set))). }
  split_and!; try done. eapply lock_keep; try done. cbn. rewrite int32_small, set_status_twice by done.
  change (set_Active (rs_Active rs - 1) (set_Gone (rs_Gone rs + 1) rs)) with (lower 1 rs).
  rewrite <- (kill_snoc r _ p rs Hrt Hrs). apply kill_perm. rewrite !(pods_mid noted). cbn. by rewrite app_nil_r.
Qed.

Lemma Unlocking_moves sh l1 p l2 :
  lock_inv sh (l1 ++ Unlocking p :: l2) → section_moves sh l1 (Unlocking p) l2.
Proof.
  intros Hinv. destruct (point_locked _ _ _ _ Hinv eq_refl) as (Hl & H1 & H2 & cr & Hj & Hcr).
  unfold section_moves. eexists (Finished p), _. split; [done|]. split_and!; try done.
  exists cr. split; [done|]. cbn. rewrite filter_mid, H1, H2. split; [done|]. cbn in Hcr. rewrite Hcr.
  by rewrite (pods_same noted _ _ (Finished p)).
Qed.

(** *** Outside of it *)
Lemma lock_frame sh sh' l1 t t' l2 :
  lock_inv sh (l1 ++ t :: l2) → sh_job sh' = sh_job sh → sh_lock sh' = sh_lock sh →
  critical t = false → critical t' = false → noted t = noted t' → thread_pod t = thread_pod t' →
  lock_inv sh' (l1 ++ t' :: l2).
Proof.
  intros (cr & Hj & Hl) Hj' Hl' Ht Ht' Hn Hp. exists cr. split; [congruence|].
  rewrite filter_mid, Ht in Hl. rewrite Hl', filter_mid, Ht'. by rewrite <- (pods_same noted _ t t').
Qed.

Lemma lock_taken sh sh' l1 p l2 :
  lock_inv sh (l1 ++ Locking p :: l2) → sh_lock sh = false → sh_job sh' = sh_job sh → sh_lock sh' = true →
  lock_inv sh' (l1 ++ ReadGone p :: l2).
Proof.
  intros (cr & Hj & Hl) Hfree Hj' Hl'. rewrite Hfree, filter_mid in Hl. destruct Hl as [Hf Hcr].
  apply app_nil in Hf as [H1 H2]. cbn in H2. apply (lock_keep _ _ _ _ cr); try done; [congruence|].
  cbn. by rewrite (pods_same noted _ _ (Locking p)).
Qed.

Lemma trace_step sh sh' l1 t t' l2 l :
  trace_inv sh (l1 ++ t :: l2) → trace (sh_state sh') = trace (sh_state sh) ++ l →
  pending (sh_state sh') = pending (sh_state sh) → Forall pod_deletion l → thread_pod t = thread_pod t' →
  deletions l ++ (if sent t then [pod_key (thread_pod t)] else []) ≡ₚ
    (if sent t' then [pod_key (thread_pod t)] else []) →
  trace_inv sh' (l1 ++ t' :: l2).
Proof.
  intros (k & Ht & Hd & Hf & Hp) Ht' Hp' Hf' Hpod Hk. exists (k ++ l).
  split_and!; [by rewrite Ht', Ht, app_assoc| |by apply Forall_app|congruence].
  rewrite deletions_app, Hd, !(pods_mid sent), !fmap_app, <- app_assoc, <- Hpod.
  apply Permutation_app_head. rewrite Permutation_app_comm. by destruct (sent t), (sent t').
Qed.

Lemma channel_step sh sh' l1 t t' l2 :
  channel_inv sh (l1 ++ t :: l2) →
  (length (sh_errCh sh') + (if reported_error t then 1 else 0) ≤
     length (sh_errCh sh) + (if reported_error t' then 1 else 0))%nat →
  channel_inv sh' (l1 ++ t' :: l2).
Proof.
  unfold channel_inv. rewrite !filter_mid, !length_app. intros Hc Hn.
  destruct (reported_error t), (reported_error t'); cbn in *; lia.
Qed.

(** Every step of every goroutine. *)
Lemma thread_moves sh l1 t l2 :
  room act r → pool_inv sh (l1 ++ t :: l2) → enabled (length act) t sh = true →
  ∃ t' sh', thread_step t sh = Ret t' sh' ∧ pool_inv sh' (l1 ++ t' :: l2).
Proof.
  intros Hroom (Hpods & Hlock & Htrace & Hchan) Hen.
  assert (∀ t' sh', thread_step t sh = Ret t' sh' → thread_pod t' = thread_pod t →
    lock_inv sh' (l1 ++ t' :: l2) → trace_inv sh' (l1 ++ t' :: l2) → channel_inv sh' (l1 ++ t' :: l2) →
    ∃ t' sh', thread_step t sh = Ret t' sh' ∧ pool_inv sh' (l1 ++ t' :: l2)) as Hdone.
  { intros t' sh' Hrun Hpod Hl Htr Hc. exists t', sh'. split; [done|]. split_and!; [|done..].
    rewrite <- Hpods, !fmap_app. cbn. by rewrite Hpod. }
  assert (critical t = true → section_moves sh l1 t l2 →
    ∃ t' sh', thread_step t sh = Ret t' sh' ∧ pool_inv sh' (l1 ++ t' :: l2)) as Hsection.
  { intros Hcrit (t' & sh' & Hrun & Hpod & Hs & He & Hsent & Hrep & Hl).
    apply (Hdone t' sh'); try done.
    - apply (trace_step sh sh' _ t _ _ []); rewrite ?Hs, ?app_nil_r, ?Hsent; try done. by destruct t.
    - apply (channel_step sh sh' _ t); [done|]. rewrite He, Hrep. by destruct t. }
  rewrite <- Hpods in Hroom.
  destruct t as [p|p [err|]|p err|p|p|p v|p|p v|p|p]; cbn in Hen; try done;
    try apply bool_decide_eq_true in Hen; try apply negb_true_iff in Hen.
  all: try (apply Hsection; [done|]).
  - destruct (c_deletePod (meta_Namespace (pod_Meta p)) (meta_Name (pod_Meta p)) (world (sh_state sh)))
      as [err w] eqn:E.
    eapply Hdone; [cbn [thread_step]; unfold on_state, Pods_Delete, send, mbind, M_bind; by rewrite E|..];
      try done.
    + by eapply lock_frame.
    + eapply (trace_step sh _ _ _ _ _ [_]); [done|done|done|by repeat constructor|done|done].
    + by eapply channel_step.
  - eapply Hdone; try done; [by eapply lock_frame| |by eapply channel_step].
    eapply (trace_step sh _ _ _ _ _ [_]); [done|done|done|by repeat constructor|done|done].
  - eapply Hdone; try done; [by eapply lock_frame| |eapply channel_step; [done|cbn; lia]].
    eapply (trace_step sh _ _ _ _ _ [_]); [done|done|done|by repeat constructor|done|done].
  - eapply Hdone; try done; [by eapply lock_frame| |eapply channel_step; [done|cbn; rewrite length_app; cbn; lia]].
    eapply (trace_step sh _ _ _ _ _ []); [done|by rewrite app_nil_r|done..].
  - eapply Hdone; try done; [by eapply lock_taken| |by eapply channel_step].
    eapply (trace_step sh _ _ _ _ _ []); [done|by rewrite app_nil_r|done..].
  - by apply ReadGone_moves.
  - by apply WriteGone_moves.
  - by apply ReadActive_moves.
  - by apply WriteActive_moves.
  - by apply Unlocking_moves.
Qed.
Lemma threads_kept : room act r → kept_by (enabled (length act)) thread_step pool_inv False.
Proof.
  intros Hroom sh ts i t (l1 & l2 & -> & Hins)%pool_split Hen Hinv.
  destruct (thread_moves sh l1 t l2 Hroom Hinv Hen) as (t' & sh' & Hrun & Hinv').
  unfold post. by rewrite Hrun, Hins.
Qed.

(** *** No deadlock *)
Definition ended (t : Thread) : bool := match t with Finished _ => true | _ => false end.

Lemma filter_nil_where (f : Thread → bool) l1 t l2 : filter f (l1 ++ t :: l2) = [] → f t = false.
Proof. rewrite filter_mid. intros [_ [H _]%app_nil]%app_nil. by destruct (f t). Qed.

Lemma progress sh ts :
  room act r → pool_inv sh ts →
  Forall ended ts ∨ ∃ g', step (enabled (length act)) thread_step (Running sh ts) g'.
Proof.
  intros Hroom (Hpods & (cr & _ & Hlock) & _ & Hchan).
  destruct (some_where ended ts) as [|(i & t & Hi & Ht)]; [by left|right].
  destruct (sh_lock sh) eqn:El.
  - destruct Hlock as (c & Hc & _). assert (c ∈ filter critical ts) as [Hcc [k Hk]%list_elem_of_lookup]%list_elem_of_filter
      by (rewrite Hc; set_solver).
    eapply (can_step _ _ _ _ _ _ Hk). by destruct c.
  - destruct Hlock as [Hc _]. apply (can_step _ _ _ _ _ _ Hi).
    destruct (pool_split _ _ _ Hi) as (l1 & l2 & Hts & _). rewrite Hts in Hc. apply filter_nil_where in Hc.
    destruct t; try done; cbn; [|by rewrite El]. apply bool_decide_true.
    unfold channel_inv in Hchan. rewrite <- Hpods, length_fmap.
    pose proof (how_many_lt reported_error _ _ _ Hi eq_refl). unfold how_many in *. lia.
Qed.
End invariant.

(** ** Steps left *)
Definition rank (t : Thread) : nat :=
  match t with
  | Deleting _ => 9 | Reporting _ _ => 8 | Sending _ _ => 7 | Locking _ => 6 | ReadGone _ => 5
  | WriteGone _ _ => 4 | ReadActive _ => 3 | WriteActive _ _ => 2 | Unlocking _ => 1 | Finished _ => 0
  end.
Lemma rank_step t num sh t' sh' :
  enabled num t sh = true → thread_step t sh = Ret t' sh' → (rank t' < rank t)%nat.
Proof.
  intros Hen Hrun. destruct t as [p|p [err|]|p err|p|p|p v|p|p v|p|p]; cbn [thread_step] in Hrun; try done;
    try (apply bind_inv in Hrun as (? & ? & _ & [= <- _]); cbn; lia).
  case_decide; [apply bind_inv in Hrun as (? & ? & _ & [= <- _])|injection Hrun as <- _]; cbn; lia.
Qed.

Lemma launched_inv j pods (s : St W) :
  pool_inv j s (FilterActivePods pods) (mkShared s j [] false) (Deleting <$> FilterActivePods pods).
Proof.
  assert (∀ f : Thread → bool, (∀ p, f (Deleting p) = false) → filter f (Deleting <$> FilterActivePods pods) = []) as Hf.
  { intros f Hf. induction (FilterActivePods pods) as [|p l IH]; [done|].
    rewrite fmap_cons, filter_cons, Hf. by case_decide. }
  split_and!.
  - rewrite <- list_fmap_compose. apply list_fmap_id.
  - exists (st_ReplicaStatuses (job_Status j)). split; [by destruct j as [? ? ? []]|]. cbn.
    rewrite Hf by done. split; [done|]. unfold pods_where. by rewrite Hf, kill_nil.
  - exists []. rewrite app_nil_r. unfold pods_where. rewrite Hf by done. by repeat constructor.
  - unfold channel_inv. cbn. lia.
Qed.

Lemma launched_left j pods (s : St W) :
  steps_left rank (launched j pods s) = (9 * length (FilterActivePods pods))%nat.
Proof. cbn. induction (FilterActivePods pods) as [|p l IH]; [done|]. cbn in *. rewrite IH. lia. Qed.

Lemma all_noted j s act sh ts :
  Forall ended ts → pool_inv j s act sh ts →
  sh_job sh = with_statuses (kill act (st_ReplicaStatuses (job_Status j))) j ∧
  ∃ l, trace (sh_state sh) = trace s ++ l ∧ deletions l ≡ₚ pod_key <$> act ∧
       Forall pod_deletion l ∧ pending (sh_state sh) = pending s.
Proof.
  intros Hend (Hpods & (cr & Hj & Hl) & Htr & _).
  assert (∀ f : Thread → bool, (∀ p, f (Finished p) = true) → pods_where f ts = act) as Hall.
  { intros f Hf. rewrite <- Hpods. unfold pods_where. f_equal.
    clear -Hend Hf. induction Hend as [|t l Ht _ IH]; [done|]. rewrite filter_cons, IH.
    destruct t; try done. rewrite Hf. by case_decide. }
  assert (filter critical ts = []) as Hcrit.
  { clear -Hend. induction Hend as [|t l Ht _ IH]; [done|]. rewrite filter_cons, IH.
    by destruct t. }
  destruct (sh_lock sh); [destruct Hl as (t & Hc & _); by rewrite Hcrit in Hc|].
  destruct Hl as [_ Hcr]. rewrite Hall in Hcr by done. split; [by rewrite Hj, Hcr|].
  destruct Htr as (l & H1 & H2 & H3 & H4). exists l. by rewrite Hall in H2.
Qed.
End goroutines.

(** ** Properties *)

(** C37. However the goroutines of terminateMXJob are scheduled, every request,
    lock operation and access to a counter being a step of its own, and whatever the cluster answers:
    they make at most nine steps each; they never block each other for good and never panic; and when
    no step is left all have ended, the job has exactly the statuses of [terminateMXJob_correct] (no
    increment is lost), and every active pod was deleted once. *)
Theorem terminate_any_schedule {W} `{!Cluster W} (j : MXJob) pods (s : St W) n g :
  let act := FilterActivePods pods in
  room act (st_ReplicaStatuses (job_Status j)) →
  nsteps (step (enabled (length act)) thread_step) n (launched j pods s) g →
  (n ≤ 9 * length act)%nat ∧
  ∃ sh ts, g = Running sh ts ∧
    ((∃ g', step (enabled (length act)) thread_step g g') ∨
     (Forall ended ts ∧ sh_job sh = with_statuses (kill act (st_ReplicaStatuses (job_Status j))) j ∧
      ∃ l, trace (sh_state sh) = trace s ++ l ∧ deletions l ≡ₚ pod_key <$> act ∧
           Forall pod_deletion l ∧ pending (sh_state sh) = pending s)).
Proof.
  intros act Hroom Hn. pose proof (launched_left j pods s) as Hleft.
  destruct (pool_run (enabled (length act)) thread_step rank ltac:(intros ????; apply rank_step)
    (pool_inv j s act) False _ _ _ _ (threads_kept j s act Hroom) (launched_inv j pods s)
    ltac:(intros [] ? ?; cbn in *; done || lia) Hn) as [Hinv Hle].
  change (n + steps_left rank g ≤ steps_left rank (launched j pods s))%nat in Hle. rewrite Hleft in Hle.
  split; [unfold act; lia|]. destruct g as [sh ts|]; [|done].
  exists sh, ts. split; [done|]. destruct (progress j s act sh ts Hroom Hinv) as [Hend|]; [right|by left].
  split; [done|]. by eapply all_noted.
Qed.

(** Two goroutines, as they are started. *)
Definition two_pods : list Pod := [worker_pod "a" PodRunning; worker_pod "b" PodPending].
Lemma terminate_any_schedule_witness :
  let s := start (empty_cluster two_active) in
  (0 ≤ 9 * 2)%nat ∧
  ∃ sh ts, launched two_active two_pods s = Running sh ts ∧
    ((∃ g', step (enabled 2) thread_step (launched two_active two_pods s) g') ∨
     (Forall ended ts ∧ sh_job sh = with_statuses (kill two_pods (st_ReplicaStatuses (job_Status two_active))) two_active ∧
      ∃ l, trace (sh_state sh) = trace s ++ l ∧ deletions l ≡ₚ pod_key <$> two_pods ∧
           Forall pod_deletion l ∧ pending (sh_state sh) = pending s)).
Proof.
  apply (terminate_any_schedule two_active two_pods (start (empty_cluster two_active)) 0).
  - apply (bool_decide_unpack _). by vm_compute.
  - constructor.
Defined.
