(* ===== verification/Creators.v ===== *)
(** * The goroutines of reconcilePods, step by step

    [Handler.create_pods] runs the goroutines that create the missing pods of a type one after the other.
    Here they are interleaved, as those of terminateMXJob are in [Goroutines].  [create_any_schedule] shows
    that every schedule creates the same number of pods, all made from the template, and leaves the counter
    of active pods and the channel of errors in agreement with the failures. *)
From S2P Require Import Prelude Threads Types Runtime Api RefCluster Labels Naming Replicas Conditions.
From S2P Require Import JobStatus Controls Handler Footprint Reconcile Creation.

(** ** createNewPod in three parts *)
Section parts.
Context {W : Type} `{!Cluster W} `{!GoRuntime}.

(** Up to the request: copying the template, the labels, the environment, [GetPodFromTemplate]; or the
    error of one of the checks. *)
Definition prepare (mxjob : MXJob) (rt : MXReplicaType) (spec : MXReplicaSpec) : M (St W) (Pod + error) :=
  podTemplate ← deref (spec_Template spec);
  mxEnv ← genMXConfigEnv mxjob rt;
  let controllerRef := Some (NewControllerRef mxjob SchemeGroupVersionKind) in
  match validateControllerRef controllerRef with
  | Some err => mret (inr err)
  | None =>
      pod ← GetPodFromTemplate (decorate_template mxjob rt podTemplate mxEnv) mxjob controllerRef;
      if Selector_Empty (AsSelectorPreValidated (labels_of (meta_Labels (pod_Meta pod)))) then
        mret (inr (Errorf "unable to create pods, no labels" None))
      else mret (inl pod)
  end.
(** The event of the request, with the error it leads to. *)
Definition record_creation (r : Pod + error) : M (St W) (option error) :=
  match r with
  | inr err => Eventf EventTypeWarning FailedCreatePodReason;; mret (Some err)
  | inl newPod => Eventf EventTypeNormal SuccessfulCreatePodReason;; mret None
  end.
(** A timeout is no error. *)
Definition forgive_timeout (err : option error) : option error :=
  match err with Some e => if IsTimeout err then None else Some e | None => None end.

Lemma createNewPod_parts mxjob rt spec (s : St W) :
  createNewPod mxjob rt spec s =
  (p ← prepare mxjob rt spec;
   err ← match p with
         | inr err => mret (Some err)
         | inl pod => r ← Pods_Create (job_Namespace mxjob) pod; record_creation r
         end;
   mret (forgive_timeout err)) s.
Proof.
  unfold createNewPod, prepare, CreatePodsWithControllerRef, RealPodControl, real_CreatePodsWithControllerRef,
    createPods, mbind, M_bind.
  destruct (spec_Template spec) as [tpl|]; [|done]. cbn [deref mret M_ret].
  destruct (genMXConfigEnv mxjob rt s) as [env s1|s1]; [|done].
  destruct (validateControllerRef _) as [err|]; [cbn; by destruct (IsTimeout (Some err))|].
  destruct (GetPodFromTemplate _ _ _ s1) as [pod s2|s2]; [|done].
  rewrite decide_False by (intros Hne; by apply Hne).
  destruct (Selector_Empty _); [done|]. cbn [mret M_ret].
  destruct (Pods_Create _ _ s2) as [[p|e] s3|s3]; [| |done]; cbn; [done|].
  unfold mbind, M_bind. cbn -[IsTimeout forgive_timeout]. unfold forgive_timeout. by destruct (IsTimeout (Some e)).
Qed.
End parts.

(** ** Goroutines *)
Section creators.
Context {W : Type} `{!Cluster W} `{!GoRuntime}.
Context (j : MXJob) (rt : MXReplicaType) (spec : MXReplicaSpec).

(** A point of the function literal of reconcilePods. *)
Inductive Creator :=
| Preparing                           (* createNewPod, up to the request *)
| Creating (pod : Pod)                (* Pods(namespace).Create(pod) *)
| Recording (r : Pod + error)         (* its event *)
| Locking (e : error)                 (* activeLock.Lock() *)
| Reading (e : error)                 (* active--: read *)
| Writing (e : error) (v : Z)         (* active--: write *)
| Unlocking (e : error)               (* activeLock.Unlock() *)
| Sending (e : error)                 (* errCh <- err *)
| Finished (err : option error).      (* wait.Done() *)

Record Shared := mkShared {
  sh_state : St W; sh_active : Z; sh_errCh : list error; sh_lock : bool }.
Definition on_state {A} (m : M (St W) A) : M Shared A := λ sh,
  match m (sh_state sh) with
  | Ret a s => Ret a (mkShared s (sh_active sh) (sh_errCh sh) (sh_lock sh))
  | Panicked s => Panicked (mkShared s (sh_active sh) (sh_errCh sh) (sh_lock sh))
  end.
Definition set_lock (b : bool) : M Shared () :=
  modify (λ sh, mkShared (sh_state sh) (sh_active sh) (sh_errCh sh) b).
Definition set_active (v : Z) : M Shared () :=
  modify (λ sh, mkShared (sh_state sh) v (sh_errCh sh) (sh_lock sh)).
Definition push (e : error) : M Shared () :=
  modify (λ sh, mkShared (sh_state sh) (sh_active sh) (sh_errCh sh ++ [e]) (sh_lock sh)).

(** [if err != nil], on the result of [createNewPod]. *)
Definition created_or (err : option error) : Creator :=
  match forgive_timeout err with Some e => Locking e | None => Finished None end.

Definition creator_step (t : Creator) : M Shared Creator :=
  match t with
  | Preparing =>
      p ← on_state (prepare j rt spec);
      mret match p with inl pod => Creating pod | inr err => created_or (Some err) end
  | Creating pod => r ← on_state (Pods_Create (job_Namespace j) pod); mret (Recording r)
  | Recording r => err ← on_state (record_creation r); mret (created_or err)
  | Locking e => set_lock true;; mret (Reading e)
  | Reading e => sh ← get_state; mret (Writing e (sh_active sh))
  | Writing e v => set_active (int32 (v - 1));; mret (Unlocking e)
  | Unlocking e => set_lock false;; mret (Sending e)
  | Sending e => push e;; mret (Finished (Some e))
  | Finished err => mret (Finished err)
  end.

(** The channel has room for [diff] errors. *)
Definition enabled (diff : nat) (t : Creator) (sh : Shared) : bool :=
  match t with
  | Locking _ => negb (sh_lock sh)
  | Sending _ => bool_decide (length (sh_errCh sh) < diff)%nat
  | Finished _ => false
  | _ => true
  end.

(** [reconcilePods] has started its [diff] goroutines. *)
Definition launched (active : Z) (diff : nat) (s : St W) : Pool Shared Creator :=
  Running (mkShared s active [] false) (replicate diff Preparing).

(** ** The invariant *)
Definition holds (t : Creator) : bool :=
  match t with Reading _ | Writing _ _ | Unlocking _ => true | _ => false end.
(** The request has been sent; the counter has been lowered; the error has been sent; all is done. *)
Definition asked (t : Creator) : bool := match t with Preparing | Creating _ => false | _ => true end.
Definition lowered (t : Creator) : bool :=
  match t with Unlocking _ | Sending _ | Finished (Some _) => true | _ => false end.
Definition failed (t : Creator) : bool := match t with Finished (Some _) => true | _ => false end.
Definition ended (t : Creator) : bool := match t with Finished _ => true | _ => false end.

Section invariant.
Context (tpl : PodTemplateSpec) (active0 : Z) (s0 : St W).

Definition creator_ok (sh : Shared) (t : Creator) : Prop :=
  match t with
  | Creating pod => ∃ env, pod_of j rt tpl env pod
  | Writing _ v => v = sh_active sh
  | _ => True
  end.
Definition creators_inv (sh : Shared) (ts : list Creator) : Prop :=
  lock_inv holds (sh_lock sh) ts ∧
  (∀ i t, ts !! i = Some t → creator_ok sh t) ∧
  sh_active sh = active0 - Z.of_nat (how_many lowered ts) ∧
  length (sh_errCh sh) = how_many failed ts ∧
  ∃ l, trace (sh_state sh) = trace s0 ++ l ∧ pending (sh_state sh) = pending s0 ∧
    created_pods j rt tpl (how_many asked ts) l.

Lemma prepare_run (s : St W) : well_formed j → is_replica_type rt → spec_Template spec = Some tpl →
  ∃ env pod, prepare j rt spec s = Ret (inl pod) s ∧ pod_of j rt tpl env pod.
Proof.
  intros [Hok Hname] Hrt Htpl. destruct (genMXConfigEnv_ok j rt s Hok) as [env Henv].
  destruct (getPodsPrefix_cases (job_Name j) s) as [[? _]|(pfx & Hpfx & Hp)]; [done|].
  eexists env, _. split.
  - unfold prepare. rewrite Htpl, bind_deref, (bind_run _ _ _ _ _ Henv). cbv zeta.
    rewrite NewControllerRef_valid. unfold GetPodFromTemplate, mbind, M_bind. rewrite Hpfx.
    cbn -[Selector_Empty labels_of].
    rewrite merge_labels_map, !labels_of_Some, selector_not_empty. done.
  - split_and!; try done. apply append_env_containers.
Qed.

Lemma created_nothing l : Forall pod_creation l → creations l = [] → created_pods j rt tpl 0 l.
Proof. intros Hk Hc. unfold created_pods. by rewrite Hc. Qed.

(** One goroutine moves: its counters, and what it sends. *)
Lemma creators_move sh sh' ts i t t' l :
  ts !! i = Some t → creators_inv sh ts → lock_inv holds (sh_lock sh') (<[i := t']> ts) →
  creator_ok sh' t' → (sh_active sh' = sh_active sh ∨ holds t = true) →
  sh_active sh' + Z.of_nat (one_if (lowered t')) = sh_active sh + Z.of_nat (one_if (lowered t)) →
  (length (sh_errCh sh') + one_if (failed t) = length (sh_errCh sh) + one_if (failed t'))%nat →
  trace (sh_state sh') = trace (sh_state sh) ++ l → pending (sh_state sh') = pending (sh_state sh) →
  created_pods j rt tpl (one_if (asked t') - one_if (asked t)) l → (one_if (asked t) ≤ one_if (asked t'))%nat →
  creators_inv sh' (<[i := t']> ts).
Proof.
  intros Hi (Hl & Hok & Ha & He & k & Ht & Hp & Hk) Hl' Hok' Hsame Ha' He' Htr' Hp' Hcr Hle. split_and!.
  - done.
  - intros i' u [[-> ->]|[Hne Hu]]%moved; [done|]. pose proof (Hok _ _ Hu) as Hku.
    destruct u as [|pod|r|e|e|e v|e|e|err]; try done. cbn in *. destruct Hsame as [->|Ht1]; [done|].
    destruct Hne. exact (lock_one holds _ _ _ _ _ _ Hl Hi Hu Ht1 eq_refl).
  - pose proof (how_many_insert lowered _ _ _ t' Hi). unfold one_if in *. destruct (lowered t), (lowered t'); lia.
  - pose proof (how_many_insert failed _ _ _ t' Hi). lia.
  - pose proof (how_many_insert asked _ _ _ t' Hi). exists (k ++ l).
    rewrite Htr', Ht, app_assoc. split_and!; [done|congruence|].
    replace (how_many asked (<[i:=t']> ts)) with (how_many asked ts + (one_if (asked t') - one_if (asked t)))%nat by lia.
    by apply created_pods_app.
Qed.

Lemma creator_moves sh ts i t :
  well_formed j → is_replica_type rt → spec_Template spec = Some tpl →
  in_int32 active0 → in_int32 (active0 - zlen ts) →
  ts !! i = Some t → enabled (length ts) t sh = true → creators_inv sh ts →
  ∃ t' sh', creator_step t sh = Ret t' sh' ∧ creators_inv sh' (<[i := t']> ts).
Proof.
  intros Hwf Hrt Htpl Ha1 Ha2 Hi Hen Hinv. pose proof Hinv as (Hl & Hok & Ha & He & _).
  pose proof (Hok _ _ Hi) as Hokt.
  assert (∀ t' sh' l, creator_step t sh = Ret t' sh' → lock_inv holds (sh_lock sh') (<[i := t']> ts) →
    creator_ok sh' t' → (sh_active sh' = sh_active sh ∨ holds t = true) →
    sh_active sh' + Z.of_nat (one_if (lowered t')) = sh_active sh + Z.of_nat (one_if (lowered t)) →
    (length (sh_errCh sh') + one_if (failed t) = length (sh_errCh sh) + one_if (failed t'))%nat →
    trace (sh_state sh') = trace (sh_state sh) ++ l → pending (sh_state sh') = pending (sh_state sh) →
    created_pods j rt tpl (one_if (asked t') - one_if (asked t)) l → (one_if (asked t) ≤ one_if (asked t'))%nat →
    ∃ t' sh', creator_step t sh = Ret t' sh' ∧ creators_inv sh' (<[i := t']> ts)) as Hdone.
  { intros t' sh' l Hrun ?????????. exists t', sh'. split; [done|]. by eapply creators_move. }
  assert (created_pods j rt tpl 0 []) as Hnil by by apply created_nothing.
  destruct t as [|pod|r|e|e|e v|e|e|err]; cbn in Hen; try done.
  - destruct (prepare_run (sh_state sh) Hwf Hrt Htpl) as (env & pod & Hrun & Hpod).
    eapply (Hdone (Creating pod) sh []); try done; [|by eapply lock_stays|by exists env|by left|by rewrite app_nil_r].
    cbn. unfold on_state, mbind, M_bind. rewrite Hrun. by destruct sh.
  - destruct Hokt as [env Hpod].
    destruct (c_createPod (job_Namespace j) pod (world (sh_state sh))) as [r w] eqn:E.
    eapply (Hdone (Recording r) _ [CreatePod (job_Namespace j) pod]);
      [cbn; unfold on_state, Pods_Create, send, mbind, M_bind; by rewrite E|by eapply lock_stays|..]; try done; [by left| |cbn; lia].
    split_and!; [by repeat constructor|done|]. cbn. repeat constructor. by exists env.
  - assert (∃ err w, creator_step (Recording r) sh = Ret (created_or err)
      (mkShared (mkSt w (trace (sh_state sh) ++ [creation_event r]) (pending (sh_state sh))) (sh_active sh)
        (sh_errCh sh) (sh_lock sh))) as (err & w & Hrun).
    { destruct r as [p|e]; eexists _, _; reflexivity. }
    assert (holds (created_or err) = false ∧ lowered (created_or err) = false ∧ failed (created_or err) = false ∧
      asked (created_or err) = true ∧ ∀ sh, creator_ok sh (created_or err)) as (Hh & Hlo & Hfa & Has & Hck)
      by (unfold created_or; by destruct (forgive_timeout err)).
    eapply (Hdone _ _ [creation_event r]); [exact Hrun|eapply lock_stays; done|done|by left|..];
      rewrite ?Hlo, ?Hfa, ?Has; try done. apply created_nothing; [by destruct r; repeat constructor|by destruct r].
  - apply negb_true_iff in Hen. rewrite Hen in Hl.
    eapply (Hdone (Reading e) _ []); try done; [by eapply lock_take|by left|by rewrite app_nil_r].
  - eapply (Hdone (Writing e (sh_active sh)) sh []); try done; [by eapply lock_stays|by left|by rewrite app_nil_r].
  - cbn in Hokt. subst v. pose proof (how_many_lt lowered _ _ _ Hi eq_refl).
    eapply (Hdone (Unlocking e) _ []); try done; [by eapply lock_stays|by right| |by rewrite app_nil_r].
    cbn. rewrite int32_small; [lia|]. unfold in_int32, zlen in *. lia.
  - eapply (Hdone (Sending e) _ []); try done; [by eapply lock_release|by left|by rewrite app_nil_r].
  - eapply (Hdone (Finished (Some e)) _ []); try done; [by eapply lock_stays|by left| |by rewrite app_nil_r].
    cbn. rewrite length_app. cbn. lia.
Qed.

Lemma creators_kept diff :
  well_formed j → is_replica_type rt → spec_Template spec = Some tpl →
  in_int32 active0 → in_int32 (active0 - Z.of_nat diff) →
  kept_by (enabled diff) creator_step (λ sh ts, length ts = diff ∧ creators_inv sh ts) False.
Proof.
  intros Hwf Hrt Htpl Ha1 Ha2 sh ts i t Hi Hen [<- Hinv].
  destruct (creator_moves sh ts i t Hwf Hrt Htpl Ha1 Ha2 Hi Hen Hinv) as (t' & sh' & Hrun & Hinv').
  unfold post. rewrite Hrun. by rewrite length_insert.
Qed.

Lemma launched_creators diff :
  length (replicate diff (@Preparing)) = diff ∧ creators_inv (mkShared s0 active0 [] false) (replicate diff Preparing).
Proof.
  split; [apply length_replicate|].
  assert (∀ f : Creator → bool, f Preparing = false → how_many f (replicate diff Preparing) = 0%nat) as Hf.
  { intros f Hf. apply how_many_none. by intros i t [-> _]%lookup_replicate. }
  split_and!.
  - intros i t Hi. by apply lookup_replicate in Hi as [-> _].
  - intros i t Hi. by apply lookup_replicate in Hi as [-> _].
  - rewrite Hf by done. cbn. lia.
  - by rewrite Hf.
  - exists []. rewrite Hf by done. rewrite app_nil_r. by repeat constructor.
Qed.

(** *** No deadlock *)
Lemma creators_progress sh ts :
  creators_inv sh ts → Forall ended ts ∨ ∃ g, step (enabled (length ts)) creator_step (Running sh ts) g.
Proof.
  intros (Hl & _ & _ & He & _). destruct (some_where ended ts) as [|(i & t & Hi & Ht)]; [by left|right].
  destruct (sh_lock sh) eqn:El.
  - destruct Hl as (k & u & Hk & Hu & _). apply (can_step _ _ _ _ _ _ Hk). by destruct u.
  - apply (can_step _ _ _ _ _ _ Hi). destruct t; try done; cbn; [by rewrite El|].
    apply bool_decide_true. rewrite He. by eapply how_many_lt.
Qed.
End invariant.

(** ** Steps left *)
Definition rank (t : Creator) : nat :=
  match t with
  | Preparing => 8 | Creating _ => 7 | Recording _ => 6 | Locking _ => 5 | Reading _ => 4
  | Writing _ _ => 3 | Unlocking _ => 2 | Sending _ => 1 | Finished _ => 0
  end.

Lemma created_or_rank err : (rank (created_or err) < 6)%nat.
Proof. unfold created_or. destruct (forgive_timeout err); cbn; lia. Qed.

Lemma creator_rank_step diff t sh t' sh' :
  enabled diff t sh = true → creator_step t sh = Ret t' sh' → (rank t' < rank t)%nat.
Proof.
  intros Hen Hrun. pose proof created_or_rank as Hc.
  destruct t; cbn [creator_step] in Hrun; try done; apply bind_inv in Hrun as (x & ? & _ & [= <- _]);
    cbn; try (case_match; cbn); try (specialize (Hc (Some e)); lia); try (specialize (Hc x); lia); lia.
Qed.
End creators.

(** ** Properties *)

(** C38. However the goroutines that create the missing pods of a type are scheduled,
    every request, event, channel operation, lock operation and access to the counter being a step of its
    own, and whatever the cluster answers: they make at most eight steps each; they never block each other
    for good and never panic; and when no step is left all have ended, exactly [diff] pods were asked for,
    all made from the template and owned by the job, the channel has one error for each goroutine that
    failed, and the counter was lowered once for each of them (no decrement is lost). *)
Theorem create_any_schedule {W} `{!Cluster W} `{!GoRuntime} j rt spec tpl active diff (s : St W) n g :
  well_formed j → is_replica_type rt → spec_Template spec = Some tpl →
  in_int32 active → in_int32 (active - Z.of_nat diff) →
  nsteps (step (enabled diff) (creator_step j rt spec)) n (launched active diff s) g →
  (n ≤ 8 * diff)%nat ∧
  ∃ sh ts, g = Running sh ts ∧
    ((∃ g', step (enabled diff) (creator_step j rt spec) g g') ∨
     (Forall ended ts ∧ length ts = diff ∧ length (sh_errCh sh) = how_many failed ts ∧
      sh_active sh = active - zlen (sh_errCh sh) ∧
      ∃ l, trace (sh_state sh) = trace s ++ l ∧ pending (sh_state sh) = pending s ∧
        created_pods j rt tpl diff l)).
Proof.
  intros Hwf Hrt Htpl Ha1 Ha2 Hn.
  destruct (pool_run (enabled diff) (creator_step j rt spec) rank
    ltac:(intros ????; apply creator_rank_step) _ False _ _ _ _
    (creators_kept j rt spec tpl active s diff Hwf Hrt Htpl Ha1 Ha2)
    (launched_creators j rt tpl active s diff) ltac:(intros [] ? ?; cbn in *; done || lia) Hn) as [Hinv Hle].
  split.
  { cbn in Hle. rewrite fmap_replicate, sum_list_replicate in Hle. cbn in Hle. lia. }
  destruct g as [sh ts|]; [|done]. destruct Hinv as [Hlen Hinv]. exists sh, ts. split; [done|].
  destruct (creators_progress j rt spec tpl active s sh ts Hinv) as [Hend|Hgo]; [right|left; by rewrite Hlen in Hgo].
  destruct Hinv as (_ & _ & Ha & He & l & Ht & Hp & Hl). rewrite Forall_lookup in Hend.
  assert (∀ i t, ts !! i = Some t → lowered t = failed t ∧ asked t = true) as Hts.
  { intros i t Hi. pose proof (Hend i t Hi) as Ht1. by destruct t as [| | | | | | | |[]]. }
  split_and!; [by rewrite Forall_lookup|done|done| |].
  - rewrite Ha. unfold zlen. rewrite He. do 2 f_equal. apply how_many_ext. apply Hts.
  - exists l. split_and!; [done..|]. rewrite <- Hlen. rewrite <- (how_many_all asked ts); [done|]. intros i t Hi. by apply (Hts i).
Qed.

(** Two workers are missing and the API server refuses to create them: both goroutines lower the counter,
    one after the other. *)
Definition refusing_cluster : RefCluster :=
  mkRefCluster 100 0 [example_job] [] []
    (λ r, match r with CreatePod _ _ => Some (status_error "Forbidden" 403) | _ => None end)
    (λ _, inr (status_error StatusReasonTimeout 504)).
Definition two_creators : Pool (Shared (W := RefCluster)) Creator := launched 2 2 (start refusing_cluster).
Definition two_created : option (Pool (Shared (W := RefCluster)) Creator) :=
  run_schedule (enabled 2) (creator_step example_job MXReplicaTypeWorker (example_spec 2))
    [0; 1; 0; 1; 1; 0; 1; 1; 1; 1; 0; 0; 0; 0; 1; 0]%nat two_creators.
Definition both_failed (x : option (Pool (Shared (W := RefCluster)) Creator)) : Prop :=
  match x with
  | Some (Running sh ts) => forallb ended ts = true ∧ sh_active sh = 0 ∧ length (sh_errCh sh) = 2%nat
  | _ => False
  end.
Lemma two_created_end : both_failed two_created.
Proof. vm_compute. by split_and!. Qed.

Lemma create_any_schedule_witness :
  ∃ sh ts, two_created = Some (Running sh ts) ∧ forallb ended ts = true ∧ sh_active sh = 0 ∧
    length (sh_errCh sh) = 2%nat ∧ (16 ≤ 8 * 2)%nat.
Proof.
  pose proof two_created_end as Hend. destruct two_created as [x|] eqn:E; [|destruct Hend].
  destruct (create_any_schedule example_job MXReplicaTypeWorker (example_spec 2) example_template 2 2
    (start refusing_cluster) 16 x) as [Hn (sh & ts & -> & _)].
  - apply (bool_decide_unpack _); by vm_compute.
  - apply (bool_decide_unpack _); by vm_compute.
  - reflexivity.
  - split; vm_compute; [discriminate|reflexivity].
  - split; vm_compute; [discriminate|reflexivity].
  - exact (run_schedule_steps _ _ _ _ _ E).
  - exists sh, ts. destruct Hend as (H1 & H2 & H3). by split_and!.
Defined.
