(* ===== verification/Expectations.v ===== *)
(** * Expectations: satisfiedExpectations and the store it asks

    k8s.io/kubernetes/pkg/controller ControllerExpectations, a map from keys to the numbers of
    creations and deletions still to be observed, and [Handler.satisfiedExpectations], which the
    operator keeps for the day it reads from a cache.  The counters are int64 and wrap around.  Times are
    nanoseconds. *)
From S2P Require Import Prelude Types Runtime RefCluster Naming.

(** ** The store *)

(** [ControlleeExpectations]; its key is the key in the store. *)
Record ControlleeExpectations := mkExp { exp_add : Z; exp_del : Z; exp_timestamp : Time }.
Abbreviation ControllerExpectations := (gmap string ControlleeExpectations).

Definition ExpectationsTimeout : Z := 5 * 60 * 10 ^ 9.

Definition exp_Add (add del : Z) (e : ControlleeExpectations) : ControlleeExpectations :=
  mkExp (int64 (exp_add e + add)) (int64 (exp_del e + del)) (exp_timestamp e).
Definition Fulfilled (e : ControlleeExpectations) : bool := (exp_add e <=? 0) && (exp_del e <=? 0).
Definition isExpired (now : Time) (e : ControlleeExpectations) : bool :=
  ExpectationsTimeout <? now - exp_timestamp e.

Definition GetExpectations (controllerKey : string) (r : ControllerExpectations)
  : option ControlleeExpectations := r !! controllerKey.
Definition DeleteExpectations (controllerKey : string) (r : ControllerExpectations)
  : ControllerExpectations := delete controllerKey r.
Definition SatisfiedExpectations (now : Time) (controllerKey : string) (r : ControllerExpectations) : bool :=
  match GetExpectations controllerKey r with
  | Some exp => if Fulfilled exp then true else if isExpired now exp then true else false
  | None => true
  end.
Definition SetExpectations (now : Time) (controllerKey : string) (add del : Z) (r : ControllerExpectations)
  : ControllerExpectations := <[controllerKey := mkExp (int64 add) (int64 del) now]> r.
Definition ExpectCreations (now : Time) (controllerKey : string) (adds : Z) (r : ControllerExpectations)
  : ControllerExpectations := SetExpectations now controllerKey adds 0 r.
Definition ExpectDeletions (now : Time) (controllerKey : string) (dels : Z) (r : ControllerExpectations)
  : ControllerExpectations := SetExpectations now controllerKey 0 dels r.
Definition LowerExpectations (controllerKey : string) (add del : Z) (r : ControllerExpectations)
  : ControllerExpectations :=
  match GetExpectations controllerKey r with
  | Some exp => <[controllerKey := exp_Add (int64 (- add)) (int64 (- del)) exp]> r
  | None => r
  end.
Definition RaiseExpectations (controllerKey : string) (add del : Z) (r : ControllerExpectations)
  : ControllerExpectations :=
  match GetExpectations controllerKey r with
  | Some exp => <[controllerKey := exp_Add (int64 add) (int64 del) exp]> r
  | None => r
  end.
Definition CreationObserved (controllerKey : string) (r : ControllerExpectations) : ControllerExpectations :=
  LowerExpectations controllerKey 1 0 r.
Definition DeletionObserved (controllerKey : string) (r : ControllerExpectations) : ControllerExpectations :=
  LowerExpectations controllerKey 0 1 r.

(** ** The handler *)

(** [DeletionHandlingMetaNamespaceKeyFunc] of a job, which always has metadata. *)
Definition KeyFunc (mxjob : MXJob) : string :=
  if decide (job_Namespace mxjob = "") then job_Name mxjob
  else job_Namespace mxjob +:+ "/" +:+ job_Name mxjob.

(** One [if mxjob.Spec.MXReplicaSpecs.T != nil { satisfied = satisfied || ... }]. *)
Definition or_satisfied (now : Time) (r : ControllerExpectations) (mxjobKey : string) (rt : MXReplicaType)
  (spec : option MXReplicaSpec) (satisfied : bool) : bool :=
  match spec with
  | Some _ => satisfied || SatisfiedExpectations now (genExpectationPodsKey mxjobKey rt) r
  | None => satisfied
  end.
Definition satisfiedExpectations (now : Time) (r : ControllerExpectations) (mxjob : MXJob) : bool :=
  let mxjobKey := KeyFunc mxjob in
  let specs := job_specs mxjob in
  let satisfied := false in
  let satisfied := or_satisfied now r mxjobKey MXReplicaTypeScheduler (specs_Scheduler specs) satisfied in
  let satisfied := or_satisfied now r mxjobKey MXReplicaTypeServer (specs_Server specs) satisfied in
  or_satisfied now r mxjobKey MXReplicaTypeWorker (specs_Worker specs) satisfied.

(** ** Specification *)

(** What a watch reports, and how often for a key. *)
Inductive observation := SawCreation (key : string) | SawDeletion (key : string).
Definition observe_one (r : ControllerExpectations) (o : observation) : ControllerExpectations :=
  match o with SawCreation k => CreationObserved k r | SawDeletion k => DeletionObserved k r end.
Definition is_creation (key : string) (o : observation) : bool :=
  match o with SawCreation k => bool_decide (k = key) | SawDeletion _ => false end.
Definition is_deletion (key : string) (o : observation) : bool :=
  match o with SawDeletion k => bool_decide (k = key) | SawCreation _ => false end.
Definition creations_of (key : string) (l : list observation) : Z := zlen (filter (is_creation key) l).
Definition deletions_of (key : string) (l : list observation) : Z := zlen (filter (is_deletion key) l).

(** ** Lemmas *)
Lemma seen_cons (f : observation → bool) o l :
  zlen (filter f (o :: l)) = (if f o then 1 else 0) + zlen (filter f l).
Proof. rewrite filter_cons. destruct (f o); case_decide; try done. by rewrite zlen_cons. Qed.

Definition counted (key : string) (l : list observation) (e : ControlleeExpectations)
  : ControlleeExpectations :=
  mkExp (exp_add e - creations_of key l) (exp_del e - deletions_of key l) (exp_timestamp e).

(** The counters can take [n] more observations. *)
Definition has_room (n : Z) (e : ControlleeExpectations) : Prop :=
  - 2 ^ 63 + n ≤ exp_add e < 2 ^ 63 ∧ - 2 ^ 63 + n ≤ exp_del e < 2 ^ 63.

Lemma observe_one_lookup r o key e :
  r !! key = Some e → has_room 1 e → observe_one r o !! key = Some (counted key [o] e).
Proof.
  intros He [Ha Hd]. unfold counted, creations_of, deletions_of. rewrite !seen_cons.
  assert (∀ a d, 0 ≤ a ≤ 1 → 0 ≤ d ≤ 1 → exp_Add (int64 (- a)) (int64 (- d)) e =
            mkExp (exp_add e - (a + zlen (A := observation) [])) (exp_del e - (d + zlen (A := observation) []))
              (exp_timestamp e)) as Hexp.
  { intros a d ??. unfold exp_Add. rewrite !int64_small by (unfold in_int64; rewrite ?int64_small; unfold in_int64; lia).
    f_equal; unfold zlen; cbn; lia. }
  destruct o as [k|k]; cbn [observe_one is_creation is_deletion];
    unfold CreationObserved, DeletionObserved, LowerExpectations, GetExpectations;
    (destruct (decide (k = key)) as [->|Hk];
      [rewrite He, lookup_insert_eq, bool_decide_true by done; by rewrite Hexp by lia|]);
    rewrite bool_decide_false by done; rewrite <- Hexp by lia;
    (assert (exp_Add (int64 (- 0)) (int64 (- 0)) e = e) as ->
      by (rewrite Hexp by lia; destruct e; unfold zlen; cbn; f_equal; lia));
    destruct (r !! k); by rewrite ?lookup_insert_ne.
Qed.

Lemma observe_lookup l : ∀ r key e,
  r !! key = Some e → has_room (zlen l) e →
  foldl observe_one r l !! key = Some (counted key l e).
Proof.
  induction l as [|o l IH]; intros r key e He Hr.
  - cbn [foldl]. rewrite He. unfold counted. destruct e; f_equal; f_equal; unfold creations_of, deletions_of, zlen; cbn; lia.
  - cbn [foldl]. rewrite zlen_cons in Hr. unfold has_room in Hr. pose proof (zlen_nonneg l).
    assert (0 ≤ creations_of key [o] ≤ 1 ∧ 0 ≤ deletions_of key [o] ≤ 1) as [Hc Hd].
    { unfold creations_of, deletions_of. rewrite !seen_cons. unfold zlen.
      destruct (is_creation key o), (is_deletion key o); cbn; lia. }
    rewrite (IH _ key (counted key [o] e)).
    + unfold counted. cbn. f_equal. unfold creations_of, deletions_of in *.
      rewrite !(seen_cons _ o). f_equal; unfold zlen; cbn; lia.
    + apply observe_one_lookup; [done|]. unfold has_room. lia.
    + unfold has_room, counted. cbn. lia.
Qed.

(** ** Properties *)

(** C40. After a controller has set expectations for a key, and whatever
    is then observed of this and of other keys (fewer than 2^62 events), the key is satisfied exactly when
    as many creations and deletions of the key were observed as expected, or the timeout has passed since
    they were set.  A key without expectations is satisfied. *)
Theorem SatisfiedExpectations_correct (r : ControllerExpectations) key add del set_at now
    (seen : list observation) :
  0 ≤ add < 2 ^ 62 → 0 ≤ del < 2 ^ 62 → zlen seen < 2 ^ 62 →
  SatisfiedExpectations now key (foldl observe_one (SetExpectations set_at key add del r) seen) =
    (add <=? creations_of key seen) && (del <=? deletions_of key seen)
    || (ExpectationsTimeout <? now - set_at) ∧
  SatisfiedExpectations now key (DeleteExpectations key r) = true.
Proof.
  intros Ha Hd Hl. split.
  - pose proof (zlen_nonneg seen). unfold SatisfiedExpectations, GetExpectations, SetExpectations.
    rewrite !int64_small by (unfold in_int64; lia).
    rewrite (observe_lookup seen _ key (mkExp add del set_at)).
    + unfold Fulfilled, isExpired, counted. cbn [exp_add exp_del exp_timestamp].
      replace (add - creations_of key seen <=? 0) with (add <=? creations_of key seen)
        by (apply eq_true_iff_eq; rewrite !Z.leb_le; lia).
      replace (del - deletions_of key seen <=? 0) with (del <=? deletions_of key seen)
        by (apply eq_true_iff_eq; rewrite !Z.leb_le; lia).
      by destruct (_ && _), (_ <? _).
    + by rewrite lookup_insert_eq.
    + unfold has_room. cbn. lia.
  - unfold SatisfiedExpectations, GetExpectations, DeleteExpectations. by rewrite lookup_delete_eq.
Qed.

(** Two of three creations, another key, then the third. *)
Lemma SatisfiedExpectations_correct_witness :
  let seen := [SawCreation "k"; SawDeletion "k"; SawCreation "other"; SawCreation "k"] in
  SatisfiedExpectations 10 "k" (foldl observe_one (SetExpectations 7 "k" 3 0 ∅) seen) = false ∧
  SatisfiedExpectations 10 "k" (DeleteExpectations "k" ∅) = true.
Proof. apply (SatisfiedExpectations_correct ∅ "k" 3 0 7 10); by vm_compute. Defined.

(** The replica types a job has. *)
Definition types_of (mxjob : MXJob) : list MXReplicaType :=
  (if specs_Scheduler (job_specs mxjob) then [MXReplicaTypeScheduler] else [])
  ++ (if specs_Server (job_specs mxjob) then [MXReplicaTypeServer] else [])
  ++ (if specs_Worker (job_specs mxjob) then [MXReplicaTypeWorker] else []).

(** satisfiedExpectations holds as soon as the expectations of one replica
    type of the job are satisfied: not, as its comment says, when the adds and deletes of the job have
    been observed, for which all types would have to be; and never for a job without replica types. *)
Theorem satisfiedExpectations_any now r (mxjob : MXJob) :
  satisfiedExpectations now r mxjob =
    existsb (λ rt, SatisfiedExpectations now (genExpectationPodsKey (KeyFunc mxjob) rt) r) (types_of mxjob) ∧
  ∃ r' : ControllerExpectations, satisfiedExpectations 0 r' example_job = true ∧
    SatisfiedExpectations 0 (genExpectationPodsKey (KeyFunc example_job) MXReplicaTypeWorker) r' = false.
Proof.
  split.
  - unfold satisfiedExpectations, types_of, or_satisfied.
    destruct (specs_Scheduler _), (specs_Server _), (specs_Worker _); cbn; try done;
      rewrite ?orb_false_r, ?orb_assoc; done.
  - exists (ExpectCreations 0 (genExpectationPodsKey (KeyFunc example_job) MXReplicaTypeWorker) 2 ∅).
    by vm_compute.
Qed.
