(* ===== verification/Completion.v ===== *)
(** * From the first event to the verdict

    A job receives one event after the other, and every sync starts from the job as it was stored last.
    [rounds_verdict] says what comes of it: the verdict of the job is the first decisive observation, for
    any cluster and any sequence of syncs that end without error. *)
From S2P Require Import Prelude Types Runtime Api RefCluster Labels Naming Replicas Conditions.
From S2P Require Import JobStatus Controls RefManager Handler Footprint Reconcile Creation Pass Lifecycle.

Section completion.
Context {W : Type} `{!Cluster W} `{!GoRuntime}.

(** One event: a sync of [j] without error that found the pods [pods] (if it looked for them); [j'] is
    the job that is stored afterwards. *)
Definition round (j : MXJob) (pods : list Pod) (j' : MXJob) : Prop :=
  ∃ (s s' : St W) jr l,
    Sync j false s = Ret (None, jr) s' ∧ trace s' = trace s ++ l ∧ j' = default j (last (stored l)) ∧
    zlen pods < 2 ^ 31 ∧
    (active_job j → ∃ jc sc s1, enter j s = Ret jc sc ∧ getPodsForMXJob jc sc = Ret (pods, None) s1).

Inductive rounds : MXJob → list (list Pod) → MXJob → Prop :=
| rounds_none j : rounds j [] j
| rounds_more j pods j1 rest j' : round j pods j1 → rounds j1 rest j' → rounds j (pods :: rest) j'.

(** ** Specification *)

(** What the pods of a sync decide. *)
Definition decision (init : bool) (specs : MXReplicaSpecs) (pods : list Pod) : verdict :=
  mkVerdict (workers_done specs pods) (negb (workers_done specs pods) && lost_any init specs pods).
Definition decided (v : verdict) : bool := v_succeeded v || v_failed v.
(** The first decisive observation stands; missing pods count as lost from the second sync on. *)
Fixpoint final_verdict (init : bool) (specs : MXReplicaSpecs) (v : verdict) (seen : list (list Pod)) : verdict :=
  match seen with
  | [] => v
  | pods :: rest => if decided v then v else final_verdict true specs (decision init specs pods) rest
  end.

(** A job the rounds are about. *)
Definition alive (j : MXJob) : Prop :=
  well_formed j ∧ conditions_wf (job_Status j) ∧ meta_DeletionTimestamp (job_Meta j) = None.
#[export] Instance alive_dec j : Decision (alive j).
Proof. unfold alive. apply _. Defined.

(** ** Lemmas *)
Lemma outcome_decided init specs v seen : decided v = true → final_verdict init specs v seen = v.
Proof. intros Hv. destruct seen; [done|]. cbn. by rewrite Hv. Qed.

Lemma lost_any_later init specs pods : lost_any init specs pods = true → lost_any true specs pods = true.
Proof.
  unfold lost_any. rewrite !existsb_exists. intros (rt & Hin & Hl). exists rt. split; [done|].
  revert Hl. unfold lost_type, lost. destruct (wanted specs rt); [|done].
  destruct init; [done|]. cbn. rewrite orb_false_r. by intros ->.
Qed.

Lemma decisive_later init specs pods : decided (decision init specs pods) = true → decided (decision true specs pods) = true.
Proof.
  unfold decided, decision. cbn. destruct (workers_done specs pods); [done|]. cbn. apply lost_any_later.
Qed.

Lemma outcome_decisive specs pods seen : ∀ init v,
  pods ∈ seen → decided (decision false specs pods) = true → decided (final_verdict init specs v seen) = true.
Proof.
  induction seen as [|p seen IH]; intros init v Hin Hd; [by apply not_elem_of_nil in Hin|].
  cbn. destruct (decided v) eqn:Hv; [done|]. apply elem_of_cons in Hin as [<-|Hin]; [|by apply IH].
  destruct init; [apply decisive_later in Hd|]; by rewrite outcome_decided.
Qed.

(** What [enter] leaves of the status. *)
Lemma enter_summary j (s : St W) : quiet (enter j) (λ jc, summary_of jc = summary_of j) s.
Proof.
  unfold enter. destruct (checkCondition _ _); [by apply quiet_ret|].
  eapply quiet_mono; [apply update_true|]. intros jc (_ & Hr & _ & _ & Hoth & Hst & Hct).
  unfold summary_of, job_view, job_verdict, running_noted, checkCondition. by rewrite Hr, Hst, Hct, !Hoth.
Qed.

Lemma round_finished j pods j' : alive j → finished j = true → round j pods j' → j' = j.
Proof.
  intros (_ & _ & Hd) Hf (s & s' & jr & l & Hrun & Ht & -> & _).
  assert (trace s' = trace s) as Ht'.
  { unfold Sync in Hrun. rewrite decide_False in Hrun by (rewrite Hd; by intros [? ?]).
    fold (enter j) in Hrun. pose proof (created_quiet j s) as Hq. unfold quiet, post in Hq.
    destruct (enter j s) as [jc sc|sc] eqn:He; [|done]. destruct Hq as ((_ & Hfin & _) & Htr & _).
    rewrite (bind_run _ _ _ _ _ He) in Hrun. fold (finished jc) in Hrun. rewrite Hfin, Hf in Hrun.
    by injection Hrun as _ ->. }
  rewrite Ht' in Ht. replace l with (@nil request); [done|].
  apply (app_inv_head (trace s)). by rewrite app_nil_r.
Qed.

(** What a sync of a job that is not finished leaves: the job and the goroutines. *)
Lemma round_facts j pods (s s' : St W) jr l :
  alive j → finished j = false → Sync j false s = Ret (None, jr) s' → trace s' = trace s ++ l →
  zlen pods < 2 ^ 31 →
  (∃ jc sc s1, enter j s = Ret jc sc ∧ getPodsForMXJob jc sc = Ret (pods, None) s1) →
  let j' := default j (last (stored l)) in
  alive j' ∧ same_object j j' ∧ initialized j' = true ∧
  summary_of j' = pass (initialized j) (job_specs j) pods (summary_of j) ∧
  ∃ js, same_object j js ∧ initialized js = true ∧
    pending s' = pending s ++ start_call j js ++ finish_call j'.
Proof.
  intros (Hwf & Hcw & Hd) Hf Hrun Ht Hlen (jc & sc & s1 & He & Hpods).
  destruct (Sync_reconciles j jc s sc (conj Hd Hf) He) as (Hrec & Htc & Hpc & Hsame & _ & Hinit & Hcwc & Hfc).
  pose proof (enter_summary j s) as Hsum. unfold quiet, post in Hsum. rewrite He in Hsum. destruct Hsum as [Hsum _].
  assert (pass_ok jc pods) as Hok by (split_and!; [by apply (same_well_formed j)|exact (Hcwc Hcw)|exact Hlen]).
  pose proof (reconcileMXJobs_pass jc pods sc s1 Hok Hpods) as Hpass. unfold post in Hpass.
  rewrite <- Hrec, Hrun in Hpass. destruct Hpass as (l' & gs & Ht' & Hp' & Hdone).
  assert (l' = l) as -> by (apply (app_inv_head (trace s)); congruence).
  destruct Hdone as [([e ?] & _)|(_ & js & j1 & (Hsjs & _ & Hijs & _) & Hs1 & Hcw1 & Hi1 & Hsum1 & Hst & _ & ->)]; [done|].
  clear Hpods Hrun Hrec He. rewrite Hinit, Hsum, (same_specs j jc Hsame) in Hsum1.
  assert (start_call jc js = start_call j js) as Hstart.
  { unfold start_call. rewrite Hinit. destruct Hsame as (_ & _ & ->). done. }
  assert (same_object j js) as Hsj by (by transitivity jc).
  cbv zeta. rewrite Hp', Hpc, Hstart, Hst. case_decide as Heq;
    [change (default j (last [])) with j | change (default j (last [j1])) with j1].
  - split; [done|]. split; [done|]. split.
    { rewrite <- Hinit. unfold initialized in *. by rewrite Heq. }
    split; [rewrite <- Hsum1, <- Hsum; unfold summary_of, job_view, job_verdict; by rewrite Heq|].
    exists js. split_and!; [done..|]. unfold finish_call. rewrite Hf.
    assert (finished j1 = false) as -> by (unfold finished in *; by rewrite <- Heq). done.
  - assert (same_object j j1) as Hs by (by transitivity jc).
    split_and!; [|done..|by exists js]. unfold alive. rewrite (same_meta j j1 Hs).
    split_and!; [by apply (same_well_formed j)|done|done].
Qed.

(** The job after a round of a job that is not finished. *)
Lemma round_pass j pods j' :
  alive j → finished j = false → round j pods j' →
  alive j' ∧ same_object j j' ∧ initialized j' = true ∧
  summary_of j' = pass (initialized j) (job_specs j) pods (summary_of j).
Proof.
  intros Ha Hf (s & s' & jr & l & Hrun & Ht & -> & Hlen & Hsees).
  destruct (round_facts j pods s s' jr l Ha Hf Hrun Ht Hlen) as (H1 & H2 & H3 & H4 & _); [|done].
  apply Hsees. split; [apply Ha | done].
Qed.

Lemma round_active j pods j' :
  alive j → finished j = false → round j pods j' →
  alive j' ∧ same_object j j' ∧ initialized j' = true ∧
  job_verdict j' = decision (initialized j) (job_specs j) pods.
Proof.
  intros Ha Hf Hr. destruct (round_pass j pods j' Ha Hf Hr) as (Ha' & Hs & Hi & Hsum). split_and!; try done.
  pose proof Ha as ([Hjob _] & Hcw & _). destruct Hr as (? & ? & ? & ? & _ & _ & _ & Hlen & _).
  assert (summary_finished (summary_of j) = false) as Hsf by (rewrite <- Hf; symmetry; by apply finished_verdict).
  pose proof (observed_verdict (initialized j) j pods (summary_of j) Hjob Hlen Hsf) as Hv.
  by rewrite <- pass_view, <- Hsum in Hv.
Qed.

Lemma rounds_outcome j seen j' :
  rounds j seen j' → alive j →
  job_verdict j' = final_verdict (initialized j) (job_specs j) (job_verdict j) seen ∧
  (alive j' ∧ same_object j j').
Proof.
  induction 1 as [j|j pods j1 rest j' Hr _ IH]; intros Ha; [by repeat split; apply Ha|].
  destruct (finished j) eqn:Hf.
  - rewrite (round_finished j pods j1 Ha Hf Hr) in IH. destruct (IH Ha) as [-> Hrest]. split; [|done].
    rewrite finished_verdict in Hf by apply Ha. fold (decided (job_verdict j)) in Hf.
    by rewrite !outcome_decided.
  - destruct (round_active j pods j1 Ha Hf Hr) as (Ha1 & Hs & Hi & Hv).
    destruct (IH Ha1) as (-> & Ha' & Hs'). rewrite Hi, Hv, (same_specs j j1 Hs).
    rewrite finished_verdict in Hf by apply Ha. fold (decided (job_verdict j)) in Hf.
    cbn. rewrite Hf. split; [done|]. split; [done|]. by transitivity j1.
Qed.
End completion.

(** ** Properties *)

(** C4. Whatever happens to the pods between the syncs of a job, and on any cluster: after
    any number of syncs without error the verdict of the job is that of the first sync whose pods were
    decisive (all workers succeeded: succeeded; a failed pod, or a missing one once the job is initialized:
    failed), and it never changes again.  So the job does finish as soon as one sync has seen decisive
    pods, and no later sync can lose or reverse it; the object itself stays the same. *)
Theorem rounds_verdict {W} `{!Cluster W} `{!GoRuntime} j seen j' :
  alive j → rounds j seen j' →
  job_verdict j' = final_verdict (initialized j) (job_specs j) (job_verdict j) seen ∧ same_object j j' ∧
  (∀ pods, pods ∈ seen → decided (decision false (job_specs j) pods) = true → finished j' = true).
Proof.
  intros Ha Hr. destruct (rounds_outcome j seen j' Hr Ha) as (Hv & Ha' & Hs). split_and!; [done..|].
  intros pods Hin Hd. rewrite finished_verdict by apply Ha'. rewrite Hv.
  by apply (outcome_decisive _ pods).
Qed.

(** ** An execution on the reference cluster *)

(** The job that is stored after a sync of [j] in state [s]. *)
Definition kept (j : MXJob) (s : St RefCluster) : MXJob :=
  default j (last (stored (drop (length (trace s)) (trace (run j s).2)))).

Lemma round_run j (s : St RefCluster) :
  enter j s = Ret (entered j s).1 (entered j s).2 →
  getPodsForMXJob (entered j s).1 (entered j s).2 = Ret ((pods_seen j s).1, None) (pods_seen j s).2 →
  Sync j false s = Ret (None, (run j s).1) (run j s).2 →
  trace (run j s).2 = trace s ++ drop (length (trace s)) (trace (run j s).2) →
  zlen (pods_seen j s).1 < 2 ^ 31 →
  round j (pods_seen j s).1 (kept j s).
Proof.
  intros He Hp Hrun Ht Hl.
  exists s, (run j s).2, (run j s).1, (drop (length (trace s)) (trace (run j s).2)).
  split; [exact Hrun|]. split; [exact Ht|]. split; [exact eq_refl|]. split; [exact Hl|]. intros _.
  exact (ex_intro _ _ (ex_intro _ _ (ex_intro _ _ (conj He Hp)))).
Qed.

(** Three syncs of the example job: its pods are created, a worker is lost, the other pods end. *)
Definition job1 : MXJob := kept example_job (start (empty_cluster example_job)).
Definition job2 : MXJob := kept job1 worker_gone.
Definition job3 : MXJob := kept job2 workers_succeeded.
Definition seen_pods (j : MXJob) (s : St RefCluster) : list Pod := (pods_seen j s).1.

Lemma round1 : round example_job (seen_pods example_job (start (empty_cluster example_job))) job1.
Proof. refine (round_run example_job _ _ _ _ _ _); vm_compute; reflexivity. Qed.
Lemma round2 : round job1 (seen_pods job1 worker_gone) job2.
Proof. refine (round_run job1 worker_gone _ _ _ _ _); vm_compute; reflexivity. Qed.
Lemma round3 : round job2 (seen_pods job2 workers_succeeded) job3.
Proof. refine (round_run job2 workers_succeeded _ _ _ _ _); vm_compute; reflexivity. Qed.

Lemma rounds_verdict_witness :
  let seen := [seen_pods example_job (start (empty_cluster example_job));
    seen_pods job1 worker_gone; seen_pods job2 workers_succeeded] in
  job_verdict job3 = mkVerdict false true ∧ finished job3 = true ∧
  job_verdict job3 =
    final_verdict (initialized example_job) (job_specs example_job) (job_verdict example_job) seen.
Proof.
  cbv zeta. split; [by vm_compute|]. split; [by vm_compute|].
  apply (rounds_verdict example_job).
  - apply (bool_decide_unpack _); by vm_compute.
  - exact (rounds_more _ _ _ _ _ round1 (rounds_more _ _ _ _ _ round2
      (rounds_more _ _ _ _ _ round3 (rounds_none _)))).
Defined.
