(* ===== verification/Steady.v ===== *)
(** * The steady state

    A pass that found the pods as the status says leaves the job as it is and stores nothing; and the
    status a pass stores is one that the next pass over the same pods confirms.  So the operator comes to
    rest when the cluster does, although it is started again for every resync. *)
From S2P Require Import Prelude Types Runtime Api RefCluster Labels Naming Replicas Conditions.
From S2P Require Import JobStatus Controls RefManager Handler Footprint Reconcile Creation Pass Lifecycle Completion.

(** ** Specification *)

(** What type [rt] reports of [pods] is what the summary says already. *)
Definition reports_same (specs : MXReplicaSpecs) (pods : list Pod) (a : summary) (rt : MXReplicaType) : Prop :=
  ∀ n, wanted specs rt = Some n → report rt n (observe true n (pods_of_type rt pods)) a = a.
(** The status of an initialized job is that of its pods. *)
Definition up_to_date (j : MXJob) (pods : list Pod) : Prop :=
  initialized j = true ∧ finished j = false ∧
  ∀ rt, is_replica_type rt → reports_same (job_specs j) pods (summary_of j) rt.

(** Nothing of the job or its pods is written, no hook is called. *)
Definition at_rest {W} (s s' : St W) : Prop :=
  ∃ l, trace s' = trace s ++ l ∧ stored l = [] ∧ creations l = [] ∧ deletions l = [] ∧ pending s' = pending s.

(** ** What a pass stores is up to date *)
Lemma set_status_fixed rt rs k : is_replica_type rt → status_of k rt = Some rs → set_replica_status rt (Some rs) k = k.
Proof. destruct k as [k1 k2 k3]. intros [->|[->| ->]] E; compute in E; subst; reflexivity. Qed.

Lemma verdict_step_fixed d l v :
  v_succeeded v || v_failed v = false → (d || l = true → False) → verdict_step d l v = v.
Proof. destruct d, l, v as [[] []]; cbn; intros; done || (exfalso; auto). Qed.

Lemma verdict_step_decided d l v : d || l = true → v_succeeded (verdict_step d l v) || v_failed (verdict_step d l v) = true.
Proof. destruct d, l, v as [[] []]; done. Qed.

(** The verdict after a report that is decisive for its type. *)
Lemma report_stays_finished rt n rs a : summary_finished a = true → summary_finished (report rt n rs a) = true.
Proof. apply verdict_finished_stable. Qed.

Lemma report_spec_stays_finished init rt spec pods a :
  summary_finished a = true → summary_finished (report_spec init rt spec pods a) = true.
Proof. intros. unfold report_spec. destruct (spec ≫= spec_Replicas); [by apply report_stays_finished|done]. Qed.

Definition decisive (rt : MXReplicaType) (n : Z) (rs : MXReplicaStatus) : bool :=
  (bool_decide (rt = MXReplicaTypeWorker) && (int32 (n - rs_Succeeded rs) =? 0)) ||
  ((0 <? rs_Failed rs) || (0 <? rs_Gone rs)).

Lemma report_decisive rt n rs a : decisive rt n rs = true → summary_finished (report rt n rs a) = true.
Proof. apply verdict_step_decided. Qed.

Lemma observed_decisive init specs pods a rt n :
  is_replica_type rt → wanted specs rt = Some n →
  decisive rt n (observe init n (pods_of_type rt pods)) = true →
  summary_finished (observed init specs pods a) = true.
Proof.
  intros Hrt Hn Hd. destruct (wanted_types specs) as (E1 & E2 & E3). unfold observed.
  destruct Hrt as [->|[->| ->]]; rewrite ?E1, ?E2, ?E3 in Hn.
  - do 2 apply report_spec_stays_finished. unfold report_spec. rewrite Hn. by apply report_decisive.
  - apply report_spec_stays_finished. unfold report_spec at 1. rewrite Hn. by apply report_decisive.
  - unfold report_spec at 1. rewrite Hn. by apply report_decisive.
Qed.

(** The report of the workers, the last one, is noted. *)
Lemma observed_worker init specs pods a n :
  wanted specs MXReplicaTypeWorker = Some n →
  let rs := observe init n (pods_of_type MXReplicaTypeWorker pods) in
  let v := sm_view (observed init specs pods a) in
  ((0 <? rs_Active rs) = true → w_running v = true) ∧ ((rs_Active rs =? n) = true → w_started v = true).
Proof.
  intros Hn rs v. destruct (wanted_types specs) as (_ & _ & E3). rewrite E3 in Hn.
  subst v. unfold observed. unfold report_spec at 1 4. rewrite Hn. fold rs. cbn.
  split; intros ->; apply orb_true_r.
Qed.

Lemma observed_reports_same specs pods a rt :
  is_replica_type rt → summary_finished (observed true specs pods a) = false →
  reports_same specs pods (observed true specs pods a) rt.
Proof.
  intros Hrt Hf n Hn. pose proof (observed_status true specs pods a rt n Hn Hrt) as Hst.
  destruct (decisive rt n (observe true n (pods_of_type rt pods))) eqn:Hd.
  { rewrite (observed_decisive _ _ _ _ _ _ Hrt Hn Hd) in Hf. done. }
  assert (rt = MXReplicaTypeWorker →
    let rs := observe true n (pods_of_type rt pods) in let v := sm_view (observed true specs pods a) in
    ((0 <? rs_Active rs) = true → w_running v = true) ∧ ((rs_Active rs =? n) = true → w_started v = true)) as Hw.
  { intros ->. by apply observed_worker. }
  revert Hf Hst Hd Hw. generalize (observe true n (pods_of_type rt pods)) as rs. intros rs.
  generalize (observed true specs pods a) as b. intros [[v r st c] sts] Hf Hst Hd Hw. cbn in *.
  unfold report. cbn [sm_view sm_statuses]. rewrite (set_status_fixed rt _ _ Hrt Hst). f_equal. unfold status_view, status_verdict. cbn.
  unfold decisive in Hd. apply orb_false_iff in Hd as [Hd1 Hd2]. rewrite Hd1, Hd2, orb_false_r.
  rewrite verdict_step_fixed by done. case_bool_decide as Ert; cbn [andb]; rewrite ?orb_false_r; [|done].
  destruct (Hw Ert) as [Hr Hs]. f_equal.
  - destruct (0 <? rs_Active rs); [by rewrite (Hr eq_refl)|by rewrite orb_false_r].
  - destruct (rs_Active rs =? n); [by rewrite (Hs eq_refl)|by rewrite orb_false_r].
Qed.

(** ** The methods on a job that is up to date *)
Section still.
Context {W : Type} `{!Cluster W} `{!GoRuntime}.

Lemma with_own_status j : set_job_Status (λ st, st) j = j.
Proof. by destruct j. Qed.

(** Setting the running condition again. *)
Lemma running_still j msg (s : St W) :
  running_noted (job_Status j) = true →
  quiet (updateMXJobConditions j MXJobRunning MXJobReasonRunning msg) (λ j', j' = j) s.
Proof.
  intros Hn. eapply quiet_mono; [apply updateMXJobConditions_quiet|]. intros j' (c & Ht & Hs & Hr & _ & ->).
  rewrite <- (with_own_status j) at 2. unfold set_job_Status. f_equal.
  unfold running_noted in Hn. unfold setCondition. rewrite Ht.
  destruct (getCondition (job_Status j) MXJobRunning) as [c0|]; [|done].
  apply bool_decide_eq_true in Hn as [Hs0 Hr0]. rewrite Hs, Hr, Hs0, Hr0.
  by rewrite !bool_decide_true.
Qed.

Lemma updateMXJobStatus_still j rt n rs (s : St W) :
  getMXReplicaStatus j rt = Some rs → status_view rt n rs (job_view j) = job_view j →
  w_verdict (job_view j) = mkVerdict false false →
  quiet (updateMXJobStatus j rt n) (λ r, r = (None, j)) s.
Proof.
  intros Hrs Hv Hf. unfold updateMXJobStatus. rewrite Hrs.
  apply (quiet_bind _ _ (λ r, r = rs)); [done|]. intros ? s1 ->. cbv zeta.
  injection Hv as Hverd Hrun Hst _. cbn [w_verdict job_view] in Hf. rewrite Hf in Hverd.
  assert (decisive rt n rs = false) as Hd.
  { unfold decisive, status_verdict, verdict_step in *. destruct (_ && _); [done|]. by destruct (_ || _). }
  unfold decisive in Hd. apply orb_false_iff in Hd as [Hdone Hlost].
  apply (quiet_bind _ _ (λ j', j' = j)); [|intros ? s2 ->; unfold note_lost; rewrite Hlost;
    apply (quiet_bind _ _ (λ j', j' = j)); [by apply quiet_ret|]; intros ? s3 ->; by apply quiet_ret].
  destruct (decide (rt = MXReplicaTypeWorker)) as [Hw|]; [|by apply quiet_ret].
  rewrite (bool_decide_true _ Hw) in *. cbn [andb] in *. unfold note_workers.
  apply (quiet_bind _ _ (λ j', j' = j)).
  { destruct (rs_Active rs =? n); [|by apply quiet_ret]. rewrite orb_true_r in Hst.
    symmetry in Hst. apply bool_decide_eq_true in Hst as [t Ht]. rewrite Ht. by apply quiet_ret. }
  intros ? s2 ->. apply (quiet_bind _ _ (λ j', j' = j)).
  { destruct (0 <? rs_Active rs); [|by apply quiet_ret]. apply running_still.
    by rewrite orb_true_r in Hrun. }
  intros ? s3 ->. rewrite Hdone. by apply quiet_ret.
Qed.

Lemma up_to_date_verdict j :
  conditions_wf (job_Status j) → finished j = false → w_verdict (job_view j) = mkVerdict false false.
Proof.
  intros Hw Hf. rewrite finished_verdict in Hf by done. cbn. unfold job_verdict in *. cbn in Hf.
  by apply orb_false_iff in Hf as [-> ->].
Qed.

Lemma reconcilePods_still j pods rt spec n (s : St W) :
  conditions_wf (job_Status j) → up_to_date j pods → is_replica_type rt → wanted (job_specs j) rt = Some n →
  spec_Replicas spec = Some n → sizes_ok n pods →
  quiet (reconcilePods j pods rt spec) (λ r, r = (None, j)) s.
Proof.
  intros Hw (Hi & Hf & Hup) Hrt Hn Hsp Hsz. apply (reconcilePods_reports _ _ _ _ n); try done; [by left|].
  intros s'. specialize (Hup rt Hrt n Hn). rewrite Hi.
  set (rs := observe true n (pods_of_type rt pods)) in *. 
  pose proof (f_equal sm_view Hup : status_view rt n rs (job_view j) = job_view j) as Hv.
  pose proof (f_equal sm_statuses Hup : set_replica_status rt (Some rs) (st_ReplicaStatuses (job_Status j)) =
    st_ReplicaStatuses (job_Status j)) as Hs. assert (updateMXReplicaStatuses (initializeMXReplicaStatuses j rt) rt rs = j) as ->.
  { destruct j as [tm m sp [sts st ct cs]]. cbn in Hs. unfold updateMXReplicaStatuses, initializeMXReplicaStatuses,
      set_job_Status, set_st_ReplicaStatuses. cbn. do 2 f_equal. rewrite <- Hs at 2.
    unfold set_replica_status. by repeat case_decide. }
  apply updateMXJobStatus_still with rs; [|done|by apply up_to_date_verdict].
  rewrite getMXReplicaStatus_of, <- Hs. unfold status_of, set_replica_status.
  by destruct Hrt as [->|[->| ->]].
Qed.

(** *** The pass *)
Definition keeps_job (j : MXJob) {E} (r : E * MXJob) (s' : St W) : Prop := r.2 = j.

Lemma wanted_spec j rt sp n :
  is_replica_type rt → replica_spec j rt = Some sp → spec_Replicas sp = Some n → wanted (job_specs j) rt = Some n.
Proof.
  intros Hrt Hsp Hn. destruct (wanted_types (job_specs j)) as (E1 & E2 & E3).
  destruct Hrt as [->|[->| ->]]; rewrite ?E1, ?E2, ?E3;
    match goal with |- ?x ≫= _ = _ => change (x = Some sp) in Hsp; by rewrite Hsp end.
Qed.

Lemma reconcilePods_keeps j pods rt sp (s : St W) :
  pass_ok j pods → up_to_date j pods → is_replica_type rt → replica_spec j rt = Some sp → spec_ok (Some sp) →
  post (reconcilePods j pods rt sp) (λ r s', r = (None, j) ∧ made j pods [] s s') (λ _, False) s.
Proof.
  intros (_ & Hcw & Hlen) Hup Hrt Hsp Hok. destruct (spec_ok_some _ Hok) as (? & n & tpl & [= <-] & Hn & Hr & _).
  eapply quiet_post; [eapply (reconcilePods_still j pods rt sp n); try done; by eapply wanted_spec|].
  intros r s' -> Ht Hp. split; [done|]. by apply made_quiet.
Qed.

Lemma reconcile_scheduler_keeps j pods (s : St W) :
  pass_ok j pods → up_to_date j pods →
  post (reconcile_scheduler j pods) (λ r s', r.2 = j ∧ made j pods [] s s') (λ _, False) s.
Proof.
  intros Hok Hup. pose proof Hok as (Hwf & _). unfold reconcile_scheduler.
  assert (spec_ok (specs_Scheduler (job_specs j))) as Hspec by by destruct Hwf as [(? & _) _].
  destruct (specs_Scheduler (job_specs j)) as [sp|] eqn:Hsp; [|done].
  apply post_bind. eapply post_mono; [apply reconcilePods_keeps; try done; by left | | done].
  intros ? s1 [-> Hm1]. cbn beta iota. apply post_bind.
  eapply post_mono; [eapply (safe_made j pods); [apply (getServicesForMXJob_safe j j (¬ well_formed j) (reflexivity j)) | tauto |] | | done].
  { by intros []. }
  intros [services err] s2 [_ Hm2]. pose proof (made_trans _ _ _ _ _ _ _ Hm1 Hm2) as Hm12.
  destruct err as [err|]; [by apply post_ret|]. apply post_bind.
  eapply post_mono; [eapply (safe_made j pods); [apply (reconcileServices_safe j [] j services
    MXReplicaTypeScheduler sp (reflexivity j)) | tauto |] | | done].
  { by intros []. }
  intros err s3 [_ Hm3]. apply post_ret. split; [done|]. exact (made_trans _ _ _ _ _ _ _ Hm12 Hm3).
Qed.

Lemma reconcile_optional_keeps j pods rt spec (s : St W) :
  pass_ok j pods → up_to_date j pods → is_replica_type rt → replica_spec j rt = spec → spec_ok spec →
  post (reconcile_optional j pods rt spec) (λ r s', r = (None, j) ∧ made j pods [] s s') (λ _, False) s.
Proof. intros Hok Hup Hrt Hsp Hspec. destruct spec as [sp|]; [|done]. by apply reconcilePods_keeps. Qed.

Lemma made_at_rest j pods (s s' : St W) : made j pods [] s s' → at_rest s s'.
Proof.
  intros (l & Ht & Hp & Hst & Hd & (css & Hcs & Hc)). exists l. split_and!; try done.
  apply Forall2_nil_inv_l in Hcs as ->. by rewrite Hc.
Qed.

Lemma reconcileMXJobs_rests j pods (s s1 : St W) :
  pass_ok j pods → up_to_date j pods → getPodsForMXJob j s = Ret (pods, None) s1 →
  post (reconcileMXJobs j) (λ r s', r.2 = j ∧ at_rest s s') (λ _, False) s.
Proof.
  intros Hok Hup Hpods. pose proof Hok as (Hwf & _). pose proof Hwf as ((Hsp1 & Hsp2 & Hsp3) & _).
  assert (made j pods [] s s1) as Hm.
  { pose proof (safe_made j pods _ _ _ _ _ s (getPodsForMXJob_safe j j (¬ well_formed j) (reflexivity j)) ltac:(tauto)
      ltac:(by intros [])) as H1.
    unfold post in H1. rewrite Hpods in H1. by destruct H1. }
  unfold reconcileMXJobs. unfold post. rewrite (bind_run _ _ _ _ _ Hpods). cbn beta iota. clear Hpods.
  apply post_bind. eapply post_mono; [by apply reconcile_scheduler_keeps | | done].
  intros [err j1] s2 [Hj Hm1]. cbn in Hj. subst j1. pose proof (made_trans _ _ _ _ _ _ _ Hm Hm1) as Hm'.
  destruct err as [err|]; [apply post_ret; split; [done|by eapply made_at_rest]|].
  apply post_bind. eapply post_mono; [eapply reconcile_optional_keeps; try done; by right; left | | done].
  intros ? s3 [-> Hm2]. apply (made_trans _ _ _ _ _ _ _ Hm') in Hm2. cbn beta iota.
  apply post_bind. eapply post_mono; [eapply reconcile_optional_keeps; try done; by right; right | | done].
  intros ? s4 [-> Hm3]. apply (made_trans _ _ _ _ _ _ _ Hm2) in Hm3. cbn beta iota.
  destruct Hup as (Hi & Hf & _). unfold initialized in Hi. unfold finished in Hf. rewrite Hi. cbn [negb].
  apply post_bind, post_ret. rewrite Hf. apply post_bind, post_ret. rewrite decide_True by done.
  apply post_ret. split; [done|]. by eapply made_at_rest.
Qed.
End still.

(** ** Properties *)

(** C5. The operator comes to rest.  A sync over a job whose status is that of its pods leaves
    the job as it is, stores, creates and deletes nothing and calls no hook.  And after any sync without
    error of an initialized job that it does not finish, the job that is stored is in that state for the
    pods that were found, so a further sync that finds the same pods does nothing.  (A missing service is
    created again, and objects may be adopted or released.) *)
Theorem Sync_rests {W} `{!Cluster W} `{!GoRuntime} (j : MXJob) pods :
  alive j → finished j = false → zlen pods < 2 ^ 31 →
  (created j = true → up_to_date j pods → ∀ s s1 : St W, getPodsForMXJob j s = Ret (pods, None) s1 →
     post (Sync j false) (λ '(err, j') s', j' = j ∧ at_rest s s') (λ _, False) s) ∧
  (initialized j = true → ∀ j', round j pods j' → finished j' = false → up_to_date j' pods).
Proof.
  intros Ha Hf Hlen. pose proof Ha as (Hwf & Hcw & Hd). split.
  - intros Hc Hup s s1 Hpods. destruct (Sync_reconciles j j s s (conj Hd Hf)) as (Hrun & _).
    { unfold enter. fold (created j). by rewrite Hc. }
    pose proof (reconcileMXJobs_rests j pods s s1 (conj Hwf (conj Hcw Hlen)) Hup Hpods) as Hrest.
    unfold post in *. rewrite Hrun. by destruct (reconcileMXJobs j s) as [[err j']|].
  - intros Hi j' Hr Hf'. destruct (round_pass j pods j' Ha Hf Hr) as (Ha' & Hs & Hi' & Hsum).
    split_and!; [done..|]. intros rt Hrt. rewrite Hsum, (same_specs j j' Hs), Hi.
    rewrite finished_verdict in Hf' by apply Ha'. change (summary_finished (summary_of j') = false) in Hf'.
    rewrite Hsum, Hi in Hf'. revert Hf'. unfold pass. cbv zeta.
    destruct (summary_finished (observed true (job_specs j) pods (summary_of j))) eqn:E; [|].
    { unfold summary_finished in *. cbn. congruence. }
    intros _. by apply observed_reports_same.
Qed.

(** The job of the example after its first sync, with all its pods there. *)
Definition steady_pods : list Pod := seen_pods job1 started.2.
Lemma steady_round : round job1 steady_pods (kept job1 started.2).
Proof. refine (round_run job1 started.2 _ _ _ _ _); vm_compute; reflexivity. Qed.
Lemma steady_up_to_date : up_to_date job1 steady_pods.
Proof.
  split; [by vm_compute|]. split; [by vm_compute|].
  intros rt [->|[->| ->]] n Hn; vm_compute in Hn; injection Hn as <-; vm_compute; reflexivity.
Qed.

Lemma Sync_rests_witness :
  length steady_pods = 4%nat ∧
  post (Sync job1 false) (λ '(err, j') s', j' = job1 ∧ at_rest started.2 s') (λ _, False) started.2 ∧
  up_to_date (kept job1 started.2) steady_pods.
Proof.
  split; [by vm_compute|].
  assert (alive job1) as Ha by (apply (bool_decide_unpack _); by vm_compute).
  assert (finished job1 = false) as Hf by (vm_compute; reflexivity).
  assert (zlen steady_pods < 2 ^ 31) as Hlen by (vm_compute; reflexivity).
  destruct (Sync_rests (W := RefCluster) job1 steady_pods Ha Hf Hlen) as [Hrest Hup]. split.
  - apply (Hrest ltac:(vm_compute; reflexivity) steady_up_to_date started.2 (pods_seen job1 started.2).2).
    vm_compute. reflexivity.
  - apply (Hup ltac:(vm_compute; reflexivity) _ steady_round). vm_compute. reflexivity.
Defined.
