(* ===== verification/Notices.v ===== *)
(** * How often the webhooks are called

    [callHookAsync] starts a goroutine and does not wait for it, and what a pass decides is stored only
    afterwards.  Over any number of syncs without error, [hooks_once] counts the goroutines: one for the start of
    the job, one for its end.  (A sync whose last request fails has started them too, and the next one
    starts them again: [Pass.pass_done].) *)
From S2P Require Import Prelude Types Runtime Api RefCluster Labels Naming Replicas Conditions.
From S2P Require Import JobStatus Controls RefManager Handler Footprint Reconcile Creation Pass Lifecycle Completion.

Section notices.
Context {W : Type} `{!Cluster W} `{!GoRuntime}.

(** A [round] with the goroutines it starts. *)
Definition calling_round (j : MXJob) (pods : list Pod) (gs : list goroutine) (j' : MXJob) : Prop :=
  ∃ (s s' : St W) jr l,
    Sync j false s = Ret (None, jr) s' ∧ trace s' = trace s ++ l ∧ pending s' = pending s ++ gs ∧
    j' = default j (last (stored l)) ∧ zlen pods < 2 ^ 31 ∧
    (active_job j → ∃ jc sc s1, enter j s = Ret jc sc ∧ getPodsForMXJob jc sc = Ret (pods, None) s1).
Inductive calling_rounds : MXJob → list (list Pod) → list goroutine → MXJob → Prop :=
| calling_none j : calling_rounds j [] [] j
| calling_more j pods gs j1 rest gs' j' :
    calling_round j pods gs j1 → calling_rounds j1 rest gs' j' →
    calling_rounds j (pods :: rest) (gs ++ gs') j'.

Lemma calling_round_round j pods gs j' : calling_round j pods gs j' → round (W := W) j pods j'.
Proof.
  intros (s & s' & jr & l & Hrun & Ht & _ & Hj & Hlen & Hsees). exists s, s', jr, l. by split_and!.
Qed.
Lemma calling_rounds_rounds j seen gs j' : calling_rounds j seen gs j' → rounds (W := W) j seen j'.
Proof. induction 1; econstructor; [by eapply calling_round_round | done]. Qed.

Lemma finished_starts_nothing j pods gs j' :
  alive j → finished j = true → calling_round j pods gs j' → gs = [].
Proof.
  intros (_ & _ & Hd) Hf (s & s' & jr & l & Hrun & _ & Hp & _).
  pose proof (finished_quiet j s Hd Hf) as Hq.
  unfold quiet, post in Hq. rewrite Hrun in Hq. destruct Hq as (_ & _ & Hp').
  apply (app_inv_head (pending s)). by rewrite app_nil_r, <- Hp.
Qed.

Lemma active_starts j pods gs j' :
  alive j → finished j = false → calling_round j pods gs j' →
  alive j' ∧ same_object j j' ∧ initialized j' = true ∧
  ∃ js, same_object j js ∧ initialized js = true ∧ gs = start_call j js ++ finish_call j'.
Proof.
  intros Ha Hf (s & s' & jr & l & Hrun & Ht & Hp & -> & Hlen & Hsees).
  destruct (round_facts j pods s s' jr l Ha Hf Hrun Ht Hlen) as (H1 & H2 & H3 & _ & js & Hs & Hi & Hp').
  { apply Hsees. split; [apply Ha | done]. }
  split_and!; [done..|]. exists js. split_and!; [done..|].
  apply (app_inv_head (pending s)). by rewrite <- Hp, Hp'.
Qed.

(** The notices of a job whose rounds begin with [j] and end with [j']. *)
Definition notices (j : MXJob) (seen : list (list Pod)) (js j' : MXJob) : list goroutine :=
  if finished j then []
  else (if bool_decide (seen = []) then [] else start_call j js) ++ finish_call j'.

Lemma calling_rounds_notices j seen gs j' :
  calling_rounds j seen gs j' → alive j →
  (finished j = true → j' = j) ∧ alive j' ∧ same_object j j' ∧
  ∃ js, same_object j js ∧ (seen ≠ [] → finished j = false → initialized js = true) ∧ gs = notices j seen js j'.
Proof.
  induction 1 as [j|j pods gs j1 rest gs' j' Hr Hrest IH]; intros Ha.
  { split_and!; [done..|]. exists j. split_and!; [done..|]. unfold notices, finish_call. by destruct (finished j). }
  destruct (finished j) eqn:Hf.
  - pose proof (round_finished j pods j1 Ha Hf (calling_round_round _ _ _ _ Hr)) as ->.
    destruct (IH Ha) as (Hj & Ha' & Hs & js & Hsj & _ & ->). split_and!; [auto | done | done |].
    exists js. split_and!; [done..|]. rewrite (finished_starts_nothing j pods gs j Ha Hf Hr).
    unfold notices. by rewrite Hf.
  - destruct (active_starts j pods gs j1 Ha Hf Hr) as (Ha1 & Hs1 & Hi1 & js & Hsj & Hi & ->).
    destruct (IH Ha1) as (Hj & Ha' & Hs & js1 & _ & _ & ->). split_and!; [done | done | by transitivity j1 |].
    exists js. split_and!; [done..|]. unfold notices. rewrite Hf, (bool_decide_false (pods :: rest = [])) by done.
    rewrite <- app_assoc. f_equal. destruct (finished j1) eqn:Hf1.
    + rewrite app_nil_r. by rewrite (Hj eq_refl).
    + unfold finish_call at 1, start_call. rewrite Hf1, Hi1. by case_bool_decide.
Qed.
End notices.

(** ** Properties *)

(** C6. Each webhook is called once.  Over any number of syncs without error, whatever happens to
    the pods in between and on any cluster, the goroutines that are started are: one that calls the start webhook, with an
    initialized version of the job, if there is one and the job was not initialized; then one that calls the finish webhook,
    with the job as it is finally stored, if there is one and the job finishes; and no other. *)
Theorem hooks_once {W} `{!Cluster W} `{!GoRuntime} j seen gs j' :
  alive j → finished j = false → seen ≠ [] → calling_rounds j seen gs j' →
  ∃ js, same_object j js ∧ initialized js = true ∧
    gs =
      (if initialized j then []
       else match jobspec_StartWebhook (job_Spec j) with Some wh => [CallHook wh js] | None => [] end) ++
      (if finished j'
       then match jobspec_FinishWebhook (job_Spec j) with Some wh => [CallHook wh j'] | None => [] end
       else []).
Proof.
  intros Ha Hf Hne Hr. destruct (calling_rounds_notices j seen gs j' Hr Ha) as (_ & _ & (_ & _ & Hs) & js & Hsj & Hi & ->).
  exists js. split_and!; [done | by apply Hi |]. unfold notices, start_call, finish_call.
  by rewrite Hf, bool_decide_false, Hs by done.
Qed.

(** The three syncs of [Completion]. *)
Definition calls_of (j : MXJob) (s : St RefCluster) : list goroutine := drop (length (pending s)) (pending (run j s).2).
Lemma calling_round_run j (s : St RefCluster) :
  enter j s = Ret (entered j s).1 (entered j s).2 →
  getPodsForMXJob (entered j s).1 (entered j s).2 = Ret ((pods_seen j s).1, None) (pods_seen j s).2 →
  Sync j false s = Ret (None, (run j s).1) (run j s).2 →
  trace (run j s).2 = trace s ++ drop (length (trace s)) (trace (run j s).2) →
  pending (run j s).2 = pending s ++ calls_of j s →
  zlen (pods_seen j s).1 < 2 ^ 31 →
  calling_round j (pods_seen j s).1 (calls_of j s) (kept j s).
Proof.
  intros He Hp Hrun Ht Hg Hl.
  exists s, (run j s).2, (run j s).1, (drop (length (trace s)) (trace (run j s).2)).
  split; [exact Hrun|]. split; [exact Ht|]. split; [exact Hg|]. split; [exact eq_refl|]. split; [exact Hl|]. intros _.
  exact (ex_intro _ _ (ex_intro _ _ (ex_intro _ _ (conj He Hp)))).
Qed.
Lemma calling1 : calling_round example_job (seen_pods example_job (start (empty_cluster example_job)))
  (calls_of example_job (start (empty_cluster example_job))) job1.
Proof. refine (calling_round_run example_job _ _ _ _ _ _ _); vm_compute; reflexivity. Qed.
Lemma calling2 : calling_round job1 (seen_pods job1 worker_gone) (calls_of job1 worker_gone) job2.
Proof. refine (calling_round_run job1 worker_gone _ _ _ _ _ _); vm_compute; reflexivity. Qed.
Lemma calling3 : calling_round job2 (seen_pods job2 workers_succeeded) (calls_of job2 workers_succeeded) job3.
Proof. refine (calling_round_run job2 workers_succeeded _ _ _ _ _ _); vm_compute; reflexivity. Qed.

Lemma hooks_once_witness :
  let gs := calls_of example_job (start (empty_cluster example_job)) ++
    calls_of job1 worker_gone ++ calls_of job2 workers_succeeded ++ [] in
  length gs = 2%nat ∧
  ∃ js, same_object example_job js ∧ initialized js = true ∧
    gs = [CallHook example_hook js] ++
      (if finished job3
       then match jobspec_FinishWebhook (job_Spec example_job) with Some wh => [CallHook wh job3] | None => [] end
       else []).
Proof.
  cbv zeta. split; [vm_compute; reflexivity|].
  apply (hooks_once example_job [seen_pods example_job (start (empty_cluster example_job));
    seen_pods job1 worker_gone; seen_pods job2 workers_succeeded] _ job3).
  - apply (bool_decide_unpack _); by vm_compute.
  - vm_compute; reflexivity.
  - discriminate.
  - exact (calling_more _ _ _ _ _ _ _ calling1 (calling_more _ _ _ _ _ _ _ calling2
      (calling_more _ _ _ _ _ _ _ calling3 (calling_none _)))).
Defined.
