(* ===== verification/Startup.v ===== *)
(** * Setting up: cmd/mxnet-operator, pkg/stub and NewHandler

    What the process does before it serves events: [main] finds the namespace and the resource to watch,
    [NewHandler] builds the handler with its webhook client manager, its scheme and its stores.  Then what
    that manager gives a webhook: [clientConfig] is the authentication of k8s.io/apiserver the operator
    installs, without a kubeconfig file.

    The environment (variables, discovery, the in-cluster configuration, kubeconfig files) is a class. *)
From S2P Require Import Prelude Types Runtime Api RefCluster Labels Naming Lru Json WebhookClient.
From S2P Require Import Singleflight Expectations.
From Stdlib Require Import Ascii.

(** ** The scheme: k8s.io/apimachinery/pkg/runtime *)

(** [reflect.Type] of a struct: package and name.  Of a scheme the conversion and defaulting functions
    are left out. *)
Abbreviation GoType := (string * string)%type.
#[export] Instance GroupVersionKind_eq_dec : EqDecision GroupVersionKind.
Proof. solve_decision. Defined.
#[export] Instance GroupVersionKind_countable : Countable GroupVersionKind.
Proof.
  refine (inj_countable' (λ k, (gvk_Group k, gvk_Version k, gvk_Kind k))
    (λ '(g, v, k), mkGVK g v k) _). by intros [].
Defined.

Record Scheme := mkScheme {
  gvkToType : gmap GroupVersionKind GoType;
  typeToGVK : gmap GoType (list GroupVersionKind);
  unversionedTypes : gmap GoType GroupVersionKind;
  unversionedKinds : gmap string GoType }.
Definition NewScheme : Scheme := mkScheme ∅ ∅ ∅ ∅.
Definition WithKind (gv : GroupVersion) (kind : string) : GroupVersionKind :=
  mkGVK (gv_Group gv) (gv_Version gv) kind.

(** The two assignments at the end of [AddKnownTypeWithName]. *)
Definition register (gvk : GroupVersionKind) (t : GoType) (s : Scheme) : Scheme :=
  let gvks := default [] (typeToGVK s !! t) in
  mkScheme (<[gvk := t]> (gvkToType s))
    (if decide (gvk ∈ gvks) then typeToGVK s else <[t := gvks ++ [gvk]]> (typeToGVK s))
    (unversionedTypes s) (unversionedKinds s).
Definition AddKnownTypeWithName (gvk : GroupVersionKind) (t : GoType) : M Scheme () :=
  if decide (gvk_Version gvk = "") then go_panic
  else
    s ← get_state;
    match gvkToType s !! gvk with
    | Some oldT => if decide (oldT ≠ t) then go_panic else modify (register gvk t)
    | None => modify (register gvk t)
    end.
Definition AddKnownTypes (gv : GroupVersion) (types : list GoType) : M Scheme () :=
  foldM (λ _ t, AddKnownTypeWithName (WithKind gv t.2) t) types tt.

(** The loop body of [AddUnversionedTypes]. *)
Definition add_unversioned (version : GroupVersion) (t : GoType) : M Scheme () :=
  modify (λ s, mkScheme (gvkToType s) (typeToGVK s)
    (<[t := WithKind version t.2]> (unversionedTypes s)) (unversionedKinds s));;
  s ← get_state;
  (match unversionedKinds s !! t.2 with
   | Some old => if decide (t ≠ old) then go_panic else mret tt
   | None => mret tt
   end);;
  modify (λ s, mkScheme (gvkToType s) (typeToGVK s) (unversionedTypes s)
    (<[t.2 := t]> (unversionedKinds s))).
Definition AddUnversionedTypes (version : GroupVersion) (types : list GoType) : M Scheme () :=
  AddKnownTypes version types;;
  foldM (λ _ t, add_unversioned version t) types tt.

(** *** k8s.io/apimachinery/pkg/apis/meta/v1 *)
Definition meta_pkg := "k8s.io/apimachinery/pkg/apis/meta/v1".
Definition WatchEventKind := "WatchEvent".
Definition APIVersionInternal := "__internal".
Definition Unversioned : GroupVersion := mkGroupVersion "" "v1".
Definition option_types : list GoType :=
  [(meta_pkg, "ListOptions"); (meta_pkg, "ExportOptions"); (meta_pkg, "GetOptions"); (meta_pkg, "DeleteOptions")].
Definition unversioned_types : list GoType :=
  [(meta_pkg, "Status"); (meta_pkg, "APIVersions"); (meta_pkg, "APIGroupList"); (meta_pkg, "APIGroup");
   (meta_pkg, "APIResourceList")].
Definition AddToGroupVersion (groupVersion : GroupVersion) : M Scheme () :=
  AddKnownTypeWithName (WithKind groupVersion WatchEventKind) (meta_pkg, "WatchEvent");;
  AddKnownTypeWithName (WithKind (mkGroupVersion (gv_Group groupVersion) APIVersionInternal) WatchEventKind)
    (meta_pkg, "InternalEvent");;
  AddKnownTypes groupVersion option_types;;
  AddUnversionedTypes Unversioned unversioned_types.

(** *** pkg/apis/ava/v1alpha1/register.go *)
Definition ava_pkg := "github.com/qiniu-ava/mxnet-operator/pkg/apis/ava/v1alpha1".
Definition ava_types : list GoType := [(ava_pkg, "MXJob"); (ava_pkg, "MXJobList"); (ava_pkg, "Notification")].
Definition addKnownTypes : M Scheme (option error) :=
  AddKnownTypes SchemeGroupVersion ava_types;;
  AddToGroupVersion SchemeGroupVersion;;
  mret None.

Definition SchemeBuilder : list (M Scheme (option error)) := [addKnownTypes].
(** [sb.AddToScheme(s)] *)
Fixpoint run_builder (sb : list (M Scheme (option error))) : M Scheme (option error) :=
  match sb with
  | [] => mret None
  | f :: sb => err ← f; match err with Some err => mret (Some err) | None => run_builder sb end
  end.
Definition AddToScheme : M Scheme (option error) := run_builder SchemeBuilder.

(** operator-sdk/pkg/util/k8sutil: the error is dropped. *)
Definition AddToSDKScheme (addToScheme : M Scheme (option error)) : M Scheme () :=
  addToScheme;; mret tt.
(** Run on the scheme of the SDK before [main]; watched objects are decoded by that scheme. *)
Definition init : M Scheme () := AddToSDKScheme AddToScheme.

(** ** The environment *)
Record KubeContext := mkKubeContext { ctx_AuthInfo : string }.
(** [clientcmdapi.Config], [A] for [*AuthInfo]. *)
Record Kubeconfig (A : Type) := mkKubeconfig {
  AuthInfos : gmap string A; CurrentContext : string; Contexts : gmap string KubeContext }.
Arguments mkKubeconfig {A}.
Arguments AuthInfos {A}.
Arguments CurrentContext {A}.
Arguments Contexts {A}.

Class Env := {
  LookupEnv : string → option string;
  (** the plural name of the resource *)
  GetResourceClient : string → string → string → string + error;
  InClusterConfig : RestConfig + error;
  AuthInfo : Type;
  RawConfig : string → Kubeconfig AuthInfo + error;
  restConfigFromKubeconfig : AuthInfo → RestConfig + error }.

(** ** Authentication: k8s.io/apiserver/pkg/admission/plugin/webhook/config *)
Section authentication.
Context `{!Env}.

(** The user agent; the timeout it sets is no field of [RestConfig]. *)
Definition setGlobalDefaults (config : RestConfig) : RestConfig :=
  mkRestConfig (cfg_Host config) (cfg_APIPath config) (cfg_BearerToken config) "kube-apiserver-admission"
    (cfg_CAData config) (cfg_ServerName config) (cfg_ContentType config) (cfg_NegotiatedSerializer config)
    (cfg_Dial config).
Definition empty_config : RestConfig := mkRestConfig "" "" "" "" None "" "" false None.

(** The loop over the star prefixed names: [steps] are the parts after the first [i]. *)
Fixpoint star_match (infos : gmap string AuthInfo) (steps : list string) : option AuthInfo :=
  match steps with
  | [] => None
  | _ :: rest =>
      match infos !! ("*." +:+ String.concat "." steps) with
      | Some authConfig => Some authConfig
      | None => star_match infos rest
      end
  end.
Definition current_auth (kubeconfig : Kubeconfig AuthInfo) : option AuthInfo :=
  if decide (CurrentContext kubeconfig = "") then None
  else
    currContext ← Contexts kubeconfig !! CurrentContext kubeconfig;
    if decide (ctx_AuthInfo currContext = "") then None else AuthInfos kubeconfig !! ctx_AuthInfo currContext.

Definition clientConfig (kubeconfig : Kubeconfig AuthInfo) (target : string) : RestConfig + error :=
  match AuthInfos kubeconfig !! target with
  | Some authConfig => restConfigFromKubeconfig authConfig
  | None =>
      match star_match (AuthInfos kubeconfig) (tail (Split target "."%char)) with
      | Some authConfig => restConfigFromKubeconfig authConfig
      | None =>
          match (if decide (target = "kubernetes.default.svc") then InClusterConfig
                 else inr (Errorf "" None)) with
          | inl inClusterConfig => inl (setGlobalDefaults inClusterConfig)
          | inr _ =>
              match AuthInfos kubeconfig !! "*" with
              | Some authConfig => restConfigFromKubeconfig authConfig
              | None =>
                  match current_auth kubeconfig with
                  | Some currAuth => restConfigFromKubeconfig currAuth
                  | None => inl (setGlobalDefaults empty_config)
                  end
              end
          end
      end
  end.

Definition resolver_of (kubeconfig : Kubeconfig AuthInfo) : AuthenticationInfoResolver :=
  mkAuthenticationInfoResolver (clientConfig kubeconfig)
    (λ serviceName serviceNamespace, clientConfig kubeconfig (serviceName +:+ "." +:+ serviceNamespace +:+ ".svc")).
Definition NewDefaultAuthenticationInfoResolver (kubeconfigFile : string) : AuthenticationInfoResolver + error :=
  if decide (kubeconfigFile = "") then inl (resolver_of (mkKubeconfig ∅ "" ∅))
  else
    match RawConfig kubeconfigFile with
    | inr err => inr err
    | inl clientConfig => inl (resolver_of clientConfig)
    end.
End authentication.

(** ** The handler and the process *)

(** [mx.Handler].  The two controls are the real ones, which have no state besides the client; the
    manager comes with its cache and the scheme behind its serializer; [finalizerGroup] works on results
    of finalizers.  [h_recorder] is the component of the recorded events. *)
Record mxHandler := mkMxHandler {
  h_recorder : string;
  h_expectations : ControllerExpectations;
  h_webhookClientManager : ClientManager;
  h_clientCache : LRU RESTClient;
  h_codecScheme : Scheme;
  h_finalizerCalls : option (gmap string nat) }.

(** How the process goes on: [logrus.Fatalf] ends it, a panic too. *)
Inductive Process :=
| Exited (message : string) (cause : error)
| StartPanic
| Serving (apiVersion kind namespace : string) (resyncPeriod : Z) (handler : mxHandler).

Section process.
Context `{!Env}.

(** [None] is a panic.  The error of [AddToScheme] is dropped, as in the source. *)
Definition NewHandler : option (mxHandler + error) :=
  match NewClientManager with
  | None => Some (inr (Errorf "Must provide a positive size" None))
  | Some (cm, cache) =>
      match NewDefaultAuthenticationInfoResolver "" with
      | inr err => Some (inr err)
      | inl authInfoResolver =>
          let cm := SetAuthenticationInfoResolver (Some authInfoResolver) cm in
          let cm := SetServiceResolver (Some default_ResolveEndpoint) cm in
          match AddToScheme NewScheme with
          | Panicked _ => None
          | Ret _ scheme =>
              let cm := SetNegotiatedSerializer true cm in
              Some (inl (mkMxHandler controllerName ∅ cm cache scheme None))
          end
      end
  end.
(** pkg/stub/handler.go; its [Handler] holds nothing but the handler. *)
Definition stub_NewHandler : option (mxHandler + error) :=
  match NewHandler with
  | None => None
  | Some (inr e) => Some (inr e)
  | Some (inl h) => Some (inl h)
  end.

(** operator-sdk/pkg/util/k8sutil *)
Definition WatchNamespaceEnvVar := "WATCH_NAMESPACE".
Definition GetWatchNamespace : string + error :=
  match LookupEnv WatchNamespaceEnvVar with
  | None => inr (Errorf (WatchNamespaceEnvVar +:+ " must be set") None)
  | Some ns =>
      if decide (ns = "") then inr (Errorf (WatchNamespaceEnvVar +:+ " must not be empty") None) else inl ns
  end.

(** operator-sdk/pkg/sdk: [Watch] panics when there is no client for the resource. *)
Definition main : Process :=
  let apiVersion := gv_String SchemeGroupVersion in
  let kind := gvk_Kind SchemeGroupVersionKind in
  match GetWatchNamespace with
  | inr err => Exited "Failed to get watch namespace: " err
  | inl namespace =>
      let resyncPeriod := 5 in
      match GetResourceClient apiVersion kind namespace with
      | inr _ => StartPanic
      | inl _ =>
          match stub_NewHandler with
          | None => StartPanic
          | Some (inr err) => Exited "Failed to create handler: " err
          | Some (inl handler) => Serving apiVersion kind namespace resyncPeriod handler
          end
      end
  end.
End process.

(** ** Registering types *)

(** [l] fits the map [m], and [m'] is [m] with [l]. *)
Definition agrees {K V} `{!EqDecision K, !Countable K} (l : list (K * V)) (m : gmap K V) : Prop :=
  ∀ k v v', (k, v) ∈ l → ((k, v') ∈ l ∨ m !! k = Some v') → v' = v.
Definition added {K V} `{!EqDecision K, !Countable K} (l : list (K * V)) (m m' : gmap K V) : Prop :=
  ∀ k v, m' !! k = Some v ↔ (k, v) ∈ l ∨ m !! k = Some v.

Section maps.
Context {K V : Type} `{!EqDecision K, !Countable K}.
Implicit Types (l : list (K * V)) (m : gmap K V).

Lemma agrees_nil m : agrees [] m.
Proof. by intros k v v' []%not_elem_of_nil. Qed.
Lemma added_nil m : added [] m m.
Proof. intros k v. split; [auto|]. by intros [[]%not_elem_of_nil|]. Qed.

Lemma agrees_app l1 l2 m m1 :
  agrees l1 m → added l1 m m1 → agrees (l1 ++ l2) m ↔ agrees l2 m1.
Proof.
  intros H1 Ha. split; intros H2 k v v' Hv Hv'.
  - apply (H2 k v v'); [apply elem_of_app; auto|]. destruct Hv' as [Hv'|Hv']; [left; apply elem_of_app; auto|].
    apply Ha in Hv' as [Hv'|Hv']; [left; apply elem_of_app; auto | auto].
  - apply elem_of_app in Hv as [Hv|Hv]; [destruct Hv' as [[Hv'|Hv']%elem_of_app|Hv']|].
    + by apply (H1 k v v'); [|left].
    + symmetry. apply (H2 k v' v); [done|]. right. apply Ha. by left.
    + by apply (H1 k v v'); [|right].
    + apply (H2 k v v'); [done|]. destruct Hv' as [[Hv'|Hv']%elem_of_app|Hv']; [| by left |];
        right; apply Ha; auto.
Qed.
Lemma added_app l1 l2 m m1 m2 : added l1 m m1 → added l2 m1 m2 → added (l1 ++ l2) m m2.
Proof. intros H1 H2 k v. rewrite (H2 k v), (H1 k v), elem_of_app. tauto. Qed.
Lemma agrees_app_l l1 l2 m : agrees (l1 ++ l2) m → agrees l1 m.
Proof. intros H k v v' Hv Hv'. apply (H k v v'); rewrite !elem_of_app; tauto. Qed.

Lemma agrees_one k v m : agrees [(k, v)] m ↔ ∀ v', m !! k = Some v' → v' = v.
Proof.
  split.
  - intros H v' Hv. apply (H k v v'); [by apply list_elem_of_singleton | by right].
  - intros H k1 v1 v' [= -> ->]%list_elem_of_singleton [[= ->]%list_elem_of_singleton|]; auto.
Qed.
Lemma added_one k v m : agrees [(k, v)] m → added [(k, v)] m (<[k := v]> m).
Proof.
  rewrite agrees_one. intros H k' v'. rewrite list_elem_of_singleton, lookup_insert_Some. split.
  - intros [[-> ->]|[]]; auto.
  - intros [[= -> ->]|Hm]; [auto|]. destruct (decide (k = k')) as [->|]; [left; split; [done|]|auto].
    symmetry. by apply H.
Qed.

Lemma agrees_empty l : NoDup l.*1 → agrees l ∅.
Proof.
  intros Hnd k v v' Hv [Hv'|Hv']; [|by rewrite lookup_empty in Hv'].
  apply (elem_of_list_to_map_1 _ _ _ Hnd) in Hv, Hv'. congruence.
Qed.
End maps.

(** [m] registers the types [l], and [u] as unversioned, or panics when they do not fit. *)
Definition fits (l : list (GroupVersionKind * GoType)) (u : list (string * GoType)) (s : Scheme) : Prop :=
  Forall (λ p, gvk_Version p.1 ≠ "") l ∧ agrees l (gvkToType s) ∧ agrees u (unversionedKinds s).
Definition with_types (l : list (GroupVersionKind * GoType)) (u : list (string * GoType)) (s s' : Scheme) : Prop :=
  added l (gvkToType s) (gvkToType s') ∧ added u (unversionedKinds s) (unversionedKinds s') ∧
  (∀ t gvk, gvk ∈ default [] (typeToGVK s' !! t) ↔ (gvk, t) ∈ l ∨ gvk ∈ default [] (typeToGVK s !! t)).
Definition registers {A} (l : list (GroupVersionKind * GoType)) (u : list (string * GoType))
  (m : M Scheme A) : Prop :=
  ∀ s, post m (λ _ s', fits l u s ∧ with_types l u s s') (λ _, ¬ fits l u s) s.

Lemma fits_app l1 l2 u1 u2 s s1 :
  fits l1 u1 s → with_types l1 u1 s s1 → fits (l1 ++ l2) (u1 ++ u2) s ↔ fits l2 u2 s1.
Proof.
  intros (Hv & Ha & Hu) (Ha1 & Hu1 & _). unfold fits. rewrite Forall_app.
  rewrite (agrees_app _ _ _ _ Ha Ha1), (agrees_app _ _ _ _ Hu Hu1). tauto.
Qed.

Lemma registers_bind {A B} l1 u1 l2 u2 (m : M Scheme A) (f : A → M Scheme B) :
  registers l1 u1 m → (∀ a, registers l2 u2 (f a)) → registers (l1 ++ l2) (u1 ++ u2) (m ≫= f).
Proof.
  intros Hm Hf s. apply post_bind. eapply post_mono; [apply Hm | |].
  - intros a s1 [Hfit Hadd]. eapply post_mono; [apply Hf | |]; cbn beta.
    + intros b s2 [Hfit2 Hadd2]. rewrite (fits_app _ _ _ _ _ _ Hfit Hadd). split; [done|].
      destruct Hadd as (H1 & H2 & H3), Hadd2 as (H1' & H2' & H3'). split_and!; [by eapply added_app..|].
      intros t gvk. rewrite H3', H3, elem_of_app. tauto.
    + intros s2 Hnot. by rewrite (fits_app _ _ _ _ _ _ Hfit Hadd).
  - intros s1 Hnot (Hv & Ha & Hu). apply Hnot. apply Forall_app in Hv as [Hv _].
    split_and!; [done | by eapply agrees_app_l..].
Qed.
Lemma registers_ret {A} (a : A) : registers [] [] (mret a).
Proof.
  intros s. apply post_ret. split.
  - split_and!; [done | apply agrees_nil..].
  - split_and!; [apply added_nil..|]. intros t gvk. rewrite elem_of_nil. tauto.
Qed.
Lemma registers_each {X} (f : X → list (GroupVersionKind * GoType)) (g : X → list (string * GoType))
  (body : () → X → M Scheme ()) xs acc :
  (∀ x a, registers (f x) (g x) (body a x)) → registers (xs ≫= f) (xs ≫= g) (foldM body xs acc).
Proof.
  intros Hb. revert acc. induction xs as [|x xs IH]; intros acc; [apply registers_ret|].
  cbn [foldM]. rewrite !bind_cons. apply registers_bind; [apply Hb | intros; apply IH].
Qed.

Lemma fits_one gvk t s :
  fits [(gvk, t)] [] s ↔ gvk_Version gvk ≠ "" ∧ ∀ t', gvkToType s !! gvk = Some t' → t' = t.
Proof.
  unfold fits. rewrite agrees_one, Forall_singleton. pose proof (agrees_nil (unversionedKinds s)). tauto.
Qed.

Lemma register_with gvk t s : fits [(gvk, t)] [] s → with_types [(gvk, t)] [] s (register gvk t s).
Proof.
  intros (_ & Ha & _). split_and!; [by apply added_one | apply added_nil|].
  intros t' gvk'. rewrite list_elem_of_singleton. unfold register. cbn [typeToGVK].
  destruct (decide (gvk ∈ default [] (typeToGVK s !! t))) as [Hin|Hnin].
  - split; [auto|]. by intros [[= -> ->]|].
  - destruct (decide (t = t')) as [<-|Hne].
    + rewrite lookup_insert_eq. cbn [from_option]. unfold id at 1. rewrite elem_of_app, list_elem_of_singleton.
      split; [intros [? | ->]; auto | intros [[= ->]| ?]; auto].
    + rewrite lookup_insert_ne by done. split; [auto | by intros [[= ? ?]| ?]].
Qed.

Lemma AddKnownTypeWithName_registers gvk t : registers [(gvk, t)] [] (AddKnownTypeWithName gvk t).
Proof.
  intros s. unfold AddKnownTypeWithName.
  destruct (decide (gvk_Version gvk = "")) as [Hv|Hv]; [cbn; rewrite fits_one; tauto|].
  unfold post, mbind, M_bind, get_state. destruct (gvkToType s !! gvk) as [oldT|] eqn:E.
  - destruct (decide (oldT ≠ t)) as [Hne|Heq]; cbn.
    + rewrite fits_one. intros [_ H]. by apply Hne, H.
    + apply dec_stable in Heq as ->. assert (fits [(gvk, t)] [] s) as Hfit.
      { rewrite fits_one. split; [done|]. congruence. }
      split; [exact Hfit | by apply register_with].
  - cbn. assert (fits [(gvk, t)] [] s) as Hfit by (rewrite fits_one, E; by split).
    split; [exact Hfit | by apply register_with].
Qed.

Lemma add_unversioned_registers version t : registers [] [(t.2, t)] (add_unversioned version t).
Proof.
  intros s. unfold add_unversioned, post, mbind, M_bind, get_state, modify. cbn.
  assert (fits [] [(t.2, t)] s ↔ ∀ t', unversionedKinds s !! t.2 = Some t' → t' = t) as Hfit.
  { unfold fits. rewrite agrees_one. split; [tauto|]. intros H.
    split_and!; [constructor | apply agrees_nil | exact H]. }
  assert (∀ s', gvkToType s' = gvkToType s → typeToGVK s' = typeToGVK s →
    unversionedKinds s' = <[t.2 := t]> (unversionedKinds s) →
    fits [] [(t.2, t)] s → with_types [] [(t.2, t)] s s') as Hwith.
  { intros s' E1 E2 E3 (_ & _ & Hu). unfold with_types. rewrite E1, E2, E3.
    split_and!; [apply added_nil | by apply added_one |]. intros ? ?. rewrite elem_of_nil. tauto. }
  destruct (unversionedKinds s !! t.2) as [old|] eqn:E; cbn.
  - destruct (decide (t ≠ old)) as [Hne|Heq]; cbn.
    + rewrite Hfit. intros H. by apply Hne; rewrite (H old).
    + apply dec_stable in Heq as <-. assert (fits [] [(t.2, t)] s) as Hf by (apply Hfit; congruence).
      split; [exact Hf | by apply Hwith].
  - assert (fits [] [(t.2, t)] s) as Hf by (by apply Hfit). split; [exact Hf | by apply Hwith].
Qed.

Definition types_in (gv : GroupVersion) (types : list GoType) : list (GroupVersionKind * GoType) :=
  types ≫= λ t, [(WithKind gv t.2, t)].
Definition kinds_of (types : list GoType) : list (string * GoType) := types ≫= λ t, [(t.2, t)].

Lemma bind_nothing {A B} (l : list A) : (l ≫= λ _, @nil B) = [].
Proof. by induction l. Qed.

Lemma AddKnownTypes_registers gv types : registers (types_in gv types) [] (AddKnownTypes gv types).
Proof.
  rewrite <- (bind_nothing types). apply registers_each. intros t _. apply AddKnownTypeWithName_registers.
Qed.
Lemma AddUnversionedTypes_registers version types :
  registers (types_in version types ++ []) (kinds_of types) (AddUnversionedTypes version types).
Proof.
  apply (registers_bind _ []); [apply AddKnownTypes_registers|]. intros _.
  rewrite <- (bind_nothing types). apply registers_each. intros t _. apply add_unversioned_registers.
Qed.

(** What [AddToGroupVersion] and the operator register. *)
Definition group_types (gv : GroupVersion) : list (GroupVersionKind * GoType) :=
  (WithKind gv WatchEventKind, (meta_pkg, "WatchEvent")) ::
  (WithKind (mkGroupVersion (gv_Group gv) APIVersionInternal) WatchEventKind, (meta_pkg, "InternalEvent")) ::
  types_in gv option_types ++ types_in Unversioned unversioned_types.
Definition operator_types : list (GroupVersionKind * GoType) :=
  types_in SchemeGroupVersion ava_types ++ group_types SchemeGroupVersion.

Lemma AddToGroupVersion_registers gv :
  registers (group_types gv) (kinds_of unversioned_types) (AddToGroupVersion gv).
Proof.
  change (kinds_of unversioned_types) with ([] ++ [] ++ [] ++ kinds_of unversioned_types).
  unfold group_types. rewrite <- (app_nil_r (types_in Unversioned unversioned_types)).
  apply (registers_bind [_] []); [apply AddKnownTypeWithName_registers | intros _].
  apply (registers_bind [_] []); [apply AddKnownTypeWithName_registers | intros _].
  apply registers_bind; [apply AddKnownTypes_registers | intros _; apply AddUnversionedTypes_registers].
Qed.

Lemma addKnownTypes_registers : registers operator_types (kinds_of unversioned_types) addKnownTypes.
Proof.
  unfold operator_types. rewrite <- (app_nil_r (group_types _)), <- (app_nil_r (kinds_of _)).
  apply (registers_bind _ [] (group_types SchemeGroupVersion ++ []) (kinds_of unversioned_types ++ []));
    [apply AddKnownTypes_registers | intros _].
  apply (registers_bind (group_types SchemeGroupVersion) (kinds_of unversioned_types) [] []);
    [apply AddToGroupVersion_registers | intros _; apply registers_ret].
Qed.

Lemma AddToScheme_run (s : Scheme) :
  post AddToScheme (λ err s', err = None ∧ fits operator_types (kinds_of unversioned_types) s ∧
      with_types operator_types (kinds_of unversioned_types) s s')
    (λ _, ¬ fits operator_types (kinds_of unversioned_types) s) s.
Proof.
  unfold AddToScheme, SchemeBuilder. cbn [run_builder]. apply post_bind.
  assert (post addKnownTypes (λ err _, err = None) (λ _, True) s) as Hret.
  { unfold addKnownTypes. apply post_bind. eapply post_mono with (Q := λ _ _, True) (X := λ _, True);
      [by unfold post; destruct (AddKnownTypes _ _ s) | | done]. intros _ s1 _. apply post_bind.
    eapply post_mono with (Q := λ _ _, True) (X := λ _, True); [by unfold post; destruct (AddToGroupVersion _ s1) | done..]. }
  pose proof (post_and _ _ _ _ _ _ (addKnownTypes_registers s) Hret) as Hboth.
  eapply post_mono; [exact Hboth | |].
  - intros err s' [[Hfit Hadd] ->]. by apply post_ret.
  - by intros s' [Hnot _].
Qed.

(** ** The handler *)
Lemma fits_new_scheme : fits operator_types (kinds_of unversioned_types) NewScheme.
Proof.
  split; [apply (bool_decide_unpack _); vm_compute; reflexivity|].
  split; apply agrees_empty, (bool_decide_unpack _); vm_compute; reflexivity.
Qed.

Definition knows_operator_types (s : Scheme) : Prop :=
  Forall (λ name, gvkToType s !! mkGVK "ava.qiniu.com" "v1alpha1" name = Some (ava_pkg, name) ∧
    mkGVK "ava.qiniu.com" "v1alpha1" name ∈ default [] (typeToGVK s !! (ava_pkg, name)))
    ["MXJob"; "MXJobList"; "Notification"].

Lemma with_operator_types s s' :
  with_types operator_types (kinds_of unversioned_types) s s' → knows_operator_types s'.
Proof.
  intros (Hadd & _ & Hback). apply Forall_forall. intros name Hname.
  assert ((mkGVK "ava.qiniu.com" "v1alpha1" name, (ava_pkg, name)) ∈ operator_types) as Hin.
  { apply elem_of_app. left. apply list_elem_of_bind. exists (ava_pkg, name).
    split; [by apply list_elem_of_singleton | exact (list_elem_of_fmap_2 (pair ava_pkg) _ _ Hname)]. }
  split; [apply Hadd | apply Hback]; by left.
Qed.

Lemma init_registers (s : Scheme) :
  fits operator_types (kinds_of unversioned_types) s → post init (λ _ s', knows_operator_types s') (λ _, False) s.
Proof.
  intros Hfit. unfold init, AddToSDKScheme. apply post_bind. eapply post_mono; [apply AddToScheme_run | |].
  - intros err s' (_ & _ & Hadd). apply post_ret. by eapply with_operator_types.
  - intros s' Hnot. by apply Hnot.
Qed.

(** What [NewHandler] builds. *)
Definition new_handler_ok `{!Env} (h : mxHandler) : Prop :=
  let cm := h_webhookClientManager h in
  h_recorder h = "mxnet-operator" ∧ h_expectations h = ∅ ∧ h_finalizerCalls h = None ∧
  Validate cm = None ∧ cm_authInfoResolver cm = Some (resolver_of (mkKubeconfig ∅ "" ∅)) ∧
  cm_serviceResolver cm = Some default_ResolveEndpoint ∧ cm_negotiatedSerializer cm = true ∧
  NewLRU defaultCacheSize = Some (h_clientCache h) ∧ knows_operator_types (h_codecScheme h).

Lemma NewHandler_builds `{!Env} : ∃ h, NewHandler = Some (inl h) ∧ new_handler_ok h.
Proof.
  unfold NewHandler, NewClientManager. destruct (NewLRU defaultCacheSize) as [cache|] eqn:Hnew; [|done].
  cbn [fmap option_fmap option_map]. unfold NewDefaultAuthenticationInfoResolver.
  rewrite decide_True by done. pose proof (AddToScheme_run NewScheme) as Hs. unfold post in Hs.
  destruct (AddToScheme NewScheme) as [err s'|s']; [|by destruct (Hs fits_new_scheme)].
  destruct Hs as (_ & _ & Hadd). eexists. split; [done|].
  split_and!; try done. by eapply with_operator_types.
Qed.

(** The anonymous configuration, and who gets another one. *)
Lemma default_config `{!Env} (target : string) :
  clientConfig (mkKubeconfig ∅ "" ∅) target =
  match InClusterConfig with
  | inl cfg => if decide (target = "kubernetes.default.svc") then inl (setGlobalDefaults cfg)
               else inl (setGlobalDefaults empty_config)
  | inr _ => inl (setGlobalDefaults empty_config)
  end.
Proof.
  unfold clientConfig. cbn [AuthInfos]. rewrite lookup_empty.
  replace (star_match ∅ (tail (Split target "."%char))) with (@None AuthInfo).
  2:{ induction (tail (Split target "."%char)) as [|p ps IH]; [done|]. cbn [star_match]. by rewrite lookup_empty. }
  rewrite lookup_empty. change (current_auth (mkKubeconfig ∅ "" ∅)) with (@None AuthInfo).
  destruct (decide (target = _)); by destruct InClusterConfig.
Qed.

Lemma default_config_token `{!Env} (target : string) cfg :
  clientConfig (mkKubeconfig ∅ "" ∅) target = inl cfg → cfg_BearerToken cfg ≠ "" →
  target = "kubernetes.default.svc".
Proof.
  rewrite default_config. destruct InClusterConfig as [c|e]; [|by intros [= <-]].
  case_decide; [done|]. by intros [= <-].
Qed.

(** The only service with that name. *)
Lemma append_cancel (a b c : string) : a +:+ c = b +:+ c → a = b.
Proof.
  revert b. induction a as [|x a IH]; intros [|y b] H; [done| | |injection H as -> H; by rewrite (IH b)];
    apply (f_equal String.length) in H; rewrite !string_length_app in H; cbn [String.length] in H; lia.
Qed.
Lemma api_service (name ns : string) :
  name +:+ "." +:+ ns +:+ ".svc" = "kubernetes.default.svc" → name = "kubernetes" ∧ ns = "default".
Proof.
  intros H. do 10 (destruct name as [|? name]; [discriminate | injection H as -> H]).
  destruct name as [|? name].
  - injection H as H. split; [done|]. by apply (append_cancel ns "default" ".svc").
  - injection H as -> H. exfalso.
    do 7 (destruct name as [|? name]; [discriminate | injection H as -> H]).
    destruct name as [|? name]; [|injection H as -> H].
    + injection H as H. apply (f_equal String.length) in H. rewrite !string_length_app in H. cbn [String.length Nat.add] in H. lia.
    + repeat (destruct name as [|? name]; [discriminate | try discriminate; injection H as -> H]).
Qed.

(** A client that carries a token goes to the API server. *)
Definition to_api_server `{!Net} (h : Webhook) : Prop :=
  match cc_Service (wh_ClientConfig h) with
  | Some svc => sref_Name svc = "kubernetes" ∧ sref_Namespace svc = "default"
  | None => ∃ url u, cc_URL (wh_ClientConfig h) = Some url ∧ url_Parse url = inl u ∧
      url_Host u = "kubernetes.default.svc"
  end.

Lemma fresh_client_token `{!Net, !Env} cm h client :
  cm_authInfoResolver cm = Some (resolver_of (mkKubeconfig ∅ "" ∅)) →
  fresh_client cm h = Some (inl client) → cfg_BearerToken (rc_config client) ≠ "" → to_api_server h.
Proof.
  unfold fresh_client, fresh_config, to_api_server, UnversionedRESTClientFor. intros ->.
  destruct (cc_Service (wh_ClientConfig h)) as [svc|].
  - cbn [mbind option_bind ClientConfigForService resolver_of].
    destruct (clientConfig _ _) as [rc|e] eqn:E; [|done]. cbn [fmap option_fmap option_map].
    destruct (negb _); [done|]. destruct (transport_error _); [done|]. intros [= <-] Htok.
    apply api_service. exact (default_config_token _ rc E Htok).
  - destruct (cc_URL (wh_ClientConfig h)) as [url|]; [|done]. cbn [fmap option_fmap option_map].
    destruct (url_Parse url) as [u|e] eqn:Eu; [|done]. cbn [mbind option_bind ClientConfigFor resolver_of].
    destruct (clientConfig _ _) as [rc|e] eqn:E; [|done]. cbn [fmap option_fmap option_map].
    destruct (negb _); [done|]. destruct (transport_error _); [done|]. intros [= <-] Htok.
    exists url, u. split_and!; [done..|]. exact (default_config_token _ rc E Htok).
Qed.

(** ** Properties *)

(** Registering the operator's types.  On any scheme the registration succeeds
    without error, or panics, and panics only when the scheme has another type under one of the names.
    It adds exactly the types of [operator_types], in both directions, keeps every other registration, and
    afterwards the API group ava.qiniu.com/v1alpha1 has the kinds MXJob, MXJobList and Notification, each
    with the struct of that name; doing it again changes no registration. *)
Theorem AddToScheme_correct (s : Scheme) :
  post AddToScheme
    (λ err s', err = None ∧ knows_operator_types s' ∧
       (∀ gvk t, gvkToType s' !! gvk = Some t ↔ (gvk, t) ∈ operator_types ∨ gvkToType s !! gvk = Some t) ∧
       (∀ t gvk, gvk ∈ default [] (typeToGVK s' !! t) ↔
          (gvk, t) ∈ operator_types ∨ gvk ∈ default [] (typeToGVK s !! t)) ∧
       post AddToScheme (λ err s'', err = None ∧ gvkToType s'' = gvkToType s') (λ _, False) s')
    (λ _, ¬ fits operator_types (kinds_of unversioned_types) s) s.
Proof.
  eapply post_mono; [apply AddToScheme_run | | done]. intros err s' (-> & Hfit & Hadd).
  pose proof (with_operator_types _ _ Hadd) as Hknows. pose proof Hadd as (H1 & _ & H3).
  split_and!; [done.. |]. eapply post_mono; [apply AddToScheme_run | |]; cbn beta.
  - intros err s'' (-> & _ & (H1' & _)). split; [done|]. apply map_eq. intros gvk. apply option_eq. intros t.
    rewrite (H1' gvk t), (H1 gvk t). tauto.
  - intros s'' Hnot. apply Hnot. rewrite <- (fits_app _ _ _ _ _ _ Hfit Hadd).
    destruct Hfit as (Hv & Ha & Hu). split_and!; [by apply Forall_app |..]; intros k v v'.
    + intros Hin Hin'. apply (Ha k v v'); revert Hin Hin'; rewrite !elem_of_app; tauto.
    + intros Hin Hin'. apply (Hu k v v'); revert Hin Hin'; rewrite !elem_of_app; tauto.
Qed.


(** C24. The operator never gives its own credentials to a webhook.  Whatever webhooks the
    handler that [NewHandler] builds is asked to call, one after the other, no client panics to be built, and
    one that carries a bearer token is for the service kubernetes in the namespace default, or for a URL whose
    host is kubernetes.default.svc: the API server. *)
Theorem webhook_credentials `{!Env, !Net} (h : mxHandler) (hs : list Webhook) :
  NewHandler = Some (inl h) → Forall (λ wh, valid_config (wh_ClientConfig wh)) hs →
  post (HookClients (h_webhookClientManager h) hs)
    (λ rs _, Forall2 (λ wh r, ∀ client, r = inl client → cfg_BearerToken (rc_config client) ≠ "" →
       to_api_server wh) hs rs)
    (λ _, False) (h_clientCache h).
Proof.
  intros Hnew Hhs. destruct NewHandler_builds as (h' & Hnew' & Hh).
  assert (h' = h) as -> by congruence. destruct Hh as (_ & _ & _ & _ & Hauth & _ & _ & Hcache & _).
  eapply post_mono; [by apply (HookClients_fresh _ _ _ (new_cache_ok _ _ Hcache)) | |].
  - intros rs cache' [Hall _]. eapply Forall2_impl; [exact Hall|]. intros wh r Hf client -> Htok.
    by eapply fresh_client_token.
  - intros cache' Hnone. cbn in Hnone. congruence.
Qed.

(** The environment of a pod that has a service account. *)
#[local] Existing Instance plain_net.
#[local] Instance pod_env : Env := {|
  LookupEnv name := if decide (name = "WATCH_NAMESPACE") then Some "team" else None;
  GetResourceClient _ _ _ := inl "mxjobs";
  InClusterConfig := inl (mkRestConfig "https://10.0.0.1:443" "" "secret" "" None "" "" false None);
  AuthInfo := ();
  RawConfig _ := inr (Errorf "no such file" None);
  restConfigFromKubeconfig _ := inl empty_config |}.
Definition built : mxHandler :=
  match NewHandler with
  | Some (inl h) => h
  | _ => mkMxHandler "" ∅ (mkClientManager None None false) (mkLRU 0 [] ∅ ∅ 0%nat) NewScheme None
  end.
Definition api_hook : Webhook :=
  mkWebhook "k" (mkWebhookClientConfig None (Some (mkServiceReference "default" "kubernetes" None)) None).

(** The token is there for the API server; two other webhooks get none. *)
Lemma webhook_credentials_witness :
  let hs := [service_hook; url_hook "u" "kubernetes.default"; api_hook] in
  cfg_BearerToken (rc_config (client_of (fresh_client (h_webhookClientManager built) api_hook))) = "secret" ∧
  post (HookClients (h_webhookClientManager built) hs)
    (λ rs _, Forall2 (λ wh r, ∀ client, r = inl client → cfg_BearerToken (rc_config client) ≠ "" →
       to_api_server wh) hs rs)
    (λ _, False) (h_clientCache built).
Proof.
  cbv zeta. split; [vm_compute; reflexivity|].
  apply (webhook_credentials built [service_hook; url_hook "u" "kubernetes.default"; api_hook]).
  - destruct NewHandler_builds as (h & Hh & _). unfold built. rewrite Hh. reflexivity.
  - apply (bool_decide_unpack _). by vm_compute.
Defined.

