(* ===== verification/WorkQueue.v ===== *)
(** * The queue of keys: k8s.io/client-go/util/workqueue

    The operator SDK puts the key of every changed object into a rate limited queue.  [Add], [Get] and [Done]
    are the methods of the queue itself; [AddAfter] hands a key to the goroutine [waitingLoop], whose steps are
    [receive] and [fire]; the rate limiter counts the failures of a key.  [queue_ok] is the invariant the source
    states in comments.

    The queue is never shut down: [main] runs the informers with [context.TODO()].  Times are left out: a key
    that waits becomes ready at any moment ([ready]), the delays themselves are [When]. *)
From S2P Require Import Prelude.

(** [Type], the channel and the heap of [delayingType], and the failures of
    [ItemExponentialFailureRateLimiter]. *)
Record Queue := mkQueue {
  q_queue : list string;
  q_dirty : gset string;
  q_processing : gset string;
  q_channel : list string;
  q_waiting : gset string;
  q_failures : gmap string Z }.
Definition NewQueue : Queue := mkQueue [] ∅ ∅ [] ∅ ∅.

Definition set_queue (l : list string) (dirty processing : gset string) (q : Queue) : Queue :=
  mkQueue l dirty processing (q_channel q) (q_waiting q) (q_failures q).
Definition set_delayed (channel : list string) (waiting : gset string) (q : Queue) : Queue :=
  mkQueue (q_queue q) (q_dirty q) (q_processing q) channel waiting (q_failures q).
Definition set_failures (failures : gmap string Z) (q : Queue) : Queue :=
  mkQueue (q_queue q) (q_dirty q) (q_processing q) (q_channel q) (q_waiting q) failures.

(** ** queue.go *)
Definition Add (item : string) (q : Queue) : Queue :=
  if decide (item ∈ q_dirty q) then q
  else
    let dirty := q_dirty q ∪ {[item]} in
    if decide (item ∈ q_processing q) then set_queue (q_queue q) dirty (q_processing q) q
    else set_queue (q_queue q ++ [item]) dirty (q_processing q) q.
(** Blocked as long as the queue is empty. *)
Definition Get (q : Queue) : option (string * Queue) :=
  match q_queue q with
  | [] => None
  | item :: rest => Some (item, set_queue rest (q_dirty q ∖ {[item]}) (q_processing q ∪ {[item]}) q)
  end.
Definition Done (item : string) (q : Queue) : Queue :=
  let processing := q_processing q ∖ {[item]} in
  if decide (item ∈ q_dirty q) then set_queue (q_queue q ++ [item]) (q_dirty q) processing q
  else set_queue (q_queue q) (q_dirty q) processing q.

(** ** delaying_queue.go *)
Definition AddAfter (item : string) (duration : Z) (q : Queue) : Queue :=
  if duration <=? 0 then Add item q else set_delayed (q_channel q ++ [item]) (q_waiting q) q.
(** [waitingLoop] takes an entry from the channel; [insert] keeps one entry per key. *)
Definition receive (ready : bool) (q : Queue) : option Queue :=
  match q_channel q with
  | [] => None
  | item :: rest =>
      let q := set_delayed rest (q_waiting q) q in
      Some (if ready then Add item q else set_delayed rest (q_waiting q ∪ {[item]}) q)
  end.
(** [waitingLoop] adds a key whose time has come. *)
Definition fire (item : string) (q : Queue) : option Queue :=
  if decide (item ∈ q_waiting q)
  then Some (Add item (set_delayed (q_channel q) (q_waiting q ∖ {[item]}) q)) else None.

(** ** default_rate_limiters.go and rate_limitting_queue.go *)

(** The products are exact in floating point as long as they are not above the bound. *)
Definition baseDelay : Z := 5 * 10 ^ 6.
Definition maxDelay : Z := 1000 * 10 ^ 9.
Definition failures_of (item : string) (q : Queue) : Z := default 0 (q_failures q !! item).
Definition exponential_delay (exp : Z) : Z :=
  let backoff := baseDelay * 2 ^ exp in
  if 2 ^ 63 - 1 <? backoff then maxDelay else if maxDelay <? backoff then maxDelay else backoff.
Definition When (item : string) (q : Queue) : Z * Queue :=
  let exp := failures_of item q in
  (exponential_delay exp, set_failures (<[item := failures_of item q + 1]> (q_failures q)) q).
Definition Forget (item : string) (q : Queue) : Queue := set_failures (delete item (q_failures q)) q.
Definition NumRequeues (item : string) (q : Queue) : Z := Z.max 0 (failures_of item q).
(** [DefaultControllerRateLimiter]: the larger of the delay of the key and of the token bucket, [bucket]. *)
Definition AddRateLimited (bucket : Z) (item : string) (q : Queue) : Queue :=
  let '(delay, q) := When item q in AddAfter item (Z.max (Z.max 0 delay) bucket) q.

(** ** Invariant *)

(** "Every element of queue should be in the dirty set and not in the processing set", once; a dirty key that
    is not being processed is in the queue. *)
Record queue_ok (q : Queue) : Prop := {
  ok_once : NoDup (q_queue q);
  ok_queued : ∀ k, k ∈ q_queue q ↔ k ∈ q_dirty q ∧ k ∉ q_processing q }.

(** What a method leaves alone. *)
Definition same_delayed (q q' : Queue) : Prop :=
  q_channel q' = q_channel q ∧ q_waiting q' = q_waiting q ∧ q_failures q' = q_failures q.

Lemma NewQueue_ok : queue_ok NewQueue.
Proof. split; cbn; [constructor|]. intros k. rewrite elem_of_nil. set_solver. Qed.

Lemma delayed_ok c w q : queue_ok q → queue_ok (set_delayed c w q).
Proof. by intros []; split. Qed.
Lemma failures_ok f q : queue_ok q → queue_ok (set_failures f q).
Proof. by intros []; split. Qed.

Lemma queue_Add_spec k q :
  q_dirty (Add k q) = q_dirty q ∪ {[k]} ∧ q_processing (Add k q) = q_processing q ∧ same_delayed q (Add k q) ∧
  (queue_ok q → queue_ok (Add k q)).
Proof.
  unfold Add. destruct (decide (k ∈ q_dirty q)) as [Hd|Hd].
  { split_and!; try done. set_solver. }
  destruct (decide (k ∈ q_processing q)) as [Hp|Hp]; split_and!; try done; intros [Hnd Hq];
    split; cbn; try done.
  - intros k'. rewrite Hq, elem_of_union, elem_of_singleton. naive_solver.
  - apply NoDup_app. split_and!; [done | | by apply NoDup_singleton].
    intros k' [Hk _]%Hq [= ->]%list_elem_of_singleton. done.
  - intros k'. rewrite elem_of_app, list_elem_of_singleton, Hq, elem_of_union, elem_of_singleton. naive_solver.
Qed.

Lemma queue_Get_spec q k q' :
  queue_ok q → Get q = Some (k, q') →
  k ∈ q_dirty q ∧ k ∉ q_processing q ∧ q_dirty q' = q_dirty q ∖ {[k]} ∧
  q_processing q' = q_processing q ∪ {[k]} ∧ same_delayed q q' ∧ queue_ok q'.
Proof.
  intros [Hnd Hq] Hget. unfold Get in Hget. destruct (q_queue q) as [|k' rest] eqn:E; [done|].
  injection Hget as -> <-. apply NoDup_cons in Hnd as [Hk Hnd].
  assert (k ∈ q_dirty q ∧ k ∉ q_processing q) as [Hd Hp] by (apply Hq; by left).
  split_and!; try done. split; [done|]. cbn. intros k'.
  assert (k' ∈ rest ↔ k' ≠ k ∧ k' ∈ k :: rest) as ->.
  { rewrite elem_of_cons. split; [intros H; split; [congruence | auto] | naive_solver]. }
  rewrite Hq, elem_of_difference, elem_of_union, elem_of_singleton. tauto.
Qed.

Lemma queue_Done_spec k q :
  q_dirty (Done k q) = q_dirty q ∧ q_processing (Done k q) = q_processing q ∖ {[k]} ∧ same_delayed q (Done k q) ∧
  (queue_ok q → k ∈ q_processing q → queue_ok (Done k q)).
Proof.
  unfold Done. destruct (decide (k ∈ q_dirty q)) as [Hd|Hd]; split_and!; try done; intros [Hnd Hq] Hp;
    split; cbn; try done.
  - apply NoDup_app. split_and!; [done | | by apply NoDup_singleton].
    intros k' [_ Hk]%Hq [= ->]%list_elem_of_singleton. done.
  - intros k'. rewrite elem_of_app, list_elem_of_singleton, Hq, elem_of_difference, elem_of_singleton.
    destruct (decide (k' = k)) as [->|]; tauto.
  - intros k'. rewrite Hq, elem_of_difference, elem_of_singleton.
    destruct (decide (k' = k)) as [->|]; tauto.
Qed.

Lemma exponential_delay_spec n : 0 ≤ n ≤ 14 → exponential_delay n = baseDelay * 2 ^ n.
Proof.
  intros Hn. unfold exponential_delay, baseDelay, maxDelay.
  assert (2 ^ n ≤ 16384) by (change 16384 with (2 ^ 14); apply Z.pow_le_mono_r; lia).
  assert (0 < 2 ^ n) by (apply Z.pow_pos_nonneg; lia).
  change (5 * 10 ^ 6) with 5000000. change (1000 * 10 ^ 9) with 1000000000000.
  change (2 ^ 63 - 1) with 9223372036854775807.
  destruct (Z.ltb_spec 9223372036854775807 (5000000 * 2 ^ n)); [lia|].
  destruct (Z.ltb_spec 1000000000000 (5000000 * 2 ^ n)); lia.
Qed.
Lemma exponential_delay_pos n : 0 ≤ n → 0 < exponential_delay n.
Proof.
  intros Hn. assert (0 < 2 ^ n) by (apply Z.pow_pos_nonneg; lia).
  unfold exponential_delay, baseDelay, maxDelay. change (5 * 10 ^ 6) with 5000000. change (1000 * 10 ^ 9) with 1000000000000.
  repeat case_match; lia.
Qed.

(** A failed key goes through the channel, never directly into the queue. *)
Lemma AddRateLimited_spec bucket k q :
  0 ≤ failures_of k q →
  AddRateLimited bucket k q =
  set_failures (<[k := failures_of k q + 1]> (q_failures q)) (set_delayed (q_channel q ++ [k]) (q_waiting q) q).
Proof.
  intros Hf. unfold AddRateLimited, When, AddAfter. pose proof (exponential_delay_pos _ Hf).
  destruct (Z.leb_spec (Z.max (Z.max 0 (exponential_delay (failures_of k q))) bucket) 0); [lia|done].
Qed.

(** ** How much work is left for a key

    A key that is in the queue, or will be again, is tried once, and fifteen times more when it fails. *)
Definition one_if (P : Prop) `{!Decision P} : Z := if decide P then 1 else 0.
Definition queue_tokens (key : string) (q : Queue) : Z :=
  one_if (key ∈ q_dirty q) + zlen (filter (λ k, k = key) (q_channel q)) + one_if (key ∈ q_waiting q).
Definition queue_left (key : string) (q : Queue) : Z := 16 * queue_tokens key q - failures_of key q.

Lemma one_if_bounds (P : Prop) `{!Decision P} : 0 ≤ one_if P ≤ 1.
Proof. unfold one_if. case_decide; lia. Qed.
Lemma one_if_iff (P Q : Prop) `{!Decision P, !Decision Q} : (P ↔ Q) → one_if P = one_if Q.
Proof. intros HPQ. unfold one_if. repeat case_decide; tauto. Qed.

Lemma one_if_true (P : Prop) `{!Decision P} : P → one_if P = 1.
Proof. intros HP. unfold one_if. by rewrite decide_True. Qed.
Lemma zlen_filter_pos key (l : list string) : key ∈ l → 0 < zlen (filter (λ k, k = key) l).
Proof.
  intros Hin. assert (key ∈ filter (λ k, k = key) l) as Hf by by apply list_elem_of_filter.
  destruct (filter _ l); [by apply not_elem_of_nil in Hf | rewrite zlen_cons; pose proof (zlen_nonneg l0); lia].
Qed.

Lemma Add_left key k q : queue_left key (Add k q) ≤ queue_left key q + 16 * one_if (key = k).
Proof.
  destruct (queue_Add_spec k q) as (Hd & _ & (Hc & Hw & Hf) & _). unfold queue_left, queue_tokens, failures_of.
  rewrite Hc, Hw, Hf. unfold one_if at 1 3 5. repeat case_decide; set_solver by lia.
Qed.

Lemma zlen_filter_cons key k (l : list string) :
  zlen (filter (λ x, x = key) (k :: l)) = one_if (key = k) + zlen (filter (λ x, x = key) l).
Proof.
  rewrite filter_cons. unfold one_if. repeat case_decide; try congruence; rewrite ?zlen_cons; lia.
Qed.

Lemma receive_left key ready q q' : receive ready q = Some q' → queue_left key q' ≤ queue_left key q.
Proof.
  unfold receive. destruct (q_channel q) as [|k rest] eqn:Ec; [done|]. intros [= <-].
  assert (queue_left key (set_delayed rest (q_waiting q) q) + 16 * one_if (key = k) = queue_left key q) as Hq.
  { unfold queue_left, queue_tokens. rewrite Ec, zlen_filter_cons. unfold failures_of. cbn. lia. }
  destruct ready.
  - pose proof (Add_left key k (set_delayed rest (q_waiting q) q)). lia.
  - revert Hq. unfold queue_left, queue_tokens, failures_of, one_if. cbn.
    repeat case_decide; set_solver by lia.
Qed.
Lemma fire_left key k q q' : fire k q = Some q' → queue_left key q' ≤ queue_left key q.
Proof.
  unfold fire. case_decide as Hk; [|done]. intros [= <-]. set (q0 := set_delayed _ _ _).
  assert (queue_left key q0 + 16 * one_if (key = k) = queue_left key q).
  { unfold q0, queue_left, queue_tokens, failures_of, one_if. cbn. repeat case_decide; set_solver by lia. }
  pose proof (Add_left key k q0). lia.
Qed.
Lemma Get_left key k q q' :
  queue_ok q → Get q = Some (k, q') → queue_left key q' + 16 * one_if (key = k) = queue_left key q.
Proof.
  intros Hok Hget. destruct (queue_Get_spec _ _ _ Hok Hget) as (Hk & _ & Hd & _ & (Hc & Hw & Hf) & _).
  unfold queue_left, queue_tokens, failures_of. rewrite Hc, Hw, Hf, Hd. unfold one_if at 1 3 4.
  repeat case_decide; set_solver by lia.
Qed.
Lemma Done_left key k q : queue_left key (Done k q) = queue_left key q.
Proof.
  destruct (queue_Done_spec k q) as (Hd & _ & (Hc & Hw & Hf) & _).
  unfold queue_left, queue_tokens, failures_of. by rewrite Hc, Hw, Hf, Hd.
Qed.
Lemma failures_insert key k f q q0 :
  failures_of key (set_failures (<[k := f]> (q_failures q)) q0) = if decide (key = k) then f else failures_of key q.
Proof. unfold failures_of. cbn. case_decide; [subst; by rewrite lookup_insert_eq | by rewrite lookup_insert_ne]. Qed.
Lemma failures_Forget key k q : failures_of key (Forget k q) = if decide (key = k) then 0 else failures_of key q.
Proof. unfold failures_of. cbn. case_decide; [subst; by rewrite lookup_delete_eq | by rewrite lookup_delete_ne]. Qed.

Lemma Forget_left key k q : queue_left key (Forget k q) = queue_left key q + failures_of key q * one_if (key = k).
Proof.
  unfold queue_left. change (queue_tokens key (Forget k q)) with (queue_tokens key q).
  rewrite failures_Forget. unfold one_if. case_decide; lia.
Qed.
Lemma AddRateLimited_left bucket key k q :
  0 ≤ failures_of k q → queue_left key (AddRateLimited bucket k q) = queue_left key q + 15 * one_if (key = k).
Proof.
  intros Hf. rewrite AddRateLimited_spec by done. unfold queue_left, queue_tokens. rewrite failures_insert. cbn [q_channel set_failures set_delayed q_dirty q_waiting].
  rewrite filter_app, zlen_app, zlen_filter_cons. change (zlen (filter (λ x, x = key) [])) with 0.
  unfold one_if. repeat case_decide; subst; lia.
Qed.
