(* ===== verification/Operator.v ===== *)
(** * The operator process

    operator-sdk/pkg/sdk (informer.go, informer-sync.go) puts the parts together: the informer keeps the watched
    objects in an indexer and notifies of changes; a notification puts the key of the object into the
    [WorkQueue]; one worker takes a key, decodes the object and gives it to the handler, which is [Handle] of
    pkg/stub; a failed key is queued again, at most fifteen times.  The goroutines that the handler starts run
    beside the worker.

    [act] is one step of one of these, [run] a sequence of steps in any order.  [serve] is the process that
    [main] of [Startup] starts.  The body of a goroutine, and the handling of one event, is one step, during
    which the cluster may change at every request.

    Objects come unstructured; their JSON and its decoding are the class [Unstructured]. *)
From S2P Require Import Prelude Types Runtime Api RefCluster Labels Naming Replicas Conditions.
From S2P Require Import JobStatus Controls RefManager Lru Json WebhookClient Handler Hooks Singleflight.
From S2P Require Import Footprint Expectations WorkQueue Startup.

(** The webhooks of a decoded job are valid UTF-8, as all strings that encoding/json decodes. *)
Definition hooks_valid (j : MXJob) : Prop :=
  ∀ wh, jobspec_StartWebhook (job_Spec j) = Some wh ∨ jobspec_FinishWebhook (job_Spec j) = Some wh →
    valid_config (wh_ClientConfig wh).
(** [*unstructured.Unstructured]; [u_decode] is [RuntimeObjectFromUnstructured], which may panic. *)
Class Unstructured (U : Type) := {
  u_Namespace : U → string;
  u_Name : U → string;
  u_decode : U → option Object;
  u_decode_valid : ∀ u j, u_decode u = Some (ObjMXJob j) → hooks_valid j }.

Section process.
Context {W : Type} `{!Cluster W} `{!GoRuntime} `{!HookRuntime W} `{!Net} {U : Type} `{!Unstructured U}.

(** [MetaNamespaceKeyFunc] *)
Definition MetaNamespaceKeyFunc (u : U) : string :=
  if decide (u_Namespace u = "") then u_Name u else u_Namespace u +:+ "/" +:+ u_Name u.

(** What the informer tells its handlers, and what it hears from the API server: a resync is an [Put] of the
    object there is, [Vanish] a deletion it missed. *)
Inductive note :=
| OnAdd (obj : U)
| OnUpdate (oldObj newObj : U)
| OnDelete (obj : U)
| OnDeletedFinalStateUnknown (key : string) (obj : U).
Inductive change := Put (obj : U) | Remove (obj : U) | Vanish (obj : U).

(** The worker: idle, has a key, or has synchronized it with some result. *)
Inductive Worker := Idle | Syncing (key : string) | Synced (key : string) (err : option error).

(** The process.  The last two fields are read by no code: the keys and objects given to the handler so far,
    and of a key whose processing ended whether that was with success or by dropping it. *)
Record Proc := mkProc {
  p_indexer : gmap string U;
  p_notes : list note;
  p_deletedObjects : gmap string U;
  p_queue : Queue;
  p_worker : Worker;
  p_handler : HSt W;
  p_log : list (string * U);
  p_fate : gmap string bool }.

Definition set_indexer f p := mkProc (f (p_indexer p)) (p_notes p) (p_deletedObjects p) (p_queue p)
  (p_worker p) (p_handler p) (p_log p) (p_fate p).
Definition set_notes f p := mkProc (p_indexer p) (f (p_notes p)) (p_deletedObjects p) (p_queue p)
  (p_worker p) (p_handler p) (p_log p) (p_fate p).
Definition set_deletedObjects f p := mkProc (p_indexer p) (p_notes p) (f (p_deletedObjects p)) (p_queue p)
  (p_worker p) (p_handler p) (p_log p) (p_fate p).
Definition set_p_queue f p := mkProc (p_indexer p) (p_notes p) (p_deletedObjects p) (f (p_queue p))
  (p_worker p) (p_handler p) (p_log p) (p_fate p).
Definition set_worker w p := mkProc (p_indexer p) (p_notes p) (p_deletedObjects p) (p_queue p)
  w (p_handler p) (p_log p) (p_fate p).
Definition set_handler hs p := mkProc (p_indexer p) (p_notes p) (p_deletedObjects p) (p_queue p)
  (p_worker p) hs (p_log p) (p_fate p).
Definition set_log f p := mkProc (p_indexer p) (p_notes p) (p_deletedObjects p) (p_queue p)
  (p_worker p) (p_handler p) (f (p_log p)) (p_fate p).
Definition set_fate f p := mkProc (p_indexer p) (p_notes p) (p_deletedObjects p) (p_queue p)
  (p_worker p) (p_handler p) (p_log p) (f (p_fate p)).

(** ** informer.go *)

(** The shared informer stores a change and notifies of it. *)
Definition apply_change (c : change) (p : Proc) : Proc :=
  match c with
  | Put obj =>
      let key := MetaNamespaceKeyFunc obj in
      let n := match p_indexer p !! key with Some old => OnUpdate old obj | None => OnAdd obj end in
      set_notes (.++ [n]) (set_indexer (insert key obj) p)
  | Remove obj => set_notes (.++ [OnDelete obj]) (set_indexer (delete (MetaNamespaceKeyFunc obj)) p)
  | Vanish obj =>
      let key := MetaNamespaceKeyFunc obj in
      set_notes (.++ [OnDeletedFinalStateUnknown key obj]) (set_indexer (delete key) p)
  end.

Definition queue_Add (key : string) : M Proc () := modify (set_p_queue (Add key)).
Definition handleAddResourceEvent (obj : U) : M Proc () := queue_Add (MetaNamespaceKeyFunc obj).
Definition handleUpdateResourceEvent (oldObj newObj : U) : M Proc () :=
  queue_Add (MetaNamespaceKeyFunc newObj).
(** The object is asserted to be no [DeletedFinalStateUnknown], although the key function allows for it. *)
Definition handleDeleteResourceEvent (obj : U + string) : M Proc () :=
  match obj with
  | inl obj =>
      let key := MetaNamespaceKeyFunc obj in
      modify (set_deletedObjects (insert key obj));; queue_Add key
  | inr _ => go_panic
  end.
Definition notify (n : note) : M Proc () :=
  match n with
  | OnAdd obj => handleAddResourceEvent obj
  | OnUpdate oldObj newObj => handleUpdateResourceEvent oldObj newObj
  | OnDelete obj => handleDeleteResourceEvent (inl obj)
  | OnDeletedFinalStateUnknown key _ => handleDeleteResourceEvent (inr key)
  end.

(** ** informer-sync.go *)
Definition on_handler {A} (m : M (HSt W) A) : M Proc A := λ p,
  match m (p_handler p) with
  | Ret a hs => Ret a (set_handler hs p)
  | Panicked hs => Panicked (set_handler hs p)
  end.
(** Decoding an object and handling it. *)
Definition handle_object (key : string) (obj : U) (deleted : bool) : M Proc (option error) :=
  modify (set_log (.++ [(key, obj)]));;
  object ← deref (u_decode obj);
  on_handler (lift_api (Handle (mkEvent object deleted))).
(** Looking a key up does not fail: there are no indexers besides the store. *)
Definition sync (key : string) : M Proc (option error) :=
  p ← get_state;
  match p_indexer p !! key with
  | Some obj => handle_object key obj false
  | None =>
      match p_deletedObjects p !! key with
      | None => mret None
      | Some obj =>
          err ← handle_object key obj true;
          (if decide (err = None) then modify (set_deletedObjects (delete key)) else mret tt);;
          mret err
      end
  end.

Definition maxRetries : Z := 15.
(** [bucket] is the delay of the token bucket. *)
Definition handleErr (bucket : Z) (err : option error) (key : string) : M Proc () :=
  match err with
  | None => modify (set_fate (insert key true));; modify (set_p_queue (Forget key))
  | Some _ =>
      p ← get_state;
      if NumRequeues key (p_queue p) <? maxRetries
      then modify (set_fate (delete key));; modify (set_p_queue (AddRateLimited bucket key))
      else modify (set_fate (insert key false));; modify (set_p_queue (Forget key))
  end.

(** ** The goroutines of the handler *)
Definition run_goroutine (cm : ClientManager) (g : goroutine) : M (HSt W) () :=
  match g with
  | CallHook wh mxjob => hook_goroutine cm wh mxjob;; mret tt
  | RunFinalizer mxjob i => finalizer_call_body cm mxjob i;; mret tt
  end.
Definition remove_pending (i : nat) (hs : HSt W) : HSt W :=
  let s := h_api hs in
  mkHSt (mkSt (world s) (trace s) (take i (pending s) ++ drop (S i) (pending s))) (h_cache hs) (h_slept hs) (h_waited hs).
(** Two goroutines of the group with the same key, [Singleflight]: the first takes the result of the second. *)
Definition joins (g g' : goroutine) : bool :=
  match g, g' with
  | RunFinalizer mxjob _, RunFinalizer mxjob' _ => bool_decide (finalizer_key mxjob = finalizer_key mxjob')
  | _, _ => false
  end.

(** ** Steps *)
Inductive Action :=
| AWatch (c : change)                (* the shared informer *)
| ANotify                            (* its event handlers *)
| AReceive (ready : bool)            (* waitingLoop: an entry of the channel *)
| AFire (key : string)               (* waitingLoop: a key whose time has come *)
| AGet                               (* processNextItem: queue.Get *)
| ASync                              (* processNextItem: sync *)
| AFinish (bucket : Z)               (* processNextItem: handleErr, queue.Done *)
| ARun (i : nat)                     (* a goroutine of the handler *)
| AJoin (i i' : nat).                (* one that shares the result of another *)

(** Nothing when the step is not possible. *)
Definition act (cm : ClientManager) (a : Action) (p : Proc) : option (outcome Proc ()) :=
  match a with
  | AWatch c => Some (Ret tt (apply_change c p))
  | ANotify =>
      match p_notes p with [] => None | n :: rest => Some (notify n (set_notes (λ _, rest) p)) end
  | AReceive ready => (λ q, Ret tt (set_p_queue (λ _, q) p)) <$> receive ready (p_queue p)
  | AFire key => (λ q, Ret tt (set_p_queue (λ _, q) p)) <$> fire key (p_queue p)
  | AGet =>
      match p_worker p with
      | Idle => (λ '(key, q), Ret tt (set_worker (Syncing key) (set_p_queue (λ _, q) p))) <$> Get (p_queue p)
      | _ => None
      end
  | ASync =>
      match p_worker p with
      | Syncing key => Some ((err ← sync key; modify (set_worker (Synced key err))) p)
      | _ => None
      end
  | AFinish bucket =>
      match p_worker p with
      | Synced key err =>
          Some ((handleErr bucket err key;; modify (set_p_queue (Done key));; modify (set_worker Idle)) p)
      | _ => None
      end
  | ARun i =>
      (λ g, on_handler (run_goroutine cm g) (set_handler (remove_pending i (p_handler p)) p)) <$>
        pending (h_api (p_handler p)) !! i
  | AJoin i i' =>
      g ← pending (h_api (p_handler p)) !! i; g' ← pending (h_api (p_handler p)) !! i';
      if decide (i ≠ i' ∧ joins g g' = true)
      then Some (Ret tt (set_handler (remove_pending i (p_handler p)) p)) else None
  end.
(** A crash is the end. *)
Fixpoint run (cm : ClientManager) (acts : list Action) (p : Proc) : option (outcome Proc ()) :=
  match acts with
  | [] => Some (Ret tt p)
  | a :: acts =>
      match act cm a p with
      | Some (Ret _ p') => run cm acts p'
      | Some (Panicked p') => if decide (acts = []) then Some (Panicked p') else None
      | None => None
      end
  end.

(** The process that [main] leaves running, on a cluster. *)
Definition serve (h : mxHandler) (w : W) : Proc :=
  mkProc ∅ [] ∅ NewQueue Idle (mkHSt (mkSt w [] []) (h_clientCache h) [] []) [] ∅.
End process.

(** ** What a goroutine sends *)
Section goroutines.
Context {W : Type} `{!Cluster W} `{!HookRuntime W} `{!Net} (cm : ClientManager).

(** The requests of a goroutine. *)
Definition sent_by (g : goroutine) (r : request) : Prop :=
  match g with
  | CallHook wh j => hook_post cm wh j r
  | RunFinalizer j i =>
      (∃ wh, jobspec_FinishWebhook (job_Spec j) = Some wh ∧ finished j = false ∧ hook_post cm wh j r) ∨
      (∃ before after, meta_Finalizers (job_Meta j) = before ++ FinalizerFinishWebhook :: after ∧
         length before = i ∧ r = UpdateMXJob (update_Finalizers (λ _, before ++ after) j))
  end.
(** What it may have done, from [s] to [s']. *)
Definition sends (R : request → Prop) (s s' : HSt W) : Prop :=
  cache_ok cm (h_cache s') ∧ pending (h_api s') = pending (h_api s) ∧
  ∃ l, trace (h_api s') = trace (h_api s) ++ l ∧ Forall R l.
(** Some answer of a webhook server is a response without a result. *)
Definition bad_reply (wh : Webhook) (job : MXJob) : Prop :=
  ∃ client uid (w : W) http n resp, fresh_client cm wh = Some (inl client) ∧
    (c_postHook client (hook_request uid job) w).1 = inl http ∧ transformResponse http = inl n ∧
    notif_Response n = Some resp ∧ nresp_Result resp = None.

Lemma before_call_sends wh job (s s0 : HSt W) :
  cache_ok cm (h_cache s) → valid_config (wh_ClientConfig wh) → before_call cm wh job s s0 →
  sends (hook_post cm wh job) s s0.
Proof.
  intros Hc Hv [->|(es & e & d & x & w & s1 & Hr & _ & _ & _ & ->)].
  - split_and!; try done. exists []. by rewrite app_nil_r.
  - destruct (rounds_sent _ _ _ _ _ _ _ Hr Hc Hv) as (Hc1 & Hp & _ & _ & _ & l & ws & Ht & _ & Hl & _).
    split_and!; try done. by exists l.
Qed.

Lemma call_panics_sends wh job (s s' : HSt W) :
  cache_ok cm (h_cache s) → valid_config (wh_ClientConfig wh) → fresh_client cm wh ≠ None →
  call_panics cm wh job s s' → sends (hook_post cm wh job) s s' ∧ bad_reply wh job.
Proof.
  intros Hc Hv Hf (s0 & Hb & Hcall).
  destruct (before_call_sends _ _ _ _ Hc Hv Hb) as (Hc0 & Hp0 & l0 & Ht0 & Hl0).
  pose proof (callHook_outcome cm wh job s0 Hc0 Hv) as Hout. unfold post, call_outcome in Hout.
  rewrite Hcall in Hout. destruct (fresh_client cm wh) as [[client|err]|] eqn:Ef; [|by destruct Hout|done].
  destruct (rt_newUUID _) as [uid w].
  pose proof (attempts_facts client (hook_request uid job) (Nat.pred post_maxRetries) w) as Hfacts.
  destruct (attempts _ _ _ _) as [[waits reply] w'].
  destruct Hout as (Hverdict & _ & (Ht & Hp & _ & _ & Hc')), Hfacts as (_ & (w0 & Hlast) & _). split.
  - split_and!; [done | congruence |]. eexists. rewrite Ht, Ht0, <- app_assoc. split; [reflexivity|].
    apply Forall_app. split; [done|]. apply Forall_replicate. by exists client, uid.
  - destruct reply as [n|e]; [|done]. unfold reply_verdict in Hverdict.
    destruct (notif_Response n) as [resp|] eqn:En; [|done]. destruct (nresp_Result resp) as [st|] eqn:En'; [done|].
    destruct (c_postHook _ _ w0).1 as [http|e] eqn:Er; [|done]. by exists client, uid, w0, http, n, resp.
Qed.

Lemma hook_goroutine_sends wh job (s : HSt W) :
  cache_ok cm (h_cache s) → valid_config (wh_ClientConfig wh) → fresh_client cm wh ≠ None →
  post (hook_goroutine cm wh job) (λ _ s', sends (hook_post cm wh job) s s')
    (λ s', sends (hook_post cm wh job) s s' ∧ bad_reply wh job) s.
Proof.
  intros Hc Hv Hf. eapply post_mono; [by apply hook_goroutine_rounds | |].
  - intros err s' (es & e & d & Hr & _).
    destruct (rounds_sent _ _ _ _ _ _ _ Hr Hc Hv) as (Hc' & Hp & _ & _ & _ & l & ws & Ht & _ & Hl & _).
    split_and!; try done. by exists l.
  - intros s' Hpanic. by apply call_panics_sends.
Qed.

Lemma sends_weaken (R R' : request → Prop) s s' : (∀ r, R r → R' r) → sends R s s' → sends R' s s'.
Proof.
  intros HR (Hc & Hp & l & Ht & Hl). split_and!; try done. exists l. split; [done|]. by eapply Forall_impl.
Qed.
Lemma sends_trans (R : request → Prop) s s1 s' : sends R s s1 → sends R s1 s' → sends R s s'.
Proof.
  intros (_ & Hp & l & Ht & Hl) (Hc & Hp' & l' & Ht' & Hl'). split_and!; [done | congruence |].
  exists (l ++ l'). rewrite Ht', Ht, app_assoc. split; [done | by apply Forall_app].
Qed.

(** The end of a finalizer goroutine. *)
Lemma finalizer_update_sends job i (s : HSt W) :
  cache_ok cm (h_cache s) → meta_Finalizers (job_Meta job) !! i = Some FinalizerFinishWebhook →
  post
    (finalizers ← deref (remove_index i (meta_Finalizers (job_Meta job)));
     '(err, _) ← lift_api (sdk_Update (update_Finalizers (λ _, finalizers) job));
     mret err) (λ _ s', sends (sent_by (RunFinalizer job i)) s s') (λ _, False) s.
Proof.
  intros Hc Hi. eapply post_mono; [eapply post_and; [by apply finalizer_update | ] | |].
  - apply (post_bind _ _ (λ _ s', h_cache s' = h_cache s) (λ _, True)).
    unfold post at 1, deref. destruct (remove_index _ _); [|done]. apply post_bind.
    unfold post, lift_api, sdk_Update, mbind, M_bind, send, mret, M_ret. destruct (c_updateMXJob _ _) as [[] w]; done.
  - intros err s' [(before & after & Hf & Hlen & Ht & _ & Hp) Hcache].
    split_and!; [by rewrite Hcache | done |]. eexists. split; [exact Ht|]. constructor; [|done].
    right. by exists before, after.
  - by intros s' [].
Qed.

Lemma finalizer_body_sends job i (s : HSt W) :
  cache_ok cm (h_cache s) → hooks_valid job → (∀ wh, fresh_client cm wh ≠ None) →
  meta_Finalizers (job_Meta job) !! i = Some FinalizerFinishWebhook →
  post (finalizer_call_body cm job i) (λ _ s', sends (sent_by (RunFinalizer job i)) s s')
    (λ s', sends (sent_by (RunFinalizer job i)) s s' ∧
       ∃ wh, jobspec_FinishWebhook (job_Spec job) = Some wh ∧ bad_reply wh job) s.
Proof.
  intros Hc Hv Hf Hi. unfold finalizer_call_body. fold (finished job).
  assert (sends (sent_by (RunFinalizer job i)) s s) as Hrefl.
  { split_and!; try done. exists []. by rewrite app_nil_r. }
  apply post_bind. apply (post_mono _ (λ _ s1, sends (sent_by (RunFinalizer job i)) s s1)
    _ (λ s', sends (sent_by (RunFinalizer job i)) s s' ∧
       ∃ wh, jobspec_FinishWebhook (job_Spec job) = Some wh ∧ bad_reply wh job)); [| |done].
  - destruct (finished job) eqn:Ef; cbn [negb]; [by apply post_ret|]. apply post_bind. unfold callHook_wait.
    destruct (jobspec_FinishWebhook (job_Spec job)) as [wh|] eqn:Ewh; [|by apply post_ret, post_ret].
    assert (∀ r, hook_post cm wh job r → sent_by (RunFinalizer job i) r) as Hr by (intros r ?; left; by exists wh).
    eapply post_mono; [apply hook_goroutine_sends; [done | apply Hv; by right | done] | |].
    + intros e s1 Hs. apply post_ret. by eapply sends_weaken.
    + intros s1 [Hs Hbad]. split; [by eapply sends_weaken | by exists wh].
  - intros [] s1 Hs. eapply post_mono; [apply finalizer_update_sends; [apply Hs | done] | | done].
    intros err s' Hs'. by eapply sends_trans.
Qed.
End goroutines.

(** ** Everything the process does *)
Section footprint.
Context {W : Type} `{!Cluster W} `{!GoRuntime} `{!HookRuntime W} `{!Net} {U : Type} `{!Unstructured U}.
Context (cm : ClientManager).

(** The jobs given to the handler, the goroutines it may have started, and the requests of either. *)
Definition delivered (log : list (string * U)) (j : MXJob) : Prop :=
  ∃ key u, (key, u) ∈ log ∧ u_decode u = Some (ObjMXJob j).
Definition started (log : list (string * U)) (g : goroutine) : Prop :=
  ∃ j, delivered log j ∧ goroutine_ok j g.
(** After [heard], [r] goes on with a sync of a delivered job, of which the last requests of [heard] are the first
    ones, or it is one of a goroutine. *)
Definition allowed (log : list (string * U)) (heard : list request) (r : request) : Prop :=
  (∃ j earlier this, delivered log j ∧ heard = earlier ++ this ∧ told (request_ok j) [] (this ++ [r])) ∨
  (∃ g, started log g ∧ sent_by cm g r).

Definition within (log : list (string * U)) (s : St W) : Prop :=
  told (allowed log) [] (trace s) ∧ Forall (started log) (pending s).
Definition proc_inv (p : Proc (W := W) (U := U)) : Prop :=
  cache_ok cm (h_cache (p_handler p)) ∧ within (p_log p) (h_api (p_handler p)).

(** Why a step may crash the process. *)
Definition crash_cause (a : Action (U := U)) (p : Proc (W := W) (U := U)) : Prop :=
  match a with
  | ANotify => ∃ key u, head (p_notes p) = Some (OnDeletedFinalStateUnknown key u)
  | ASync => ∃ key u, p_worker p = Syncing key ∧
      (p_indexer p !! key = Some u ∨ p_deletedObjects p !! key = Some u) ∧
      (u_decode u = None ∨ ∃ j, u_decode u = Some (ObjMXJob j) ∧ ¬ well_formed j)
  | ARun i => ∃ g wh j, pending (h_api (p_handler p)) !! i = Some g ∧ bad_reply (W := W) cm wh j ∧
      (g = CallHook wh j ∨ ∃ n, g = RunFinalizer j n ∧ jobspec_FinishWebhook (job_Spec j) = Some wh)
  | _ => False
  end.

Lemma within_each log (l : list request) :
  told (allowed log) [] l → ∀ before r after, l = before ++ r :: after → allowed log before r.
Proof. intros Hl before r after ->. by apply told_split in Hl. Qed.
Lemma delivered_more log log' j : delivered log j → delivered (log ++ log') j.
Proof. intros (key & u & Hin & Hd). exists key, u. split; [|done]. apply elem_of_app. by left. Qed.
Lemma started_more log log' g : started log g → started (log ++ log') g.
Proof. intros (j & Hj & Hg). exists j. split; [by apply delivered_more | done]. Qed.
Lemma within_more log log' s : within log s → within (log ++ log') s.
Proof.
  intros [Ht Hp]. split.
  - eapply told_impl; [|exact Ht]. intros l1 r l2 _ [(j & earlier & this & Hj & Hr)|(g & Hg & Hr)].
    + left. exists j, earlier, this. split; [by apply delivered_more | done].
    + right. exists g. split; [by apply started_more | done].
  - eapply Forall_impl; [exact Hp|]. intros g. apply started_more.
Qed.

(** Handling an object. *)
Lemma Handle_grows ev (s : St W) :
  post (Handle ev)
    (λ _ s', match ev_Object ev with
             | ObjMXJob j => ∃ l, grows_told (request_ok j) (goroutine_ok j) [] s s' l
             | ObjOther => s' = s
             end)
    (λ s', ∃ j l, ev_Object ev = ObjMXJob j ∧ ¬ well_formed j ∧ grows_told (request_ok j) (goroutine_ok j) [] s s' l) s.
Proof.
  unfold Handle. destruct (ev_Object ev) as [j|]; [|by apply post_ret]. apply post_bind.
  eapply post_mono; [apply Sync_told | |].
  - intros [err j'] s' (l & _ & Hg). by destruct err; apply post_ret; exists l.
  - intros s' (Hill & l & Hg). by exists j, l.
Qed.

Lemma within_grows log j l (s s' : St W) :
  delivered log j → within log s → grows_told (request_ok j) (goroutine_ok j) [] s s' l → within log s'.
Proof.
  intros Hj [Ht Hp] (Et & Hl & gs & Ep & Hgs). split.
  - rewrite Et. apply told_app. split; [done|]. eapply (told_impl (request_ok j) _ []); [|exact Hl]. intros l1 r l2 -> _.
    left. exists j, (trace s), l1. split; [done|]. split; [done|].
    replace (l1 ++ r :: l2) with ((l1 ++ [r]) ++ l2) in Hl by by rewrite <- app_assoc. by apply told_app in Hl as [? _].
  - rewrite Ep. apply Forall_app. split; [done|]. eapply Forall_impl; [exact Hgs|]. intros g ?. by exists j.
Qed.
Lemma within_sends log g (s s' : HSt W) :
  started log g → within log (h_api s) → sends cm (sent_by cm g) s s' → within log (h_api s').
Proof.
  intros Hg [Ht Hp] (_ & Hp' & l & Ht' & Hl). split; [|by rewrite Hp'].
  rewrite Ht'. apply told_app. split; [done|]. apply (told_impl (λ _ r, sent_by cm g r) _ []).
  - intros l1 r l2 _ Hr. right. by exists g.
  - by apply told_forall.
Qed.

(** A state of the process as far as the handler goes. *)
Lemma post_on_handler {A} (m : M (HSt W) A) Q X (p : Proc (U := U)) :
  post m (λ a hs, Q a (set_handler hs p)) (λ hs, X (set_handler hs p)) (p_handler p) →
  post (on_handler m) Q X p.
Proof. unfold post, on_handler. by destruct (m (p_handler p)). Qed.
Lemma post_lift_api {A} (m : M (St W) A) Q X (s : HSt W) :
  post m (λ a api, Q a (mkHSt api (h_cache s) (h_slept s) (h_waited s)))
    (λ api, X (mkHSt api (h_cache s) (h_slept s) (h_waited s))) (h_api s) →
  post (lift_api m) Q X s.
Proof. unfold post, lift_api. by destruct (m (h_api s)). Qed.

Lemma handle_object_inv key u deleted (p : Proc (U := U)) :
  proc_inv p →
  post (handle_object key u deleted) (λ _ p', proc_inv p')
    (λ p', within (p_log p') (h_api (p_handler p')) ∧
       (u_decode u = None ∨ ∃ j, u_decode u = Some (ObjMXJob j) ∧ ¬ well_formed j)) p.
Proof.
  intros [Hc Hw]. unfold handle_object. apply post_bind, post_modify, post_bind.
  assert ((key, u) ∈ p_log p ++ [(key, u)]) as Hin by (apply elem_of_app; right; by left).
  apply (within_more _ [(key, u)]) in Hw.
  destruct (u_decode u) as [o|] eqn:Ed; [|split; [exact Hw | by left]]. cbn [deref].
  apply post_ret, post_on_handler, post_lift_api. eapply post_mono; [apply Handle_grows | |]; cbn.
  - intros _ s' Hs. split; [done|]. cbn. destruct o as [j|]; [|by rewrite Hs]. destruct Hs as [l Hs].
    eapply within_grows; [by exists key, u | exact Hw | done].
  - intros s' (j & l & -> & Hill & Hs). split; [|right; by exists j].
    eapply within_grows; [by exists key, u | exact Hw | done].
Qed.

Lemma proc_inv_frame (p p' : Proc (U := U)) :
  p_handler p' = p_handler p → p_log p' = p_log p → proc_inv p → proc_inv p'.
Proof. unfold proc_inv. by intros -> ->. Qed.

Lemma sync_inv key (p : Proc (U := U)) :
  proc_inv p → p_worker p = Syncing key →
  post (sync key) (λ _ p', proc_inv p')
    (λ p', within (p_log p') (h_api (p_handler p')) ∧ crash_cause ASync p) p.
Proof.
  intros Hinv Hw. unfold sync. apply post_bind. unfold post at 1, get_state.
  destruct (p_indexer p !! key) as [u|] eqn:Ei.
  { eapply post_mono; [by apply handle_object_inv | done |]. intros p' [? Hcause]. split; [done|].
    exists key, u. auto. }
  destruct (p_deletedObjects p !! key) as [u|] eqn:Ed; [|by apply post_ret]. apply post_bind.
  eapply post_mono; [by apply handle_object_inv | |].
  - intros err p' Hinv'. apply post_bind. destruct (decide (err = None)).
    + apply post_modify, post_ret. exact Hinv'.
    + by apply post_ret, post_ret.
  - intros p' [? Hcause]. split; [done|]. exists key, u. auto.
Qed.

Lemma goroutine_inv g (s : HSt W) log :
  (∀ wh, fresh_client cm wh ≠ None) → cache_ok cm (h_cache s) → within log (h_api s) → started log g →
  post (run_goroutine cm g) (λ _ s', cache_ok cm (h_cache s') ∧ within log (h_api s'))
    (λ s', within log (h_api s') ∧ ∃ wh j, bad_reply (W := W) cm wh j ∧
      (g = CallHook wh j ∨ ∃ n, g = RunFinalizer j n ∧ jobspec_FinishWebhook (job_Spec j) = Some wh)) s.
Proof.
  intros Hf Hc Hw Hg. pose proof Hg as (j & (key & u & Hin & Hd) & Hok).
  assert (∀ s', sends cm (sent_by cm g) s s' → cache_ok cm (h_cache s') ∧ within log (h_api s')) as Hsends.
  { intros s' Hs. split; [apply Hs | by eapply within_sends]. }
  apply u_decode_valid in Hd as Hv. destruct g as [wh j'|j' i]; cbn [run_goroutine]; apply post_bind.
  - eapply post_mono; [apply hook_goroutine_sends; [done | | apply Hf] | |].
    + apply Hv. destruct Hok as [_ [[? _]|[? _]]]; auto.
    + intros err s' Hs. apply post_ret. by apply Hsends.
    + intros s' [Hs Hbad]. split; [by apply Hsends|]. exists wh, j'. auto.
  - destruct Hok as (-> & _ & Hi).
    eapply post_mono; [by apply finalizer_body_sends | |].
    + intros err s' Hs. apply post_ret. by apply Hsends.
    + intros s' [Hs (wh & Hwh & Hbad)]. split; [by apply Hsends|]. exists wh, j. split; [done|]. right. by exists i.
Qed.

Lemma remove_pending_inv i (p : Proc (U := U)) :
  proc_inv p → proc_inv (set_handler (remove_pending i (p_handler p)) p).
Proof.
  intros [Hc [Ht Hp]]. split; [done|]. split; [done|]. cbn.
  apply Forall_app. split; [by apply Forall_take | by apply Forall_drop].
Qed.

Lemma act_inv a (p : Proc (U := U)) out :
  (∀ wh, fresh_client cm wh ≠ None) → act cm a p = Some out → proc_inv p →
  match out with
  | Ret _ p' => proc_inv p'
  | Panicked p' => within (p_log p') (h_api (p_handler p')) ∧ crash_cause a p
  end.
Proof.
  intros Hf Hact Hinv. destruct a as [c| |ready|key| | |bucket|i|i i']; cbn [act] in Hact.
  - injection Hact as <-. revert Hinv. by apply proc_inv_frame; destruct c.
  - destruct (p_notes p) as [|n rest] eqn:En; [done|]. injection Hact as <-.
    destruct n; [revert Hinv; by apply proc_inv_frame.. |]. split; [apply Hinv|]. cbn. rewrite En. by do 2 eexists.
  - destruct (receive ready (p_queue p)); [|done]. injection Hact as <-. revert Hinv. by apply proc_inv_frame.
  - destruct (fire key (p_queue p)); [|done]. injection Hact as <-. revert Hinv. by apply proc_inv_frame.
  - destruct (p_worker p); [|done..]. destruct (Get (p_queue p)) as [[k q]|]; [|done].
    injection Hact as <-. revert Hinv. by apply proc_inv_frame.
  - destruct (p_worker p) as [|key|] eqn:Ew; [done| |done]. injection Hact as <-.
    change (post (err ← sync key; modify (set_worker (Synced key err))) (λ _ p', proc_inv p')
      (λ p', within (p_log p') (h_api (p_handler p')) ∧ crash_cause ASync p) p).
    apply post_bind. eapply post_mono; [by apply sync_inv | | done]. intros err p' Hinv'.
    apply post_modify. revert Hinv'. by apply proc_inv_frame.
  - destruct (p_worker p) as [| |key err]; [done..|]. injection Hact as <-. unfold handleErr.
    destruct err as [e|]; [|revert Hinv; by apply proc_inv_frame]. unfold mbind, M_bind, get_state, modify.
    destruct (NumRequeues key (p_queue p) <? maxRetries); revert Hinv; by apply proc_inv_frame.
  - destruct (pending (h_api (p_handler p)) !! i) as [g|] eqn:Eg; [|done]. injection Hact as <-.
    apply (post_on_handler _ (λ _ p', proc_inv p')
      (λ p', within (p_log p') (h_api (p_handler p')) ∧ crash_cause (ARun i) p)).
    pose proof (remove_pending_inv i p Hinv) as [Hc Hw]. destruct Hinv as [_ [_ Hp]].
    eapply post_mono; [apply (goroutine_inv g _ (p_log p)); [done..|] | |].
    + eapply Forall_lookup_1; [exact Hp | exact Eg].
    + intros [] s' [Hc' Hw']. by split.
    + intros s' [Hw' (wh & j & Hbad & Hg)]. split; [exact Hw'|]. by exists g, wh, j.
  - destruct (pending _ !! i); [|done]. destruct (pending _ !! i'); [|done]. cbn in Hact.
    case_decide; [|done]. injection Hact as <-. by apply remove_pending_inv.
Qed.
End footprint.

(** ** The loop *)
Section loop.
Context {W : Type} `{!Cluster W} `{!GoRuntime} `{!HookRuntime W} `{!Net} {U : Type} `{!Unstructured U}.
Context (cm : ClientManager).
Implicit Types (p : Proc (W := W) (U := U)) (key : string).

Definition note_key (n : note (U := U)) : string :=
  match n with
  | OnAdd u | OnUpdate _ u | OnDelete u => MetaNamespaceKeyFunc u
  | OnDeletedFinalStateUnknown key _ => key
  end.
(** The objects that were given to the handler under a key. *)
Definition given key (log : list (string * U)) : list U :=
  omap (λ e, if decide (e.1 = key) then Some e.2 else None) log.

(** A change of [key] is on its way to the handler. *)
Definition announced key p : Prop :=
  key ∈ note_key <$> p_notes p ∨ key ∈ q_dirty (p_queue p) ∨ p_worker p = Syncing key.
(** [key] was given to the handler, and is not forgotten. *)
Definition remembered key p : Prop :=
  (∃ err, p_worker p = Synced key err) ∨ key ∈ q_channel (p_queue p) ∨ key ∈ q_waiting (p_queue p).

Definition processing_of p : gset string :=
  match p_worker p with Idle => ∅ | Syncing key | Synced key _ => {[key]} end.
Record loop_inv p : Prop := {
  loop_queue : queue_ok (p_queue p);
  loop_processing : q_processing (p_queue p) = processing_of p;
  loop_events : ∀ key u, p_indexer p !! key = Some u →
    announced key p ∨ (last (given key (p_log p)) = Some u ∧
      (remembered key p ∨ is_Some (p_fate p !! key)));
  loop_failures : ∀ key, 0 ≤ failures_of key (p_queue p) ≤ maxRetries ∧
    (0 < failures_of key (p_queue p) →
     key ∈ q_dirty (p_queue p) ∨ p_worker p = Syncing key ∨ remembered key p) }.

Lemma given_app key l1 l2 : given key (l1 ++ l2) = given key l1 ++ given key l2.
Proof. unfold given. apply omap_app. Qed.
Lemma given_one key key' u : given key [(key', u)] = if decide (key' = key) then [u] else [].
Proof. unfold given. cbn. by case_decide. Qed.

(** What a synchronization leaves alone, and what it gives to the handler. *)
Definition sync_frame key p p' : Prop :=
  p_indexer p' = p_indexer p ∧ p_notes p' = p_notes p ∧ p_queue p' = p_queue p ∧ p_fate p' = p_fate p ∧
  match p_indexer p !! key with
  | Some u => p_log p' = p_log p ++ [(key, u)]
  | None => p_log p' = p_log p ∨ ∃ u, p_log p' = p_log p ++ [(key, u)]
  end.
Lemma handle_object_frame key u deleted p :
  post (handle_object key u deleted) (λ _ p', p_indexer p' = p_indexer p ∧ p_notes p' = p_notes p ∧
    p_queue p' = p_queue p ∧ p_fate p' = p_fate p ∧ p_log p' = p_log p ++ [(key, u)]) (λ _, True) p.
Proof.
  unfold handle_object. apply post_bind, post_modify, post_bind. destruct (u_decode u) as [o|]; [|done].
  apply post_ret. unfold post, on_handler. by destruct (lift_api _ _).
Qed.
Lemma sync_framed key p : post (sync key) (λ _, sync_frame key p) (λ _, True) p.
Proof.
  unfold sync, sync_frame. apply post_bind. unfold post at 1, get_state.
  destruct (p_indexer p !! key) as [u|]; [apply handle_object_frame|].
  destruct (p_deletedObjects p !! key) as [u|]; [|apply post_ret; auto 6]. apply post_bind.
  eapply post_mono; [apply handle_object_frame | | done]. intros err p' (H1 & H2 & H3 & H4 & H5).
  apply post_bind. destruct (decide (err = None)); [apply post_modify, post_ret|apply post_ret, post_ret];
    (split_and!; [done..|]; right; by exists u).
Qed.

(** A step that gives nothing to the handler. *)
Definition live key p : Prop := key ∈ q_dirty (p_queue p) ∨ p_worker p = Syncing key ∨ remembered key p.
Lemma loop_keeps p p' :
  loop_inv p → p_indexer p' = p_indexer p → p_log p' = p_log p →
  queue_ok (p_queue p') → q_processing (p_queue p') = processing_of p' →
  (∀ key, announced key p → announced key p') →
  (∀ key, remembered key p ∨ is_Some (p_fate p !! key) →
     announced key p' ∨ remembered key p' ∨ is_Some (p_fate p' !! key)) →
  (∀ key, 0 ≤ failures_of key (p_queue p') ≤ maxRetries ∧ (0 < failures_of key (p_queue p') → live key p')) →
  loop_inv p'.
Proof.
  intros [Hq Hp He Hf] Ei El Hq' Hp' Ha Hr Hf'. split; [done | done | | exact Hf'].
  intros key u. rewrite Ei. intros [Hx|[Hl Hx]]%He; [left; by apply Ha|].
  apply Hr in Hx as [Hx|Hx]; [by left | right]. by rewrite El.
Qed.

Lemma loop_watch c p : loop_inv p → loop_inv (apply_change c p).
Proof.
  intros [Hq Hp He Hf].
  assert (∃ n m, apply_change c p = set_notes (.++ [n]) (set_indexer (λ _, m) p) ∧
    ∀ key u, m !! key = Some u → note_key n = key ∨ p_indexer p !! key = Some u) as (n & m & -> & Hm).
  { destruct c as [u|u|u]; cbn; do 2 eexists; (split; [reflexivity|]); intros key v.
    - intros [[<- _]|[_ ?]]%lookup_insert_Some; [left; by destruct (p_indexer p !! _) | by right].
    - intros [_ ?]%lookup_delete_Some. by right.
    - intros [_ ?]%lookup_delete_Some. by right. }
  split; [done | done | | done]. intros key u. cbn. intros [<-|Hx]%Hm.
  - left. left. cbn. rewrite fmap_app. apply elem_of_app. right. by left.
  - apply He in Hx as [[Hx|Hx]|Hx]; [| by left; right | by right].
    left. left. cbn. rewrite fmap_app. apply elem_of_app. by left.
Qed.

(** The queue after [Add]: the key is on its way. *)
Lemma Add_dirty k key q : key ∈ q_dirty q → key ∈ q_dirty (Add k q).
Proof. destruct (queue_Add_spec k q) as (-> & _). set_solver. Qed.
Lemma Add_added k q : k ∈ q_dirty (Add k q).
Proof. destruct (queue_Add_spec k q) as (-> & _). set_solver. Qed.

Lemma loop_notify n rest p p' :
  loop_inv p → p_notes p = n :: rest → notify n (set_notes (λ _, rest) p) = Ret tt p' → loop_inv p'.
Proof.
  intros Hinv En Hrun. pose proof Hinv as [Hq Hp He Hf].
  assert (p_indexer p' = p_indexer p ∧ p_notes p' = rest ∧ p_queue p' = Add (note_key n) (p_queue p) ∧
    p_worker p' = p_worker p ∧ p_log p' = p_log p ∧ p_fate p' = p_fate p) as (E1 & E2 & E3 & E4 & E5 & E6).
  { destruct n; cbn in Hrun; [injection Hrun as <-; done.. | done]. }
  destruct (queue_Add_spec (note_key n) (p_queue p)) as (Hd & Hpr & (Hc & Hw & Hfl) & Hok).
  assert (∀ key, remembered key p → remembered key p') as Hrem.
  { intros key. unfold remembered. by rewrite E3, E4, Hc, Hw. }
  apply (loop_keeps p); [done.. | | | | |].
  - rewrite E3. by apply Hok.
  - unfold processing_of. rewrite E3, E4, Hpr. exact Hp.
  - intros key. unfold announced. rewrite E2, E3, E4, En, fmap_cons, elem_of_cons.
    intros [[->|Hx]|[Hx|Hx]]; [right; left; apply Add_added | by left | right; left; by apply Add_dirty | auto].
  - intros key [Hx|Hx]; [right; left; by apply Hrem | right; right; by rewrite E6].
  - intros key. unfold live. rewrite E3, E4. unfold failures_of. rewrite Hfl. destruct (Hf key) as [Hb Hl].
    split; [exact Hb|]. intros [Hx|[Hx|Hx]]%Hl; [left; by apply Add_dirty | auto | right; right; by apply Hrem].
Qed.

(** The two steps of [waitingLoop]. *)
Lemma loop_delayed p q :
  loop_inv p → queue_ok q → q_processing q = q_processing (p_queue p) → q_failures q = q_failures (p_queue p) →
  (∀ key, key ∈ q_dirty (p_queue p) → key ∈ q_dirty q) →
  (∀ key, key ∈ q_channel (p_queue p) ∨ key ∈ q_waiting (p_queue p) →
     key ∈ q_dirty q ∨ key ∈ q_channel q ∨ key ∈ q_waiting q) →
  loop_inv (set_p_queue (λ _, q) p).
Proof.
  intros Hinv Hok Hpr Hfl Hd Hm. pose proof Hinv as [_ Hp _ Hf].
  assert (∀ key, remembered key p → key ∈ q_dirty q ∨ remembered key (set_p_queue (λ _, q) p)) as Hrem.
  { intros key [?|[Hx|Hx]]; [by right; left | |]; unfold remembered; cbn; destruct (Hm key); auto; tauto. }
  apply (loop_keeps p); [done.. | exact Hok | | | |].
  - cbn. rewrite Hpr. exact Hp.
  - intros key [Hx|[Hx|Hx]]; [by left | right; left; by apply Hd | by right; right].
  - intros key [[Hx|Hx]%Hrem|Hx]; [left; by right; left | auto..].
  - intros key. unfold failures_of. cbn. rewrite Hfl. destruct (Hf key) as [Hb Hl]. split; [exact Hb|].
    intros [Hx|[Hx|Hx]]%Hl; [left; by apply Hd | by right; left |].
    apply Hrem in Hx as [Hx|Hx]; [by left | by right; right].
Qed.

Lemma loop_receive ready p q : loop_inv p → receive ready (p_queue p) = Some q → loop_inv (set_p_queue (λ _, q) p).
Proof.
  intros Hinv Hr. pose proof Hinv as [Hok _ _ _]. unfold receive in Hr.
  destruct (q_channel (p_queue p)) as [|k rest] eqn:Ec; [done|]. injection Hr as <-. destruct ready.
  - set (q0 := set_delayed rest (q_waiting (p_queue p)) (p_queue p)).
    destruct (queue_Add_spec k q0) as (Hd & Hpr & (Hc & Hw & Hfl) & Hok').
    apply loop_delayed; [done | by apply Hok', delayed_ok | done.. | intros key ?; by apply Add_dirty |].
    intros key. rewrite Ec, elem_of_cons, Hc, Hw, Hd. set_solver.
  - apply loop_delayed; [done | by apply delayed_ok, delayed_ok | done.. |].
    intros key. rewrite Ec, elem_of_cons. cbn. set_solver.
Qed.

Lemma loop_fire k p q : loop_inv p → fire k (p_queue p) = Some q → loop_inv (set_p_queue (λ _, q) p).
Proof.
  intros Hinv Hr. pose proof Hinv as [Hok _ _ _]. unfold fire in Hr. case_decide as Hk; [|done].
  injection Hr as <-. set (q0 := set_delayed _ _ _).
  destruct (queue_Add_spec k q0) as (Hd & Hpr & (Hc & Hw & Hfl) & Hok').
  apply loop_delayed; [done | by apply Hok', delayed_ok | done.. | intros key ?; by apply Add_dirty |].
  intros key. rewrite Hc, Hw, Hd. cbn. rewrite elem_of_union, elem_of_difference, elem_of_singleton.
  destruct (decide (key = k)); tauto.
Qed.

Lemma loop_get k p q :
  loop_inv p → p_worker p = Idle → Get (p_queue p) = Some (k, q) →
  loop_inv (set_worker (Syncing k) (set_p_queue (λ _, q) p)).
Proof.
  intros Hinv Ew Hget. pose proof Hinv as [Hok Hp He Hf].
  destruct (queue_Get_spec _ _ _ Hok Hget) as (Hk & _ & Hd & Hpr & (Hc & Hw & Hfl) & Hok').
  assert (∀ key, key ∈ q_dirty (p_queue p) → key ∈ q_dirty q ∨ Syncing k = Syncing key) as Hdirty.
  { intros key Hx. rewrite Hd. destruct (decide (key = k)) as [->|]; [by right | left; set_solver]. }
  assert (∀ key, remembered key p → remembered key (set_worker (Syncing k) (set_p_queue (λ _, q) p))) as Hrem.
  { intros key. unfold remembered. cbn. rewrite Hc, Hw, Ew. intros [[? ?]|?]; [done | by right]. }
  apply (loop_keeps p); [done.. | exact Hok' | | | |].
  - cbn. rewrite Hpr, Hp. unfold processing_of. rewrite Ew. cbn. set_solver.
  - intros key [Hx|[Hx|Hx]]; [by left | right; by apply Hdirty | by rewrite Ew in Hx].
  - intros key [Hx|Hx]; [right; left; by apply Hrem | by right; right].
  - intros key. unfold live, failures_of. cbn. rewrite Hfl. destruct (Hf key) as [Hb Hl]. split; [exact Hb|].
    intros [Hx|[Hx|Hx]]%Hl; [apply Hdirty in Hx; tauto | by rewrite Ew in Hx | right; right; by apply Hrem].
Qed.

Lemma loop_sync k p p' err :
  loop_inv p → p_worker p = Syncing k → sync k p = Ret err p' → loop_inv (set_worker (Synced k err) p').
Proof.
  intros [Hok Hp He Hf] Ew Hrun. pose proof (sync_framed k p) as Hfr. unfold post in Hfr. rewrite Hrun in Hfr.
  destruct Hfr as (E1 & E2 & E3 & E4 & E5). split.
  - cbn. by rewrite E3.
  - cbn. rewrite E3, Hp. unfold processing_of. by rewrite Ew.
  - intros key u. cbn [p_indexer set_worker]. rewrite E1. intros Hu.
    destruct (decide (key = k)) as [->|Hne].
    + right. cbn [p_log set_worker]. rewrite Hu in E5. rewrite E5, given_app, given_one, decide_True by done.
      split; [by rewrite last_snoc|]. left. left. by exists err.
    + assert (given key (p_log p') = given key (p_log p)) as Eg.
      { assert (∀ v, given key (p_log p ++ [(k, v)]) = given key (p_log p)) as Hv.
        { intros v. by rewrite given_app, given_one, decide_False, app_nil_r by done. }
        destruct (p_indexer p !! k); [|destruct E5 as [E5|[v E5]]]; rewrite E5; done. }
      unfold announced, remembered. cbn -[given]. rewrite Eg, E2, E3, E4.
      destruct (He key u Hu) as [[Hx|[Hx|Hx]]|[Hl [[[? Hx]|Hx]|Hx]]]; [auto | auto | congruence | congruence | auto..].
  - intros key. unfold remembered. cbn. rewrite E3. destruct (Hf key) as [Hb Hl]. split; [exact Hb|].
    intros [Hx|[Hx|[[? Hx]|Hx]]]%Hl; [auto | | congruence | auto].
    assert (k = key) as -> by congruence. right. right. left. by exists err.
Qed.

(** The end of processing [k]: what [handleErr] makes of the queue is [q], of the fates [fate]. *)
Lemma loop_done k err p q fate :
  loop_inv p → p_worker p = Synced k err → queue_ok q →
  q_dirty q = q_dirty (p_queue p) → q_processing q = q_processing (p_queue p) →
  (∀ key, key ∈ q_channel (p_queue p) → key ∈ q_channel q) → q_waiting q = q_waiting (p_queue p) →
  (∀ key, key ≠ k → fate !! key = p_fate p !! key ∧ failures_of key q = failures_of key (p_queue p)) →
  k ∈ q_channel q ∨ is_Some (fate !! k) →
  0 ≤ failures_of k q ≤ maxRetries ∧ (0 < failures_of k q → k ∈ q_channel q) →
  loop_inv (set_worker Idle (set_p_queue (λ _, Done k q) (set_fate (λ _, fate) p))).
Proof.
  intros Hinv Ew Hok Ed Epr Hch Ewait Hother Hk [Hfk Hfk']. pose proof Hinv as [_ Hp _ Hf].
  destruct (queue_Done_spec k q) as (Dd & Dp & (Dc & Dw & Df) & Dok).
  assert (∀ key, key ≠ k → remembered key p →
    remembered key (set_worker Idle (set_p_queue (λ _, Done k q) (set_fate (λ _, fate) p)))) as Hrem.
  { intros key Hne. unfold remembered. cbn. rewrite Dc, Dw, Ewait, Ew.
    intros [[? Hx]|[Hx|Hx]]; [congruence | right; left; by apply Hch | auto]. }
  apply (loop_keeps p); [done.. | | | | |].
  - cbn. apply Dok; [done|]. rewrite Epr, Hp. unfold processing_of. rewrite Ew. set_solver.
  - cbn. rewrite Dp, Epr, Hp. unfold processing_of. rewrite Ew. cbn. set_solver.
  - intros key [Hx|[Hx|Hx]]; [by left | right; left; cbn; by rewrite Dd, Ed | congruence].
  - intros key. destruct (decide (key = k)) as [->|Hne].
    + intros _. right. destruct Hk as [Hk|Hk]; [left; right; left; cbn; by rewrite Dc | by right].
    + intros [Hx|Hx]; [right; left; by apply Hrem | right; right; cbn]. by destruct (Hother key Hne) as [-> _].
  - intros key. unfold live, failures_of. cbn. rewrite Df. change (default 0 (q_failures q !! key)) with (failures_of key q).
    destruct (decide (key = k)) as [->|Hne].
    + split; [done|]. intros Hx%Hfk'. right. right. right. left. cbn. by rewrite Dc.
    + destruct (Hother key Hne) as [_ ->]. destruct (Hf key) as [Hb Hl]. split; [exact Hb|].
      intros [Hx|[Hx|Hx]]%Hl; [left; by rewrite Dd, Ed | congruence | right; right; by apply Hrem].
Qed.

(** The three cases of [handleErr]. *)
Definition finished_queue (bucket : Z) (key : string) (err : option error) (q : Queue) : Queue :=
  if bool_decide (is_Some err) && (failures_of key q <? maxRetries) then AddRateLimited bucket key q else Forget key q.
Definition finished_fate (key : string) (err : option error) (q : Queue) (fate : gmap string bool) : gmap string bool :=
  match err with
  | None => <[key := true]> fate
  | Some _ => if failures_of key q <? maxRetries then delete key fate else <[key := false]> fate
  end.
Lemma finish_run bucket k err p :
  0 ≤ failures_of k (p_queue p) →
  (handleErr bucket err k;; modify (set_p_queue (Done k));; modify (set_worker Idle)) p =
  Ret tt (set_worker Idle (set_p_queue (λ _, Done k (finished_queue bucket k err (p_queue p)))
    (set_fate (λ _, finished_fate k err (p_queue p) (p_fate p)) p))).
Proof.
  intros Hpos. unfold handleErr, finished_queue, finished_fate. destruct err as [e|]; [|done].
  unfold mbind, M_bind, get_state, modify, NumRequeues. rewrite Z.max_r by done.
  rewrite bool_decide_true by done. cbn [andb]. by destruct (_ <? _).
Qed.

Lemma loop_finish bucket k err p :
  loop_inv p → p_worker p = Synced k err →
  post (handleErr bucket err k;; modify (set_p_queue (Done k));; modify (set_worker Idle))
    (λ _ p', loop_inv p') (λ _, False) p.
Proof.
  intros Hinv Ew. pose proof Hinv as [Hok _ _ Hf]. destruct (Hf k) as [Hb _].
  unfold post. rewrite finish_run by lia. unfold finished_queue, finished_fate.
  assert (∀ b, loop_inv (set_worker Idle (set_p_queue (λ _, Done k (Forget k (p_queue p)))
    (set_fate (λ _, <[k := b]> (p_fate p)) p)))) as Hforget.
  { intros b. eapply (loop_done k err); try done.
    - by apply failures_ok.
    - intros key Hne. by rewrite lookup_insert_ne, failures_Forget, decide_False.
    - right. by rewrite lookup_insert_eq.
    - rewrite failures_Forget, decide_True by done. unfold maxRetries. lia. }
  destruct err as [e|]; [|apply Hforget]. rewrite bool_decide_true by done. cbn [andb].
  destruct (Z.ltb_spec (failures_of k (p_queue p)) maxRetries) as [Hlt|Hge]; [|apply Hforget].
  rewrite AddRateLimited_spec by lia. eapply (loop_done k (Some e)); try done.
  - by apply failures_ok, delayed_ok.
  - intros key ?. cbn. apply elem_of_app. by left.
  - intros key Hne. rewrite lookup_delete_ne by done. split; [done|]. unfold failures_of. cbn. by rewrite lookup_insert_ne.
  - left. cbn. apply elem_of_app. right. by left.
  - clear -Hlt Hb. set (f := failures_of k (p_queue p)) in *. clearbody f. split.
    + unfold failures_of. cbn. rewrite lookup_insert_eq. cbn. lia.
    + intros _. cbn. apply elem_of_app. right. by left.
Qed.

Lemma act_loop a p p' : act cm a p = Some (Ret tt p') → loop_inv p → loop_inv p'.
Proof.
  intros Hact Hinv. destruct a as [c| |ready|key| | |bucket|i|i i']; cbn [act] in Hact.
  - injection Hact as <-. by apply loop_watch.
  - destruct (p_notes p) as [|n rest] eqn:En; [done|]. injection Hact as Hact. by eapply loop_notify.
  - destruct (receive ready (p_queue p)) as [q|] eqn:Er; [|done]. injection Hact as <-. by eapply loop_receive.
  - destruct (fire key (p_queue p)) as [q|] eqn:Er; [|done]. injection Hact as <-. by eapply loop_fire.
  - destruct (p_worker p) eqn:Ew; [|done..]. destruct (Get (p_queue p)) as [[k q]|] eqn:Er; [|done].
    injection Hact as <-. by eapply loop_get.
  - destruct (p_worker p) as [|key|] eqn:Ew; [done| |done]. injection Hact as Hact.
    apply bind_inv in Hact as (err & p1 & Hrun & [= <-]). by eapply loop_sync.
  - destruct (p_worker p) as [| |key err] eqn:Ew; [done..|]. injection Hact as Hact.
    pose proof (loop_finish bucket key err p Hinv Ew) as Hp. unfold post in Hp. by rewrite Hact in Hp.
  - destruct (pending _ !! i) as [g|]; [|done]. injection Hact as Hact. unfold on_handler in Hact.
    destruct (run_goroutine cm g _) as [[] s|s]; [|done]. injection Hact as <-. by destruct Hinv; split.
  - destruct (pending _ !! i); [|done]. destruct (pending _ !! i'); [|done]. cbn in Hact.
    case_decide; [|done]. injection Hact as <-. by destruct Hinv; split.
Qed.

(** *** Tries *)
Definition worker_left key p : Z :=
  match p_worker p with
  | Idle => 0
  | Syncing k => 16 * one_if (key = k)
  | Synced k _ => 15 * one_if (key = k)
  end.
Definition tries_left key p : Z := queue_left key (p_queue p) + worker_left key p.
(** How many reasons there are to try [key]. *)
Definition tokens key p : Z :=
  queue_tokens key (p_queue p) +
  match p_worker p with Idle => 0 | Syncing k | Synced k _ => one_if (key = k) end.
Lemma tries_left_bounds key p : loop_inv p → 0 ≤ tries_left key p ≤ 16 * tokens key p.
Proof.
  intros [_ _ _ Hf]. destruct (Hf key) as [Hb Hl]. unfold tries_left, worker_left, tokens, queue_left, queue_tokens.
  pose proof (one_if_bounds (key ∈ q_dirty (p_queue p))). pose proof (one_if_bounds (key ∈ q_waiting (p_queue p))).
  pose proof (zlen_nonneg (filter (λ k, k = key) (q_channel (p_queue p)))).
  set (in_worker := match p_worker p with Idle => 0 | Syncing k | Synced k _ => one_if (key = k) end).
  assert (0 ≤ in_worker ≤ 1) as Hone.
  { unfold in_worker. destruct (p_worker p) as [|k|k err]; [lia | apply one_if_bounds..]. }
  assert (0 < failures_of key (p_queue p) → 0 < one_if (key ∈ q_dirty (p_queue p)) +
    zlen (filter (λ k, k = key) (q_channel (p_queue p))) + one_if (key ∈ q_waiting (p_queue p)) + in_worker) as Htok.
  { intros [Hx|[Hx|[[err Hx]|[Hx|Hx]]]]%Hl.
    - pose proof (one_if_true _ Hx). lia.
    - assert (in_worker = 1); [|lia]. unfold in_worker. rewrite Hx. by apply one_if_true.
    - assert (in_worker = 1); [|lia]. unfold in_worker. rewrite Hx. by apply one_if_true.
    - apply zlen_filter_pos in Hx. lia.
    - pose proof (one_if_true _ Hx). lia. }
  unfold maxRetries in Hb. destruct (p_worker p) as [|k|k err]; unfold in_worker in *; lia.
Qed.

(** No news of [key]: the informer neither has a notification of it nor hears of it. *)
Definition silent key (a : Action (U := U)) : Prop :=
  match a with
  | AWatch (Put u | Remove u | Vanish u) => MetaNamespaceKeyFunc u ≠ key
  | _ => True
  end.
Definition unannounced key p : Prop := key ∉ note_key <$> p_notes p.
Definition tries key p : Z := zlen (given key (p_log p)).

Lemma same_tries key p p' :
  p_log p' = p_log p → p_worker p' = p_worker p → queue_left key (p_queue p') ≤ queue_left key (p_queue p) →
  tries key p' + tries_left key p' ≤ tries key p + tries_left key p.
Proof. unfold tries, tries_left, worker_left. intros -> ->. lia. Qed.

Lemma notify_tries key n rest p p' :
  p_notes p = n :: rest → unannounced key p → notify n (set_notes (λ _, rest) p) = Ret tt p' →
  tries key p' + tries_left key p' ≤ tries key p + tries_left key p ∧ unannounced key p'.
Proof.
  unfold unannounced. intros En Hno Hrun. rewrite En, fmap_cons, not_elem_of_cons in Hno. destruct Hno as [Hne Hno].
  assert (p_queue p' = Add (note_key n) (p_queue p) ∧ p_worker p' = p_worker p ∧ p_log p' = p_log p ∧
    p_notes p' = rest) as (Eq & Ew & El & Er) by by destruct n; cbn in Hrun; [injection Hrun as <-.. | ].
  split; [|by rewrite Er]. apply same_tries; [done..|]. rewrite Eq.
  pose proof (Add_left key (note_key n) (p_queue p)) as Hle. unfold one_if in Hle. rewrite decide_False in Hle by done. lia.
Qed.

Lemma sync_tries key k p p' err :
  p_worker p = Syncing k → sync k p = Ret err p' →
  tries key (set_worker (Synced k err) p') + tries_left key (set_worker (Synced k err) p') ≤
    tries key p + tries_left key p ∧ p_notes p' = p_notes p.
Proof.
  intros Ew Hrun. pose proof (sync_framed k p) as Hfr. unfold post in Hfr. rewrite Hrun in Hfr.
  destruct Hfr as (_ & En & Eq & _ & El). split; [|done].
  assert (tries key (set_worker (Synced k err) p') ≤ tries key p + one_if (key = k)).
  { assert (∀ u, zlen (given key (p_log p ++ [(k, u)])) = tries key p + one_if (key = k)) as Hu.
    { intros u. rewrite given_app, given_one, zlen_app. unfold one_if, tries. repeat case_decide; try congruence; done. }
    unfold tries at 1. cbn [p_log set_worker]. pose proof (one_if_bounds (key = k)).
    destruct (p_indexer p !! k); [|destruct El as [El|[v El]]]; rewrite El, ?Hu; [lia| |lia]. unfold tries. lia. }
  unfold tries_left, worker_left. cbn [p_worker p_queue set_worker]. rewrite Ew, Eq. lia.
Qed.

Lemma finish_tries key bucket k err p p' :
  loop_inv p → p_worker p = Synced k err →
  (handleErr bucket err k;; modify (set_p_queue (Done k));; modify (set_worker Idle)) p = Ret tt p' →
  tries key p' + tries_left key p' ≤ tries key p + tries_left key p ∧ p_notes p' = p_notes p.
Proof.
  intros [_ _ _ Hf] Ew Hrun. destruct (Hf k) as [Hb _], (Hf key) as [Hbk _]. rewrite finish_run in Hrun by lia.
  injection Hrun as <-. split; [|done]. unfold tries, tries_left, worker_left.
  cbn [p_log p_queue p_worker set_worker set_p_queue set_fate]. rewrite Ew, Done_left. unfold finished_queue.
  unfold maxRetries in *. pose proof (one_if_bounds (key = k)). case_match.
  - rewrite AddRateLimited_left by lia. lia.
  - rewrite Forget_left. nia.
Qed.

Lemma act_tries key a p p' :
  loop_inv p → act cm a p = Some (Ret tt p') → silent key a → unannounced key p →
  tries key p' + tries_left key p' ≤ tries key p + tries_left key p ∧ unannounced key p'.
Proof.
  intros Hinv Hact Hs Hno. destruct a as [c| |ready|k| | |bucket|i|i i']; cbn [act] in Hact.
  - injection Hact as <-. split; [by destruct c|]. unfold unannounced in *.
    destruct c; cbn in *; rewrite fmap_app, elem_of_app; intros [?| ->%list_elem_of_singleton]; try done.
    apply Hs. by destruct (p_indexer p !! _).
  - destruct (p_notes p) as [|n rest] eqn:En; [done|]. injection Hact as Hact. by eapply notify_tries.
  - destruct (receive ready (p_queue p)) as [q|] eqn:Er; [|done]. injection Hact as <-. split; [|done].
    apply same_tries; [done..|]. by eapply receive_left.
  - destruct (fire k (p_queue p)) as [q|] eqn:Er; [|done]. injection Hact as <-. split; [|done].
    apply same_tries; [done..|]. by eapply fire_left.
  - destruct (p_worker p) eqn:Ew; [|done..]. destruct (Get (p_queue p)) as [[k q]|] eqn:Er; [|done].
    injection Hact as <-. split; [|done]. destruct Hinv as [Hok _ _ _].
    pose proof (Get_left key k _ _ Hok Er). unfold tries, tries_left, worker_left. cbn [p_log p_queue p_worker set_worker set_p_queue]. rewrite Ew. lia.
  - destruct (p_worker p) as [|k|] eqn:Ew; [done| |done]. injection Hact as Hact.
    apply bind_inv in Hact as (err & p1 & Hrun & [= <-]).
    destruct (sync_tries key k p p1 err Ew Hrun) as [Hle En]. split; [exact Hle|]. unfold unannounced. cbn. by rewrite En.
  - destruct (p_worker p) as [| |k err] eqn:Ew; [done..|]. injection Hact as Hact.
    destruct (finish_tries key bucket k err p p' Hinv Ew Hact) as [Hle En]. split; [exact Hle|].
    unfold unannounced. by rewrite En.
  - destruct (pending _ !! i) as [g|]; [|done]. injection Hact as Hact. unfold on_handler in Hact.
    destruct (run_goroutine cm g _) as [[] s|s]; [|done]. injection Hact as <-. split; [by apply same_tries | done].
  - destruct (pending _ !! i); [|done]. destruct (pending _ !! i'); [|done]. cbn in Hact.
    case_decide; [|done]. injection Hact as <-. split; [by apply same_tries | done].
Qed.
End loop.

(** ** Executions *)
Section executions.
Context {W : Type} `{!Cluster W} `{!GoRuntime} `{!HookRuntime W} `{!Net} {U : Type} `{!Unstructured U}.
Context (cm : ClientManager).
Implicit Types (p : Proc (W := W) (U := U)).

Lemma run_induction (I : Proc → Prop) acts p p' :
  (∀ a p1 p2, a ∈ acts → act cm a p1 = Some (Ret tt p2) → I p1 → I p2) →
  run cm acts p = Some (Ret tt p') → I p → I p'.
Proof.
  revert p. induction acts as [|a acts IH]; intros p Hstep Hrun Hp; cbn in Hrun; [by injection Hrun as <-|].
  destruct (act cm a p) as [[[] p1|p1]|] eqn:Ea; [| by case_decide | done].
  apply (IH p1); [|done|]; [intros a' p2 p3 Ha; apply Hstep; by right|]. by apply (Hstep a p p1); [left|..].
Qed.

Lemma run_crash acts p p' :
  run cm acts p = Some (Panicked p') →
  ∃ before a p1, acts = before ++ [a] ∧ run cm before p = Some (Ret tt p1) ∧ act cm a p1 = Some (Panicked p').
Proof.
  revert p. induction acts as [|a acts IH]; intros p Hrun; cbn in Hrun; [done|].
  destruct (act cm a p) as [[[] p1|p1]|] eqn:Ea; [| | done].
  - destruct (IH p1 Hrun) as (before & a' & p2 & -> & Hb & Ha). exists (a :: before), a', p2. cbn. by rewrite Ea.
  - case_decide as Hnil; [|done]. subst acts. injection Hrun as ->. by exists [], a, p.
Qed.

(** Everything the process knows was reported by the informer, under its key. *)
Definition reported (R : U → Prop) p : Prop :=
  (∀ key u, p_indexer p !! key = Some u → MetaNamespaceKeyFunc u = key ∧ R u) ∧
  (∀ key u, p_deletedObjects p !! key = Some u → MetaNamespaceKeyFunc u = key ∧ R u) ∧
  Forall (λ n, match n with OnDelete u => R u | _ => True end) (p_notes p) ∧
  (∀ key u, (key, u) ∈ p_log p → MetaNamespaceKeyFunc u = key ∧ R u).

Lemma reported_frame R p p' :
  p_indexer p' = p_indexer p → p_deletedObjects p' = p_deletedObjects p → p_notes p' = p_notes p →
  p_log p' = p_log p → reported R p → reported R p'.
Proof. unfold reported. by intros -> -> -> ->. Qed.

Lemma handle_object_reported R key u deleted p :
  MetaNamespaceKeyFunc u = key → R u → reported R p →
  post (handle_object key u deleted) (λ _ p', reported R p') (λ p', reported R p') p.
Proof.
  intros Hk HR (Hi & Hd & Hn & Hl). unfold handle_object. apply post_bind, post_modify, post_bind.
  assert (reported R (set_log (.++ [(key, u)]) p)) as Hrep.
  { split_and!; try done. intros k v. cbn. intros [?|[= -> ->]%list_elem_of_singleton]%elem_of_app; [by apply Hl | done]. }
  destruct (u_decode u) as [o|]; [|done]. apply post_ret. unfold post, on_handler.
  destruct (lift_api _ _); revert Hrep; by apply reported_frame.
Qed.

Lemma sync_reported R key p :
  reported R p → post (sync key) (λ _ p', reported R p') (λ p', reported R p') p.
Proof.
  intros Hrep. pose proof Hrep as (Hi & Hd & _). unfold sync. apply post_bind. unfold post at 1, get_state.
  destruct (p_indexer p !! key) as [u|] eqn:Ei; [destruct (Hi key u Ei); by apply handle_object_reported|].
  destruct (p_deletedObjects p !! key) as [u|] eqn:Ed; [|by apply post_ret]. apply post_bind.
  destruct (Hd key u Ed). eapply post_mono; [by apply handle_object_reported | | done]. intros err p' Hrep'.
  apply post_bind. destruct (decide (err = None)); [apply post_modify, post_ret | by apply post_ret, post_ret].
  destruct Hrep' as (Hi' & Hd' & Hn' & Hl'). split_and!; try done.
  intros k v. cbn. intros [_ ?]%lookup_delete_Some. by apply Hd'.
Qed.

Lemma act_reported R a p out :
  (∀ u, a = AWatch (Put u) ∨ a = AWatch (Remove u) → R u) → act cm a p = Some out → reported R p →
  match out with Ret _ p' | Panicked p' => reported R p' end.
Proof.
  intros HR Hact Hrep. destruct a as [c| |ready|key| | |bucket|i|i i']; cbn [act] in Hact.
  - injection Hact as <-. destruct Hrep as (Hi & Hd & Hn & Hl). destruct c as [u|u|u]; cbn;
      (split_and!; try done; cbn; [|apply Forall_app; split; [done|]; apply Forall_singleton; auto]).
    + intros k v [[<- <-]|[_ ?]]%lookup_insert_Some; [split; [done | apply HR; auto] | by apply Hi].
    + by destruct (p_indexer p !! _).
    + intros k v [_ ?]%lookup_delete_Some. by apply Hi.
    + intros k v [_ ?]%lookup_delete_Some. by apply Hi.
  - destruct (p_notes p) as [|n rest] eqn:En; [done|]. injection Hact as <-.
    destruct Hrep as (Hi & Hd & Hn & Hl). rewrite En in Hn. apply Forall_cons in Hn as [Hn Hrest].
    destruct n as [u|u v|u|k u]; cbn; split_and!; try done.
    intros k v. cbn. intros [[<- <-]|[_ ?]]%lookup_insert_Some; [done | by apply Hd].
  - destruct (receive ready (p_queue p)); [|done]. injection Hact as <-. revert Hrep. by apply reported_frame.
  - destruct (fire key (p_queue p)); [|done]. injection Hact as <-. revert Hrep. by apply reported_frame.
  - destruct (p_worker p); [|done..]. destruct (Get (p_queue p)) as [[k q]|]; [|done].
    injection Hact as <-. revert Hrep. by apply reported_frame.
  - destruct (p_worker p) as [|key|] eqn:Ew; [done| |done]. injection Hact as <-.
    change (post (err ← sync key; modify (set_worker (Synced key err))) (λ _ p', reported R p') (λ p', reported R p') p).
    apply post_bind. eapply post_mono; [by apply sync_reported | | done]. intros err p' Hrep'.
    apply post_modify. revert Hrep'. by apply reported_frame.
  - destruct (p_worker p) as [| |key err]; [done..|]. injection Hact as <-. unfold handleErr.
    destruct err as [e|]; [|revert Hrep; by apply reported_frame]. unfold mbind, M_bind, get_state, modify.
    destruct (NumRequeues key (p_queue p) <? maxRetries); revert Hrep; by apply reported_frame.
  - destruct (pending _ !! i) as [g|]; [|done]. injection Hact as <-. unfold on_handler.
    destruct (run_goroutine cm g _); revert Hrep; by apply reported_frame.
  - destruct (pending _ !! i); [|done]. destruct (pending _ !! i'); [|done]. cbn in Hact.
    case_decide; [|done]. injection Hact as <-. revert Hrep. by apply reported_frame.
Qed.
End executions.

(** ** Properties *)
Section properties.
Context {W : Type} `{!Cluster W} `{!GoRuntime} `{!HookRuntime W} `{!Net, !Env} {U : Type} `{!Unstructured U}.

Lemma serve_inv h (w : W) :
  NewHandler = Some (inl h) →
  (∀ wh, fresh_client (h_webhookClientManager h) wh ≠ None) ∧
  proc_inv (h_webhookClientManager h) (serve (U := U) h w).
Proof.
  intros Hnew. destruct NewHandler_builds as (h' & Hnew' & Hh). assert (h' = h) as -> by congruence.
  destruct Hh as (_ & _ & _ & _ & Hauth & _ & _ & Hcache & _). split.
  - intros wh. unfold fresh_client, fresh_config. rewrite Hauth.
    destruct (cc_Service _); [done|]. by destruct (url_Parse <$> cc_URL _) as [[]|].
  - split; [by apply new_cache_ok | by split].
Qed.
Lemma serve_loop h (w : W) : loop_inv (serve (U := U) h w).
Proof.
  split; [apply NewQueue_ok | done | done |]. intros key. unfold failures_of. cbn. rewrite lookup_empty. cbn.
  unfold maxRetries. lia.
Qed.

Lemma run_proc_inv h (w : W) acts (p : Proc (U := U)) :
  NewHandler = Some (inl h) → run (h_webhookClientManager h) acts (serve h w) = Some (Ret tt p) →
  proc_inv (h_webhookClientManager h) p.
Proof.
  intros Hnew Hrun. destruct (serve_inv h w Hnew) as [Hf Hinv].
  eapply (run_induction _ (proc_inv _)); [| exact Hrun | exact Hinv]. intros a p1 p2 _ Ha Hp1.
  exact (act_inv _ a p1 _ Hf Ha Hp1).
Qed.
End properties.

(** C7. All the operator ever does.  Whatever objects come and go, in whatever order informer,
    queue, worker and goroutines make their steps, whatever the API server and the webhooks answer, and even
    if the process crashes: every request it has sent either continues a sync of some job, that is to say the requests
    right before it and itself are what such a sync may send, each depending on the answers before it
    ([request_ok]); or it is one of a goroutine that such a sync may start ([goroutine_ok], [sent_by]).  All
    goroutines still running are of that kind; and the jobs are decoded from objects that the informer
    reported, each under its own key. *)
Theorem process_footprint {W} `{!Cluster W} `{!GoRuntime} `{!HookRuntime W} `{!Net, !Env} {U} `{!Unstructured U}
  h (w : W) (acts : list (Action (U := U))) out :
  NewHandler = Some (inl h) → run (h_webhookClientManager h) acts (serve h w) = Some out →
  match out with
  | Ret _ p | Panicked p =>
      (∀ before r after, trace (h_api (p_handler p)) = before ++ r :: after →
         allowed (h_webhookClientManager h) (p_log p) before r) ∧
      Forall (started (p_log p)) (pending (h_api (p_handler p))) ∧
      ∀ key u, (key, u) ∈ p_log p →
        MetaNamespaceKeyFunc u = key ∧ (AWatch (Put u) ∈ acts ∨ AWatch (Remove u) ∈ acts)
  end.
Proof.
  intros Hnew Hrun. set (R u := AWatch (Put u) ∈ acts ∨ AWatch (Remove u) ∈ acts).
  assert (∀ a u, a ∈ acts → a = AWatch (Put u) ∨ a = AWatch (Remove u) → R u) as HR.
  { intros a u Ha [->| ->]; [by left | by right]. }
  assert (reported R (serve (U := U) h w)) as Hrep0.
  { split_and!; [done..|]. intros k v Hin. by apply not_elem_of_nil in Hin. }
  destruct out as [[] p|p].
  - destruct (run_proc_inv h w acts p Hnew Hrun) as (_ & Ht & Hp). split; [by apply within_each|]. split; [exact Hp|].
    apply (run_induction (h_webhookClientManager h) (reported R) acts (serve h w) p); [|done|done].
    intros a p1 p2 Ha Hact. apply (act_reported _ R a p1 _ (λ u, HR a u Ha) Hact).
  - apply run_crash in Hrun as (before & a & p1 & -> & Hb & Ha).
    pose proof (run_proc_inv h w before p1 Hnew Hb) as Hinv1. destruct (serve_inv (U := U) h w Hnew) as [Hf _].
    destruct (act_inv _ a p1 _ Hf Ha Hinv1) as [[Ht Hp] _]. split; [by apply within_each|]. split; [exact Hp|].
    assert (a ∈ before ++ [a]) as Hina by (apply elem_of_app; right; by left).
    assert (reported R p1) as Hrep1.
    { refine (run_induction _ (reported R) before _ p1 _ Hb Hrep0).
      intros a' p2 p3 Ha' Hact. refine (act_reported _ R a' p2 _ _ Hact).
      intros u. apply HR, elem_of_app. by left. }
    apply (act_reported _ R a p1 _ (λ u, HR a u Hina) Ha Hrep1).
Qed.

(** C26. What can bring the operator down.  A step of the running process panics only when: the
    informer learns of a deletion it has missed; an object cannot be decoded; a job is not well formed; or a
    webhook server answers a notification with a response without a result. *)
Theorem process_crash {W} `{!Cluster W} `{!GoRuntime} `{!HookRuntime W} `{!Net, !Env} {U} `{!Unstructured U}
  h (w : W) (acts : list (Action (U := U))) a p p' :
  NewHandler = Some (inl h) → run (h_webhookClientManager h) acts (serve h w) = Some (Ret tt p) →
  act (h_webhookClientManager h) a p = Some (Panicked p') → crash_cause (h_webhookClientManager h) a p.
Proof.
  intros Hnew Hrun Ha. destruct (serve_inv (U := U) h w Hnew) as [Hf _].
  exact (proj2 (act_inv _ a p _ Hf Ha (run_proc_inv h w acts p Hnew Hrun))).
Qed.

(** C8. No change is missed.  In every state of the running process, for every object there is:
    a change of its key is on its way to the handler (notified, queued or taken by the worker), or the handler
    was last given exactly this version of it, and then the key is being retried, or its processing ended, with
    success or by dropping it.  The queue holds every key once, and one that is being processed not at all. *)
Theorem no_event_missed {W} `{!Cluster W} `{!GoRuntime} `{!HookRuntime W} `{!Net} {U} `{!Unstructured U}
  h (w : W) (acts : list (Action (U := U))) p :
  run (h_webhookClientManager h) acts (serve h w) = Some (Ret tt p) →
  (∀ key u, p_indexer p !! key = Some u →
     announced key p ∨
     (last (given key (p_log p)) = Some u ∧ (remembered key p ∨ is_Some (p_fate p !! key)))) ∧
  NoDup (q_queue (p_queue p)) ∧
  (∀ key, key ∈ q_queue (p_queue p) ↔ key ∈ q_dirty (p_queue p) ∧
     p_worker p ≠ Syncing key ∧ ∀ err, p_worker p ≠ Synced key err).
Proof.
  intros Hrun. assert (loop_inv p) as [[Hnd Hq] Hp He _].
  { eapply (run_induction _ loop_inv); [| exact Hrun | apply serve_loop]. intros a p1 p2 _. apply act_loop. }
  split_and!; [done..|]. intros key. rewrite Hq, Hp. unfold processing_of.
  destruct (p_worker p) as [|k|k err]; rewrite ?elem_of_singleton; [set_solver | naive_solver..].
Qed.

(** C9. Retries end.  From any state of the running process on, as long as nothing more is heard
    of a key, the handler is called for it at most sixteen times for every reason there is to process it (an entry in
    the queue, a retry that waits, the worker), whatever the outcomes; and its failure count never exceeds
    fifteen. *)
Theorem retries_bounded {W} `{!Cluster W} `{!GoRuntime} `{!HookRuntime W} `{!Net} {U} `{!Unstructured U}
  h (w : W) (acts more : list (Action (U := U))) p p' key :
  run (h_webhookClientManager h) acts (serve h w) = Some (Ret tt p) →
  run (h_webhookClientManager h) more p = Some (Ret tt p') →
  unannounced key p → Forall (silent key) more →
  tries key p' ≤ tries key p + 16 * tokens key p ∧ 0 ≤ failures_of key (p_queue p') ≤ 15.
Proof.
  intros Hrun Hmore Hno Hs. assert (loop_inv p) as Hinv.
  { eapply (run_induction _ loop_inv); [| exact Hrun | apply serve_loop]. intros a p1 p2 _. apply act_loop. }
  assert (loop_inv p' ∧ unannounced key p' ∧
    tries key p' + tries_left key p' ≤ tries key p + tries_left key p) as (Hinv' & _ & Hle).
  { eapply (run_induction _ (λ p1, loop_inv p1 ∧ unannounced key p1 ∧
      tries key p1 + tries_left key p1 ≤ tries key p + tries_left key p)); [| exact Hmore | by split_and!].
    intros a p1 p2 Ha Hact (Hinv1 & Hno1 & Hle1).
    destruct (act_tries _ key a p1 p2 Hinv1 Hact) as [Hle2 Hno2]; [by eapply Forall_forall in Ha | done |].
    split_and!; [by eapply act_loop | done | lia]. }
  split; [|apply (loop_failures _ Hinv')].
  pose proof (tries_left_bounds key p Hinv). pose proof (tries_left_bounds key p' Hinv'). lia.
Qed.

(** ** Executions on the reference cluster *)
#[local] Existing Instance plain_net.
#[local] Existing Instance pod_env.
#[local] Existing Instance in_order_runtime.

(** Jobs come as they are; those whose webhooks are no valid text cannot be decoded. *)
Definition valid_hook (wh : option Webhook) : Prop := from_option (λ wh, valid_config (wh_ClientConfig wh)) True wh.
#[local] Instance valid_hook_dec wh : Decision (valid_hook wh).
Proof. destruct wh; unfold valid_hook; apply _. Defined.
#[refine, local] Instance plain_jobs : Unstructured MXJob := {|
  u_Namespace := job_Namespace; u_Name := job_Name;
  u_decode j := if decide (valid_hook (jobspec_StartWebhook (job_Spec j)) ∧ valid_hook (jobspec_FinishWebhook (job_Spec j)))
                then Some (ObjMXJob j) else None |}.
Proof. intros u j. case_decide as Hv; [|done]. intros [= ->] wh. unfold valid_hook in Hv. intros [E|E]; rewrite E in Hv; tauto. Defined.

Definition proc_of (out : option (outcome (Proc (W := RefCluster) (U := MXJob)) ())) (otherwise : Proc) : Proc :=
  match out with Some (Ret _ p) => p | _ => otherwise end.
Definition returned (out : option (outcome (Proc (W := RefCluster) (U := MXJob)) ())) : bool :=
  match out with Some (Ret _ _) => true | _ => false end.
Lemma returned_run out p : returned out = true → out = Some (Ret tt (proc_of out p)).
Proof. by destruct out as [[[] q|q]|]. Qed.
Lemma built_new : NewHandler = Some (inl built).
Proof. destruct NewHandler_builds as (h & Hh & _). unfold built. by rewrite Hh. Qed.

(** A job is submitted; it is synchronized, and its start webhook called. *)
Definition submitted : list (Action (U := MXJob)) :=
  [AWatch (Put example_job); ANotify; AGet; ASync; AFinish 0; ARun 0].
Definition idle_process : Proc (W := RefCluster) (U := MXJob) := serve built (empty_cluster example_job).
Definition after_submitted : Proc := proc_of (run (h_webhookClientManager built) submitted idle_process) idle_process.
Lemma submitted_runs : returned (run (h_webhookClientManager built) submitted idle_process) = true.
Proof. vm_compute. reflexivity. Qed.

Lemma process_footprint_witness :
  count is_CreatePod (trace (h_api (p_handler after_submitted))) = 4%nat ∧
  (∀ before r after, trace (h_api (p_handler after_submitted)) = before ++ r :: after →
     allowed (h_webhookClientManager built) (p_log after_submitted) before r) ∧
  Forall (started (p_log after_submitted)) (pending (h_api (p_handler after_submitted))) ∧
  ∀ key u, (key, u) ∈ p_log after_submitted →
    MetaNamespaceKeyFunc u = key ∧ (AWatch (Put u) ∈ submitted ∨ AWatch (Remove u) ∈ submitted).
Proof.
  split; [vm_compute; reflexivity|].
  exact (process_footprint built (empty_cluster example_job) submitted (Ret tt after_submitted) built_new
    (returned_run _ idle_process submitted_runs)).
Defined.

Lemma no_event_missed_witness :
  last (given "default/train" (p_log after_submitted)) = Some example_job ∧
  (∀ key u, p_indexer after_submitted !! key = Some u →
     announced key after_submitted ∨
     (last (given key (p_log after_submitted)) = Some u ∧
        (remembered key after_submitted ∨ is_Some (p_fate after_submitted !! key)))) ∧
  NoDup (q_queue (p_queue after_submitted)) ∧
  (∀ key, key ∈ q_queue (p_queue after_submitted) ↔ key ∈ q_dirty (p_queue after_submitted) ∧
     p_worker after_submitted ≠ Syncing key ∧ ∀ err, p_worker after_submitted ≠ Synced key err).
Proof.
  split; [vm_compute; reflexivity|].
  exact (no_event_missed built (empty_cluster example_job) submitted after_submitted
    (returned_run _ idle_process submitted_runs)).
Defined.

(** A deletion the informer has missed. *)
Lemma process_crash_witness :
  let p := proc_of (run (h_webhookClientManager built) [AWatch (Vanish example_job)] idle_process) idle_process in
  crash_cause (h_webhookClientManager built) ANotify p.
Proof.
  cbv zeta. set (p := proc_of _ _).
  apply (process_crash built (empty_cluster example_job) [AWatch (Vanish example_job)] ANotify p
    (set_notes (λ _, []) p) built_new); [apply returned_run|]; reflexivity.
Defined.

(** The API server is away: the job is tried sixteen times, then dropped. *)
Definition offline : RefCluster :=
  mkRefCluster 100 0 [] [] [] (λ _, Some (status_error StatusReasonTimeout 504)) ok_reply.
Definition queued : list (Action (U := MXJob)) := [AWatch (Put example_job); ANotify].
Definition retrying : list (Action (U := MXJob)) :=
  concat (replicate 15 [AGet; ASync; AFinish 0; AReceive false; AFire "default/train"]) ++ [AGet; ASync; AFinish 0].
Definition offline_process : Proc (W := RefCluster) (U := MXJob) := serve built offline.
Definition after_queued : Proc := proc_of (run (h_webhookClientManager built) queued offline_process) offline_process.
Definition after_retrying : Proc := proc_of (run (h_webhookClientManager built) retrying after_queued) offline_process.

Lemma retries_bounded_witness :
  tries "default/train" after_retrying = 16 ∧ p_fate after_retrying !! "default/train" = Some false ∧
  tokens "default/train" after_queued = 1 ∧
  tries "default/train" after_retrying ≤ tries "default/train" after_queued + 16 * tokens "default/train" after_queued ∧
  0 ≤ failures_of "default/train" (p_queue after_retrying) ≤ 15.
Proof.
  split; [vm_compute; reflexivity|]. split; [vm_compute; reflexivity|]. split; [vm_compute; reflexivity|].
  apply (retries_bounded built offline queued retrying after_queued after_retrying "default/train").
  - apply returned_run. vm_compute. reflexivity.
  - apply returned_run. vm_compute. reflexivity.
  - apply (bool_decide_unpack _). vm_compute. reflexivity.
  - repeat constructor.
Defined.
